(* ===== verification/_CoqProject ===== *)
-Q . S2P
Prelude.v
GoStrings.v
Names.v
GoHash.v
GoNet.v
GoAddr.v
GoJson.v
GoAddrFacts.v
GoPath.v
GoSync.v
Lease.v
LeaseFacts.v
LeaseOps.v
LeaseProps.v
Dhcp.v
DhcpProps.v
DhcpServe.v
Registry.v
Dns.v
DnsReverse.v
DnsProps.v
DnsServe.v
Ntp.v
NtpServe.v
Tftp.v
TftpProps.v
TftpServe.v
Ldap.v
LdapProps.v
LdapWire.v
LdapServe.v
GoBase64.v
GoKeys.v
GoAsn1.v
GoTime.v
AcmeState.v
Acme.v
AcmeFacts.v
AcmeOps.v
AcmeSystem.v
AcmeSteps.v
AcmeHandlers.v
AcmeInv.v
AcmeValidate.v
AcmeProps.v
AcmeAuth.v
AcmeAuthProps.v
Pki.v
PkiProps.v
Config.v
ConfigFile.v
ConfigFacts.v
ConfigProps.v
NfsProto.v
NfsWire.v
NfsFs.v
NfsSession.v
NfsFacts.v
NfsHandles.v
NfsProps.v
NfsServe.v
Gateway.v
GatewayProps.v
GatewayServe.v
Wiring.v
WiringProps.v
CommandLine.v
Program.v
