(* ===== verification/Prelude.v ===== *)
(** * Infrastructure-in-a-Box: a verification development

    The program is one Go binary that runs the services of a small private
    network: DHCP, DNS, NTP, TFTP, LDAP, a private certificate authority with an
    ACME server, an HTTP gateway and NFS.  This library models it from the sources
    under src/internal and src/cmd/infra-box and proves what makes it correct.

    ** How the parts fit together

    The configuration (internal/config) is read once; cmd/infra-box builds every
    service from it and waits for them.  The lease manager (internal/lease) is the
    centre: DHCP commits leases to it; DNS, the ACME validator and the ACME quotas
    look leases up in it.  A DHCP client that supplies a hostname can be found by
    name in DNS at once, and can obtain a certificate for that name: acmeauth
    verifies its signed requests, acmeserver keeps its orders, acmevalidate asks
    the leased address for the HTTP-01 answer and pki signs.  The gateway carries
    ACME over HTTPS and serves the page, the root certificate and the boot files.
    LDAP, NTP, TFTP and NFS stand by themselves.

    ** Files

    Go's standard library, as far as the program uses it:
    - [Prelude]: results with early return, machine integers, big-endian bytes, a
      state monad, tactics, hint databases;
    - [GoSync]: the machines of the services, and the promises of one that can be
      stopped, as a class ([Stoppable]);
    - [GoStrings] (package strings, UTF-8, case mapping, strconv), [GoHash]
      (SHA-256), [GoNet], [GoAddr], [GoAddrFacts] (net, net/netip), [GoPath]
      (path/filepath, fs.ValidPath), [GoTime] (ParseDuration), [GoJson]
      (encoding/json), [GoBase64], [GoKeys] (public keys), [GoAsn1].

    The services:
    - [Names]: dnsname/name.go and lease/hostname.go;
    - [Lease]: lease/manager.go and lease/persistence.go, one definition per
      method, the state as a record of maps ([Lease.state]), the lease file with
      the step of a save that fails as an argument; [LeaseFacts] its invariant,
      [LeaseOps] the manager as a transition system with restarts, [LeaseProps]
      its theorems;
    - [Dhcp], [DhcpProps], [DhcpServe]: dhcpserver;
    - [Registry]: the lookups other services make, as a class with laws, and the
      lease manager as an instance; clients are proved against the class;
    - [Dns], [DnsReverse], [DnsProps], [DnsServe]: dnsserver, with the upstream as a
      function and the clock as a sequence of readings;
    - [Ntp], [NtpServe]; [Tftp], [TftpProps], [TftpServe]: ntpserver, tftpserver, a
      transfer as a function of the sequence of packets and timeouts it receives;
    - [Ldap], [LdapProps], [LdapWire], [LdapServe]: ldapserver, a connection as a
      function of the messages it receives, its replies as sequences of writes;
    - [AcmeState] (types.go, limits.go, store.go), [Acme] (accounts.go, orders.go,
      revocation.go, server.go): acmeserver; [AcmeFacts] the invariant of its
      snapshots, [AcmeOps] the additions to a snapshot, [AcmeSystem] the server as
      a transition system, [AcmeSteps] and [AcmeHandlers] what one step does,
      [AcmeInv] the invariant of reachable servers; [AcmeValidate]: acmevalidate;
      [AcmeProps] the theorems of both;
    - [AcmeAuth], [AcmeAuthProps]: acmeauth, nonces as a map and a queue, requests
      as the bytes of their JSON;
    - [Pki], [PkiProps]: pki, the CA's directory as a map from file names to files;
    - [Config] (config.go, records.go, the checks of ldap.go and nfs.go),
      [ConfigFile] (file.go, decoding and paths), [ConfigFacts] what passing the
      checks means, [ConfigProps] the theorems on [Load];
    - [NfsProto] (numbers and class of the protocol library), [NfsWire] (records
      and operations, protocol.go), [NfsFs] (filesystem.go over a log of system
      calls), [NfsSession] (sessions and connections), [NfsFacts] and [NfsHandles]
      their invariants, [NfsProps] the theorems, [NfsServe] the listener;
    - [Gateway], [GatewayProps], [GatewayServe]: gateway/server.go and boot.go;
    - [Wiring], [WiringProps]: run of cmd/infra-box/main.go, with the constructor of
      the ACME server, and the theorems on the whole program; [CommandLine]:
      config.Parse with the flags, and main; [Program]: serve of main.go over the
      machines of the seven services.

    The Serve files model Run and Serve of their packages.

    ** Modelling

    A Go string or byte slice is a list of bytes; a map is a [gmap], iterated in
    some order where the code's result does not depend on the order; times and
    durations are nanoseconds.  A method under a mutex is one function from state
    to state, an error a value of a sum type; every early return is a branch.  In
    the ACME server a handler's critical section is one function, which reads the
    clock as one instant; [challenge] has two, with the outbound validation
    between them, so other requests interleave there.  The CA and the verifier of
    requests read the clock once per call.  A write to disk takes the step that
    fails as an argument and leaves what that step leaves; temporary files are
    assumed to be removed.  NFS and boot files work over a system whose calls are
    logged, with descriptors that stay open until they are closed.

    Run and Serve of a service are a [GoSync.machine]: a partial step function over
    a record with the program counter of each goroutine, the contexts, channels,
    sockets and connections.  A label says which goroutine moves, what arrives from
    outside, or which call fails; a schedule is a sequence of labels, so theorems
    about all runs are about all interleavings.  A service's own steps are those of
    its goroutines and of the shutdown timers; progress means that one of them is
    enabled, and the length of a run is bounded by what arrives, through a measure
    ([st_work]).  Statements between two points where goroutines can meet are one
    step.  The servers of the DNS library and of net/http are known by what they
    document: when they return, and what their shutdown waits for.

    Loops over data are structural.  Fuel: the ancestors search of DNS runs with
    the number of labels of the name, the BER validator and the SAN scanner with
    the length of the input, the JSON reader with twice the length of its text
    ([GoJson.value_fuel]), the walk to an existing parent of a path with the length
    of the path ([ConfigProps.canonicalFrom_fuel]); the theorems show them to be
    enough.

    Code outside the repository is a parameter: the DHCP and DNS message
    libraries, BER packets, go-jose, X.509, PEM, elliptic curves, the NFS protocol
    engine, net/mail, net/url and bcrypt are classes, whose laws are what the
    libraries document; each theorem that needs laws has a witness with concrete
    instances.

    ** What is shown

    - Leases: exclusive addresses and names in every reachable state, recovery at
      a restart, allocation exactly when possible, quarantine of declined
      addresses, no interference between clients, lookups that agree, failed saves
      that change nothing.
    - DHCP: each packet is at most one lease operation of the client it names,
      nothing unsaved is acknowledged, identities do not collide, the hostname,
      FQDN and boot options are right.
    - DNS: authority over exactly the subnet's reverse names, wildcards at the
      closest encloser, where every answer comes from and for how long, local
      names never forwarded, upstream answers checked.
    - NTP, TFTP: shape and accuracy of replies; transfers deliver the file, in
      lock step, within the admission limits, for safe paths.
    - LDAP: exact validation of messages, exact searches, filters that see only
      published attributes, no entry without an authorised bind.
    - ACME: signatures only for names proved by the same account and still held by
      the same DHCP client; every committed snapshot reloads, and a restart resumes
      from it; no challenge is left in processing; creation quotas hold over any
      interleaving; HTTP-01 talks only to the leased host; revocations are
      authorised and published.  A verified request carries a valid signature for
      the URL by the key of its account, over an unused nonce; a nonce is accepted
      once.
    - CA: a request is signed exactly for its authorised names, with the usages,
      lifetime and issuer of the policy; the root never changes once it exists;
      handshakes get a certificate that is valid and not due for renewal.
    - NFS: read-only shares are never written, whatever a client sends; handles
      stand for the same file as long as they resolve; operations decode exactly
      as they were encoded; connections leave no file open.
    - Lifecycles: each service, once cancelled, stops by itself with its sockets,
      connections, files and goroutines gone; connections and transfers keep within
      their limits over any interleaving; DHCP traffic keeps the leases' invariant;
      DNS servers are never told to shut down before they have started.  The program
      implements the contract of serve and stops when a signal comes or a service
      ends.
    - Configuration and wiring: a configuration that loads is well formed, its
      private files are outside everything that is served, and no service refuses
      it, so that only the machine can stop the program from starting; leases stay
      clear of the addresses and names of the box; boot files stay in their
      directory; which command lines are accepted, and how the program ends.

    ** What is not modelled

    TLS, and deadlines other than the timeouts of a shutdown; HTTP handlers that
    outlast the gateway's forced close, which does not wait for them; the encoding
    of JSON replies and of the lease and ACME state files, which hold decoded
    records here; the HTML template and net/http's file server; the log adapter;
    src/ipxe, which embeds files. *)

From stdpp Require Import gmap list fin_maps sorting.
From Stdlib Require Import ZArith Lia.

#[global] Open Scope Z_scope.

(** ** Vocabulary shared by every file *)

(** Go strings and byte slices are both sequences of bytes; a byte is a [Z]
    in [0, 256). *)
Abbreviation bytes := (list Z).

(** Instants are nanoseconds since the Unix epoch, durations nanoseconds. *)
Abbreviation time := Z (only parsing).
Abbreviation duration := Z (only parsing).

(** Go's [len] as an integer. *)
Definition len {A} (l : list A) : Z := Z.of_nat (length l).

(** A Go [(value, error)] pair in which exactly one side is meaningful. *)
Inductive result (E A : Type) : Type :=
| Ok (a : A)
| Err (e : E).
Arguments Ok {E A} a.
Arguments Err {E A} e.

Declare Scope go_scope.
Delimit Scope go_scope with go.
#[global] Open Scope go_scope.

(** Early return: [x <-! c; k] runs [k] on the value of [c], or returns the
    error of [c]. *)
Notation "x <-! c ; k" :=
  (match c with Ok x => k | Err e => Err e end)
  (at level 100, c at next level, right associativity) : go_scope.

(** [guard! b else e; k]: the code's [if !b { return e }]. *)
Notation "'guard!' b 'else' e ; k" :=
  (if b then k else e)
  (at level 100, b at next level, e at next level, right associativity,
   only parsing) : go_scope.

Definition is_ok {E A} (r : result E A) : bool :=
  match r with Ok _ => true | Err _ => false end.

(** Equality of byte sequences as a boolean. *)
Definition beq (a b : bytes) : bool := bool_decide (a = b).

(** A byte sequence proper: every element fits in eight bits. *)
Definition is_byte (b : Z) : bool := (0 <=? b) && (b <? 256).
Definition wf_bytes (s : bytes) : Prop := Forall (fun b => 0 <= b < 256) s.

(** [a[i:j]] and [a[i]] with the model's default outside the range; every use
    is guarded by the code's own length test. *)
Definition slice (i j : nat) (s : bytes) : bytes := take (j - i) (drop i s).
Definition at_ (s : bytes) (i : nat) : Z := nth i s 0.

(** ** Machine integers *)

Definition u8 (z : Z) : Z := z mod 256.
Definition u16 (z : Z) : Z := z mod 2 ^ 16.
Definition u32 (z : Z) : Z := z mod 2 ^ 32.
Definition u64 (z : Z) : Z := z mod 2 ^ 64.

(** [binary.BigEndian]: the value of a byte string, and its [n]-byte form. *)
Definition be_decode (s : bytes) : Z := fold_left (fun acc b => acc * 256 + b) s 0.

Fixpoint be_encode (n : nat) (v : Z) : bytes :=
  match n with
  | O => []
  | S n' => be_encode n' (v / 256) ++ [v mod 256]
  end.

(** ** A state monad, for handlers that thread a world through many calls *)

Definition St (S A : Type) : Type := S -> A * S.
Definition st_ret {S A} (a : A) : St S A := fun s => (a, s).
Definition st_bind {S A B} (m : St S A) (k : A -> St S B) : St S B :=
  fun s => let '(a, s') := m s in k a s'.

Notation "x <-- c ;; k" := (st_bind c (fun x => k))
  (at level 100, c at next level, right associativity) : go_scope.

(** ** Tactics *)

(** Split every conjunction of boolean tests in the context. *)
Ltac bool_hyps :=
  repeat match goal with
  | H : _ && _ = true |- _ => apply andb_true_iff in H; destruct H
  | H : _ || _ = false |- _ => apply orb_false_iff in H; destruct H
  | H : negb _ = true |- _ => apply negb_true_iff in H
  | H : negb _ = false |- _ => apply negb_false_iff in H
  | H : Is_true _ |- _ => apply Is_true_true_1 in H
  | H : bool_decide _ = true |- _ => apply bool_decide_eq_true_1 in H
  | H : bool_decide _ = false |- _ => apply bool_decide_eq_false_1 in H
  | H : (_ =? _) = true |- _ => apply Z.eqb_eq in H
  | H : (_ =? _) = false |- _ => apply Z.eqb_neq in H
  | H : (_ <? _) = true |- _ => apply Z.ltb_lt in H
  | H : (_ <? _) = false |- _ => apply Z.ltb_ge in H
  | H : (_ <=? _) = true |- _ => apply Z.leb_le in H
  | H : (_ <=? _) = false |- _ => apply Z.leb_gt in H
  end.

(** Case on the scrutinee of the outermost [match] or [if] of a hypothesis. *)
Ltac case_in H :=
  match type of H with
  | context [match ?x with _ => _ end] =>
      lazymatch x with
      | context [match _ with _ => _ end] => fail
      | _ => let E := fresh "E" in destruct x eqn:E
      end
  end.

Ltac case_all H := repeat (case_in H; try discriminate H; try congruence).

(** ** Generic lemmas *)

Create HintDb go discriminated.

Lemma beq_true (a b : bytes) : beq a b = true <-> a = b.
Proof. unfold beq. apply bool_decide_eq_true. Qed.

Lemma beq_false (a b : bytes) : beq a b = false <-> a <> b.
Proof. unfold beq. apply bool_decide_eq_false. Qed.

Lemma beq_refl (a : bytes) : beq a a = true.
Proof. by apply beq_true. Qed.

Lemma len_nonneg {A} (l : list A) : 0 <= len l.
Proof. unfold len. lia. Qed.

Lemma len_app {A} (l k : list A) : len (l ++ k) = len l + len k.
Proof. unfold len. rewrite length_app. lia. Qed.

Lemma len_cons {A} (x : A) l : len (x :: l) = 1 + len l.
Proof. unfold len. simpl length. lia. Qed.

Lemma len_nil {A} : len (@nil A) = 0.
Proof. done. Qed.

Lemma len_zero_nil {A} (l : list A) : len l = 0 -> l = [].
Proof. destruct l; [done|]. rewrite len_cons. pose proof (len_nonneg l). lia. Qed.

#[export] Hint Resolve len_nonneg beq_refl : go.
Create Rewrite HintDb len.
#[export] Hint Rewrite @len_app @len_cons @len_nil : len.

Lemma length_be_encode n v : length (be_encode n v) = n.
Proof.
  revert v. induction n as [|n IH]; intros v; [done|].
  simpl. rewrite length_app, IH. simpl. lia.
Qed.

Lemma be_decode_app s b : be_decode (s ++ [b]) = be_decode s * 256 + b.
Proof. unfold be_decode. by rewrite fold_left_app. Qed.

(** Encoding a value big-endian and reading it back keeps it modulo the width. *)
Lemma be_decode_encode n v : be_decode (be_encode n v) = v mod 256 ^ Z.of_nat n.
Proof.
  revert v. induction n as [|n IH]; intros v.
  { simpl. by rewrite Z.mod_1_r. }
  simpl be_encode. rewrite be_decode_app, IH.
  rewrite Nat2Z.inj_succ, Z.pow_succ_r by lia.
  rewrite (Z.rem_mul_r v 256 (256 ^ Z.of_nat n)); lia.
Qed.

Lemma be_encode_wf n v : wf_bytes (be_encode n v).
Proof.
  revert v. induction n as [|n IH]; intros v; simpl; [constructor|].
  apply Forall_app. split; [apply IH|]. constructor; [|constructor].
  apply Z.mod_pos_bound. lia.
Qed.

Lemma be_decode_bounds s : wf_bytes s -> 0 <= be_decode s < 256 ^ len s.
Proof.
  intros Hs. induction s as [|b s IH] using rev_ind; [unfold be_decode, len; simpl; lia|].
  apply Forall_app in Hs as [Hs [Hb _]%Forall_cons].
  specialize (IH Hs). rewrite be_decode_app, len_app.
  rewrite Z.pow_add_r by apply len_nonneg.
  change (256 ^ len [b]) with 256. lia.
Qed.

(** Reading bytes big-endian and writing them back gives the same bytes. *)
Lemma be_encode_decode s : wf_bytes s -> be_encode (length s) (be_decode s) = s.
Proof.
  induction s as [|b s IH] using rev_ind; intros Hs; [done|].
  apply Forall_app in Hs as [Hs [Hb _]%Forall_cons].
  rewrite length_app, Nat.add_1_r. cbn [be_encode]. rewrite be_decode_app.
  rewrite Z.div_add_l, (Z.div_small b 256), Z.add_0_r by lia. rewrite (IH Hs). do 2 f_equal.
  rewrite Z.add_comm, Z_mod_plus_full. apply Z.mod_small. lia.
Qed.

Lemma be_decode_app2 a b : be_decode (a ++ b) = be_decode a * 256 ^ len b + be_decode b.
Proof.
  induction b as [|x b IH] using rev_ind.
  { rewrite app_nil_r. unfold len, be_decode. simpl. lia. }
  rewrite app_assoc, !be_decode_app, IH, len_app, Z.pow_add_r by apply len_nonneg.
  change (256 ^ len [x]) with 256. lia.
Qed.

Lemma be_decode_lead a b : wf_bytes b -> be_decode (a ++ b) / 256 ^ len b = be_decode a.
Proof.
  intros Hb. rewrite be_decode_app2. pose proof (be_decode_bounds b Hb).
  rewrite Z.div_add_l by (apply Z.pow_nonzero; [done|apply len_nonneg]). rewrite Z.div_small; lia.
Qed.
