(* ===== verification/GoStrings.v ===== *)
(** * The parts of Go's standard library that the program's text handling uses

    [strings], [bytes], [unicode/utf8], [unicode.ToLower], [strconv] and
    [encoding/hex], as executable functions on byte sequences, with the lemmas
    the components share.  Strings are not assumed to be valid UTF-8: decoding
    follows [utf8.DecodeRune], including its replacement of invalid bytes. *)

From stdpp Require Import gmap list strings.
From Stdlib Require Import ZArith Lia Ascii.
From S2P Require Import Prelude.

(** ** Literals *)

(** A string literal of the source. *)
Definition str (s : string) : bytes :=
  map (fun c => Z.of_N (N_of_ascii c)) (String.list_ascii_of_string s).

Definition DOT : Z := 46.
Definition HYPHEN : Z := 45.

(** ** Package strings *)

Fixpoint HasPrefix (s p : bytes) {struct p} : bool :=
  match p, s with
  | [], _ => true
  | _ :: _, [] => false
  | x :: p', y :: s' => (x =? y) && HasPrefix s' p'
  end.

Definition HasSuffix (s p : bytes) : bool := HasPrefix (rev s) (rev p).

Definition TrimPrefix (s p : bytes) : bytes :=
  if HasPrefix s p then drop (length p) s else s.

Definition TrimSuffix (s p : bytes) : bytes :=
  if HasSuffix s p then take (length s - length p) s else s.

(** [strings.CutPrefix]. *)
Definition CutPrefix (s p : bytes) : bytes * bool :=
  if HasPrefix s p then (drop (length p) s, true) else (s, false).

(** [strings.Contains] and [strings.ContainsRune] for a one-byte needle. *)
Definition ContainsByte (s : bytes) (c : Z) : bool := existsb (Z.eqb c) s.

(** [strings.Split] and [bytes.Split] for a one-byte separator: never empty. *)
Fixpoint Split (s : bytes) (sep : Z) : list bytes :=
  match s with
  | [] => [[]]
  | c :: s' =>
      let rest := Split s' sep in
      if c =? sep then [] :: rest
      else match rest with
           | [] => [[c]]
           | w :: ws => (c :: w) :: ws
           end
  end.

Fixpoint Join (ws : list bytes) (sep : bytes) : bytes :=
  match ws with
  | [] => []
  | [w] => w
  | w :: ws' => w ++ sep ++ Join ws' sep
  end.

(** [strings.ReplaceAll] of one byte by one byte. *)
Definition ReplaceByte (s : bytes) (old new : Z) : bytes :=
  map (fun c => if c =? old then new else c) s.

(** ** Package unicode/utf8 *)

Definition RuneError : Z := 65533.

(** A continuation byte within [lo, hi]. *)
Definition inr (b lo hi : Z) : bool := (lo <=? b) && (b <=? hi).

(** One step per rune: the rune and the bytes it was read from.  An invalid
    byte is read alone as [RuneError], as [utf8.DecodeRuneInString] does. *)
Fixpoint decode (s : bytes) : list (Z * bytes) :=
  match s with
  | [] => []
  | b0 :: s1 =>
      if b0 <? 128 then (b0, [b0]) :: decode s1
      else if inr b0 194 223 then
        match s1 with
        | b1 :: s2 =>
            if inr b1 128 191
            then ((b0 - 192) * 64 + (b1 - 128), [b0; b1]) :: decode s2
            else (RuneError, [b0]) :: decode s1
        | [] => [(RuneError, [b0])]
        end
      else if inr b0 224 239 then
        let lo := if b0 =? 224 then 160 else 128 in
        let hi := if b0 =? 237 then 159 else 191 in
        match s1 with
        | b1 :: b2 :: s3 =>
            if inr b1 lo hi && inr b2 128 191
            then ((b0 - 224) * 4096 + (b1 - 128) * 64 + (b2 - 128), [b0; b1; b2])
                 :: decode s3
            else (RuneError, [b0]) :: decode s1
        | _ => (RuneError, [b0]) :: decode s1
        end
      else if inr b0 240 244 then
        let lo := if b0 =? 240 then 144 else 128 in
        let hi := if b0 =? 244 then 143 else 191 in
        match s1 with
        | b1 :: b2 :: b3 :: s4 =>
            if inr b1 lo hi && inr b2 128 191 && inr b3 128 191
            then ((b0 - 240) * 262144 + (b1 - 128) * 4096 + (b2 - 128) * 64 + (b3 - 128),
                  [b0; b1; b2; b3]) :: decode s4
            else (RuneError, [b0]) :: decode s1
        | _ => (RuneError, [b0]) :: decode s1
        end
      else (RuneError, [b0]) :: decode s1
  end.

(** The runes a [for _, c := range s] loop visits. *)
Definition runes (s : bytes) : list Z := map fst (decode s).

Definition ValidString (s : bytes) : bool :=
  forallb (fun '(r, w) => negb ((r =? RuneError) && (length w =? 1)%nat)) (decode s).

(** [utf8.AppendRune] of a valid rune. *)
Definition encode_rune (r : Z) : bytes :=
  if r <? 128 then [r]
  else if r <? 2048 then [192 + r / 64; 128 + r mod 64]
  else if r <? 65536 then [224 + r / 4096; 128 + (r / 64) mod 64; 128 + r mod 64]
  else [240 + r / 262144; 128 + (r / 4096) mod 64; 128 + (r / 64) mod 64; 128 + r mod 64].

(** ** Package unicode *)

(** The simple lowercase mappings of the Unicode character database above
    ASCII: [(lo, hi, stride, delta)] maps [lo, lo + stride, ..., hi] to itself
    plus [delta]; every other rune above ASCII is its own lowercase. *)
Definition lower_ranges : list (Z * Z * Z * Z) :=
  [(192, 214, 1, 32); (216, 222, 1, 32); (256, 302, 2, 1); (304, 304, 1, -199);
   (306, 310, 2, 1); (313, 327, 2, 1); (330, 374, 2, 1); (376, 376, 1, -121);
   (377, 381, 2, 1); (385, 385, 1, 210); (386, 388, 2, 1); (390, 390, 1, 206);
   (391, 391, 1, 1); (393, 394, 1, 205); (395, 395, 1, 1); (398, 398, 1, 79);
   (399, 399, 1, 202); (400, 400, 1, 203); (401, 401, 1, 1); (403, 403, 1, 205);
   (404, 404, 1, 207); (406, 406, 1, 211); (407, 407, 1, 209); (408, 408, 1, 1);
   (412, 412, 1, 211); (413, 413, 1, 213); (415, 415, 1, 214); (416, 420, 2, 1);
   (422, 422, 1, 218); (423, 423, 1, 1); (425, 425, 1, 218); (428, 428, 1, 1);
   (430, 430, 1, 218); (431, 431, 1, 1); (433, 434, 1, 217); (435, 437, 2, 1);
   (439, 439, 1, 219); (440, 440, 1, 1); (444, 444, 1, 1); (452, 452, 1, 2);
   (453, 453, 1, 1); (455, 455, 1, 2); (456, 456, 1, 1); (458, 458, 1, 2);
   (459, 475, 2, 1); (478, 494, 2, 1); (497, 497, 1, 2); (498, 500, 2, 1);
   (502, 502, 1, -97); (503, 503, 1, -56); (504, 542, 2, 1); (544, 544, 1, -130);
   (546, 562, 2, 1); (570, 570, 1, 10795); (571, 571, 1, 1); (573, 573, 1, -163);
   (574, 574, 1, 10792); (577, 577, 1, 1); (579, 579, 1, -195); (580, 580, 1, 69);
   (581, 581, 1, 71); (582, 590, 2, 1); (880, 882, 2, 1); (886, 886, 1, 1);
   (895, 895, 1, 116); (902, 902, 1, 38); (904, 906, 1, 37); (908, 908, 1, 64);
   (910, 911, 1, 63); (913, 929, 1, 32); (931, 939, 1, 32); (975, 975, 1, 8);
   (984, 1006, 2, 1); (1012, 1012, 1, -60); (1015, 1015, 1, 1); (1017, 1017, 1, -7);
   (1018, 1018, 1, 1); (1021, 1023, 1, -130); (1024, 1039, 1, 80); (1040, 1071, 1, 32);
   (1120, 1152, 2, 1); (1162, 1214, 2, 1); (1216, 1216, 1, 15); (1217, 1229, 2, 1);
   (1232, 1326, 2, 1); (1329, 1366, 1, 48); (4256, 4293, 1, 7264);
   (4295, 4295, 1, 7264); (4301, 4301, 1, 7264); (5024, 5103, 1, 38864);
   (5104, 5109, 1, 8); (7312, 7354, 1, -3008); (7357, 7359, 1, -3008);
   (7680, 7828, 2, 1); (7838, 7838, 1, -7615); (7840, 7934, 2, 1); (7944, 7951, 1, -8);
   (7960, 7965, 1, -8); (7976, 7983, 1, -8); (7992, 7999, 1, -8); (8008, 8013, 1, -8);
   (8025, 8031, 2, -8); (8040, 8047, 1, -8); (8072, 8079, 1, -8); (8088, 8095, 1, -8);
   (8104, 8111, 1, -8); (8120, 8121, 1, -8); (8122, 8123, 1, -74); (8124, 8124, 1, -9);
   (8136, 8139, 1, -86); (8140, 8140, 1, -9); (8152, 8153, 1, -8);
   (8154, 8155, 1, -100); (8168, 8169, 1, -8); (8170, 8171, 1, -112);
   (8172, 8172, 1, -7); (8184, 8185, 1, -128); (8186, 8187, 1, -126);
   (8188, 8188, 1, -9); (8486, 8486, 1, -7517); (8490, 8490, 1, -8383);
   (8491, 8491, 1, -8262); (8498, 8498, 1, 28); (8544, 8559, 1, 16);
   (8579, 8579, 1, 1); (9398, 9423, 1, 26); (11264, 11311, 1, 48);
   (11360, 11360, 1, 1); (11362, 11362, 1, -10743); (11363, 11363, 1, -3814);
   (11364, 11364, 1, -10727); (11367, 11371, 2, 1); (11373, 11373, 1, -10780);
   (11374, 11374, 1, -10749); (11375, 11375, 1, -10783); (11376, 11376, 1, -10782);
   (11378, 11378, 1, 1); (11381, 11381, 1, 1); (11390, 11391, 1, -10815);
   (11392, 11490, 2, 1); (11499, 11501, 2, 1); (11506, 11506, 1, 1);
   (42560, 42604, 2, 1); (42624, 42650, 2, 1); (42786, 42798, 2, 1);
   (42802, 42862, 2, 1); (42873, 42875, 2, 1); (42877, 42877, 1, -35332);
   (42878, 42886, 2, 1); (42891, 42891, 1, 1); (42893, 42893, 1, -42280);
   (42896, 42898, 2, 1); (42902, 42920, 2, 1); (42922, 42922, 1, -42308);
   (42923, 42923, 1, -42319); (42924, 42924, 1, -42315); (42925, 42925, 1, -42305);
   (42926, 42926, 1, -42308); (42928, 42928, 1, -42258); (42929, 42929, 1, -42282);
   (42930, 42930, 1, -42261); (42931, 42931, 1, 928); (42932, 42946, 2, 1);
   (42948, 42948, 1, -48); (42949, 42949, 1, -42307); (42950, 42950, 1, -35384);
   (42951, 42953, 2, 1); (42960, 42960, 1, 1); (42966, 42968, 2, 1);
   (42997, 42997, 1, 1); (65313, 65338, 1, 32); (66560, 66599, 1, 40);
   (66736, 66771, 1, 40); (66928, 66938, 1, 39); (66940, 66954, 1, 39);
   (66956, 66962, 1, 39); (66964, 66965, 1, 39); (68736, 68786, 1, 64);
   (71840, 71871, 1, 32); (93760, 93791, 1, 32); (125184, 125217, 1, 34)].

Definition in_range (r : Z) (e : Z * Z * Z * Z) : bool :=
  let '(lo, hi, stride, _) := e in
  (lo <=? r) && (r <=? hi) && ((r - lo) mod stride =? 0).

(** [unicode.ToLower]. *)
Definition ToLowerRune (r : Z) : Z :=
  if r <? 128 then if inr r 65 90 then r + 32 else r
  else match find (in_range r) lower_ranges with
       | Some (_, _, _, delta) => r + delta
       | None => r
       end.

(** [unicode.IsSpace]. *)
Definition IsSpace (r : Z) : bool :=
  existsb (Z.eqb r) [9; 10; 11; 12; 13; 32; 133; 160; 5760; 8232; 8233; 8239; 8287; 12288]
  || inr r 8192 8202.

(** [strings.ToLower]: ASCII strings byte by byte, others rune by rune with
    every invalid byte replaced by the encoding of [RuneError]. *)
Definition ToLower (s : bytes) : bytes :=
  flat_map (fun r => encode_rune (ToLowerRune r)) (runes s).

(** [strings.EqualFold]: equality of the runes up to simple case folding.  A
    rune folds to its lower case, except for the lower-case letters that share
    the orbit of another and for the dotted capital I, alone in its own. *)
Definition fold_special : list (Z * Z) :=
  [(0x130, 0x130); (0xB5, 0x3BC); (0x17F, 0x73); (0x345, 0x3B9); (0x3C2, 0x3C3); (0x3D0, 0x3B2);
   (0x3D1, 0x3B8); (0x3D5, 0x3C6); (0x3D6, 0x3C0); (0x3F0, 0x3BA); (0x3F1, 0x3C1); (0x3F5, 0x3B5);
   (0x1C80, 0x432); (0x1C81, 0x434); (0x1C82, 0x43E); (0x1C83, 0x441); (0x1C84, 0x442);
   (0x1C85, 0x442); (0x1C86, 0x44A); (0x1C87, 0x463); (0x1C88, 0xA64B); (0x1E9B, 0x1E61); (0x1FBE, 0x3B9)].

Definition FoldRune (r : Z) : Z :=
  match find (fun e => e.1 =? r) fold_special with
  | Some e => e.2
  | None => ToLowerRune r
  end.

Definition EqualFold (s t : bytes) : bool :=
  bool_decide (map FoldRune (runes s) = map FoldRune (runes t)).

Fixpoint drop_spaces (ws : list (Z * bytes)) : list (Z * bytes) :=
  match ws with
  | [] => []
  | (r, w) :: ws' => if IsSpace r then drop_spaces ws' else ws
  end.

(** [strings.TrimSpace]. *)
Definition TrimSpace (s : bytes) : bytes :=
  flat_map snd (rev (drop_spaces (rev (drop_spaces (decode s))))).

(** ** Packages strconv and encoding/hex *)

Definition hex_digit (n : Z) : Z := if n <? 10 then 48 + n else 87 + n.

(** [hex.EncodeToString]. *)
Definition HexEncode (s : bytes) : bytes :=
  flat_map (fun b => [hex_digit (b / 16); hex_digit (b mod 16)]) s.

(** Decimal digits of a nonnegative number; [fuel] bounds their count. *)
Fixpoint decimal (fuel : nat) (n : Z) : bytes :=
  match fuel with
  | O => []
  | S k => if n <? 10 then [48 + n] else decimal k (n / 10) ++ [48 + n mod 10]
  end.

(** [strconv.FormatUint(n, 10)] for a 64-bit value: at most twenty digits. *)
Definition FormatUint (n : Z) : bytes := decimal 20 n.

Definition is_digit (c : Z) : bool := inr c 48 57.

Definition digits_value (s : bytes) : Z := fold_left (fun acc c => acc * 10 + (c - 48)) s 0.

(** [strconv.ParseUint(s, 10, bits)]: base ten has no prefix, sign or
    underscore; [None] is a syntax or range error. *)
Definition ParseUint (s : bytes) (bits : Z) : option Z :=
  if beq s [] then None
  else if forallb is_digit s then
    let n := digits_value s in if n <? 2 ^ bits then Some n else None
  else None.

(** ** Literals in proofs *)

(** Replace every string literal of the goal by its bytes. *)
Ltac eval_str :=
  repeat match goal with
  | |- context [str ?s] =>
      let v := eval vm_compute in (str s) in change (str s) with v
  end.
Ltac eval_str_in H :=
  repeat match type of H with
  | context [str ?s] =>
      let v := eval vm_compute in (str s) in change (str s) with v in H
  end.

(** ** Lemmas: prefixes and suffixes *)

Lemma HasPrefix_spec s p : HasPrefix s p = true <-> exists k, s = p ++ k.
Proof.
  revert s. induction p as [|x p IH]; intros s; simpl.
  { split; [|done]. intros _. by exists s. }
  destruct s as [|y s]; [split; [done|intros [k Hk]; done]|].
  rewrite andb_true_iff, Z.eqb_eq, IH. split.
  - intros [-> [k ->]]. by exists k.
  - intros [k Hk]. simplify_eq. split; [done|by exists k].
Qed.

Lemma HasPrefix_app p k : HasPrefix (p ++ k) p = true.
Proof. apply HasPrefix_spec. by exists k. Qed.

Lemma HasSuffix_spec s p : HasSuffix s p = true <-> exists k, s = k ++ p.
Proof.
  unfold HasSuffix. rewrite HasPrefix_spec. split; intros [k Hk].
  - exists (rev k). rewrite <- (rev_involutive s), Hk, rev_app_distr.
    by rewrite rev_involutive.
  - exists (rev k). by rewrite Hk, rev_app_distr.
Qed.

Lemma HasSuffix_app p k : HasSuffix (k ++ p) p = true.
Proof. apply HasSuffix_spec. by exists k. Qed.

Lemma TrimSuffix_app s p : TrimSuffix (s ++ p) p = s.
Proof.
  unfold TrimSuffix. rewrite HasSuffix_app, length_app.
  replace (length s + length p - length p)%nat with (length s) by lia.
  apply take_app_length.
Qed.

Lemma TrimSuffix_none s p : HasSuffix s p = false -> TrimSuffix s p = s.
Proof. unfold TrimSuffix. by intros ->. Qed.

(** A suffix is trimmed once, or was absent. *)
Lemma TrimSuffix_cases s p :
  (s = TrimSuffix s p ++ p) \/ (HasSuffix s p = false /\ TrimSuffix s p = s).
Proof.
  destruct (HasSuffix s p) eqn:E; [left|right; split; [done|by apply TrimSuffix_none]].
  apply HasSuffix_spec in E as [k ->]. by rewrite TrimSuffix_app.
Qed.

Lemma TrimPrefix_app s p : TrimPrefix (p ++ s) p = s.
Proof. unfold TrimPrefix. rewrite HasPrefix_app. apply drop_app_length. Qed.

Lemma ContainsByte_spec s c : ContainsByte s c = true <-> c ∈ s.
Proof.
  unfold ContainsByte. rewrite existsb_exists. split.
  - intros (x & Hx & E). apply Z.eqb_eq in E as <-. by apply list_elem_of_In.
  - intros H. exists c. rewrite <- list_elem_of_In. by rewrite Z.eqb_refl.
Qed.

Lemma ContainsByte_app a b c : ContainsByte (a ++ b) c = ContainsByte a c || ContainsByte b c.
Proof. apply existsb_app. Qed.

(** ** Lemmas: splitting and joining *)

Lemma Split_nonempty s sep : Split s sep <> [].
Proof. induction s as [|c s IH]; simpl; [done|]. destruct (c =? sep); [done|]. by destruct (Split s sep). Qed.

Lemma Split_cons_ne c s sep :
  c <> sep -> exists w ws, Split s sep = w :: ws /\ Split (c :: s) sep = (c :: w) :: ws.
Proof.
  intros Hc. simpl. apply Z.eqb_neq in Hc as ->.
  destruct (Split s sep) as [|w ws] eqn:E; [by apply Split_nonempty in E|]. by exists w, ws.
Qed.

Lemma Join_Split s sep : Join (Split s sep) [sep] = s.
Proof.
  induction s as [|c s IH]; [done|]. destruct (Z.eqb_spec c sep) as [->|Hc].
  - simpl. rewrite Z.eqb_refl. destruct (Split s sep) as [|w ws] eqn:E; [by apply Split_nonempty in E|].
    by rewrite <- IH.
  - destruct (Split_cons_ne c s sep Hc) as (w & ws & E & ->). rewrite E in IH.
    destruct ws; simpl in *; by rewrite <- IH.
Qed.

Lemma Split_no_sep s sep w : w ∈ Split s sep -> sep ∉ w.
Proof.
  revert w. induction s as [|c s IH]; intros w; simpl.
  { rewrite list_elem_of_singleton. intros ->. by apply not_elem_of_nil. }
  destruct (Z.eqb_spec c sep) as [->|Hc].
  { rewrite elem_of_cons. intros [->|Hw]; [by apply not_elem_of_nil|by apply IH]. }
  destruct (Split s sep) as [|v vs] eqn:E; [by apply Split_nonempty in E|].
  rewrite elem_of_cons. intros [->|Hw].
  - rewrite not_elem_of_cons. split; [done|]. apply IH. left.
  - apply IH. by right.
Qed.

Lemma Split_sep_app a b sep : Split (a ++ sep :: b) sep = Split a sep ++ Split b sep.
Proof.
  induction a as [|c a IH]; simpl; [by rewrite Z.eqb_refl|].
  rewrite IH. destruct (c =? sep); [done|].
  destruct (Split a sep) as [|w ws] eqn:E; [by apply Split_nonempty in E|]. done.
Qed.

Lemma Split_not_in s sep : sep ∉ s -> Split s sep = [s].
Proof.
  induction s as [|c s IH]; [done|]. rewrite not_elem_of_cons. intros [Hc Hs].
  simpl. rewrite (IH Hs). by apply not_eq_sym, Z.eqb_neq in Hc as ->.
Qed.

(** Splitting what was joined gives the words back. *)
Lemma Split_Join ws sep :
  ws <> [] -> Forall (fun w => sep ∉ w) ws -> Split (Join ws [sep]) sep = ws.
Proof.
  intros Hne Hw. induction Hw as [|w ws Hw Hws IH]; [done|]. destruct ws as [|w2 ws].
  - by apply Split_not_in.
  - change (Join (w :: w2 :: ws) [sep]) with (w ++ sep :: Join (w2 :: ws) [sep]).
    rewrite Split_sep_app, IH, Split_not_in by done. done.
Qed.

(** ** Lemmas: UTF-8 and case *)

Definition ascii (s : bytes) : Prop := Forall (fun b => b < 128) s.

(** One decoding step consumes a nonempty prefix; it reads an ASCII byte as
    itself and anything else as a rune above ASCII. *)
Lemma decode_cons b0 s1 :
  exists r w rest, decode (b0 :: s1) = (r, w) :: decode rest /\ b0 :: s1 = w ++ rest /\
    w <> [] /\ (b0 < 128 -> r = b0 /\ w = [b0]) /\ (128 <= b0 -> 128 <= r).
Proof.
  cbn [decode]. unfold inr, RuneError.
  destruct (Z.ltb_spec b0 128); [exists b0, [b0], s1; naive_solver lia|].
  repeat case_match; subst; bool_hyps;
    match goal with
    | |- exists _ _ _, (?r, ?w) :: decode ?t = _ /\ _ => exists r, w, t
    | |- exists _ _ _, [(?r, ?w)] = _ /\ _ => exists r, w, []
    end; (split_and!; [done|done|done|lia|lia]).
Qed.

(** Induction that follows [decode]. *)
Lemma decode_ind (P : bytes -> Prop) :
  P [] ->
  (forall b0 s1 r w rest, decode (b0 :: s1) = (r, w) :: decode rest ->
     b0 :: s1 = w ++ rest -> (b0 < 128 -> r = b0 /\ w = [b0]) -> (128 <= b0 -> 128 <= r) ->
     P rest -> P (b0 :: s1)) ->
  forall s, P s.
Proof.
  intros H0 Hs s. remember (length s) as n eqn:Hn. revert s Hn.
  induction n as [n IH] using lt_wf_ind. intros [|b0 s1] ->; [done|].
  destruct (decode_cons b0 s1) as (r & w & rest & Hd & Happ & Hw & Hlo & Hhi).
  eapply Hs; try done. apply (IH (length rest)); [|done].
  rewrite Happ, length_app. destruct w; [done|simpl; lia].
Qed.

Lemma decode_bytes s : flat_map snd (decode s) = s.
Proof.
  induction s as [|b0 s1 r w rest Hd Happ _ _ IH] using decode_ind; [done|].
  rewrite Hd, Happ. simpl. by rewrite IH.
Qed.

Lemma runes_ascii s : ascii s -> runes s = s.
Proof.
  unfold runes. induction 1 as [|b s Hb Hs IH]; [done|].
  simpl. apply Z.ltb_lt in Hb as ->. simpl. by rewrite IH.
Qed.

(** A string whose runes are all ASCII is ASCII. *)
Lemma runes_ascii_inv s : Forall (fun r => r < 128) (runes s) -> ascii s.
Proof.
  unfold runes, ascii. induction s as [|b0 s1 r w rest Hd Happ Hlo Hhi IH] using decode_ind; [done|].
  rewrite Hd. simpl. intros [Hr H]%Forall_cons.
  destruct (Z.lt_ge_cases b0 128) as [Hb|Hb]; [|lia].
  destruct (Hlo Hb) as [-> ->]. simplify_eq/=. constructor; auto.
Qed.

Lemma encode_rune_ascii r : r < 128 -> encode_rune r = [r].
Proof. unfold encode_rune. by intros ->%Z.ltb_lt. Qed.

Lemma encode_rune_high r : 128 <= r -> exists b, b ∈ encode_rune r /\ 128 <= b.
Proof.
  intros H. unfold encode_rune. rewrite (proj2 (Z.ltb_ge r 128)) by lia.
  repeat case_match; eexists; (split; [left|]); bool_hyps.
  - pose proof (Z.div_pos r 64). lia.
  - pose proof (Z.div_pos r 4096). lia.
  - pose proof (Z.div_pos r 262144). lia.
Qed.

Lemma ToLower_ascii s : ascii s -> ToLower s = map ToLowerRune s.
Proof.
  intros Hs. unfold ToLower. rewrite (runes_ascii s Hs).
  induction Hs as [|b s Hb Hs IH]; [done|]. simpl. rewrite IH.
  rewrite encode_rune_ascii; [done|].
  unfold ToLowerRune. rewrite (proj2 (Z.ltb_lt b 128) Hb). unfold inr.
  destruct ((65 <=? b) && (b <=? 90)) eqn:E; bool_hyps; lia.
Qed.

(** Lowercasing maps exactly two runes above ASCII into ASCII: U+0130 and the
    Kelvin sign U+212A. *)
Lemma ToLowerRune_folds r : 128 <= r -> ToLowerRune r < 128 -> r = 304 \/ r = 8490.
Proof.
  intros Hr. unfold ToLowerRune. rewrite (proj2 (Z.ltb_ge r 128)) by done.
  destruct (find (in_range r) lower_ranges) as [[[[lo hi] st] d]|] eqn:E; [|lia].
  apply find_some in E as [Hin Hr'].
  assert (Hall : forallb (fun '(lo, hi, _, d) =>
      (128 <=? lo + d) || ((lo =? hi) && ((lo =? 304) || (lo =? 8490)))) lower_ranges = true)
    by (vm_compute; reflexivity).
  rewrite forallb_forall in Hall. specialize (Hall _ Hin). simpl in Hall.
  unfold in_range in Hr'. bool_hyps.
  apply orb_true_iff in Hall as [Hd|[Hd He]%andb_true_iff]; bool_hyps; [lia|].
  apply orb_true_iff in He as [He|He]; bool_hyps; lia.
Qed.

(** ** Lemmas: numbers and hexadecimal *)

Lemma hex_digit_inj a b : 0 <= a < 16 -> 0 <= b < 16 -> hex_digit a = hex_digit b -> a = b.
Proof. unfold hex_digit. destruct (Z.ltb_spec a 10), (Z.ltb_spec b 10); lia. Qed.

Lemma hex_digit_range a : 0 <= a < 16 -> 48 <= hex_digit a <= 57 \/ 97 <= hex_digit a <= 102.
Proof. unfold hex_digit. destruct (Z.ltb_spec a 10); lia. Qed.

Lemma nibbles b : 0 <= b < 256 -> 0 <= b / 16 < 16 /\ 0 <= b mod 16 < 16.
Proof. intros Hb. split; [|apply Z.mod_pos_bound; lia]. split; [apply Z.div_pos; lia|]. apply Z.div_lt_upper_bound; lia. Qed.

Lemma HexEncode_inj a b : wf_bytes a -> wf_bytes b -> HexEncode a = HexEncode b -> a = b.
Proof.
  intros Ha. revert b. induction Ha as [|x a Hx Ha IH]; intros b Hb; destruct Hb as [|y b Hy Hb]; try done.
  change (HexEncode (x :: a)) with (hex_digit (x / 16) :: hex_digit (x mod 16) :: HexEncode a).
  change (HexEncode (y :: b)) with (hex_digit (y / 16) :: hex_digit (y mod 16) :: HexEncode b).
  intros E. injection E as E1 E2 E3. destruct (nibbles x Hx), (nibbles y Hy).
  apply hex_digit_inj in E1; [|done..]. apply hex_digit_inj in E2; [|done..].
  f_equal; [|by apply IH]. rewrite (Z.div_mod x 16), (Z.div_mod y 16) by lia. lia.
Qed.

Lemma HexEncode_range s :
  wf_bytes s -> Forall (fun c => 48 <= c <= 57 \/ 97 <= c <= 102) (HexEncode s).
Proof.
  induction 1 as [|b s Hb Hs IH]; [constructor|]. destruct (nibbles b Hb).
  change (HexEncode (b :: s)) with (hex_digit (b / 16) :: hex_digit (b mod 16) :: HexEncode s).
  constructor; [by apply hex_digit_range|]. constructor; [by apply hex_digit_range|done].
Qed.

Lemma length_HexEncode s : length (HexEncode s) = (2 * length s)%nat.
Proof. induction s as [|b s IH]; [done|]. cbn [HexEncode flat_map app length]. unfold HexEncode in IH. lia. Qed.

Lemma decimal_digits fuel n : 0 <= n -> Forall (fun c => 48 <= c <= 57) (decimal fuel n).
Proof.
  revert n. induction fuel as [|k IH]; intros n Hn; [constructor|]. cbn [decimal].
  destruct (Z.ltb_spec n 10); [repeat constructor; lia|]. apply Forall_app. split.
  - apply IH, Z.div_pos; lia.
  - repeat constructor; pose proof (Z.mod_pos_bound n 10); lia.
Qed.

Lemma decimal_value fuel n : 0 <= n < 10 ^ Z.of_nat fuel -> digits_value (decimal fuel n) = n.
Proof.
  unfold digits_value. revert n. induction fuel as [|k IH]; intros n Hn; [simpl in *; lia|].
  cbn [decimal]. destruct (Z.ltb_spec n 10); [simpl; lia|].
  rewrite Nat2Z.inj_succ, Z.pow_succ_r in Hn by lia.
  rewrite fold_left_app, IH by (split; [apply Z.div_pos; lia|apply Z.div_lt_upper_bound; lia]).
  cbn [fold_left]. pose proof (Z.div_mod n 10). lia.
Qed.

Lemma digits_value_nonneg s : forallb is_digit s = true -> 0 <= digits_value s.
Proof.
  rewrite forallb_forall. intros Hd. unfold digits_value.
  assert (H : forall acc, 0 <= acc -> 0 <= fold_left (fun acc c => acc * 10 + (c - 48)) s acc); [|by apply H].
  induction s as [|c s IH]; intros acc Ha; [done|]. simpl. apply IH; [intros x Hx; apply Hd; by right|].
  specialize (Hd c ltac:(by left)). unfold is_digit, inr in Hd. bool_hyps. lia.
Qed.

(** A parsed number is within its width. *)
Lemma ParseUint_range s bits n : ParseUint s bits = Some n -> 0 <= n < 2 ^ bits.
Proof.
  unfold ParseUint. destruct (beq s []); [done|]. destruct (forallb is_digit s) eqn:Ed; [|done]. cbv zeta.
  destruct (Z.ltb_spec (digits_value s) (2 ^ bits)); [|done]. intros E. simplify_eq.
  split; [by apply digits_value_nonneg|done].
Qed.

Lemma FormatUint_value n : 0 <= n < 2 ^ 64 -> digits_value (FormatUint n) = n.
Proof. intros Hn. apply decimal_value. lia. Qed.

Lemma FormatUint_digits n : 0 <= n -> Forall (fun c => 48 <= c <= 57) (FormatUint n).
Proof. apply decimal_digits. Qed.

Lemma FormatUint_inj a b : 0 <= a < 2 ^ 64 -> 0 <= b < 2 ^ 64 -> FormatUint a = FormatUint b -> a = b.
Proof. intros Ha Hb E. by rewrite <- (FormatUint_value a Ha), <- (FormatUint_value b Hb), E. Qed.

Lemma FormatUint_nonempty n : FormatUint n <> [].
Proof. unfold FormatUint. cbn [decimal]. destruct (n <? 10); [done|]. by intros [_ ?]%app_eq_nil. Qed.

(** Parsing what was formatted gives the number back. *)
Lemma ParseUint_FormatUint n bits : 0 <= n < 2 ^ 64 -> n < 2 ^ bits -> ParseUint (FormatUint n) bits = Some n.
Proof.
  intros Hn Hb. unfold ParseUint. rewrite (proj2 (beq_false _ _) (FormatUint_nonempty n)).
  assert (Hd : forallb is_digit (FormatUint n) = true).
  { apply forallb_forall. intros c Hc. apply list_elem_of_In in Hc.
    pose proof (proj1 (Forall_forall _ _) (FormatUint_digits n ltac:(lia)) c Hc). simpl in *.
    unfold is_digit, inr. destruct (Z.leb_spec 48 c), (Z.leb_spec c 57); simpl; lia. }
  rewrite Hd, FormatUint_value by done. cbv zeta. by apply Z.ltb_lt in Hb as ->.
Qed.

(** The first occurrence of a separator splits a string in one way only. *)
Lemma sep_unique (c : Z) a1 b1 a2 b2 :
  c ∉ a1 -> c ∉ a2 -> a1 ++ c :: b1 = a2 ++ c :: b2 -> a1 = a2 /\ b1 = b2.
Proof.
  revert a2. induction a1 as [|x a1 IH]; intros [|y a2] H1 H2 E; simpl in E; simplify_eq.
  - done.
  - exfalso. apply H2. left.
  - exfalso. apply H1. left.
  - apply not_elem_of_cons in H1 as [_ H1], H2 as [_ H2].
    match goal with E : _ = _ |- _ => destruct (IH _ H1 H2 E) as [-> ->] end. done.
Qed.
