(* ===== verification/Names.v ===== *)
(** * DNS names: packages internal/dnsname and internal/lease (hostname.go)

    The canonicalisation of configured A record names and of the hostnames DHCP
    clients supply, with the label syntax every package of the program repeats.
    Results are lowercase and fully qualified, or empty when the name is
    refused. *)

From stdpp Require Import gmap list strings.
From Stdlib Require Import ZArith Lia.
From S2P Require Import Prelude GoStrings.

(** ** Label syntax *)

(** The character test of the loops over a label: [a-z], [0-9] and [-]. *)
Definition label_rune (c : Z) : bool :=
  negb (((c <? 97) || (122 <? c)) && ((c <? 48) || (57 <? c)) && negb (c =? HYPHEN)).

(** The body of the loop over labels. *)
Definition validLabel (label : bytes) : bool :=
  negb ((len label =? 0) || (63 <? len label) || (at_ label 0 =? HYPHEN)
        || (at_ label (length label - 1) =? HYPHEN))
  && forallb label_rune (runes label).

Definition validLabels (name : bytes) : bool := forallb validLabel (Split name DOT).

(** dnsname.validHostname: no bound on the whole name. *)
Definition validHostname (name : bytes) : bool := validLabels name.

(** lease.validDNSName. *)
Definition validDNSName (name : bytes) : bool :=
  if (len name =? 0) || (253 <? len name) then false else validLabels name.

(** ** lease.NormalizeHostname *)

(** The domain as NormalizeHostname and newManager canonicalise it. *)
Definition normDomain (domain : bytes) : bytes :=
  ToLower (TrimSuffix (TrimSpace domain) [DOT]).

Definition NormalizeHostname (hostname domain : bytes) : bytes :=
  let domain := normDomain domain in
  let hostname := ToLower (TrimSuffix hostname [DOT]) in
  if negb (validDNSName domain) || negb (validDNSName hostname) then []
  else
    let qualified :=
      if negb (ContainsByte hostname DOT) then Some (hostname ++ [DOT] ++ domain)
      else if negb (HasSuffix hostname ([DOT] ++ domain)) then None
      else Some hostname in
    match qualified with
    | None => []
    | Some hostname =>
        if negb (validDNSName hostname) then [] else hostname ++ [DOT]
    end.

(** ** dnsname.NormalizeARecord *)

Definition NormalizeARecord (name domain : bytes) : bytes :=
  if existsb (fun c => 127 <? c) (runes name) then []
  else
    let domain := ToLower (TrimSuffix domain [DOT]) in
    let name := ToLower (TrimSuffix name [DOT]) in
    let name := if beq name (str "@") then domain else name in
    let name := if beq name (str "*") then str "*." ++ domain else name in
    let '(name, wildcard) := CutPrefix name (str "*.") in
    let name := if negb (beq name domain) && negb (ContainsByte name DOT)
                then name ++ [DOT] ++ domain else name in
    if negb (validHostname name) then []
    else
      let name := if (wildcard : bool) then str "*." ++ name else name in
      if 253 <? len name then [] else name ++ [DOT].

(** ** Facts about labels and names *)

(** The bytes a valid name is made of. *)
Definition name_byte (c : Z) : Prop := 97 <= c <= 122 \/ 48 <= c <= 57 \/ c = 45 \/ c = 46.

Lemma label_rune_spec c : label_rune c = true <-> 97 <= c <= 122 \/ 48 <= c <= 57 \/ c = 45.
Proof.
  unfold label_rune, HYPHEN.
  destruct (Z.ltb_spec c 97), (Z.ltb_spec 122 c), (Z.ltb_spec c 48), (Z.ltb_spec 57 c),
    (Z.eqb_spec c 45); simpl; split; intros; try done; lia.
Qed.

Lemma validLabel_runes l : validLabel l = true -> forallb label_rune l = true /\ l <> [].
Proof.
  unfold validLabel. intros [H1 H2]%andb_true_iff. bool_hyps. split.
  - rewrite <- H2. f_equal. symmetry. apply runes_ascii, runes_ascii_inv.
    apply Forall_forall. intros r Hr. rewrite forallb_forall in H2.
    apply list_elem_of_In, H2, label_rune_spec in Hr. lia.
  - intros ->. done.
Qed.

Lemma validLabels_sep_app a b :
  validLabels (a ++ [DOT] ++ b) = validLabels a && validLabels b.
Proof. unfold validLabels. simpl. by rewrite Split_sep_app, forallb_app. Qed.

Lemma validLabels_bytes s : validLabels s = true -> Forall name_byte s.
Proof.
  unfold validLabels. intros H. rewrite <- (Join_Split s DOT).
  induction (Split s DOT) as [|w ws IH]; [constructor|].
  simpl in H. apply andb_true_iff in H as [Hw Hws]. apply validLabel_runes in Hw as [Hw _].
  assert (Fw : Forall name_byte w).
  { apply Forall_forall. intros c Hc. rewrite forallb_forall in Hw.
    apply list_elem_of_In, Hw, label_rune_spec in Hc. unfold name_byte. lia. }
  specialize (IH Hws). destruct ws; [by simpl|].
  simpl. rewrite Forall_app, Forall_cons. split_and!; [done|unfold name_byte, DOT; lia|done].
Qed.

Lemma name_byte_ascii s : Forall name_byte s -> ascii s.
Proof. intros H. eapply Forall_impl; [exact H|]. unfold name_byte. lia. Qed.

Lemma ToLower_name_byte s : Forall name_byte s -> ToLower s = s.
Proof.
  intros Hs. rewrite ToLower_ascii by by apply name_byte_ascii.
  induction Hs as [|c s Hc Hs IH]; [done|]. simpl. rewrite IH. f_equal.
  unfold ToLowerRune, inr, name_byte in *.
  destruct (Z.ltb_spec c 128), (Z.leb_spec 65 c), (Z.leb_spec c 90); simpl; lia.
Qed.

Lemma validDNSName_labels s : validDNSName s = true -> validLabels s = true /\ 0 < len s <= 253.
Proof.
  unfold validDNSName. destruct ((len s =? 0) || (253 <? len s)) eqn:E; [done|].
  intros H. bool_hyps. pose proof (len_nonneg s). split; [done|lia].
Qed.

Lemma validDNSName_bytes s : validDNSName s = true -> Forall name_byte s.
Proof. intros [H _]%validDNSName_labels. by apply validLabels_bytes. Qed.

Lemma validDNSName_ToLower s : validDNSName s = true -> ToLower s = s.
Proof. intros H. by apply ToLower_name_byte, validDNSName_bytes. Qed.

(** The last label of a valid name is not empty, so no final dot is trimmed. *)
Lemma validLabels_no_final_dot s : validLabels s = true -> HasSuffix s [DOT] = false.
Proof.
  intros H. destruct (HasSuffix s [DOT]) eqn:E; [|done].
  apply HasSuffix_spec in E as [k ->].
  change [DOT] with ([DOT] ++ []) in H. rewrite validLabels_sep_app in H.
  apply andb_true_iff in H as [_ H]. done.
Qed.

Lemma TrimSuffix_validLabels s : validLabels s = true -> TrimSuffix s [DOT] = s.
Proof. intros H. by apply TrimSuffix_none, validLabels_no_final_dot. Qed.

(** A space is never a byte of a valid name. *)
Lemma name_byte_not_space c : name_byte c -> IsSpace c = false.
Proof.
  unfold name_byte, IsSpace, inr. simpl. intros H.
  repeat (match goal with |- context [?a =? ?b] => destruct (Z.eqb_spec a b); [lia|] end; simpl).
  destruct (Z.leb_spec 8192 c); [lia|done].
Qed.

Lemma decode_ascii s : ascii s -> decode s = map (fun c => (c, [c])) s.
Proof. induction 1 as [|c s Hc Hs IH]; [done|]. simpl. apply Z.ltb_lt in Hc as ->. by rewrite IH. Qed.

Lemma TrimSpace_name s : Forall name_byte s -> TrimSpace s = s.
Proof.
  intros Hs. assert (Ha := name_byte_ascii s Hs).
  assert (Hkeep : forall t, Forall name_byte t -> drop_spaces (map (fun c => (c, [c])) t) = map (fun c => (c, [c])) t).
  { intros t Ht. destruct Ht as [|c t Hc Ht]; [done|]. simpl. by rewrite name_byte_not_space. }
  unfold TrimSpace. rewrite decode_ascii, Hkeep, <- map_rev, Hkeep, map_rev, rev_involutive by
    (try done; by apply Forall_rev).
  clear. induction s as [|c s IH]; [done|]. simpl. by rewrite IH.
Qed.

Lemma normDomain_valid d : validDNSName d = true -> normDomain d = d.
Proof.
  intros H. unfold normDomain. rewrite TrimSpace_name by by apply validDNSName_bytes.
  rewrite TrimSuffix_validLabels by by apply validDNSName_labels. by apply validDNSName_ToLower.
Qed.

(** ** What a normalised hostname looks like *)

(** A canonical hostname under [domain]: valid, lowercase, below the domain,
    with its final dot. *)
Definition canonicalUnder (domain name : bytes) : Prop :=
  exists host, name = host ++ [DOT] ++ domain ++ [DOT] /\
    validDNSName (host ++ [DOT] ++ domain) = true /\ host <> [].

Lemma NormalizeHostname_canonical hostname domain :
  NormalizeHostname hostname domain <> [] ->
  canonicalUnder (normDomain domain) (NormalizeHostname hostname domain) /\
  validDNSName (normDomain domain) = true.
Proof.
  unfold NormalizeHostname. set (d := normDomain domain).
  set (h := ToLower (TrimSuffix hostname [DOT])).
  destruct (negb (validDNSName d) || negb (validDNSName h)) eqn:E; [done|]. bool_hyps.
  destruct (negb (ContainsByte h DOT)) eqn:Ec.
  - destruct (validDNSName (h ++ [DOT] ++ d)) eqn:Ev; [|done]. intros _. split; [|done].
    exists h. split; [by rewrite <- !app_assoc|]. split; [done|]. intros ->. done.
  - destruct (HasSuffix h ([DOT] ++ d)) eqn:Es; [|done]. cbn [negb].
    match goal with H : validDNSName h = true |- _ => rewrite H end. intros _. split; [|done].
    apply HasSuffix_spec in Es as [k Hk]. exists k. rewrite Hk.
    split; [by rewrite <- !app_assoc|]. rewrite <- Hk. split; [done|].
    intros ->. simpl in Hk.
    assert (Hl : validLabels h = true) by by apply validDNSName_labels.
    rewrite Hk in Hl. change (DOT :: d) with ([] ++ [DOT] ++ d) in Hl.
    rewrite validLabels_sep_app in Hl. done.
Qed.

Lemma canonical_fixed domain name :
  validDNSName domain = true -> canonicalUnder domain name ->
  NormalizeHostname name domain = name.
Proof.
  intros Hd (host & -> & Hv & Hh). unfold NormalizeHostname.
  rewrite (normDomain_valid _ Hd).
  replace (host ++ [DOT] ++ domain ++ [DOT]) with ((host ++ [DOT] ++ domain) ++ [DOT])
    by by rewrite <- !app_assoc.
  rewrite TrimSuffix_app, (validDNSName_ToLower _ Hv), Hd, Hv.
  assert (Hc : ContainsByte (host ++ [DOT] ++ domain) DOT = true).
  { apply ContainsByte_spec. set_solver. }
  rewrite Hc, HasSuffix_app. cbn [negb orb]. by rewrite Hv.
Qed.

(** ** What a normalised A record name looks like *)

(** Wildcard marker, labels and final dot of a canonical A record name. *)
Definition star (w : bool) : bytes := if w then str "*." else [].

Definition canonicalRecord (domain r : bytes) : Prop :=
  exists w name, r = star w ++ name ++ [DOT] /\ validLabels name = true /\
    (name = domain \/ ContainsByte name DOT = true) /\ len (star w ++ name) <= 253.

Lemma NormalizeARecord_canonical name domain :
  NormalizeARecord name domain <> [] ->
  canonicalRecord (ToLower (TrimSuffix domain [DOT])) (NormalizeARecord name domain).
Proof.
  unfold NormalizeARecord, validHostname. set (d := ToLower (TrimSuffix domain [DOT])).
  destruct (existsb _ _); [done|].
  set (n := if beq (if beq _ (str "@") then _ else _) (str "*") then _ else _).
  destruct (CutPrefix n (str "*.")) as [m w].
  set (q := if negb (beq m d) && negb (ContainsByte m DOT) then m ++ [DOT] ++ d else m).
  destruct (validLabels q) eqn:Ev; cbn [negb]; [|done].
  replace (if w then str "*." ++ q else q) with (star w ++ q) by by destruct w.
  destruct (Z.ltb_spec 253 (len (star w ++ q))); [done|]. intros _.
  exists w, q. split; [by rewrite <- app_assoc|]. split; [done|]. split; [|done].
  subst q. destruct (beq m d) eqn:Eb; simpl.
  - left. by apply beq_true.
  - right. destruct (ContainsByte m DOT) eqn:Ec; simpl; [done|]. apply ContainsByte_spec. set_solver.
Qed.

Lemma star_lower w s : Forall name_byte s -> ToLower (star w ++ s) = star w ++ s.
Proof.
  intros Hs. destruct w; [|by apply ToLower_name_byte].
  assert (Ha : ascii (star true ++ s)).
  { apply Forall_app. split; [repeat constructor|by apply name_byte_ascii]. }
  rewrite ToLower_ascii, map_app by done.
  assert (E := ToLower_name_byte s Hs). rewrite ToLower_ascii in E by by apply name_byte_ascii.
  by rewrite E.
Qed.

Lemma star_ascii w s : Forall name_byte s -> existsb (fun c => 127 <? c) (runes (star w ++ s ++ [DOT])) = false.
Proof.
  intros Hs. assert (Ha : ascii (star w ++ s ++ [DOT])).
  { unfold ascii. rewrite !Forall_app. split_and!; [destruct w; repeat constructor|by apply name_byte_ascii|repeat constructor]. }
  rewrite runes_ascii by done. apply not_true_is_false. rewrite existsb_exists.
  intros (c & Hc & E). apply list_elem_of_In in Hc. apply Z.ltb_lt in E.
  pose proof (proj1 (Forall_forall _ _) Ha c Hc). simpl in *. lia.
Qed.

(** A canonical name is neither of the two relative shorthands. *)
Lemma star_not_shorthand w s (c : Z) :
  Forall name_byte s -> s <> [] -> c = 64 \/ c = 42 -> beq (star w ++ s) [c] = false.
Proof.
  intros Hs Hne Hc. apply beq_false. destruct w; [destruct s; simpl; congruence|].
  simpl. intros ->. apply Forall_cons in Hs as [Hs _]. unfold name_byte in Hs. lia.
Qed.

Lemma star_cut w s : Forall name_byte s -> CutPrefix (star w ++ s) (str "*.") = (s, w).
Proof.
  intros Hs. unfold CutPrefix. destruct w; [done|]. eval_str.
  destruct Hs as [|c s Hc Hs]; [done|]. cbn [star app HasPrefix].
  destruct (Z.eqb_spec 42 c); [unfold name_byte in Hc; lia|done].
Qed.

Lemma canonicalRecord_fixed domain r :
  validDNSName domain = true -> canonicalRecord domain r -> NormalizeARecord r domain = r.
Proof.
  intros Hd (w & name & -> & Hv & Hq & Hl). assert (Hb := validLabels_bytes _ Hv).
  assert (Hne : name <> []) by by intros ->.
  unfold NormalizeARecord, validHostname. rewrite star_ascii by done.
  rewrite (TrimSuffix_validLabels domain) by by apply validDNSName_labels.
  rewrite (validDNSName_ToLower _ Hd), app_assoc, TrimSuffix_app, star_lower by done.
  change (str "@") with [64]. change (str "*") with [42]. rewrite !star_not_shorthand by auto.
  rewrite star_cut by done.
  assert (Hn : negb (beq name domain) && negb (ContainsByte name DOT) = false).
  { destruct Hq as [->| ->]; [by rewrite beq_refl|by rewrite andb_false_r]. }
  rewrite Hn, Hv. cbn [negb].
  replace (if w then str "*." ++ name else name) with (star w ++ name) by by destruct w.
  destruct (Z.ltb_spec 253 (len (star w ++ name))); [lia|done].
Qed.

(** ** Properties *)

(** A hostname normalises to itself once normalised: the form is canonical, so
    names compared after normalisation are compared as names. *)
Theorem NormalizeHostname_idempotent hostname domain :
  NormalizeHostname hostname domain <> [] ->
  NormalizeHostname (NormalizeHostname hostname domain) domain
    = NormalizeHostname hostname domain.
Proof.
  intros H. destruct (NormalizeHostname_canonical _ _ H) as [Hc Hd].
  rewrite <- (canonical_fixed _ _ Hd Hc) at 2. unfold NormalizeHostname at 1 3.
  by rewrite (normDomain_valid _ Hd).
Qed.


(** The same for configured A record names, wildcards included. *)
Theorem NormalizeARecord_idempotent name domain :
  validDNSName domain = true -> NormalizeARecord name domain <> [] ->
  NormalizeARecord (NormalizeARecord name domain) domain = NormalizeARecord name domain.
Proof.
  intros Hd H. apply (canonicalRecord_fixed _ _ Hd).
  pose proof (NormalizeARecord_canonical name domain H) as Hc.
  rewrite TrimSuffix_validLabels in Hc by by apply validDNSName_labels.
  by rewrite (validDNSName_ToLower _ Hd) in Hc.
Qed.

(** The Kelvin sign, U+212A, is lowered to the letter k before the label syntax
    is checked, so a name that is not ASCII is accepted under an ASCII one. *)
Example NormalizeHostname_kelvin :
  NormalizeHostname [226; 132; 170] (str "home.arpa") = str "k.home.arpa.".
Proof. vm_compute. reflexivity. Qed.
