(* ===== verification/GoHash.v ===== *)
(** * Package crypto/sha256

    [sha256.Sum256] on byte sequences, as FIPS 180-4 defines it, with words kept
    at 32 bits. *)

From stdpp Require Import list strings.
From Stdlib Require Import ZArith Lia.
From S2P Require Import Prelude GoStrings.

(** ** Word operations *)

Definition rotr (x n : Z) : Z := Z.lor (Z.shiftr x n) (u32 (Z.shiftl x (32 - n))).
Definition not32 (x : Z) : Z := 2 ^ 32 - 1 - x.
Definition xor3 (a b c : Z) : Z := Z.lxor a (Z.lxor b c).

Definition sha_Ch (x y z : Z) : Z := Z.lxor (Z.land x y) (Z.land (not32 x) z).
Definition sha_Maj (x y z : Z) : Z := xor3 (Z.land x y) (Z.land x z) (Z.land y z).
Definition sha_S0 (x : Z) : Z := xor3 (rotr x 2) (rotr x 13) (rotr x 22).
Definition sha_S1 (x : Z) : Z := xor3 (rotr x 6) (rotr x 11) (rotr x 25).
Definition sha_s0 (x : Z) : Z := xor3 (rotr x 7) (rotr x 18) (Z.shiftr x 3).
Definition sha_s1 (x : Z) : Z := xor3 (rotr x 17) (rotr x 19) (Z.shiftr x 10).

(** The constants of FIPS 180-4: the first 32 bits of the fractional parts of
    the roots of the first primes. *)
Definition first_primes : list Z :=
  [2; 3; 5; 7; 11; 13; 17; 19; 23; 29; 31; 37; 41; 43; 47; 53; 59; 61; 67; 71; 73; 79; 83; 89; 97;
   101; 103; 107; 109; 113; 127; 131; 137; 139; 149; 151; 157; 163; 167; 173; 179; 181; 191; 193;
   197; 199; 211; 223; 227; 229; 233; 239; 241; 251; 257; 263; 269; 271; 277; 281; 283; 293; 307; 311].

(** The largest [r] with [r ^ 3 <= n], its bits set from [2 ^ k] down. *)
Fixpoint cube_root (k : nat) (r n : Z) : Z :=
  let r' := r + 2 ^ Z.of_nat k in
  let r := if r' ^ 3 <=? n then r' else r in
  match k with O => r | S k' => cube_root k' r n end.

(** The round constants, from cube roots. *)
Definition sha_K : list Z :=
  Eval vm_compute in map (fun p => u32 (cube_root 36 0 (p * 2 ^ 96))) first_primes.

Record sha_state := mkSha { sa : Z; sb : Z; sc : Z; sd : Z; se : Z; sf : Z; sg : Z; sh : Z }.

(** The initial hash value, from square roots. *)
Definition sha_init : sha_state :=
  let root p := u32 (Z.sqrt (p * 2 ^ 64)) in
  mkSha (root 2) (root 3) (root 5) (root 7) (root 11) (root 13) (root 17) (root 19).

(** ** Blocks *)

(** The message with its final bit, zeros up to 56 modulo 64, and its length in
    bits as a 64-bit word. *)
Definition sha_pad (msg : bytes) : bytes :=
  let zeros := Z.to_nat ((55 - len msg) mod 64) in
  msg ++ [128] ++ replicate zeros 0 ++ be_encode 8 (8 * len msg).

Fixpoint sha_words (fuel : nat) (block : bytes) : list Z :=
  match fuel with
  | O => []
  | S k => be_decode (take 4 block) :: sha_words k (drop 4 block)
  end.

(** The message schedule, newest word first. *)
Fixpoint sha_extend (fuel : nat) (w : list Z) : list Z :=
  match fuel with
  | O => w
  | S k => sha_extend k (u32 (sha_s1 (nth 1 w 0) + nth 6 w 0 + sha_s0 (nth 14 w 0) + nth 15 w 0) :: w)
  end.

Definition sha_round (s : sha_state) (kw : Z * Z) : sha_state :=
  let '(mkSha a b c d e f g h) := s in
  let t1 := u32 (h + sha_S1 e + sha_Ch e f g + kw.1 + kw.2) in
  let t2 := u32 (sha_S0 a + sha_Maj a b c) in
  mkSha (u32 (t1 + t2)) a b c (u32 (d + t1)) e f g.

Definition sha_block (s : sha_state) (block : bytes) : sha_state :=
  let w := rev (sha_extend 48 (rev (sha_words 16 block))) in
  let '(mkSha a b c d e f g h) := fold_left sha_round (zip sha_K w) s in
  mkSha (u32 (sa s + a)) (u32 (sb s + b)) (u32 (sc s + c)) (u32 (sd s + d))
        (u32 (se s + e)) (u32 (sf s + f)) (u32 (sg s + g)) (u32 (sh s + h)).

Fixpoint sha_blocks (fuel : nat) (s : sha_state) (msg : bytes) : sha_state :=
  match fuel with
  | O => s
  | S k => sha_blocks k (sha_block s (take 64 msg)) (drop 64 msg)
  end.

Definition Sum256 (msg : bytes) : bytes :=
  let padded := sha_pad msg in
  let '(mkSha a b c d e f g h) := sha_blocks (length padded / 64) sha_init padded in
  flat_map (be_encode 4) [a; b; c; d; e; f; g; h].

(** ** Facts *)

Lemma length_Sum256 msg : length (Sum256 msg) = 32%nat.
Proof. unfold Sum256. by destruct (sha_blocks _ _ _). Qed.

Lemma Sum256_wf msg : wf_bytes (Sum256 msg).
Proof.
  unfold Sum256. destruct (sha_blocks _ _ _) as [a b c d e f g h].
  cbn [flat_map]. unfold wf_bytes. rewrite !Forall_app. split_and!; try apply be_encode_wf. constructor.
Qed.

(** The digests of the empty string, of "abc", and of a two-block message. *)
Example Sum256_empty :
  HexEncode (Sum256 []) = str "e3b0c44298fc1c149afbf4c8996fb92427ae41e4649b934ca495991b7852b855".
Proof. vm_compute. reflexivity. Qed.

Example Sum256_abc :
  HexEncode (Sum256 (str "abc")) = str "ba7816bf8f01cfea414140de5dae2223b00361a396177a9cb410ff61f20015ad".
Proof. vm_compute. reflexivity. Qed.

Example Sum256_two_blocks :
  HexEncode (Sum256 (str "abcdbcdecdefdefgefghfghighijhijkijkljklmklmnlmnomnopnopq"))
  = str "248d6a61d20638b8e5c026930c3e6039a33ce45964ff2167f6ecedd419db06c1".
Proof. vm_compute. reflexivity. Qed.
