(* ===== verification/GoNet.v ===== *)
(** * Package net/netip, and the parts of package net the program uses

    Addresses and prefixes as values with the comparisons and classifications
    the program applies to them. *)

From stdpp Require Import gmap list strings.
From Stdlib Require Import ZArith Lia.
From S2P Require Import Prelude GoStrings.

(** ** netip.Addr *)

(** The zero [Addr], an IPv4 address, or an IPv6 address with its zone. *)
Inductive Addr :=
| AddrNone
| Addr4 (a : Z)
| Addr6 (a : Z) (zone : bytes).

#[export] Instance Addr_eq_dec : EqDecision Addr.
Proof. solve_decision. Defined.

#[export] Instance Addr_countable : Countable Addr.
Proof.
  refine (inj_countable'
    (fun x => match x with
              | AddrNone => (0, 0, [])
              | Addr4 a => (1, a, [])
              | Addr6 a z => (2, a, z)
              end)
    (fun x => match x with
              | (1, a, _) => Addr4 a
              | (2, a, z) => Addr6 a z
              | _ => AddrNone
              end) _).
  by intros [].
Defined.

Definition addr_eqb (a b : Addr) : bool := bool_decide (a = b).

Definition IsValid (a : Addr) : bool := match a with AddrNone => false | _ => true end.
Definition Is4 (a : Addr) : bool := match a with Addr4 _ => true | _ => false end.

(** [Unmap]: an IPv4-mapped IPv6 address becomes the IPv4 address. *)
Definition Unmap (a : Addr) : Addr :=
  match a with
  | Addr6 v _ => if Z.shiftr v 32 =? 65535 then Addr4 (v mod 2 ^ 32) else a
  | _ => a
  end.

Definition BitLen (a : Addr) : Z :=
  match a with AddrNone => 0 | Addr4 _ => 32 | Addr6 _ _ => 128 end.
Definition addr_value (a : Addr) : Z :=
  match a with AddrNone => 0 | Addr4 v => v | Addr6 v _ => v end.
Definition addr_zone (a : Addr) : bytes :=
  match a with Addr6 _ z => z | _ => [] end.

Fixpoint bytes_compare (a b : bytes) : comparison :=
  match a, b with
  | [], [] => Eq
  | [], _ => Lt
  | _, [] => Gt
  | x :: a', y :: b' =>
      match Z.compare x y with Eq => bytes_compare a' b' | c => c end
  end.

(** [Addr.Compare]: by length in bits, then by value, then by zone. *)
Definition Compare (a b : Addr) : comparison :=
  match Z.compare (BitLen a) (BitLen b) with
  | Eq => match Z.compare (addr_value a) (addr_value b) with
          | Eq => bytes_compare (addr_zone a) (addr_zone b)
          | c => c
          end
  | c => c
  end.

Definition addr_leb (a b : Addr) : bool :=
  match Compare a b with Gt => false | _ => true end.

(** [Addr.Next]: the following address, or the zero [Addr] after the last. *)
Definition Next (a : Addr) : Addr :=
  match a with
  | AddrNone => AddrNone
  | Addr4 v => if v =? 2 ^ 32 - 1 then AddrNone else Addr4 (v + 1)
  | Addr6 v z => if v =? 2 ^ 128 - 1 then AddrNone else Addr6 (v + 1) z
  end.

Definition IsUnspecified (a : Addr) : bool :=
  match a with
  | Addr4 v => v =? 0
  | Addr6 v z => (v =? 0) && beq z []
  | AddrNone => false
  end.

(** The classifications below are used on IPv4 addresses only. *)
Definition octet0 (v : Z) : Z := v / 2 ^ 24.
Definition IsLoopback4 (v : Z) : bool := octet0 v =? 127.
Definition IsMulticast4 (v : Z) : bool := Z.land (octet0 v) 240 =? 224.
Definition IsLinkLocal4 (v : Z) : bool := v / 2 ^ 16 =? 169 * 256 + 254.
Definition IsGlobalUnicast4 (v : Z) : bool :=
  negb ((v =? 0) || (v =? 2 ^ 32 - 1))
  && negb (IsLoopback4 v) && negb (IsMulticast4 v) && negb (IsLinkLocal4 v).

(** [Addr.String] of an IPv4 address: four decimal octets. *)
Definition String4 (v : Z) : bytes :=
  Join (map FormatUint [v / 2 ^ 24; v / 2 ^ 16 mod 256; v / 2 ^ 8 mod 256; v mod 256]) [DOT].

(** ** netip.Prefix *)

Record Prefix := mkPrefix { p_addr : Addr; p_bits : Z }.

(** A valid prefix has between zero and [BitLen] bits and no zone. *)
Definition prefix_IsValid (p : Prefix) : bool :=
  IsValid (p_addr p) && (0 <=? p_bits p) && (p_bits p <=? BitLen (p_addr p))
  && beq (addr_zone (p_addr p)) [].

Definition Contains (p : Prefix) (a : Addr) : bool :=
  prefix_IsValid p && beq (addr_zone a) [] && IsValid a
  && (BitLen (p_addr p) =? BitLen a)
  && (Z.shiftr (Z.lxor (addr_value a) (addr_value (p_addr p))) (BitLen a - p_bits p) =? 0).

(** [Prefix.Masked]: the prefix with its host bits cleared. *)
Definition Masked (p : Prefix) : Prefix :=
  let n := BitLen (p_addr p) - p_bits p in
  let v := Z.shiftl (Z.shiftr (addr_value (p_addr p)) n) n in
  mkPrefix (match p_addr p with
            | AddrNone => AddrNone | Addr4 _ => Addr4 v | Addr6 _ _ => Addr6 v []
            end) (p_bits p).

(** ** Package net *)

(** [net.IP.To4]: [None] is the nil slice. *)
Definition To4 (ip : bytes) : option bytes :=
  if (length ip =? 4)%nat then Some ip
  else if (length ip =? 16)%nat && beq (take 10 ip) (replicate 10 0)
          && (at_ ip 10 =? 255) && (at_ ip 11 =? 255)
       then Some (drop 12 ip)
       else None.

(** [netip.AddrFromSlice]. *)
Definition AddrFromSlice (s : bytes) : option Addr :=
  if (length s =? 4)%nat then Some (Addr4 (be_decode s))
  else if (length s =? 16)%nat then Some (Addr6 (be_decode s) [])
  else None.

(** [Addr.AsSlice]. *)
Definition AsSlice (a : Addr) : bytes :=
  match a with
  | AddrNone => []
  | Addr4 v => be_encode 4 v
  | Addr6 v _ => be_encode 16 v
  end.

(** ** Facts *)

Lemma addr_eqb_true a b : addr_eqb a b = true <-> a = b.
Proof. apply bool_decide_eq_true. Qed.

Lemma addr_eqb_false a b : addr_eqb a b = false <-> a <> b.
Proof. apply bool_decide_eq_false. Qed.

Lemma Unmap_idem a : Unmap (Unmap a) = Unmap a.
Proof.
  destruct a as [|v|v z]; [done|done|]. unfold Unmap at 2 3.
  destruct (Z.shiftr v 32 =? 65535) eqn:E; [done|]. unfold Unmap. by rewrite E.
Qed.

Lemma Compare4 a b : Compare (Addr4 a) (Addr4 b) = Z.compare a b.
Proof. unfold Compare. simpl. by destruct (Z.compare a b). Qed.

Lemma addr_leb4 a b : addr_leb (Addr4 a) (Addr4 b) = (a <=? b).
Proof. unfold addr_leb. rewrite Compare4. unfold Z.leb. done. Qed.

Lemma Contains4 a bits v :
  0 <= bits <= 32 ->
  Contains (mkPrefix (Addr4 a) bits) (Addr4 v) = true <-> v / 2 ^ (32 - bits) = a / 2 ^ (32 - bits).
Proof.
  intros Hb. unfold Contains, prefix_IsValid. cbn [p_addr p_bits IsValid BitLen addr_zone addr_value].
  rewrite (proj2 (Z.leb_le 0 bits)), (proj2 (Z.leb_le bits 32)) by lia. change (beq [] []) with true.
  cbn [andb Z.eqb Pos.eqb]. rewrite Z.eqb_eq, Z.shiftr_lxor, <- !Z.shiftr_div_pow2 by lia.
  split; [apply Z.lxor_eq|intros ->; apply Z.lxor_nilpotent].
Qed.
