(* ===== verification/GoAddr.v ===== *)
(** * Parsing of addresses: net.SplitHostPort, netip.ParseAddr, strconv.Atoi

    The textual address syntax the program's configuration checks accept. *)

From stdpp Require Import list strings.
From Stdlib Require Import ZArith Lia.
From S2P Require Import Prelude GoStrings GoNet.

(** ** Searching bytes *)

(** [strings.IndexByte]: [None] is -1. *)
Fixpoint IndexByte (s : bytes) (c : Z) : option nat :=
  match s with
  | [] => None
  | x :: s' => if x =? c then Some 0%nat else option_map S (IndexByte s' c)
  end.

(** [strings.LastIndexByte]. *)
Definition LastIndexByte (s : bytes) (c : Z) : option nat :=
  match IndexByte (rev s) c with
  | None => None
  | Some i => Some (length s - 1 - i)%nat
  end.

Definition COLON : Z := 58.

(** ** strconv.Atoi *)

(** An optional sign and decimal digits within 64 bits. *)
Definition Atoi (s : bytes) : option Z :=
  let '(neg, ds) := match s with
                    | 45 :: s' => (true, s')
                    | 43 :: s' => (false, s')
                    | _ => (false, s)
                    end in
  if beq ds [] || negb (forallb is_digit ds) then None
  else
    let n := digits_value ds in
    if neg : bool then (if n <=? 2 ^ 63 then Some (- n) else None)
    else (if n <? 2 ^ 63 then Some n else None).

(** [strconv.Itoa]. *)
Definition Itoa (n : Z) : bytes := if n <? 0 then 45 :: FormatUint (- n) else FormatUint n.

(** ** net.SplitHostPort *)

Definition SplitHostPort (hostport : bytes) : option (bytes * bytes) :=
  match LastIndexByte hostport COLON with
  | None => None
  | Some i =>
      let finish host (j k : nat) :=
        if ContainsByte (drop j hostport) 91 || ContainsByte (drop k hostport) 93 then None
        else Some (host, drop (i + 1) hostport) in
      if at_ hostport 0 =? 91 then
        match IndexByte hostport 93 with
        | None => None
        | Some end_ =>
            if (end_ + 1 =? length hostport)%nat then None
            else if (end_ + 1 =? i)%nat then finish (slice 1 end_ hostport) 1%nat (end_ + 1)%nat
            else None
        end
      else
        let host := take i hostport in
        if ContainsByte host COLON then None else finish host 0%nat 0%nat
  end.

(** ** netip.ParseAddr *)

(** One octet of a dotted address: decimal, no leading zero, at most 255. *)
Definition parseOctet (s : bytes) : option Z :=
  if beq s [] || negb (forallb is_digit s) || ((1 <? len s) && (at_ s 0 =? 48)) || (3 <? len s) then None
  else let n := digits_value s in if n <=? 255 then Some n else None.

Definition parseIPv4Fields (s : bytes) : option bytes :=
  match Split s DOT with
  | [a; b; c; d] =>
      match parseOctet a, parseOctet b, parseOctet c, parseOctet d with
      | Some a, Some b, Some c, Some d => Some [a; b; c; d]
      | _, _, _, _ => None
      end
  | _ => None
  end.

Definition hex_value (c : Z) : option Z :=
  if inr c 48 57 then Some (c - 48)
  else if inr c 97 102 then Some (c - 87)
  else if inr c 65 70 then Some (c - 55)
  else None.

(** The hexadecimal digits at the start of [s]: their number and value. *)
Fixpoint hexGroup (s : bytes) (off : nat) (acc : Z) : nat * Z :=
  match s with
  | [] => (off, acc)
  | c :: s' => match hex_value c with
               | None => (off, acc)
               | Some v => hexGroup s' (S off) (acc * 16 + v)
               end
  end.

(** The loop of [parseIPv6]: the bytes read so far, the position of the
    ellipsis among them, and what is left.  Every turn but the last reads two
    bytes, so eight turns suffice. *)
Fixpoint ipv6Groups (fuel : nat) (s : bytes) (ip : bytes) (ellipsis : option nat)
    : option (bytes * option nat * bytes) :=
  match fuel with
  | O => Some (ip, ellipsis, s)
  | S k =>
      let '(off, acc) := hexGroup s 0 0 in
      if (off =? 0)%nat || (4 <? off)%nat then None
      else if (off <? length s)%nat && (at_ s off =? DOT) then
        if (match ellipsis with None => negb (length ip =? 12)%nat | Some _ => false end)
           || (12 <? length ip)%nat then None
        else match parseIPv4Fields s with
             | None => None
             | Some v4 => Some (ip ++ v4, ellipsis, [])
             end
      else
        let ip := ip ++ [acc / 256; acc mod 256] in
        let s := drop off s in
        match s with
        | [] => Some (ip, ellipsis, [])
        | c :: rest =>
            if negb (c =? COLON) then None
            else match rest with
                 | [] => None
                 | c2 :: rest2 =>
                     if c2 =? COLON then
                       match ellipsis with
                       | Some _ => None
                       | None =>
                           match rest2 with
                           | [] => Some (ip, Some (length ip), [])
                           | _ => ipv6Groups k rest2 ip (Some (length ip))
                           end
                       end
                     else ipv6Groups k rest ip ellipsis
                 end
        end
  end.

Definition parseIPv6 (input : bytes) : option Addr :=
  let '(s, zone, badZone) :=
    match IndexByte input 37 with
    | None => (input, [], false)
    | Some i => (take i input, drop (i + 1) input, beq (drop (i + 1) input) [])
    end in
  if badZone : bool then None
  else
    let '(s, ellipsis) :=
      match s with
      | 58 :: 58 :: s' => (s', Some 0%nat)
      | _ => (s, None)
      end in
    if beq s [] && bool_decide (is_Some ellipsis) then Some (Addr6 0 zone)
    else match ipv6Groups 8 s [] ellipsis with
         | None => None
         | Some (ip, ellipsis, rest) =>
             if negb (beq rest []) then None
             else if (length ip <? 16)%nat then
               match ellipsis with
               | None => None
               | Some e =>
                   let full := take e ip ++ replicate (16 - length ip) 0 ++ drop e ip in
                   Some (Addr6 (be_decode full) zone)
               end
             else match ellipsis with
                  | Some _ => None
                  | None => Some (Addr6 (be_decode ip) zone)
                  end
         end.

(** The first of '.', ':' and '%' decides the syntax. *)
Fixpoint addrSyntax (s : bytes) : option Z :=
  match s with
  | [] => None
  | c :: s' => if (c =? DOT) || (c =? COLON) || (c =? 37) then Some c else addrSyntax s'
  end.

Definition ParseAddr (s : bytes) : option Addr :=
  match addrSyntax s with
  | Some 46 => match parseIPv4Fields s with Some ip => Some (Addr4 (be_decode ip)) | None => None end
  | Some 58 => parseIPv6 s
  | _ => None
  end.

(** [netip.ParseAddrPort]. *)
Definition ParseAddrPort (s : bytes) : option (Addr * Z) :=
  match LastIndexByte s COLON with
  | None => None
  | Some i =>
      let ip := take i s in
      let port := drop (i + 1) s in
      if beq ip [] || beq port [] then None
      else
        let v6 := at_ ip 0 =? 91 in
        if v6 && ((length ip <? 2)%nat || negb (at_ ip (length ip - 1) =? 93)) then None
        else
          let ip := if v6 then slice 1 (length ip - 1) ip else ip in
          match ParseUint port 16, ParseAddr ip with
          | Some n, Some a => if Bool.eqb v6 (Is4 a) then None else Some (a, n)
          | _, _ => None
          end
  end.

(** ** Prefixes and endpoints *)

(** [netip.ParsePrefix]: no zone, and a length without sign or leading zero. *)
Definition ParsePrefix (s : bytes) : option Prefix :=
  match LastIndexByte s 47 with
  | None => None
  | Some i =>
      match ParseAddr (take i s) with
      | None => None
      | Some ip =>
          if negb (beq (addr_zone ip) []) then None
          else
            let bitsStr := drop (S i) s in
            if (1 <? len bitsStr) && ((at_ bitsStr 0 <? 49) || (57 <? at_ bitsStr 0)) then None
            else match Atoi bitsStr with
                 | None => None
                 | Some bits => if (bits <? 0) || (BitLen ip <? bits) then None else Some (mkPrefix ip bits)
                 end
      end
  end.

(** [net.JoinHostPort]. *)
Definition JoinHostPort (host port : bytes) : bytes :=
  if ContainsByte host COLON then [91] ++ host ++ [93; COLON] ++ port else host ++ [COLON] ++ port.

(** ** Classification of any address *)

(** [IsLoopback] and [IsMulticast]. *)
Definition IsLoopback (a : Addr) : bool :=
  match a with
  | Addr4 v => IsLoopback4 v
  | Addr6 v _ => if Z.shiftr v 32 =? 65535 then IsLoopback4 (v mod 2 ^ 32) else v =? 1
  | AddrNone => false
  end.

Definition IsMulticast (a : Addr) : bool :=
  match a with
  | Addr4 v => IsMulticast4 v
  | Addr6 v _ => if Z.shiftr v 32 =? 65535 then IsMulticast4 (v mod 2 ^ 32) else Z.shiftr v 120 =? 255
  | AddrNone => false
  end.

Definition IsLinkLocalUnicast (a : Addr) : bool :=
  match a with
  | Addr4 v => IsLinkLocal4 v
  | Addr6 v _ => if Z.shiftr v 32 =? 65535 then IsLinkLocal4 (v mod 2 ^ 32)
                 else Z.land (Z.shiftr v 112) 0xffc0 =? 0xfe80
  | AddrNone => false
  end.

Definition IsGlobalUnicast (a : Addr) : bool :=
  match a with
  | AddrNone => false
  | Addr4 v => IsGlobalUnicast4 v
  | Addr6 _ _ => negb (addr_eqb a (Addr6 0 [])) && negb (IsLoopback a) && negb (IsMulticast a)
                 && negb (IsLinkLocalUnicast a)
  end.

(** ** Examples *)

Example ParseAddr_v4 : ParseAddr (str "10.0.0.255") = Some (Addr4 (10 * 2 ^ 24 + 255)).
Proof. vm_compute. reflexivity. Qed.
Example ParseAddr_v4_bad : map ParseAddr [str "10.0.0"; str "10.0.0.256"; str "010.0.0.1"; str "1..2.3"; str ""]
  = [None; None; None; None; None].
Proof. vm_compute. reflexivity. Qed.
Example ParseAddr_v6 :
  map ParseAddr [str "::1"; str "fe80::1%eth0"; str "::ffff:10.0.0.1"; str "1:2:3:4:5:6:7:8"; str "::"]
  = [Some (Addr6 1 []); Some (Addr6 (0xfe80 * 2 ^ 112 + 1) (str "eth0"));
     Some (Addr6 (0xffff * 2 ^ 32 + 10 * 2 ^ 24 + 1) []);
     Some (Addr6 0x00010002000300040005000600070008 []); Some (Addr6 0 [])].
Proof. vm_compute. reflexivity. Qed.
Example ParseAddr_v6_bad :
  map ParseAddr [str ":1"; str "1::2::3"; str "1:2:3:4:5:6:7:8:9"; str "1:2:3:4:5:6:7"; str "12345::"; str "::1%"; str "1:"]
  = [None; None; None; None; None; None; None].
Proof. vm_compute. reflexivity. Qed.
Example SplitHostPort_ok :
  map SplitHostPort [str "1.1.1.1:53"; str ":53"; str "[::1]:53"; str "a"; str "::1:53"; str "[::1]53"; str "[a]b]:1"]
  = [Some (str "1.1.1.1", str "53"); Some ([], str "53"); Some (str "::1", str "53"); None; None; None; None].
Proof. vm_compute. reflexivity. Qed.
Example ParseAddrPort_ok :
  map ParseAddrPort [str "10.0.0.1:69"; str "[::1]:69"; str "::1:69"; str "10.0.0.1"; str ":69"; str "10.0.0.1:70000"]
  = [Some (Addr4 (10 * 2 ^ 24 + 1), 69); Some (Addr6 1 [], 69); None; None; None; None].
Proof. vm_compute. reflexivity. Qed.
