(* ===== verification/GoJson.v ===== *)
(** * encoding/json: reading

    The grammar encoding/json accepts, as an executable reader: white space,
    literals, numbers, strings with their escapes, arrays and objects, nested at
    most 10000 deep.  Members of an object keep their order and repetitions, a
    number keeps its literal, and a string the text between its quotes, which
    [unquote] decodes the way json.Unmarshal does, with surrogate pairs joined and
    anything that is not UTF-8 replaced. *)

From stdpp Require Import gmap list strings.
From Stdlib Require Import ZArith Lia.
From S2P Require Import Prelude GoStrings GoNet GoAddr.

#[warnings="-register-all"]
Inductive json :=
| JNull | JBool (b : bool) | JNum (literal : bytes) | JStr (raw : bytes)
| JArr (l : list json) | JObj (l : list (bytes * json)).

(** ** Characters *)

Definition isJSONSpace (c : Z) : bool := (c =? 32) || (c =? 9) || (c =? 10) || (c =? 13).

Fixpoint skipSpace (s : bytes) : bytes :=
  match s with
  | c :: r => if isJSONSpace c then skipSpace r else s
  | [] => []
  end.

Definition hexDigit (c : Z) : option Z :=
  if inr c 48 57 then Some (c - 48) else if inr c 97 102 then Some (c - 87)
  else if inr c 65 70 then Some (c - 55) else None.

(** ** Strings *)

(** The characters after an opening quote, up to the closing one: the raw
    contents and what follows. *)
Fixpoint scanString (s : bytes) : option (bytes * bytes) :=
  match s with
  | [] => None
  | c :: r =>
      if c =? 34 then Some ([], r)
      else if c <? 32 then None
      else if c =? 92 then
        match r with
        | e :: r' =>
            if existsb (Z.eqb e) [98; 102; 110; 114; 116; 92; 47; 34] then
              match scanString r' with Some (t, k) => Some (c :: e :: t, k) | None => None end
            else if e =? 117 then
              match r' with
              | h1 :: h2 :: h3 :: h4 :: r4 =>
                  match hexDigit h1, hexDigit h2, hexDigit h3, hexDigit h4, scanString r4 with
                  | Some _, Some _, Some _, Some _, Some (t, k) => Some (c :: e :: h1 :: h2 :: h3 :: h4 :: t, k)
                  | _, _, _, _, _ => None
                  end
              | _ => None
              end
            else None
        | [] => None
        end
      else match scanString r with Some (t, k) => Some (c :: t, k) | None => None end
  end.

(** The value of four hexadecimal digits. *)
Definition hex4 (a b c d : Z) : Z :=
  let h x := default 0 (hexDigit x) in h a * 4096 + h b * 256 + h c * 16 + h d.

Definition isSurrogate (r : Z) : bool := inr r 55296 57343.

(** [utf16.DecodeRune]. *)
Definition DecodeRune16 (r1 r2 : Z) : Z :=
  if inr r1 55296 56319 && inr r2 56320 57343 then (r1 - 55296) * 1024 + (r2 - 56320) + 65536 else RuneError.

Definition escaped (e : Z) : Z :=
  if e =? 98 then 8 else if e =? 102 then 12 else if e =? 110 then 10 else if e =? 114 then 13
  else if e =? 116 then 9 else e.

(** [unquote], on the runes of the raw contents. *)
Fixpoint unquoteRunes (s : list Z) : bytes :=
  match s with
  | [] => []
  | c :: r =>
      if c =? 92 then
        match r with
        | e :: r1 =>
            if e =? 117 then
              match r1 with
              | h1 :: h2 :: h3 :: h4 :: r2 =>
                  let rr := hex4 h1 h2 h3 h4 in
                  if isSurrogate rr then
                    match r2 with
                    | b :: u :: g1 :: g2 :: g3 :: g4 :: r3 =>
                        let dec := DecodeRune16 rr (hex4 g1 g2 g3 g4) in
                        if (b =? 92) && (u =? 117) && negb (dec =? RuneError)
                        then encode_rune dec ++ unquoteRunes r3
                        else encode_rune RuneError ++ unquoteRunes r2
                    | _ => encode_rune RuneError ++ unquoteRunes r2
                    end
                  else encode_rune rr ++ unquoteRunes r2
              | _ => []
              end
            else escaped e :: unquoteRunes r1
        | [] => []
        end
      else encode_rune c ++ unquoteRunes r
  end.

Definition unquote (raw : bytes) : bytes := unquoteRunes (runes raw).

(** ** Numbers and literals *)

Fixpoint scanDigits (s : bytes) : bytes * bytes :=
  match s with
  | c :: r => if is_digit c then let '(d, k) := scanDigits r in (c :: d, k) else ([], s)
  | [] => ([], [])
  end.

(** One or more digits. *)
Definition digits1 (s : bytes) : option (bytes * bytes) :=
  match scanDigits s with ([], _) => None | p => Some p end.

Definition scanInteger (s : bytes) : option (bytes * bytes) :=
  match s with
  | 48 :: r => Some ([48], r)
  | _ => digits1 s
  end.

Definition scanFraction (s : bytes) : option (bytes * bytes) :=
  match s with
  | 46 :: r => match digits1 r with Some (d, k) => Some (46 :: d, k) | None => None end
  | _ => Some ([], s)
  end.

Definition scanExponent (s : bytes) : option (bytes * bytes) :=
  match s with
  | c :: r =>
      if (c =? 101) || (c =? 69) then
        let '(sign, r) := match r with g :: r' => if (g =? 43) || (g =? 45) then ([g], r') else ([], r) | [] => ([], r) end in
        match digits1 r with Some (d, k) => Some (c :: sign ++ d, k) | None => None end
      else Some ([], s)
  | [] => Some ([], s)
  end.

Definition scanNumber (s : bytes) : option (bytes * bytes) :=
  let '(sign, r) := match s with c :: r => if c =? 45 then ([c], r) else ([], s) | [] => ([], s) end in
  match scanInteger r with
  | None => None
  | Some (i, r) =>
      match scanFraction r with
      | None => None
      | Some (f, r) => match scanExponent r with Some (x, k) => Some (sign ++ i ++ f ++ x, k) | None => None end
      end
  end.

Definition literal (word : bytes) (v : json) (s : bytes) : option (json * bytes) :=
  if HasPrefix s word then Some (v, drop (length word) s) else None.

(** ** Values *)

Definition maxNesting : nat := 10000.

(** The character [c], which the text starts with, removed. *)
Definition expect (c : Z) (s : bytes) : option bytes :=
  match s with x :: r => if x =? c then Some r else None | [] => None end.

(** A value at the start of [s], with what follows it.  Every two calls consume
    a character, so [value_fuel] below: twice the length of the text is enough
    fuel. *)
Fixpoint value (fuel depth : nat) (s : bytes) {struct fuel} : option (json * bytes) :=
  match fuel with
  | O => None
  | S fuel =>
      match s with
      | [] => None
      | c :: r =>
          if c =? 34 then match scanString r with Some (t, k) => Some (JStr t, k) | None => None end
          else if c =? 123 then
            match depth with
            | O => None
            | S d =>
                match expect 125 (skipSpace r) with
                | Some k => Some (JObj [], k)
                | None => match members fuel d (skipSpace r) with Some (l, k) => Some (JObj l, k) | None => None end
                end
            end
          else if c =? 91 then
            match depth with
            | O => None
            | S d =>
                match expect 93 (skipSpace r) with
                | Some k => Some (JArr [], k)
                | None => match elements fuel d (skipSpace r) with Some (l, k) => Some (JArr l, k) | None => None end
                end
            end
          else if c =? 116 then literal (str "true") (JBool true) s
          else if c =? 102 then literal (str "false") (JBool false) s
          else if c =? 110 then literal (str "null") JNull s
          else match scanNumber s with Some (n, k) => Some (JNum n, k) | None => None end
      end
  end
with members (fuel depth : nat) (s : bytes) {struct fuel} : option (list (bytes * json) * bytes) :=
  match fuel with
  | O => None
  | S fuel =>
      match expect 34 s with
      | None => None
      | Some r =>
      match scanString r with
      | None => None
      | Some (key, r) =>
      match expect 58 (skipSpace r) with
      | None => None
      | Some r =>
      match value fuel depth (skipSpace r) with
      | None => None
      | Some (v, r) =>
      match expect 125 (skipSpace r) with
      | Some k => Some ([(unquote key, v)], k)
      | None =>
      match expect 44 (skipSpace r) with
      | None => None
      | Some r =>
      match members fuel depth (skipSpace r) with
      | Some (l, k) => Some ((unquote key, v) :: l, k)
      | None => None
      end end end end end end end
  end
with elements (fuel depth : nat) (s : bytes) {struct fuel} : option (list json * bytes) :=
  match fuel with
  | O => None
  | S fuel =>
      match value fuel depth s with
      | None => None
      | Some (v, r) =>
      match expect 93 (skipSpace r) with
      | Some k => Some ([v], k)
      | None =>
      match expect 44 (skipSpace r) with
      | None => None
      | Some r =>
      match elements fuel depth (skipSpace r) with
      | Some (l, k) => Some (v :: l, k)
      | None => None
      end end end end
  end.

(** The first value of a text and the rest. *)
Definition firstValue (s : bytes) : option (json * bytes) := value (S (2 * length s)) maxNesting (skipSpace s).

(** [json.Unmarshal]: the text is one value. *)
Definition parseJSON (s : bytes) : option json :=
  match firstValue s with
  | Some (v, rest) => match skipSpace rest with [] => Some v | _ => None end
  | None => None
  end.

(** A number as an int: the literal is a decimal integer that fits. *)
Definition numberInt (literal : bytes) : option Z := Atoi literal.

(** ** Consumption and fuel *)

Lemma skipSpace_length s : (length (skipSpace s) <= length s)%nat.
Proof. induction s as [|c s IH]; [done|]. simpl. destruct (isJSONSpace c); simpl; lia. Qed.

Lemma scanString_length s t k : scanString s = Some (t, k) -> (length k < length s)%nat.
Proof.
  revert t k. induction s as [s IH] using (well_founded_induction (Wf_nat.well_founded_ltof _ (@length Z))).
  unfold Wf_nat.ltof in IH. intros t k. destruct s as [|c r]; [done|]. cbn [scanString].
  destruct (c =? 34); [intros [= <- <-]; simpl; lia|]. destruct (c <? 32); [done|].
  destruct (c =? 92).
  - destruct r as [|e r']; [done|]. destruct (existsb _ _).
    + destruct (scanString r') as [[t' k']|] eqn:E; [|done]. intros [= <- <-]. apply IH in E; simpl in *; lia.
    + destruct (e =? 117); [|done]. destruct r' as [|h1 [|h2 [|h3 [|h4 r4]]]]; try done.
      destruct (hexDigit h1), (hexDigit h2), (hexDigit h3), (hexDigit h4); try done.
      destruct (scanString r4) as [[t' k']|] eqn:E; [|done]. intros [= <- <-]. apply IH in E; simpl in *; lia.
  - destruct (scanString r) as [[t' k']|] eqn:E; [|done]. intros [= <- <-]. apply IH in E; simpl in *; lia.
Qed.

Lemma scanDigits_length s d k : scanDigits s = (d, k) -> (length d + length k = length s)%nat.
Proof.
  revert d k. induction s as [|c r IH]; intros d k; cbn [scanDigits]; [by intros [= <- <-]|].
  destruct (is_digit c); [|by intros [= <- <-]].
  destruct (scanDigits r) as [d' k'] eqn:E. intros [= <- <-]. specialize (IH _ _ eq_refl). simpl. lia.
Qed.

Lemma digits1_length s d k : digits1 s = Some (d, k) -> (length k < length s)%nat.
Proof.
  unfold digits1. destruct (scanDigits s) as [[|x d'] k'] eqn:E; [done|]. intros [= <- <-].
  apply scanDigits_length in E. simpl in E. lia.
Qed.

Lemma scanNumber_length s n k : scanNumber s = Some (n, k) -> (length k < length s)%nat.
Proof.
  unfold scanNumber. set (p := match s with c :: r => if c =? 45 then ([c], r) else ([], s) | [] => ([], s) end).
  assert (Hp : (length p.2 <= length s)%nat) by (subst p; destruct s as [|c r]; [done|]; destruct (c =? 45); simpl; lia).
  destruct p as [sign r]. simpl in Hp. destruct (scanInteger r) as [[i r1]|] eqn:E1; [|done].
  assert (H1 : (length r1 < length r)%nat).
  { unfold scanInteger in E1. destruct r as [|c r']; [by apply digits1_length in E1|].
    destruct (Z.eq_dec c 48) as [->|Hc]; [injection E1 as <- <-; simpl; lia|].
    apply (digits1_length _ i). rewrite <- E1. clear -Hc. do 7 (try destruct c as [|c|c]; try done; try lia). }
  destruct (scanFraction r1) as [[f r2]|] eqn:E2; [|done].
  assert (H2 : (length r2 <= length r1)%nat).
  { unfold scanFraction in E2. destruct r1 as [|c r']; [by injection E2 as <- <-|].
    destruct (Z.eq_dec c 46) as [->|Hc].
    - destruct (digits1 r') as [[d k']|] eqn:Ed; [|done]. injection E2 as <- <-. apply digits1_length in Ed. simpl. lia.
    - assert (E : Some ([], c :: r') = Some (f, r2)) by (rewrite <- E2; clear -Hc; do 7 (try destruct c as [|c|c]; try done; try lia)).
      by injection E as <- <-. }
  destruct (scanExponent r2) as [[x r3]|] eqn:E3; [|done]. intros [= <- <-].
  assert (H3 : (length r3 <= length r2)%nat); [|lia].
  unfold scanExponent in E3. destruct r2 as [|c r']; [by injection E3 as <- <-|].
  destruct ((c =? 101) || (c =? 69)); [|by injection E3 as <- <-].
  destruct r' as [|g r'']; [done|].
  destruct ((g =? 43) || (g =? 45)); (destruct (digits1 _) as [[d k']|] eqn:Ed; [|done]); injection E3 as <- <-;
    apply digits1_length in Ed; simpl in *; lia.
Qed.

Lemma expect_length c s r : expect c s = Some r -> (length r < length s)%nat.
Proof. destruct s as [|x s']; [done|]. simpl. destruct (x =? c); [intros [= <-]; lia|done]. Qed.

Lemma literal_length w v s r : w <> [] -> literal w v s = Some r -> (length r.2 < length s)%nat.
Proof.
  unfold literal. destruct (HasPrefix s w) eqn:E; [|done]. intros Hw [= <-]. apply HasPrefix_spec in E as [k ->].
  simpl. rewrite drop_app_length, length_app. destruct w; [done|]. simpl. lia.
Qed.

(** Collects what the reads in the context say about lengths. *)
Ltac lengths :=
  repeat match goal with
  | H : expect _ (skipSpace ?r) = Some _ |- _ => apply expect_length in H; pose proof (skipSpace_length r)
  | H : expect _ _ = Some _ |- _ => apply expect_length in H
  | H : scanString _ = Some _ |- _ => apply scanString_length in H
  end.

Lemma value_length n :
  (forall d s v k, value n d s = Some (v, k) -> (length k < length s)%nat) /\
  (forall d s l k, members n d s = Some (l, k) -> (length k < length s)%nat) /\
  (forall d s l k, elements n d s = Some (l, k) -> (length k < length s)%nat).
Proof.
  induction n as [|n (IHv & IHm & IHe)]; [done|]. split_and!.
  - intros d s v k. cbn [value]. destruct s as [|c r]; [done|].
    destruct (c =? 34).
    { destruct (scanString r) as [[t k']|] eqn:E; [|done]. intros [= <- <-]. lengths. simpl. lia. }
    destruct (c =? 123).
    { destruct d as [|d]; [done|]. destruct (expect 125 _) eqn:E; [intros [= <- <-]; lengths; simpl; lia|].
      destruct (members n d _) as [[l k']|] eqn:E2; [|done]. intros [= <- <-]. apply IHm in E2.
      pose proof (skipSpace_length r). simpl. lia. }
    destruct (c =? 91).
    { destruct d as [|d]; [done|]. destruct (expect 93 _) eqn:E; [intros [= <- <-]; lengths; simpl; lia|].
      destruct (elements n d _) as [[l k']|] eqn:E2; [|done]. intros [= <- <-]. apply IHe in E2.
      pose proof (skipSpace_length r). simpl. lia. }
    destruct (c =? 116); [intros E; by apply literal_length in E|].
    destruct (c =? 102); [intros E; by apply literal_length in E|].
    destruct (c =? 110); [intros E; by apply literal_length in E|].
    destruct (scanNumber _) as [[x k']|] eqn:E; [|done]. intros [= <- <-]. by eapply scanNumber_length.
  - intros d s l k. cbn [members]. destruct (expect 34 s) as [r|] eqn:E1; [|done].
    destruct (scanString r) as [[key r1]|] eqn:E2; [|done]. destruct (expect 58 _) as [r2|] eqn:E3; [|done].
    destruct (value n d _) as [[v r3]|] eqn:E4; [|done]. apply IHv in E4. pose proof (skipSpace_length r2).
    destruct (expect 125 _) as [k'|] eqn:E5; [intros [= <- <-]; lengths; lia|].
    destruct (expect 44 _) as [r4|] eqn:E6; [|done].
    destruct (members n d _) as [[l' k']|] eqn:E7; [|done]. intros [= <- <-]. apply IHm in E7.
    pose proof (skipSpace_length r4). lengths. lia.
  - intros d s l k. cbn [elements]. destruct (value n d s) as [[v r]|] eqn:E1; [|done]. apply IHv in E1.
    destruct (expect 93 _) as [k'|] eqn:E2; [intros [= <- <-]; lengths; lia|].
    destruct (expect 44 _) as [r1|] eqn:E3; [|done].
    destruct (elements n d _) as [[l' k']|] eqn:E4; [|done]. intros [= <- <-]. apply IHe in E4.
    pose proof (skipSpace_length r1). lengths. lia.
Qed.

Lemma value_fuel n :
  (forall d s m, (2 * length s < n -> 2 * length s < m -> value n d s = value m d s)%nat) /\
  (forall d s m, (2 * length s < n -> 2 * length s < m -> members n d s = members m d s)%nat) /\
  (forall d s m, (2 * length s + 1 < n -> 2 * length s + 1 < m -> elements n d s = elements m d s)%nat).
Proof.
  induction n as [|n (IHv & IHm & IHe)]; [split_and!; intros; lia|]. split_and!; intros d s m Hn Hm; (destruct m as [|m]; [lia|]).
  - cbn [value]. destruct s as [|c r]; [done|]. cbn [length] in Hn, Hm. pose proof (skipSpace_length r).
    destruct (c =? 34); [done|]. destruct (c =? 123); [destruct d; [done|]; rewrite (IHm _ _ m) by lia; done|].
    destruct (c =? 91); [destruct d; [done|]; rewrite (IHe _ _ m) by lia; done|]. done.
  - cbn [members]. destruct (expect 34 s) as [r|] eqn:E1; [|done].
    destruct (scanString r) as [[key r1]|] eqn:E2; [|done]. destruct (expect 58 _) as [r2|] eqn:E3; [|done].
    pose proof (skipSpace_length r2). lengths. rewrite (IHv _ _ m) by lia.
    destruct (value m d _) as [[v r3]|] eqn:E4; [|done]. apply (proj1 (value_length m)) in E4.
    destruct (expect 125 _); [done|]. destruct (expect 44 _) as [r4|] eqn:E6; [|done].
    pose proof (skipSpace_length r4). lengths. rewrite (IHm _ _ m) by lia. done.
  - cbn [elements]. rewrite (IHv _ _ m) by lia.
    destruct (value m d s) as [[v r]|] eqn:E4; [|done]. apply (proj1 (value_length m)) in E4.
    destruct (expect 93 _); [done|]. destruct (expect 44 _) as [r1|] eqn:E6; [|done].
    pose proof (skipSpace_length r1). lengths. rewrite (IHe _ _ m) by lia. done.
Qed.

(** The reader is total: more fuel never changes its answer. *)
Lemma firstValue_fuel n s : (2 * length s < n)%nat -> value n maxNesting (skipSpace s) = firstValue s.
Proof. intros Hn. unfold firstValue. pose proof (skipSpace_length s). apply (proj1 (value_fuel n)); lia. Qed.

(** A JSON text written with single quotes. *)
Definition json_text (s : string) : bytes := ReplaceByte (str s) 39 34.

Example firstValue_sample :
  parseJSON (json_text "{ 'a' : [1, -2.5e+3, 'x\n\ud83d\ude00', true], 'a':{}} ")
  = Some (JObj [(str "a", JArr [JNum (str "1"); JNum (str "-2.5e+3"); JStr (str "x\n\ud83d\ude00"); JBool true]);
                (str "a", JObj [])])
  /\ unquote (str "x\n\ud83d\ude00") = [120; 10; 240; 159; 152; 128].
Proof. vm_compute. split; reflexivity. Qed.
