(* ===== verification/GoAddrFacts.v ===== *)
(** * Endpoints as text

    Addresses and ports written by one service and read by another: the text of
    an IPv4 address parses back, and so do the endpoints made from it. *)

From stdpp Require Import gmap list strings.
From Stdlib Require Import ZArith Lia.
From S2P Require Import Prelude GoStrings GoNet GoAddr.

(** ** IPv4 addresses *)

Lemma parseOctet_FormatUint n : 0 <= n < 256 -> parseOctet (FormatUint n) = Some n.
Proof.
  intros Hn.
  assert (H : forallb (fun n => bool_decide (parseOctet (FormatUint n) = Some n)) (seqZ 0 256) = true)
    by (vm_compute; reflexivity).
  rewrite forallb_forall in H. specialize (H n). rewrite bool_decide_eq_true in H. apply H.
  apply list_elem_of_In, elem_of_seqZ. lia.
Qed.

Lemma FormatUint_no n c : 0 <= n -> ~ (48 <= c <= 57) -> c ∉ FormatUint n.
Proof. intros Hn Hc Hin. pose proof (FormatUint_digits n Hn) as Hf. rewrite Forall_forall in Hf. by apply Hf in Hin. Qed.

Definition octets4 (v : Z) : list Z := [v / 2 ^ 24; v / 2 ^ 16 mod 256; v / 2 ^ 8 mod 256; v mod 256].

Lemma octets4_range v : 0 <= v < 2 ^ 32 -> Forall (fun n => 0 <= n < 256) (octets4 v).
Proof.
  intros Hv. unfold octets4. repeat constructor; try (apply Z.mod_pos_bound; lia).
  - apply Z.div_pos; lia.
  - apply Z.div_lt_upper_bound; lia.
Qed.

Lemma octets4_value v : 0 <= v < 2 ^ 32 -> be_decode (octets4 v) = v.
Proof.
  intros Hv. unfold octets4, be_decode. cbn [fold_left].
  assert (E2 : v / 2 ^ 16 = v / 2 ^ 8 / 256) by (by rewrite Z.div_div).
  assert (E3 : v / 2 ^ 24 = v / 2 ^ 8 / 256 / 256) by (by rewrite !Z.div_div).
  rewrite E2, E3. change (2 ^ 8) with 256.
  pose proof (Z.div_mod v 256 ltac:(lia)). pose proof (Z.div_mod (v / 256) 256 ltac:(lia)).
  pose proof (Z.div_mod (v / 256 / 256) 256 ltac:(lia)). lia.
Qed.

Lemma Split_String4 v : 0 <= v < 2 ^ 32 -> Split (String4 v) DOT = map FormatUint (octets4 v).
Proof.
  intros Hv. unfold String4. apply (Split_Join (map FormatUint (octets4 v))); [done|].
  apply Forall_map. eapply Forall_impl; [by apply octets4_range|]. intros n Hn. cbv beta in *.
  apply FormatUint_no; unfold DOT; lia.
Qed.

Lemma addrSyntax_dot s : (forall c, c ∈ s -> c <> COLON /\ c <> 37) -> DOT ∈ s -> addrSyntax s = Some DOT.
Proof.
  induction s as [|c s IH]; intros Hc Hd; [by apply not_elem_of_nil in Hd|]. simpl.
  destruct (Hc c) as [H1 H2]; [left|]. apply Z.eqb_neq in H1, H2. rewrite H1, H2, !orb_false_r.
  destruct (Z.eqb_spec c DOT) as [->|Hn]; [done|]. apply IH.
  - intros d Hd'. apply Hc. by right.
  - apply elem_of_cons in Hd as [E|Hd]; [by subst|done].
Qed.

(** The text of an IPv4 address: digits and points. *)
Lemma String4_chars v c : 0 <= v < 2 ^ 32 -> c ∈ String4 v -> 48 <= c <= 57 \/ c = DOT.
Proof.
  intros Hv. assert (H : forall ws, Forall (Forall (fun c => 48 <= c <= 57)) ws -> c ∈ Join ws [DOT] -> 48 <= c <= 57 \/ c = DOT).
  { induction ws as [|w ws IH]; intros Hf; [by intros ?%not_elem_of_nil|]. apply Forall_cons in Hf as [Hw Hf].
    rewrite Forall_forall in Hw. destruct ws as [|w2 ws]; [intros Hc; left; by apply Hw|].
    change (Join (w :: w2 :: ws) [DOT]) with (w ++ [DOT] ++ Join (w2 :: ws) [DOT]).
    rewrite !elem_of_app, list_elem_of_singleton. intros [Hc|[->|Hc]]; [left; by apply Hw|by right|by apply IH]. }
  apply H, Forall_map. eapply Forall_impl; [by apply octets4_range|]. intros n Hn. cbv beta in *. apply FormatUint_digits. lia.
Qed.

Lemma ParseAddr_String4 v : 0 <= v < 2 ^ 32 -> ParseAddr (String4 v) = Some (Addr4 v).
Proof.
  intros Hv. unfold ParseAddr. rewrite addrSyntax_dot.
  - change DOT with 46. unfold parseIPv4Fields. rewrite Split_String4 by done.
    pose proof (octets4_range v Hv) as Hr. unfold octets4 in *. cbn [map].
    rewrite !Forall_cons in Hr. destruct Hr as (H1 & H2 & H3 & H4 & _).
    rewrite !parseOctet_FormatUint by done. f_equal. f_equal. by apply octets4_value.
  - intros c Hc. apply String4_chars in Hc; [|done]. unfold COLON, DOT in *. lia.
  - unfold String4. cbn [map]. change (DOT ∈ FormatUint (v / 2 ^ 24) ++ [DOT] ++ Join (map FormatUint (drop 1 (octets4 v))) [DOT]).
    rewrite !elem_of_app, list_elem_of_singleton. auto.
Qed.

(** ** Host and port *)

Lemma LastIndexByte_app h p c : c ∉ p -> LastIndexByte (h ++ c :: p) c = Some (length h).
Proof.
  intros Hc. unfold LastIndexByte. rewrite rev_app_distr. simpl rev. rewrite <- app_assoc.
  assert (H : forall q r, c ∉ q -> IndexByte (q ++ c :: r) c = Some (length q)).
  { induction q as [|x q IH]; intros r Hq; simpl; [by rewrite Z.eqb_refl|].
    apply not_elem_of_cons in Hq as [Hx Hq]. rewrite (proj2 (Z.eqb_neq x c)) by auto. by rewrite IH. }
  change ([c] ++ rev h) with (c :: rev h). rewrite (H (rev p) (rev h)).
  - rewrite length_app, length_rev. simpl length. f_equal. lia.
  - by rewrite list_elem_of_In, <- in_rev, <- list_elem_of_In.
Qed.

(** Text without the marks of an endpoint. *)
Definition no_marks (s : bytes) : Prop := COLON ∉ s /\ 91 ∉ s /\ 93 ∉ s.

Lemma no_marks_at s : no_marks s -> (at_ s 0 =? 91) = false.
Proof.
  intros (_ & H & _). destruct s as [|c s]; [done|]. apply Z.eqb_neq. unfold at_. cbn [nth]. intros ->. apply H. left.
Qed.

Lemma not_contains s c : c ∉ s -> ContainsByte s c = false.
Proof. intros H. apply not_true_iff_false. by rewrite ContainsByte_spec. Qed.

Lemma no_marks_endpoint h p : no_marks h -> no_marks p -> 91 ∉ h ++ COLON :: p /\ 93 ∉ h ++ COLON :: p.
Proof.
  intros (_ & H1 & H2) (_ & H3 & H4). rewrite !elem_of_app, !elem_of_cons.
  split; intros [?|[E|?]]; by try discriminate E.
Qed.

Lemma JoinHostPort_plain h p : no_marks h -> JoinHostPort h p = h ++ COLON :: p.
Proof. intros (H & _). unfold JoinHostPort. by rewrite not_contains. Qed.

Lemma SplitHostPort_join h p : h <> [] -> no_marks h -> no_marks p -> SplitHostPort (h ++ COLON :: p) = Some (h, p).
Proof.
  intros Hn Hh Hp. unfold SplitHostPort. rewrite LastIndexByte_app by apply Hp.
  assert (Ha : (at_ (h ++ COLON :: p) 0 =? 91) = false).
  { destruct h; [done|]. exact (no_marks_at (z :: h) Hh). }
  destruct (no_marks_endpoint h p Hh Hp) as [H91 H93].
  rewrite Ha, take_app_length, (not_contains h) by apply Hh.
  change (drop 0 (h ++ COLON :: p)) with (h ++ COLON :: p). rewrite !not_contains by done.
  cbn [orb]. do 2 f_equal. replace (length h + 1)%nat with (length (h ++ [COLON])) by (rewrite length_app; simpl; lia).
  replace (h ++ COLON :: p) with ((h ++ [COLON]) ++ p) by (by rewrite <- app_assoc). apply drop_app_length.
Qed.

Lemma String4_no_marks v : 0 <= v < 2 ^ 32 -> no_marks (String4 v).
Proof.
  intros Hv. unfold no_marks, COLON. repeat split; intros Hc; apply String4_chars in Hc; unfold DOT in Hc; lia.
Qed.

Lemma String4_nonempty v : String4 v <> [].
Proof.
  unfold String4. pose proof (FormatUint_nonempty (v / 2 ^ 24)) as H. cbn [map].
  destruct (FormatUint (v / 2 ^ 24)); [done|]. done.
Qed.

Lemma ParseAddrPort_endpoint v p n : 0 <= v < 2 ^ 32 -> no_marks p -> ParseUint p 16 = Some n ->
  ParseAddrPort (String4 v ++ COLON :: p) = Some (Addr4 v, n).
Proof.
  intros Hv Hp Hn. unfold ParseAddrPort. rewrite LastIndexByte_app by apply Hp. rewrite take_app_length.
  assert (Hd : drop (length (String4 v) + 1) (String4 v ++ COLON :: p) = p).
  { replace (length (String4 v) + 1)%nat with (length (String4 v ++ [COLON])) by (rewrite length_app; simpl; lia).
    replace (String4 v ++ COLON :: p) with ((String4 v ++ [COLON]) ++ p) by (by rewrite <- app_assoc). apply drop_app_length. }
  rewrite Hd, (proj2 (beq_false _ _) (String4_nonempty v)).
  assert (Hpn : beq p [] = false) by (destruct p; done). rewrite Hpn. cbn [orb].
  rewrite (no_marks_at _ (String4_no_marks v Hv)). cbn [andb]. rewrite Hn, ParseAddr_String4 by done. done.
Qed.

(** ** Parsed addresses are addresses *)

Lemma parseOctet_range s n : parseOctet s = Some n -> 0 <= n < 256.
Proof.
  unfold parseOctet. destruct (_ || _) eqn:E; [done|]. intros H. destruct (digits_value s <=? 255) eqn:E2; [|done].
  injection H as <-. bool_hyps. split; [|lia].
  assert (Hd : forall s acc, forallb is_digit s = true -> 0 <= acc -> 0 <= fold_left (fun acc c => acc * 10 + (c - 48)) s acc).
  { clear. induction s as [|c s IH]; intros acc Hf Ha; [done|]. simpl in *. apply andb_true_iff in Hf as [Hc Hf].
    apply IH; [done|]. unfold is_digit, inr in Hc. bool_hyps. lia. }
  apply Hd; [|lia]. by destruct (forallb is_digit s).
Qed.

Lemma addrSyntax_some s c : addrSyntax s = Some c -> c = 46 \/ c = 58 \/ c = 37.
Proof.
  induction s as [|x s IH]; simpl; [done|]. destruct (_ || _) eqn:E; [|done]. intros [= <-].
  unfold DOT, COLON in E. repeat rewrite orb_true_iff in E. rewrite !Z.eqb_eq in E. tauto.
Qed.

Lemma parseIPv4Fields_range s ip : parseIPv4Fields s = Some ip -> 0 <= be_decode ip < 2 ^ 32.
Proof.
  unfold parseIPv4Fields. destruct (Split s DOT) as [|a [|b [|c [|d [|]]]]]; try done.
  destruct (parseOctet a) as [x|] eqn:E1; [|done]. destruct (parseOctet b) as [y|] eqn:E2; [|done].
  destruct (parseOctet c) as [z|] eqn:E3; [|done]. destruct (parseOctet d) as [w|] eqn:E4; [|done].
  intros [= <-]. apply parseOctet_range in E1, E2, E3, E4.
  exact (be_decode_bounds [x; y; z; w] ltac:(repeat constructor; lia)).
Qed.

Lemma parseIPv6_not4 s v : parseIPv6 s <> Some (Addr4 v).
Proof. unfold parseIPv6. repeat case_match; done. Qed.

Lemma ParseAddr_4 s v : ParseAddr s = Some (Addr4 v) -> 0 <= v < 2 ^ 32.
Proof.
  unfold ParseAddr. destruct (addrSyntax s) as [c|] eqn:Es; [|done].
  apply addrSyntax_some in Es as [->|[->| ->]]; [| |done].
  - destruct (parseIPv4Fields s) eqn:E; [|done]. intros [= <-]. by apply parseIPv4Fields_range in E.
  - intros E. by apply parseIPv6_not4 in E.
Qed.
