(* ===== verification/GoPath.v ===== *)
(** * Go's path and path/filepath on Unix

    The functions of the packages path and path/filepath the program uses, on
    slash-separated paths: [Clean], [Base], [Dir], [Join], [IsAbs], [IsLocal] and
    [Rel].  A path is worked on as the list of its components; the lemmas relate
    the two views for absolute clean paths, which is what the confinement
    arguments of the file services need. *)

From stdpp Require Import gmap list.
From Stdlib Require Import ZArith Lia.
From S2P Require Import Prelude GoStrings.

Definition SLASH : Z := 47.
Definition dot : bytes := [DOT].
Definition dotdot : bytes := [DOT; DOT].

(** [fs.ValidPath]. *)
Definition ValidPath (name : bytes) : bool :=
  ValidString name &&
  (beq name dot || forallb (fun elem => negb (beq elem [] || beq elem dot || beq elem dotdot)) (Split name SLASH)).

Definition IsAbs (p : bytes) : bool := HasPrefix p [SLASH].

(** One component of [Clean], with the components kept so far, last first. *)
Definition clean_step (rooted : bool) (kept : list bytes) (c : bytes) : list bytes :=
  if beq c [] || beq c dot then kept
  else if beq c dotdot then
    match kept with
    | top :: rest => if beq top dotdot then c :: kept else rest
    | [] => if rooted then [] else [c]
    end
  else c :: kept.

(** The components of [Clean p]. *)
Definition components (p : bytes) : list bytes :=
  rev (fold_left (clean_step (IsAbs p)) (Split p SLASH) []).

Definition Clean (p : bytes) : bytes :=
  if IsAbs p then SLASH :: Join (components p) [SLASH]
  else match components p with
       | [] => dot
       | cs => Join cs [SLASH]
       end.

Definition drop_slashes (p : bytes) : bytes :=
  rev ((fix go r := match r with c :: r' => if c =? SLASH then go r' else r | [] => [] end) (rev p)).

Definition last_component (p : bytes) : bytes := List.last (Split p SLASH) [].

Definition Base (p : bytes) : bytes :=
  match p with
  | [] => dot
  | _ => match last_component (drop_slashes p) with
         | [] => [SLASH]
         | b => b
         end
  end.

(** The path up to and including its last slash, cleaned. *)
Definition Dir (p : bytes) : bytes :=
  Clean (take (length p - length (last_component p)) p).

(** [Join] of two elements. *)
Definition PathJoin (a b : bytes) : bytes :=
  match a, b with
  | [], [] => []
  | [], _ => Clean b
  | _, _ => Clean (a ++ [SLASH] ++ b)
  end.

(** [filepath.IsLocal] on Unix. *)
Definition IsLocal (p : bytes) : bool :=
  if IsAbs p || beq p [] then false
  else
    let hasDots := existsb (fun c => beq c dot || beq c dotdot) (Split p SLASH) in
    let p := if hasDots then Clean p else p in
    negb (beq p dotdot || HasPrefix p (dotdot ++ [SLASH])).

(** What is left of two component lists after their common prefix. *)
Fixpoint strip_common (bs ts : list bytes) : list bytes * list bytes :=
  match bs, ts with
  | b :: bs', t :: ts' => if beq b t then strip_common bs' ts' else (bs, ts)
  | _, _ => (bs, ts)
  end.

(** The components [Rel] walks over: none for the root and for the current
    directory as a base. *)
Definition rel_words (p : bytes) : list bytes :=
  match p with
  | [] => []
  | _ => match TrimPrefix p [SLASH] with [] => [] | q => Split q SLASH end
  end.

(** [filepath.Rel] on Unix; [None] is its error. *)
Definition Rel (basepath targpath : bytes) : option bytes :=
  let base := Clean basepath in
  let targ := Clean targpath in
  if beq targ base then Some dot
  else
    let base := if beq base dot then [] else base in
    if negb (Bool.eqb (IsAbs base) (IsAbs targ)) then None
    else
      match strip_common (rel_words base) (rel_words targ) with
      | ([], ts) => Some (Join ts [SLASH])
      | (b :: bs, []) => Some (Join (dotdot :: map (fun _ => dotdot) bs) [SLASH])
      | (b :: bs, ts) =>
          if beq b dotdot then None
          else Some (Join (dotdot :: map (fun _ => dotdot) bs ++ ts) [SLASH])
      end.

(** ** Absolute clean paths *)

(** A component that names something inside its directory. *)
Definition plain (c : bytes) : Prop :=
  c <> [] /\ c <> dot /\ c <> dotdot /\ SLASH ∉ c.

Definition abs_path (cs : list bytes) : bytes := SLASH :: Join cs [SLASH].

Lemma IsAbs_abs_path cs : IsAbs (abs_path cs) = true.
Proof. done. Qed.

Lemma clean_step_plain r kept c : plain c -> clean_step r kept c = c :: kept.
Proof.
  intros (H1 & H2 & H3 & _). unfold clean_step.
  by rewrite (proj2 (beq_false _ _) H1), (proj2 (beq_false _ _) H2), (proj2 (beq_false _ _) H3).
Qed.

Lemma clean_fold_plain r cs kept :
  Forall plain cs -> fold_left (clean_step r) cs kept = rev cs ++ kept.
Proof.
  revert kept. induction cs as [|c cs IH]; intros kept H; [done|].
  apply Forall_cons in H as [Hc H]. simpl. rewrite clean_step_plain by done.
  by rewrite IH, <- app_assoc.
Qed.

(** A rooted path keeps plain components only. *)
Lemma clean_fold_rooted ws kept :
  (forall c, c ∈ ws -> SLASH ∉ c) -> Forall plain kept ->
  Forall plain (fold_left (clean_step true) ws kept).
Proof.
  revert kept. induction ws as [|w ws IH]; intros kept Hs Hk; [done|]. simpl.
  apply IH; [intros c Hc; apply Hs; by right|]. unfold clean_step.
  destruct (beq w [] || beq w dot) eqn:E1; [done|]. apply orb_false_iff in E1 as [En%beq_false Ed%beq_false].
  destruct (beq w dotdot) eqn:E2.
  - destruct kept as [|t kept]; [done|]. apply Forall_cons in Hk as [Ht Hk].
    assert (Hd : beq t dotdot = false) by (apply beq_false, Ht). by rewrite Hd.
  - apply beq_false in E2. constructor; [|done]. repeat split; try done. apply Hs. by left.
Qed.

Lemma components_plain p : IsAbs p = true -> Forall plain (components p).
Proof.
  intros Ha. unfold components. rewrite Ha. apply Forall_rev, clean_fold_rooted; [|done].
  intros c. apply Split_no_sep.
Qed.

Lemma Clean_abs p : IsAbs p = true -> Clean p = abs_path (components p).
Proof. intros Ha. unfold Clean, abs_path. by rewrite Ha. Qed.

Lemma Split_cons_sep s sep : Split (sep :: s) sep = [] :: Split s sep.
Proof. simpl. by rewrite Z.eqb_refl. Qed.

Lemma plain_no_slash cs : Forall plain cs -> Forall (fun c => SLASH ∉ c) cs.
Proof. intros H. eapply Forall_impl; [exact H|]. intros c Hc. apply Hc. Qed.

Lemma abs_path_split cs : cs <> [] -> Forall plain cs -> Split (abs_path cs) SLASH = [] :: cs.
Proof.
  intros Hn H. unfold abs_path. rewrite Split_cons_sep. f_equal.
  apply Split_Join; [done|by apply plain_no_slash].
Qed.

Lemma components_abs_path cs : Forall plain cs -> components (abs_path cs) = cs.
Proof.
  intros H. unfold components. rewrite IsAbs_abs_path.
  destruct cs as [|c cs]; [done|]. rewrite abs_path_split by done.
  change (fold_left (clean_step true) ([] :: c :: cs) []) with (fold_left (clean_step true) (c :: cs) []).
  rewrite clean_fold_plain, app_nil_r by done. apply rev_involutive.
Qed.

Lemma Clean_abs_path cs : Forall plain cs -> Clean (abs_path cs) = abs_path cs.
Proof. intros H. rewrite Clean_abs by done. by rewrite components_abs_path. Qed.

(** An absolute path is clean exactly when all its components are plain. *)
Lemma Clean_fixed p :
  IsAbs p = true -> Clean p = p <-> exists cs, Forall plain cs /\ p = abs_path cs.
Proof.
  intros Ha. split.
  - intros E. exists (components p). split; [by apply components_plain|].
    by rewrite <- (Clean_abs p Ha).
  - intros (cs & Hc & ->). by apply Clean_abs_path.
Qed.

Lemma Clean_idem p : IsAbs p = true -> Clean (Clean p) = Clean p.
Proof. intros Ha. rewrite (Clean_abs p Ha). by apply Clean_abs_path, components_plain. Qed.

Lemma abs_path_inj cs ds : Forall plain cs -> Forall plain ds -> abs_path cs = abs_path ds -> cs = ds.
Proof.
  intros Hc Hd E. by rewrite <- (components_abs_path cs Hc), E, components_abs_path.
Qed.

Lemma rel_words_abs_path cs : Forall plain cs -> rel_words (abs_path cs) = cs.
Proof.
  intros H. unfold rel_words, abs_path.
  rewrite (TrimPrefix_app (Join cs [SLASH]) [SLASH] : TrimPrefix (SLASH :: Join cs [SLASH]) [SLASH] = _).
  destruct cs as [|c cs]; [done|].
  destruct (Join (c :: cs) [SLASH]) as [|x q] eqn:E.
  - exfalso. apply Forall_cons in H as [(Hn & _) _]. destruct c; [done|]. destruct cs; done.
  - rewrite <- E. apply Split_Join; [done|by apply plain_no_slash].
Qed.

(** ** Locality *)

(** The relative path of plain components stays below its directory. *)
Lemma IsLocal_plain cs : cs <> [] -> Forall plain cs -> IsLocal (Join cs [SLASH]) = true.
Proof.
  intros Hn H. destruct cs as [|c cs]; [done|].
  pose proof (Forall_inv H) as (Hc & Hd & Hdd & Hs).
  assert (Hj : exists x r, Join (c :: cs) [SLASH] = x :: r /\ x <> SLASH).
  { destruct c as [|x c]; [done|]. exists x. destruct cs; simpl; eexists; (split; [done|]).
    all: intros ->; apply Hs; left. }
  destruct Hj as (x & r & Ej & Hx). unfold IsLocal, IsAbs.
  rewrite (Split_Join (c :: cs)) by (done || by apply plain_no_slash).
  assert (Hdots : existsb (fun c => beq c dot || beq c dotdot) (c :: cs) = false).
  { apply not_true_iff_false. rewrite existsb_exists. intros (y & Hy & Hb).
    rewrite Forall_forall in H. apply list_elem_of_In in Hy. apply H in Hy as (_ & H1 & H2 & _).
    apply orb_true_iff in Hb as [->%beq_true| ->%beq_true]; done. }
  rewrite Hdots.
  assert (Ea : HasPrefix (Join (c :: cs) [SLASH]) [SLASH] || beq (Join (c :: cs) [SLASH]) [] = false).
  { rewrite Ej. cbn [HasPrefix]. destruct (Z.eqb_spec SLASH x) as [E|_]; [by subst x|done]. }
  rewrite Ea. apply negb_true_iff, orb_false_iff. split.
  - apply beq_false. intros E. pose proof (Split_Join (c :: cs) SLASH ltac:(done) (plain_no_slash _ H)) as Es.
    rewrite E in Es. injection Es as <- <-. done.
  - apply not_true_iff_false. intros (k & E)%HasPrefix_spec.
    pose proof (Split_Join (c :: cs) SLASH ltac:(done) (plain_no_slash _ H)) as Es.
    rewrite E, <- app_assoc in Es. pose proof (Split_sep_app dotdot k SLASH) as Ek.
    change (dotdot ++ [SLASH] ++ k) with (dotdot ++ SLASH :: k) in Es. rewrite Ek in Es.
    injection Es as <- _. done.
Qed.


(** A path whose first component climbs is not local: cleaning keeps the climb. *)
Lemma clean_fold_climb ws kept :
  last kept = Some dotdot -> last (fold_left (clean_step false) ws kept) = Some dotdot.
Proof.
  revert kept. induction ws as [|w ws IH]; intros kept Hk; [done|]. simpl. apply IH. unfold clean_step.
  destruct (beq w [] || beq w dot); [done|].
  destruct kept as [|t kept]; [done|].
  destruct (beq w dotdot) eqn:E2; [|by rewrite last_cons_cons].
  destruct (beq t dotdot) eqn:Et; [by rewrite last_cons_cons|].
  destruct kept as [|u kept]; [|by rewrite last_cons_cons in Hk].
  simpl in Hk. injection Hk as ->. by rewrite beq_refl in Et.
Qed.

Lemma Clean_climbs ts :
  Forall (fun c => SLASH ∉ c) ts -> exists cs, Clean (Join (dotdot :: ts) [SLASH]) = Join (dotdot :: cs) [SLASH].
Proof.
  intros Hs. assert (Hd : Forall (fun c => SLASH ∉ c) (dotdot :: ts)).
  { constructor; [|done]. unfold dotdot. rewrite !not_elem_of_cons. repeat split; try done. by apply not_elem_of_nil. }
  assert (Ha : IsAbs (Join (dotdot :: ts) [SLASH]) = false) by (by destruct ts).
  unfold Clean, components. rewrite Ha, Split_Join by done.
  change (fold_left (clean_step false) (dotdot :: ts) []) with (fold_left (clean_step false) ts [dotdot]).
  pose proof (clean_fold_climb ts [dotdot] eq_refl) as Hl.
  set (k := fold_left (clean_step false) ts [dotdot]) in *.
  apply last_Some in Hl as (k' & ->). rewrite rev_app_distr. by exists (rev k').
Qed.

Lemma climbing cs : beq (Join (dotdot :: cs) [SLASH]) dotdot || HasPrefix (Join (dotdot :: cs) [SLASH]) (dotdot ++ [SLASH]) = true.
Proof. by destruct cs. Qed.

Lemma IsLocal_climbs ts : Forall (fun c => SLASH ∉ c) ts -> IsLocal (Join (dotdot :: ts) [SLASH]) = false.
Proof.
  intros Hs. unfold IsLocal. destruct (IsAbs _ || beq _ []); [done|].
  destruct (existsb _ _).
  - destruct (Clean_climbs ts Hs) as (cs & ->). by rewrite climbing.
  - by rewrite climbing.
Qed.

Lemma strip_common_prefix bs ts r : strip_common bs ts = ([], r) <-> ts = bs ++ r.
Proof.
  revert ts. induction bs as [|b bs IH]; intros ts; simpl.
  - split; [by intros [= ->]|by intros ->].
  - destruct ts as [|t ts]; [done|]. destruct (beq b t) eqn:E.
    + apply beq_true in E as ->. rewrite IH. split; [by intros ->|by intros [= ->]].
    + apply beq_false in E. split; [done|]. by intros [= -> _].
Qed.

Lemma strip_common_suffix bs ts bs' ts' :
  strip_common bs ts = (bs', ts') -> exists p, ts = p ++ ts'.
Proof.
  revert ts. induction bs as [|b bs IH]; intros ts; simpl.
  { intros [= _ <-]. by exists []. }
  destruct ts as [|t ts]; [intros [= _ <-]; by exists []|].
  destruct (beq b t); [|intros [= _ <-]; by exists []].
  intros E. apply IH in E as (p & ->). by exists (t :: p).
Qed.

(** The test "is [path] [directory] or below it", as the program writes it, on
    absolute paths: one component list is a prefix of the other. *)
Lemma Rel_local d p :
  IsAbs d = true -> IsAbs p = true ->
  match Rel d p with Some r => beq r dot || IsLocal r | None => false end = true
  <-> components d `prefix_of` components p.
Proof.
  intros Hd Hp. unfold Rel. rewrite (Clean_abs d Hd), (Clean_abs p Hp).
  pose proof (components_plain d Hd) as Pd. pose proof (components_plain p Hp) as Pp.
  set (bs := components d) in *. set (ts := components p) in *.
  destruct (beq (abs_path ts) (abs_path bs)) eqn:E.
  { apply beq_true, abs_path_inj in E as ->; [|done..]. by split. }
  apply beq_false in E. assert (Hne : ts <> bs) by congruence.
  assert (Eb : beq (abs_path bs) dot = false) by done. rewrite Eb, !IsAbs_abs_path. simpl negb. cbv iota.
  rewrite !rel_words_abs_path by done.
  assert (Hclimb : forall l k, Forall (fun c => SLASH ∉ c) k ->
    beq (Join (dotdot :: map (fun _ : bytes => dotdot) l ++ k) [SLASH]) dot
    || IsLocal (Join (dotdot :: map (fun _ : bytes => dotdot) l ++ k) [SLASH]) = false).
  { intros l k Hk. rewrite IsLocal_climbs.
    - rewrite orb_false_r. apply beq_false. by destruct l, k.
    - apply Forall_app. split; [|done]. apply Forall_map, Forall_true. intros x. simpl.
      unfold dotdot. rewrite !not_elem_of_cons. repeat split; try done. apply not_elem_of_nil. }
  destruct (strip_common bs ts) as [[|b bs'] ts'] eqn:Es.
  - apply strip_common_prefix in Es. split; [intros _; by exists ts'|intros _].
    apply orb_true_iff. right. apply IsLocal_plain.
    + intros ->. rewrite app_nil_r in Es. congruence.
    + rewrite Es in Pp. by apply Forall_app in Pp as [_ Pp].
  - assert (Hnp : ~ bs `prefix_of` ts).
    { intros (r & Hr). apply strip_common_prefix in Hr. congruence. }
    pose proof (strip_common_suffix _ _ _ _ Es) as (q & Hq).
    assert (Hts : Forall (fun c => SLASH ∉ c) ts').
    { apply plain_no_slash. rewrite Hq in Pp. by apply Forall_app in Pp as [_ Pp]. }
    split; [|done]. pose proof (Hclimb bs' ts' Hts) as Hc.
    destruct ts' as [|t ts'']; [rewrite app_nil_r in Hc; rewrite Hc; done|].
    destruct (beq b dotdot); [done|]. by rewrite Hc.
Qed.
