(* ===== verification/GoSync.v ===== *)
(** * Go's concurrency, as far as the services use it

    A service's [Run] is a machine: its goroutines take steps, chosen by a label,
    and its context can be cancelled at any moment.  A step is an executable
    function, so that a schedule can be evaluated; a label that is not enabled
    gives [None].  Labels are of three kinds: those that bring something from
    outside (a datagram, a connection), those that the program takes by itself,
    and the others, which the outside may or may not let happen (a client hangs
    up); the failure of a system call on an open socket is a fault.

    [Stoppable] is what a service promises to the program that runs it: its work
    is bounded by what arrives, a cancelled context always leaves it a step of its
    own until it has returned, and once it has returned it holds nothing. *)

From stdpp Require Import gmap list relations.
From Stdlib Require Import Lia.
From S2P Require Import Prelude.

(** ** Machines *)

(** What [Run] returns: [Ok tt] for a nil error, otherwise the text in front of
    the wrapped cause. *)
Abbreviation exit := (result bytes unit).

Record machine := mkMachine {
  mc_state : Type;
  mc_label : Type;
  mc_init : mc_state;
  mc_step : mc_label -> mc_state -> option mc_state;
  mc_cancel : mc_state -> mc_state;
  mc_cancelled : mc_state -> bool;
  mc_arrives : mc_label -> bool;
  mc_own : mc_label -> bool;
  mc_fault : mc_label -> bool;
  mc_returned : mc_state -> option exit;
  mc_released : mc_state -> bool
}.

Section machines.
Context (M : machine).

(** A schedule, evaluated. *)
Fixpoint exec (ls : list (mc_label M)) (s : mc_state M) : option (mc_state M) :=
  match ls with
  | [] => Some s
  | l :: ls => match mc_step M l s with Some s => exec ls s | None => None end
  end.

(** The states of a run over some of the labels, in which the context may be
    cancelled at any time. *)
Inductive reachable_by (P : mc_label M -> Prop) : mc_state M -> Prop :=
| ReachInit : reachable_by P (mc_init M)
| ReachStep l s s' : reachable_by P s -> P l -> mc_step M l s = Some s' -> reachable_by P s'
| ReachCancel s : reachable_by P s -> reachable_by P (mc_cancel M s).

(** Every run, and the runs in which no system call fails by itself. *)
Definition reachable : mc_state M -> Prop := reachable_by (fun _ => True).
Definition faultless : mc_state M -> Prop := reachable_by (fun l => mc_fault M l = false).

Lemma faultless_reachable s : faultless s -> reachable s.
Proof. intros Hr. induction Hr; [apply ReachInit|by eapply ReachStep|by apply ReachCancel]. Qed.

Definition arrivals (ls : list (mc_label M)) : nat := length (filter (fun l => mc_arrives M l = true) ls).

Lemma arrivals_cons l ls : arrivals (l :: ls) = ((if mc_arrives M l then 1 else 0) + arrivals ls)%nat.
Proof. unfold arrivals. rewrite filter_cons. destruct (mc_arrives M l); repeat case_decide; done. Qed.

Lemma exec_app ls ls' s : exec (ls ++ ls') s = match exec ls s with Some s => exec ls' s | None => None end.
Proof. revert s. induction ls as [|l ls IH]; intros s; [done|]. simpl. by destruct (mc_step M l s). Qed.

Lemma exec_reachable_by P ls s s' : reachable_by P s -> Forall P ls -> exec ls s = Some s' -> reachable_by P s'.
Proof.
  intros Hs Hls. revert s Hs. induction Hls as [|l ls Hl _ IH]; intros s Hs; simpl; [by intros [= <-]|].
  destruct (mc_step M l s) as [s1|] eqn:E; [|done]. apply IH. by apply (ReachStep _ l s).
Qed.

Lemma exec_reachable ls s s' : reachable s -> exec ls s = Some s' -> reachable s'.
Proof. intros Hs. apply exec_reachable_by; [done|by apply Forall_true]. Qed.

(** Rule induction with an invariant: what holds at first, is kept by every step
    and by a cancellation holds throughout. *)
Lemma reachable_by_invariant (Q : mc_label M -> Prop) (P : mc_state M -> Prop) :
  P (mc_init M) -> (forall l s s', Q l -> P s -> mc_step M l s = Some s' -> P s') ->
  (forall s, P s -> P (mc_cancel M s)) -> forall s, reachable_by Q s -> P s.
Proof. intros Hi Hs Hc s Hr. induction Hr; eauto. Qed.

Lemma reachable_invariant (P : mc_state M -> Prop) :
  P (mc_init M) -> (forall l s s', P s -> mc_step M l s = Some s' -> P s') ->
  (forall s, P s -> P (mc_cancel M s)) -> forall s, reachable s -> P s.
Proof. intros Hi Hs Hc. apply reachable_by_invariant; eauto. Qed.

End machines.
Arguments exec {M}.
Arguments arrivals {M}.

(** ** The promise of a service to the program *)

Class Stoppable (M : machine) := {
  (** Steps left if nothing more arrives, and the steps one arrival adds. *)
  st_work : mc_state M -> nat;
  st_load : nat;
  st_own_arrives l : mc_own M l = true -> mc_arrives M l = false;
  st_step_work l s s' : reachable M s -> mc_step M l s = Some s' ->
    (st_work s' < st_work s + if mc_arrives M l then st_load else 0)%nat;
  st_cancel_work s : (st_work (mc_cancel M s) <= st_work s)%nat;
  st_cancel_done s : mc_cancelled M (mc_cancel M s) = true;
  st_step_done l s s' : mc_step M l s = Some s' -> mc_cancelled M s = true -> mc_cancelled M s' = true;
  (** A cancelled service can always go on by itself until it has returned. *)
  st_progress s : reachable M s -> mc_cancelled M s = true -> mc_returned M s = None ->
    exists l, mc_own M l = true /\ is_Some (mc_step M l s);
  st_returned_step l s s' r : mc_step M l s = Some s' -> mc_returned M s = Some r -> mc_returned M s' = Some r;
  st_returned_cancel s : mc_returned M (mc_cancel M s) = mc_returned M s;
  (** Nothing is held once it has returned. *)
  st_released s r : reachable M s -> mc_returned M s = Some r -> mc_released M s = true
}.

Section stopping.
Context {M : machine} `{!Stoppable M}.

(** However its goroutines are scheduled, a service takes no more steps than its
    work and what arrives allow. *)
Lemma work_bounds_steps ls s s' :
  reachable M s -> exec ls s = Some s' -> (length ls + st_work s' <= st_work s + st_load * arrivals ls)%nat.
Proof.
  revert s. induction ls as [|l ls IH]; intros s Hs; simpl; [intros [= <-]; lia|].
  destruct (mc_step M l s) as [s1|] eqn:E; [|done]. intros He.
  pose proof (st_step_work l s s1 Hs E) as Hw. specialize (IH s1 (ReachStep M _ l s s1 Hs I E) He).
  rewrite arrivals_cons. destruct (mc_arrives M l); lia.
Qed.

Lemma exec_cancelled ls s s' : exec ls s = Some s' -> mc_cancelled M s = true -> mc_cancelled M s' = true.
Proof.
  revert s. induction ls as [|l ls IH]; intros s; simpl; [by intros [= <-]|].
  destruct (mc_step M l s) as [s1|] eqn:E; [|done]. intros He Hc. eapply IH; [done|]. by eapply st_step_done.
Qed.

(** A service whose context is cancelled stops: every schedule is bounded, one
    that cannot be continued by the service alone has returned, and has then
    released what the service held. *)
Lemma cancelled_service_stops ls s s' :
  reachable M s -> mc_cancelled M s = true -> exec ls s = Some s' ->
  (length ls <= st_work s + st_load * arrivals ls)%nat /\
  ((exists r, mc_returned M s' = Some r /\ mc_released M s' = true) \/
   exists l, mc_own M l = true /\ is_Some (mc_step M l s')).
Proof.
  intros Hs Hc He. split; [pose proof (work_bounds_steps ls s s' Hs He); lia|].
  pose proof (exec_reachable M ls s s' Hs He) as Hs'.
  destruct (mc_returned M s') as [r|] eqn:Hr; [left; exists r; split; [done|by eapply st_released]|right].
  apply st_progress; [done|by eapply exec_cancelled|done].
Qed.

(** It also can be driven there by its own steps alone. *)
Lemma cancelled_service_returns s :
  reachable M s -> mc_cancelled M s = true ->
  exists ls s' r, Forall (fun l => mc_own M l = true) ls /\ exec ls s = Some s' /\ mc_returned M s' = Some r.
Proof.
  induction s as [s IH] using (induction_ltof1 _ st_work). intros Hs Hc.
  destruct (mc_returned M s) as [r|] eqn:Hr; [exists [], s, r; by repeat constructor|].
  destruct (st_progress s Hs Hc Hr) as (l & Hl & s1 & E).
  pose proof (st_step_work l s s1 Hs E) as Hw. rewrite st_own_arrives in Hw by done.
  destruct (IH s1) as (ls & s' & r & Hls & He & Hr').
  - unfold ltof. lia.
  - by apply (ReachStep M _ l s).
  - by eapply st_step_done.
  - exists (l :: ls), s', r. split; [by constructor|]. simpl. by rewrite E.
Qed.

End stopping.

(** A service that reports success whenever it was stopped by its context and no
    system call failed by itself. *)
Class Clean (M : machine) := {
  cl_exit s r : faultless M s -> mc_returned M s = Some r -> r = Ok tt
}.

(** ** Goroutines of a wait group

    The work left in a map of goroutines. *)

Section sum.
Context {K A : Type} `{Countable K} (f : A -> nat).

Definition msum (m : gmap K A) : nat := map_fold (fun _ x n => f x + n)%nat 0%nat m.

Lemma msum_insert_new m k x : m !! k = None -> msum (<[k:=x]> m) = (f x + msum m)%nat.
Proof. intros Hk. unfold msum. rewrite map_fold_insert_L; [done|intros; lia|done]. Qed.

Lemma msum_delete m k x : m !! k = Some x -> (msum (delete k m) + f x = msum m)%nat.
Proof.
  intros Hk. rewrite <- (insert_delete_id m k x Hk) at 2. rewrite msum_insert_new by apply lookup_delete_eq. lia.
Qed.

Lemma msum_insert m k x y : m !! k = Some x -> (msum (<[k:=y]> m) + f x = f y + msum m)%nat.
Proof.
  intros Hk. rewrite <- insert_delete_eq, msum_insert_new by apply lookup_delete_eq.
  rewrite <- (msum_delete m k x Hk). lia.
Qed.

Lemma msum_insert_le m k x : (msum (<[k:=x]> m) <= f x + msum m)%nat.
Proof.
  destruct (m !! k) as [y|] eqn:Hk; [pose proof (msum_insert m k y x Hk); lia|by rewrite msum_insert_new].
Qed.

Lemma msum_empty : msum ∅ = 0%nat.
Proof. apply map_fold_empty. Qed.

Lemma msum_fmap (g : A -> A) m : (forall x, f (g x) = f x) -> msum (g <$> m) = msum m.
Proof.
  intros Hg. induction m as [|k x m Hk IH] using map_ind; [by rewrite fmap_empty|].
  rewrite fmap_insert, !msum_insert_new; [by rewrite Hg, IH|done|by rewrite lookup_fmap, Hk].
Qed.

(** Goroutines that each have some work left are at most as many as the work. *)
Lemma msum_size m (X : gset K) :
  (forall k, k ∈ X -> exists x, m !! k = Some x /\ (1 <= f x)%nat) -> (size X <= msum m)%nat.
Proof.
  revert X. induction m as [|k x m Hk IH] using map_ind; intros X HX.
  - rewrite msum_empty. assert (He : X = ∅); [|by rewrite He, size_empty].
    apply set_eq. intros k. split; [|set_solver]. intros (x & Hx & _)%HX. by rewrite lookup_empty in Hx.
  - rewrite (msum_insert_new m k x Hk). specialize (IH (X ∖ {[k]})).
    assert (Hs : (size (X ∖ {[k]}) <= msum m)%nat).
    { apply IH. intros k' [Hk' Hne%not_elem_of_singleton]%elem_of_difference. apply HX in Hk' as (y & Hy & Hf).
      rewrite lookup_insert_ne in Hy by done. eauto. }
    destruct (decide (k ∈ X)) as [Hin|Hout].
    + destruct (HX k Hin) as (y & Hy & Hf). rewrite lookup_insert_eq in Hy. injection Hy as <-.
      rewrite size_difference in Hs by set_solver. rewrite size_singleton in Hs. lia.
    + replace (X ∖ {[k]}) with X in Hs by set_solver. lia.
Qed.
End sum.

(** ** context.AfterFunc

    The function is armed until the context is cancelled or [stop] is called,
    whichever comes first; once started it runs in a goroutine of its own. *)

Inductive hook := HNone | HArmed | HStopped | HStarted | HClosed | HFinished.

#[export] Instance hook_eq_dec : EqDecision hook.
Proof. solve_decision. Defined.

(** The context starts the function; it closes its connection and then reports
    that it has done so (by closing a channel, or by returning). *)
Definition hook_step (cancelled : bool) (h : hook) : option hook :=
  match h with
  | HArmed => if cancelled then Some HStarted else None
  | HStarted => Some HClosed
  | HClosed => Some HFinished
  | HNone | HStopped | HFinished => None
  end.

(** [stop()]: whether it kept the function from running. *)
Definition hook_stop (h : hook) : bool * hook :=
  match h with
  | HArmed => (true, HStopped)
  | h => (false, h)
  end.

Definition hook_work (h : hook) : nat :=
  match h with HArmed => 3 | HStarted => 2 | HClosed => 1 | HNone | HStopped | HFinished => 0 end.

(** ** A socket that a cancelled context closes *)

Record owned := mkOwned { ow_cancelled : bool; ow_hook : hook; ow_open : bool }.

Definition own_init : owned := mkOwned false HNone false.
Definition own_cancel (o : owned) : owned := mkOwned true (ow_hook o) (ow_open o).
Definition own_opened (o : owned) : owned := mkOwned (ow_cancelled o) HArmed true.
Definition own_close (o : owned) : owned := mkOwned (ow_cancelled o) (ow_hook o) false.

(** The goroutine of the registered function. *)
Definition own_hook (o : owned) : option owned :=
  match hook_step (ow_cancelled o) (ow_hook o) with
  | Some h => Some (mkOwned (ow_cancelled o) h (if bool_decide (h = HClosed) then false else ow_open o))
  | None => None
  end.

(** [if !stop() { <-closed }]: [true] when there is nothing to wait for. *)
Definition own_stop (o : owned) : bool * owned :=
  let '(b, h) := hook_stop (ow_hook o) in (b, mkOwned (ow_cancelled o) h (ow_open o)).
Definition own_waited (o : owned) : bool := bool_decide (ow_hook o = HFinished).

(** Where the owner is: before it has the socket, using it, waiting for the
    function to finish, about to close, or finished. *)
Inductive phase := Before | Serving | Waiting | Closing | Over.

Definition phase_hook (p : phase) (o : owned) : bool :=
  match ow_hook o, p with
  | HNone, (Before | Over) => negb (ow_open o)
  | HArmed, Serving => ow_open o
  | HStarted, (Serving | Waiting) => ow_open o && ow_cancelled o
  | (HClosed | HFinished), (Serving | Waiting) => negb (ow_open o) && ow_cancelled o
  | HFinished, (Closing | Over) => negb (ow_open o) && ow_cancelled o
  | HStopped, Closing => ow_open o
  | HStopped, Over => negb (ow_open o)
  | _, _ => false
  end.

(** The tests of a step, one case each. *)
Ltac step_cases E :=
  repeat match type of E with
  | None = Some _ => discriminate E
  | context [match ?x with _ => _ end] =>
      lazymatch x with context [match _ with _ => _ end] => fail | _ => destruct x eqn:? end
  end;
  try match type of E with
  | Some _ = Some _ => injection E as E
  end; subst.

Ltac owned_cases := repeat match goal with o : owned |- _ => destruct o as [[] [] []] end.

Create HintDb own discriminated.

Lemma own_cancel_ok p o : phase_hook p o = true -> phase_hook p (own_cancel o) = true.
Proof. owned_cases; by destruct p. Qed.

Lemma own_opened_ok o : phase_hook Before o = true -> phase_hook Serving (own_opened o) = true.
Proof. by owned_cases. Qed.

Lemma own_failed_ok o : phase_hook Before o = true -> phase_hook Over o = true.
Proof. by owned_cases. Qed.

Lemma own_hook_ok p o o' : phase_hook p o = true -> own_hook o = Some o' -> phase_hook p o' = true.
Proof. destruct o as [[] [] []], p; intros Hk [=]; subst; done. Qed.

Lemma own_hook_work o o' : own_hook o = Some o' -> (hook_work (ow_hook o') < hook_work (ow_hook o))%nat.
Proof. destruct o as [[] [] []]; intros [=]; subst; simpl; lia. Qed.

Lemma own_hook_cancelled o o' : own_hook o = Some o' -> ow_cancelled o' = ow_cancelled o.
Proof. destruct o as [[] [] []]; intros [=]; subst; done. Qed.

Lemma own_hook_none o : ow_hook o = HNone -> own_hook o = None.
Proof. by destruct o as [[] [] []]. Qed.

Lemma own_hook_closed o o' : own_hook o = Some o' -> ow_open o = false -> ow_open o' = false.
Proof. destruct o as [[] [] []]; intros [=]; subst; done. Qed.

(** A cancelled owner of an open socket is never left waiting for it: the
    function that closes it is on its way. *)
Lemma own_open_hook o :
  phase_hook Serving o = true -> ow_cancelled o = true -> ow_open o = true -> is_Some (own_hook o).
Proof. destruct o as [[] [] []]; intros; try done; eexists; reflexivity. Qed.

Lemma own_wait_hook o : phase_hook Waiting o = true -> own_waited o = false -> is_Some (own_hook o).
Proof. destruct o as [[] [] []]; intros; try done; eexists; reflexivity. Qed.

Lemma own_stopped_ok o o' : phase_hook Serving o = true -> own_stop o = (true, o') -> phase_hook Closing o' = true.
Proof. destruct o as [[] [] []]; intros ? [=]; subst; done. Qed.

Lemma own_unstopped_ok o o' : phase_hook Serving o = true -> own_stop o = (false, o') -> phase_hook Waiting o' = true.
Proof. destruct o as [[] [] []]; intros ? [=]; subst; done. Qed.

Lemma own_stop_work o b o' : own_stop o = (b, o') -> (hook_work (ow_hook o') <= hook_work (ow_hook o))%nat.
Proof. destruct o as [[] [] []]; intros [=]; subst; simpl; lia. Qed.

Lemma own_stop_cancelled o b o' : own_stop o = (b, o') -> ow_cancelled o' = ow_cancelled o.
Proof. destruct o as [[] [] []]; intros [=]; subst; done. Qed.

Lemma own_waited_ok o : phase_hook Waiting o = true -> own_waited o = true -> phase_hook Closing o = true.
Proof. by owned_cases. Qed.

Lemma own_close_ok o : phase_hook Closing o = true -> phase_hook Over (own_close o) = true.
Proof. by owned_cases. Qed.

Lemma own_over o : phase_hook Over o = true -> ow_open o = false.
Proof. by owned_cases. Qed.

(** A closed socket that is still in use was closed by the context. *)
Lemma own_closed_cancelled o : phase_hook Serving o = true -> ow_open o = false -> ow_cancelled o = true.
Proof. by owned_cases. Qed.

(** What the function's goroutine and [stop] do to the work left and the context. *)
Ltac own_facts :=
  repeat match goal with
  | H : own_hook _ = Some _ |- _ => pose proof (own_hook_work _ _ H); apply own_hook_cancelled in H
  | H : own_stop _ = _ |- _ => pose proof (own_stop_work _ _ _ H); apply own_stop_cancelled in H
  end; cbn [own_opened own_close own_cancel ow_hook ow_cancelled hook_work] in *.

(** A nil result has a reason: the context. *)
Definition exit_reason (o : owned) (r : exit) : Prop :=
  match r with Ok _ => ow_cancelled o = true | Err _ => True end.

(** An error path that looks at the context before it reports the error. *)
Definition unlessCancelled (o : owned) (e : bytes) : exit := if ow_cancelled o then Ok tt else Err e.

Lemma unlessCancelled_reason o e : exit_reason o (unlessCancelled o e).
Proof. unfold unlessCancelled. by destruct (ow_cancelled o) eqn:E. Qed.

Lemma exit_reason_cancelled o r : ow_cancelled o = true -> exit_reason o r.
Proof. by destruct r. Qed.

Lemma exit_reason_hook o o' r : exit_reason o r -> own_hook o = Some o' -> exit_reason o' r.
Proof. destruct r; [|done]. intros Hr Ho. unfold exit_reason. by rewrite (own_hook_cancelled _ _ Ho). Qed.

Lemma exit_reason_stop o b o' r : exit_reason o r -> own_stop o = (b, o') -> exit_reason o' r.
Proof. destruct r; [|done]. intros Hr Ho. unfold exit_reason. by rewrite (own_stop_cancelled _ _ _ Ho). Qed.

#[export] Hint Resolve unlessCancelled_reason exit_reason_cancelled exit_reason_hook exit_reason_stop : own.
#[export] Hint Resolve own_cancel_ok own_opened_ok own_failed_ok own_hook_ok own_stopped_ok own_unstopped_ok
  own_waited_ok own_close_ok own_over own_closed_cancelled : own.
