(* ===== verification/Lease.v ===== *)
(** * Package internal/lease: the DHCP lease manager and its persistence

    The manager's state is three maps: committed leases and outstanding offers
    by client, quarantined addresses by address.  Every exported method takes
    the clock reading it makes as an argument, since each runs under the
    manager's mutex and reads the clock once, right after locking.  The lease
    file is part of the modelled system: [persist] replaces it atomically or
    fails at one of its steps and leaves it unchanged. *)

From stdpp Require Import gmap list strings sorting.
From Stdlib Require Import ZArith Lia.
From S2P Require Import Prelude GoStrings Names GoNet.

(** ** Data *)

Record Lease := mkLease {
  ClientID : bytes;
  IP : Addr;
  Hostname : bytes;
  ExpiresAt : time
}.

Record Config := mkConfig {
  PoolStart : Addr;
  PoolEnd : Addr;
  Domain : bytes;
  LeaseDuration : duration;
  OfferDuration : duration;
  DeclineDuration : duration;
  ReservedNames : list bytes;
  File : bytes
}.

Record state := mkState {
  leases : gmap bytes Lease;
  offers : gmap bytes Lease;
  declined : gmap Addr time
}.

Record Manager := mkManager {
  cfg : Config;
  mstate : state;
  reservedNames : gset bytes
}.

Definition newState : state := mkState ∅ ∅ ∅.

Definition set_state (m : Manager) (s : state) : Manager :=
  mkManager (cfg m) s (reservedNames m).

(** What JSON persistence saves: no offers. *)
Record declinedAddress := mkDeclined { d_IP : Addr; d_ExpiresAt : time }.
Record persistedState := mkPersisted {
  Version : Z;
  Leases : list Lease;
  Declined : list declinedAddress
}.

(** The lease file as [restore] finds it. *)
Inductive file :=
| FileAbsent
| FileUnreadable
| FileUndecodable
| FileTrailing (saved : persistedState)
| FileSaved (saved : persistedState).

(** The steps of [persist] that the operating system may refuse. *)
Inductive persist_step := StMkdirAll | StCreateTemp | StEncode | StSync | StClose | StRename.

Inductive lease_error :=
| ErrPoolExhausted
| ErrUnavailable
| ErrPersist (step : persist_step).

Inductive restore_error :=
| ErrOpen
| ErrDecode
| ErrTrailing
| ErrVersion (v : Z)
| ErrInvalidLease
| ErrInvalidHostname (name : bytes)
| ErrDuplicateClient (id : bytes)
| ErrDuplicateAddress (ip : Addr)
| ErrDuplicateHostname (name : bytes)
| ErrInvalidDeclined
| ErrDuplicateDeclined (ip : Addr).

Inductive new_error :=
| ErrPoolRange
| ErrDomain
| ErrLeaseDuration
| ErrNegativeDuration
| ErrReservedASCII (name : bytes)
| ErrReservedHostname (name : bytes)
| ErrRestore (e : restore_error).

Definition second : duration := 1000000000.
Definition minute : duration := 60 * second.

(** Go's zero [time.Time], 1 January of the year 1. *)
Definition zeroTime : time := -62135596800 * second.
Definition IsZero (t : time) : bool := t =? zeroTime.

(** [t.After u]. *)
Definition After (t u : time) : bool := u <? t.

(** ** Queries on the state *)

Definition inPool (c : Config) (ip : Addr) : bool :=
  Is4 ip && addr_leb (PoolStart c) ip && addr_leb ip (PoolEnd c).

Definition validClientID (clientID : bytes) : bool :=
  negb (beq clientID []) && ValidString clientID.

(** The addresses of the entries of [l] whose client is not [clientID]. *)
Definition othersIPs (clientID : bytes) (l : gmap bytes Lease) : gset Addr :=
  list_to_set (map (fun '(_, e) => IP e)
    (filter (fun '(otherID, _) => otherID <> clientID) (map_to_list l))).

Definition occupied (s : state) (clientID : bytes) : gset Addr :=
  othersIPs clientID (leases s) ∪ othersIPs clientID (offers s) ∪ dom (declined s).

Definition entryAt (l : gmap bytes Lease) (clientID : bytes) (ip : Addr) : bool :=
  match l !! clientID with Some e => addr_eqb (IP e) ip | None => false end.

Definition owns (s : state) (clientID : bytes) (ip : Addr) : bool :=
  entryAt (leases s) clientID ip || entryAt (offers s) clientID ip.

(** [state.remove]: the second test reads the offers after the leases were
    updated, which does not affect it. *)
Definition remove (s : state) (clientID : bytes) (ip : Addr) : state :=
  mkState
    (if entryAt (leases s) clientID ip then delete clientID (leases s) else leases s)
    (if entryAt (offers s) clientID ip then delete clientID (offers s) else offers s)
    (declined s).

Definition expire (now : time) (s : state) : state :=
  mkState
    (filter (fun e : bytes * Lease => now < ExpiresAt e.2) (leases s))
    (filter (fun e : bytes * Lease => now < ExpiresAt e.2) (offers s))
    (filter (fun e : Addr * time => now < e.2) (declined s)).

(** ** Persistence *)

Definition lease_le (a b : Lease) : Prop := addr_leb (IP a) (IP b) = true.
Definition declined_le (a b : declinedAddress) : Prop := addr_leb (d_IP a) (d_IP b) = true.

#[export] Instance lease_le_dec : RelDecision lease_le.
Proof. intros a b. apply bool_eq_dec. Defined.
#[export] Instance declined_le_dec : RelDecision declined_le.
Proof. intros a b. apply bool_eq_dec. Defined.

(** The document [persist] encodes: both lists in address order. *)
Definition snapshot (next : state) : persistedState :=
  mkPersisted 1
    (merge_sort lease_le (map snd (map_to_list (leases next))))
    (merge_sort declined_le
       (map (fun '(ip, until) => mkDeclined ip until) (map_to_list (declined next)))).

(** [persist]: [io] is the step the operating system refuses, if any.  The
    rename is the last step, so a refusal leaves the file as it was. *)
Definition persist (c : Config) (io : option persist_step) (disk : file) (next : state)
    : result lease_error unit * file :=
  if beq (File c) [] then (Ok tt, disk)
  else match io with
       | Some step => (Err (ErrPersist step), disk)
       | None => (Ok tt, FileSaved (snapshot next))
       end.

(** The first loop of [restore]: the accumulators are the leases accepted so
    far, the addresses and the names seen. *)
Fixpoint restoreLeases (c : Config) (reserved : gset bytes) (now : time)
    (saved : list Lease) (acc : gmap bytes Lease) (addresses : gset Addr) (names : gset bytes)
    : result restore_error (gmap bytes Lease * gset Addr) :=
  match saved with
  | [] => Ok (acc, addresses)
  | current :: rest =>
      if negb (validClientID (ClientID current)) || negb (inPool c (IP current))
         || IsZero (ExpiresAt current)
      then Err ErrInvalidLease
      else if negb (beq (Hostname current) [])
              && (negb (beq (NormalizeHostname (Hostname current) (Domain c)) (Hostname current))
                  || beq (Hostname current) (str "ns." ++ Domain c ++ [DOT]))
      then Err (ErrInvalidHostname (Hostname current))
      else if negb (After (ExpiresAt current) now)
      then restoreLeases c reserved now rest acc addresses names
      else if bool_decide (is_Some (acc !! ClientID current))
      then Err (ErrDuplicateClient (ClientID current))
      else if bool_decide (IP current ∈ addresses)
      then Err (ErrDuplicateAddress (IP current))
      else if negb (beq (Hostname current) []) && bool_decide (Hostname current ∈ names)
      then Err (ErrDuplicateHostname (Hostname current))
      else
        let names' := if beq (Hostname current) [] then names else {[Hostname current]} ∪ names in
        let kept := if bool_decide (Hostname current ∈ reserved)
                    then mkLease (ClientID current) (IP current) [] (ExpiresAt current)
                    else current in
        restoreLeases c reserved now rest (<[ClientID current := kept]> acc)
          ({[IP current]} ∪ addresses) names'
  end.

Fixpoint restoreDeclined (c : Config) (now : time) (saved : list declinedAddress)
    (acc : gmap Addr time) (addresses : gset Addr) : result restore_error (gmap Addr time) :=
  match saved with
  | [] => Ok acc
  | d :: rest =>
      if negb (inPool c (d_IP d)) || IsZero (d_ExpiresAt d) then Err ErrInvalidDeclined
      else if negb (After (d_ExpiresAt d) now) then restoreDeclined c now rest acc addresses
      else if bool_decide (d_IP d ∈ addresses) then Err (ErrDuplicateDeclined (d_IP d))
      else restoreDeclined c now rest (<[d_IP d := d_ExpiresAt d]> acc) ({[d_IP d]} ∪ addresses)
  end.

Definition restore (c : Config) (reserved : gset bytes) (now : time) (disk : file)
    : result restore_error state :=
  if beq (File c) [] then Ok newState
  else match disk with
       | FileAbsent => Ok newState
       | FileUnreadable => Err ErrOpen
       | FileUndecodable => Err ErrDecode
       | FileTrailing _ => Err ErrTrailing
       | FileSaved saved =>
           if negb (Version saved =? 1) then Err (ErrVersion (Version saved))
           else match restoreLeases c reserved now (Leases saved) ∅ ∅ ∅ with
                | Err e => Err e
                | Ok (ls, addresses) =>
                    match restoreDeclined c now (Declined saved) ∅ addresses with
                    | Err e => Err e
                    | Ok ds => Ok (mkState ls ∅ ds)
                    end
                end
       end.

(** ** Construction *)

(** The loop over [cfg.ReservedNames]. *)
Fixpoint reserveNames (domain : bytes) (names : list bytes) (acc : gset bytes)
    : result new_error (gset bytes) :=
  match names with
  | [] => Ok acc
  | name :: rest =>
      if existsb (fun c => 128 <=? c) (runes name) then Err (ErrReservedASCII name)
      else
        let canonical := NormalizeHostname name domain in
        let apex := beq (TrimSuffix (ToLower name) [DOT]) domain in
        if beq canonical [] || apex then Err (ErrReservedHostname name)
        else reserveNames domain rest ({[canonical]} ∪ acc)
  end.

Definition defaultTo (d fallback : duration) : duration := if d =? 0 then fallback else d.

Definition newManager (c : Config) (now : time) (disk : file) : result new_error Manager :=
  let start := Unmap (PoolStart c) in
  let end_ := Unmap (PoolEnd c) in
  if negb (Is4 start) || negb (Is4 end_) || negb (addr_leb start end_) then Err ErrPoolRange
  else
    let domain := ToLower (TrimSuffix (TrimSpace (Domain c)) [DOT]) in
    if negb (validDNSName domain) then Err ErrDomain
    else if LeaseDuration c <=? 0 then Err ErrLeaseDuration
    else if (OfferDuration c <? 0) || (DeclineDuration c <? 0) then Err ErrNegativeDuration
    else
      let builtin : gset bytes :=
        {[ str "ns." ++ domain ++ [DOT]; str "gateway." ++ domain ++ [DOT] ]} in
      match reserveNames domain (ReservedNames c) builtin with
      | Err e => Err e
      | Ok reserved =>
          let c' := mkConfig start end_ domain (LeaseDuration c)
                      (defaultTo (OfferDuration c) minute)
                      (defaultTo (DeclineDuration c) (10 * minute)) [] (File c) in
          match restore c' reserved now disk with
          | Err e => Err (ErrRestore e)
          | Ok s => Ok (mkManager c' s reserved)
          end
      end.

(** ** Allocation *)

(** The search for a free address, in address order; [fuel] bounds the number
    of candidates and is the size of the pool. *)
Fixpoint firstFree (fuel : nat) (candidate end_ : Addr) (occ : gset Addr) : Addr :=
  match fuel with
  | O => AddrNone
  | S k =>
      if IsValid candidate && addr_leb candidate end_ then
        if bool_decide (candidate ∈ occ) then firstFree k (Next candidate) end_ occ
        else candidate
      else AddrNone
  end.

Definition poolSize (c : Config) : nat :=
  Z.to_nat (addr_value (PoolEnd c) - addr_value (PoolStart c) + 1).

(** The name an offer records. *)
Definition offerName (m : Manager) (s : state) (clientID hostname fallback : bytes) : bytes :=
  if beq hostname [] then
    match offers s !! clientID with
    | Some previous => Hostname previous
    | None =>
        match leases s !! clientID with
        | Some current => if beq (Hostname current) [] then NormalizeHostname fallback (Domain (cfg m))
                          else Hostname current
        | None => NormalizeHostname fallback (Domain (cfg m))
        end
    end
  else NormalizeHostname hostname (Domain (cfg m)).

(** The address an offer reserves; [AddrNone] when the pool is exhausted. *)
Definition offerIP (m : Manager) (s : state) (clientID : bytes) (requested : Addr) : Addr :=
  match leases s !! clientID with
  | Some current => IP current
  | None =>
      match offers s !! clientID with
      | Some previous => IP previous
      | None =>
          let occ := occupied s clientID in
          let requested := Unmap requested in
          if inPool (cfg m) requested && negb (bool_decide (requested ∈ occ)) then requested
          else firstFree (poolSize (cfg m)) (PoolStart (cfg m)) (PoolEnd (cfg m)) occ
      end
  end.

Definition OfferWithFallback (m : Manager) (now : time) (clientID : bytes) (requested : Addr)
    (hostname fallback : bytes) : result lease_error Lease * Manager :=
  let s := expire now (mstate m) in
  let m := set_state m s in
  if negb (validClientID clientID) then (Err ErrUnavailable, m)
  else
    let name := offerName m s clientID hostname fallback in
    let ip := offerIP m s clientID requested in
    if negb (IsValid ip) then (Err ErrPoolExhausted, m)
    else
      let offer := mkLease clientID ip name (now + OfferDuration (cfg m)) in
      (Ok offer, set_state m (mkState (leases s) (<[clientID := offer]> (offers s)) (declined s))).

Definition Offer (m : Manager) (now : time) (clientID : bytes) (requested : Addr)
    (hostname : bytes) : result lease_error Lease * Manager :=
  OfferWithFallback m now clientID requested hostname [].

(** The name a commit asks for, before reservation and ownership checks. *)
Definition commitWish (m : Manager) (s : state) (clientID : bytes) (ip : Addr)
    (hostname fallback : bytes) : bytes :=
  if beq hostname [] then
    let current :=
      match leases s !! clientID with
      | Some current => if beq (Hostname current) [] then NormalizeHostname fallback (Domain (cfg m))
                        else Hostname current
      | None => NormalizeHostname fallback (Domain (cfg m))
      end in
    match offers s !! clientID with
    | Some offered => if addr_eqb (IP offered) ip then Hostname offered else current
    | None => current
    end
  else NormalizeHostname hostname (Domain (cfg m)).

(** Does a lease of another client carry [name]? *)
Definition nameTaken (s : state) (clientID name : bytes) : bool :=
  bool_decide (Exists (fun e : bytes * Lease => e.1 <> clientID /\ Hostname e.2 = name)
                      (map_to_list (leases s))).

Definition commitName (m : Manager) (s : state) (clientID : bytes) (ip : Addr)
    (hostname fallback : bytes) : bytes :=
  let name := commitWish m s clientID ip hostname fallback in
  let name := if bool_decide (name ∈ reservedNames m) then [] else name in
  if negb (beq name []) && nameTaken s clientID name then [] else name.

(** [publish]: the new state becomes visible only once it is saved. *)
Definition publish (m : Manager) (io : option persist_step) (disk : file) (next : state)
    : result lease_error unit * Manager * file :=
  match persist (cfg m) io disk next with
  | (Err e, disk') => (Err e, m, disk')
  | (Ok tt, disk') => (Ok tt, set_state m next, disk')
  end.

Definition CommitWithFallback (m : Manager) (now : time) (io : option persist_step) (disk : file)
    (clientID : bytes) (ip : Addr) (hostname fallback : bytes)
    : result lease_error Lease * Manager * file :=
  let s := expire now (mstate m) in
  let m := set_state m s in
  let ip := Unmap ip in
  if negb (validClientID clientID) || negb (inPool (cfg m) ip)
     || bool_decide (ip ∈ occupied s clientID)
  then (Err ErrUnavailable, m, disk)
  else
    let name := commitName m s clientID ip hostname fallback in
    let committed := mkLease clientID ip name (now + LeaseDuration (cfg m)) in
    let next := mkState (<[clientID := committed]> (leases s)) (delete clientID (offers s))
                        (declined s) in
    match publish m io disk next with
    | (Err e, m', disk') => (Err e, m', disk')
    | (Ok tt, m', disk') => (Ok committed, m', disk')
    end.

Definition Commit (m : Manager) (now : time) (io : option persist_step) (disk : file)
    (clientID : bytes) (ip : Addr) (hostname : bytes)
    : result lease_error Lease * Manager * file :=
  CommitWithFallback m now io disk clientID ip hostname [].

Definition Release (m : Manager) (now : time) (io : option persist_step) (disk : file)
    (clientID : bytes) (ip : Addr) : result lease_error unit * Manager * file :=
  let s := expire now (mstate m) in
  let m := set_state m s in
  let ip := Unmap ip in
  if negb (owns s clientID ip) then (Err ErrUnavailable, m, disk)
  else publish m io disk (remove s clientID ip).

Definition Decline (m : Manager) (now : time) (io : option persist_step) (disk : file)
    (clientID : bytes) (ip : Addr) : result lease_error unit * Manager * file :=
  let s := expire now (mstate m) in
  let m := set_state m s in
  let ip := Unmap ip in
  if negb (owns s clientID ip) then (Err ErrUnavailable, m, disk)
  else
    let next := remove s clientID ip in
    publish m io disk (mkState (leases next) (offers next)
                         (<[ip := now + DeclineDuration (cfg m)]> (declined next))).

(** ** Lookups *)

(** The first lease, in map order, that satisfies a test. *)
Definition findLease (test : Lease -> bool) (s : state) : option Lease :=
  find test (map snd (map_to_list (leases s))).

Definition LookupName (m : Manager) (now : time) (name : bytes) : option Lease * Manager :=
  let s := expire now (mstate m) in
  let m := set_state m s in
  let name := NormalizeHostname name (Domain (cfg m)) in
  if beq name [] || bool_decide (name ∈ reservedNames m) then (None, m)
  else (findLease (fun current => beq (Hostname current) name) s, m).

Definition HasName (m : Manager) (now : time) (name : bytes) : bool * Manager :=
  let s := expire now (mstate m) in
  let m := set_state m s in
  let canonical := ToLower (TrimSuffix name [DOT]) in
  let name := if beq canonical (Domain (cfg m)) then canonical ++ [DOT]
              else NormalizeHostname name (Domain (cfg m)) in
  if beq name [] then (false, m)
  else
    (existsb (fun current =>
        negb (beq (Hostname current) [] || bool_decide (Hostname current ∈ reservedNames m))
        && (beq (Hostname current) name || HasSuffix (Hostname current) ([DOT] ++ name)))
      (map snd (map_to_list (leases s))), m).

Definition LookupIP (m : Manager) (now : time) (ip : Addr) : option Lease * Manager :=
  let s := expire now (mstate m) in
  let m := set_state m s in
  let ip := Unmap ip in
  (findLease (fun current => addr_eqb (IP current) ip) s, m).
