(* ===== verification/LeaseFacts.v ===== *)
(** * Package internal/lease: the manager's invariant and its lemmas

    The well-formedness invariant of the lease state, what each query of
    Lease.v computes on a well-formed state, and that every operation keeps the
    invariant.  The properties built on these lemmas are in LeaseProps.v. *)

From stdpp Require Import gmap list strings sorting.
From Stdlib Require Import ZArith Lia.
From S2P Require Import Prelude GoStrings Names GoNet Lease.

(** ** The invariant *)

(** [id] holds [ip]: its lease or its offer is on that address. *)
Definition holds (s : state) (id : bytes) (ip : Addr) : Prop :=
  (exists l, leases s !! id = Some l /\ IP l = ip) \/
  (exists o, offers s !! id = Some o /\ IP o = ip).

(** A configuration as [newManager] canonicalises it. *)
Record cfg_wf (c : Config) (reserved : gset bytes) : Prop := {
  cfg_pool : exists a b, PoolStart c = Addr4 a /\ PoolEnd c = Addr4 b /\ a <= b /\ b < 2 ^ 32;
  cfg_domain : validDNSName (Domain c) = true;
  cfg_durations : 0 < LeaseDuration c /\ 0 < OfferDuration c /\ 0 < DeclineDuration c;
  cfg_reserved : ([] ∉ reserved) /\ (str "ns." ++ Domain c ++ [DOT] ∈ reserved)
                 /\ (str "gateway." ++ Domain c ++ [DOT] ∈ reserved)
}.

(** An entry of the lease or offer map under its client. *)
Definition entry_wf (c : Config) (id : bytes) (l : Lease) : Prop :=
  ClientID l = id /\ validClientID id = true /\ inPool c (IP l) = true /\
  zeroTime < ExpiresAt l /\ (Hostname l = [] \/ canonicalUnder (Domain c) (Hostname l)).

Record wf (c : Config) (reserved : gset bytes) (s : state) : Prop := {
  wf_leases : forall id l, leases s !! id = Some l -> entry_wf c id l /\ Hostname l ∉ reserved;
  wf_offers : forall id o, offers s !! id = Some o -> entry_wf c id o;
  wf_declined : forall ip t, declined s !! ip = Some t -> inPool c ip = true /\ zeroTime < t;
  wf_exclusive : forall id1 id2 ip, holds s id1 ip -> holds s id2 ip -> id1 = id2;
  wf_quarantine : forall id ip, holds s id ip -> declined s !! ip = None;
  wf_names : forall id1 id2 l1 l2, leases s !! id1 = Some l1 -> leases s !! id2 = Some l2 ->
    Hostname l1 = Hostname l2 -> Hostname l1 <> [] -> id1 = id2
}.

Definition manager_wf (m : Manager) : Prop :=
  cfg_wf (cfg m) (reservedNames m) /\ wf (cfg m) (reservedNames m) (mstate m).

(** ** Queries *)

Lemma entryAt_spec l id ip : entryAt l id ip = true <-> exists e, l !! id = Some e /\ IP e = ip.
Proof.
  unfold entryAt. destruct (l !! id) as [e|]; [rewrite addr_eqb_true|]; naive_solver.
Qed.

Lemma owns_spec s id ip : owns s id ip = true <-> holds s id ip.
Proof. unfold owns, holds. by rewrite orb_true_iff, !entryAt_spec. Qed.

Lemma othersIPs_spec c l ip :
  ip ∈ othersIPs c l <-> exists id e, l !! id = Some e /\ id <> c /\ IP e = ip.
Proof.
  unfold othersIPs. rewrite elem_of_list_to_set, list_elem_of_fmap. split.
  - intros ([id e] & -> & [Hne Hin]%list_elem_of_filter).
    apply elem_of_map_to_list in Hin. eauto.
  - intros (id & e & Hl & Hne & <-). exists (id, e). split; [done|].
    apply list_elem_of_filter. split; [done|]. by apply elem_of_map_to_list.
Qed.

Lemma occupied_spec s c ip :
  ip ∈ occupied s c <->
  (exists id, id <> c /\ holds s id ip) \/ is_Some (declined s !! ip).
Proof.
  unfold occupied, holds. rewrite !elem_of_union, !othersIPs_spec, elem_of_dom. naive_solver.
Qed.

Lemma nameTaken_spec s c name :
  nameTaken s c name = true <-> exists id l, leases s !! id = Some l /\ id <> c /\ Hostname l = name.
Proof.
  unfold nameTaken. rewrite bool_decide_eq_true, Exists_exists. split.
  - intros ([id l] & Hin & Hne & Hn). apply elem_of_map_to_list in Hin. eauto.
  - intros (id & l & Hl & Hne & Hn). exists (id, l). by rewrite elem_of_map_to_list.
Qed.

Lemma expire_leases now s id l :
  leases (expire now s) !! id = Some l <-> leases s !! id = Some l /\ now < ExpiresAt l.
Proof. simpl. by rewrite map_lookup_filter_Some. Qed.

Lemma expire_offers now s id o :
  offers (expire now s) !! id = Some o <-> offers s !! id = Some o /\ now < ExpiresAt o.
Proof. simpl. by rewrite map_lookup_filter_Some. Qed.

Lemma expire_declined now s ip t :
  declined (expire now s) !! ip = Some t <-> declined s !! ip = Some t /\ now < t.
Proof. simpl. by rewrite map_lookup_filter_Some. Qed.

(** A lookup by a test that at most one lease satisfies does not depend on the
    order in which the map is visited. *)
Lemma findLease_Some test s l :
  findLease test s = Some l -> test l = true /\ exists id, leases s !! id = Some l.
Proof.
  unfold findLease. intros [Hin Ht]%find_some. split; [done|].
  apply in_map_iff in Hin as ([id e] & <- & Hin). exists id.
  by apply elem_of_map_to_list, list_elem_of_In.
Qed.

Lemma findLease_None test s id l :
  findLease test s = None -> leases s !! id = Some l -> test l = false.
Proof.
  unfold findLease. intros Hf Hl. apply (find_none _ _ Hf), in_map_iff.
  exists (id, l). split; [done|]. by apply list_elem_of_In, elem_of_map_to_list.
Qed.

Lemma findLease_unique test s id l :
  leases s !! id = Some l -> test l = true ->
  (forall id' l', leases s !! id' = Some l' -> test l' = true -> l' = l) ->
  findLease test s = Some l.
Proof.
  intros Hl Ht Hu. destruct (findLease test s) as [l'|] eqn:E.
  - apply findLease_Some in E as (Ht' & id' & Hl'). f_equal. eauto.
  - pose proof (findLease_None _ _ _ _ E Hl). congruence.
Qed.

(** ** The search for a free address *)

Lemma firstFree_spec fuel v b occ :
  b < 2 ^ 32 -> v <= b + 1 -> fuel = Z.to_nat (b - v + 1) ->
  match firstFree fuel (if v =? b + 1 then Next (Addr4 b) else Addr4 v) (Addr4 b) occ with
  | AddrNone => forall y, v <= y <= b -> Addr4 y ∈ occ
  | Addr4 x => v <= x <= b /\ (Addr4 x ∉ occ) /\ forall y, v <= y < x -> Addr4 y ∈ occ
  | Addr6 _ _ => False
  end.
Proof.
  intros Hb. revert v. induction fuel as [|k IH]; intros v Hv Hf.
  { simpl. intros y Hy. lia. }
  destruct (Z.eqb_spec v (b + 1)); [lia|]. simpl. rewrite addr_leb4.
  destruct (Z.leb_spec v b); [|lia].
  destruct (bool_decide (Addr4 v ∈ occ)) eqn:Ed; [|bool_hyps; split_and!; [lia|lia|done|lia]].
  bool_hyps. specialize (IH (v + 1) ltac:(lia) ltac:(lia)).
  replace (if v =? 2 ^ 32 - 1 then AddrNone else Addr4 (v + 1))
    with (if v + 1 =? b + 1 then Next (Addr4 b) else Addr4 (v + 1)).
  2:{ unfold Next. destruct (Z.eqb_spec (v + 1) (b + 1)) as [e|].
      - assert (v = b) as -> by lia. done.
      - destruct (Z.eqb_spec v (2 ^ 32 - 1)); [lia|done]. }
  assert (Hstep : forall y, v <= y -> y = v \/ v + 1 <= y) by lia.
  destruct (firstFree _ _ _ _) as [|x|x z].
  - intros y Hy. destruct (Hstep y) as [->|]; [lia|done|]. apply IH. lia.
  - destruct IH as (Hx & Hn & Hl). split_and!; [lia|lia|done|]. intros y Hy.
    destruct (Hstep y) as [->|]; [lia|done|]. apply Hl. lia.
  - done.
Qed.

Lemma inPool4 c a b v :
  PoolStart c = Addr4 a -> PoolEnd c = Addr4 b ->
  inPool c (Addr4 v) = true <-> a <= v <= b.
Proof.
  intros Ha Hb. unfold inPool. rewrite Ha, Hb, !addr_leb4. simpl.
  rewrite andb_true_iff, !Z.leb_le. done.
Qed.

Lemma inPool_4 c ip : inPool c ip = true -> exists v, ip = Addr4 v.
Proof. unfold inPool. destruct ip; simpl; naive_solver. Qed.

Lemma inPool_Unmap c ip : inPool c ip = true -> Unmap ip = ip.
Proof. by intros [v ->]%inPool_4. Qed.

(** The whole search: the lowest free address of the pool, or none is free. *)
Lemma firstFree_pool c occ :
  (exists a b, PoolStart c = Addr4 a /\ PoolEnd c = Addr4 b /\ a <= b /\ b < 2 ^ 32) ->
  let ip := firstFree (poolSize c) (PoolStart c) (PoolEnd c) occ in
  (IsValid ip = true -> inPool c ip = true /\ (ip ∉ occ) /\
     forall ip', inPool c ip' = true -> ip' ∉ occ -> addr_leb ip ip' = true) /\
  (IsValid ip = false -> forall ip', inPool c ip' = true -> ip' ∈ occ).
Proof.
  intros (a & b & Ha & Hb & Hab & Hlim). unfold poolSize.
  pose proof (firstFree_spec (Z.to_nat (b - a + 1)) a b occ Hlim) as H.
  specialize (H ltac:(lia) eq_refl). destruct (Z.eqb_spec a (b + 1)); [lia|].
  assert (Hp : forall ip', inPool c ip' = true -> exists v, ip' = Addr4 v /\ a <= v <= b).
  { intros ip' Hi. destruct (inPool_4 _ _ Hi) as [v ->]. exists v. by rewrite <- inPool4. }
  rewrite Ha, Hb. cbn [addr_value]. destruct (firstFree _ _ _ _) as [|x|x z]; cbn [IsValid]; [| |done].
  - split; [done|]. intros _ ip' (v & -> & Hv)%Hp. auto.
  - destruct H as (Hx & Hn & Hl). split; [|done]. intros _. split_and!; [by eapply inPool4|done|].
    intros ip' (v & -> & Hv)%Hp Hocc. rewrite addr_leb4. apply Z.leb_le.
    destruct (Z.lt_ge_cases v x); [|done]. exfalso. apply Hocc, Hl. lia.
Qed.

(** ** Preservation *)

Section preservation.
Context (c : Config) (reserved : gset bytes).

(** Forgetting entries keeps a state well formed: expiry and removal. *)
Lemma holds_mono s s' id ip :
  leases s' ⊆ leases s -> offers s' ⊆ offers s -> holds s' id ip -> holds s id ip.
Proof.
  intros Hl Ho [(l & E & Hip)|(o & E & Hip)]; [left|right];
    eexists; (split; [|done]); by eapply lookup_weaken.
Qed.

Lemma wf_mono s s' :
  leases s' ⊆ leases s -> offers s' ⊆ offers s -> declined s' ⊆ declined s ->
  wf c reserved s -> wf c reserved s'.
Proof.
  intros Hl Ho Hd [H1 H2 H3 H4 H5 H6]. split.
  - intros id l E. eapply H1, lookup_weaken; eauto.
  - intros id o E. eapply H2, lookup_weaken; eauto.
  - intros ip t E. eapply H3, lookup_weaken; eauto.
  - intros id1 id2 ip Ha Hb. eapply H4; eapply holds_mono; eauto.
  - intros id ip Ha. eapply lookup_weaken_None; [|done]. eapply H5, holds_mono; eauto.
  - intros id1 id2 l1 l2 E1 E2. apply H6; eapply lookup_weaken; eauto.
Qed.

Lemma wf_expire now s : wf c reserved s -> wf c reserved (expire now s).
Proof. apply wf_mono; apply map_filter_subseteq. Qed.

Lemma wf_remove s id ip : wf c reserved s -> wf c reserved (remove s id ip).
Proof.
  apply wf_mono; simpl; [destruct (entryAt (leases s) id ip)|destruct (entryAt (offers s) id ip)|];
    try done; apply delete_subseteq.
Qed.

(** After a removal nobody holds the removed address. *)
Lemma remove_free s id ip id' :
  wf c reserved s -> owns s id ip = true -> ~ holds (remove s id ip) id' ip.
Proof.
  intros Hwf Hown%owns_spec Hh.
  assert (id' = id) as ->.
  { eapply (wf_exclusive _ _ _ Hwf); [|done]. eapply holds_mono, Hh; simpl;
      case_match; try done; apply delete_subseteq. }
  destruct Hh as [(l & E & Hip)|(o & E & Hip)]; simpl in E.
  - destruct (entryAt (leases s) id ip) eqn:Ee; [by rewrite lookup_delete_eq in E|].
    apply not_true_iff_false in Ee. apply Ee, entryAt_spec. eauto.
  - destruct (entryAt (offers s) id ip) eqn:Ee; [by rewrite lookup_delete_eq in E|].
    apply not_true_iff_false in Ee. apply Ee, entryAt_spec. eauto.
Qed.

Lemma wf_decline s id ip t :
  wf c reserved s -> owns s id ip = true -> zeroTime < t ->
  wf c reserved (mkState (leases (remove s id ip)) (offers (remove s id ip))
                         (<[ip := t]> (declined (remove s id ip)))).
Proof.
  intros Hwf Hown Ht. pose proof (wf_remove s id ip Hwf) as Hr.
  assert (Hpool : inPool c ip = true).
  { apply owns_spec in Hown as [(l & E & <-)|(o & E & <-)].
    - by apply (wf_leases _ _ _ Hwf) in E as [(_ & _ & ? & _) _].
    - by apply (wf_offers _ _ _ Hwf) in E as (_ & _ & ? & _). }
  destruct Hr as [H1 H2 H3 H4 H5 H6]. split; simpl; try done.
  - intros ip' t' E. destruct (decide (ip = ip')) as [<-|Hne].
    + rewrite lookup_insert_eq in E. naive_solver.
    + rewrite lookup_insert_ne in E by done. by apply H3.
  - intros id' ip' Hh. destruct (decide (ip = ip')) as [<-|Hne].
    + by apply (remove_free s id ip id' Hwf Hown) in Hh.
    + rewrite lookup_insert_ne by done. by eapply H5.
Qed.

(** Holding after an update of one client's entries. *)
Lemma holds_update_offer s id o id' ip :
  holds (mkState (leases s) (<[id := o]> (offers s)) (declined s)) id' ip ->
  (id' = id /\ ip = IP o) \/ holds s id' ip.
Proof.
  intros [(l & E & Hip)|(o' & E & Hip)]; simpl in E; [right; left; eauto|].
  apply lookup_insert_Some in E as [[-> ->]|[Hne E]]; [by left|]. right. right. eauto.
Qed.

Lemma holds_update_lease s id l id' ip :
  holds (mkState (<[id := l]> (leases s)) (delete id (offers s)) (declined s)) id' ip ->
  (id' = id /\ ip = IP l) \/ (id' <> id /\ holds s id' ip).
Proof.
  intros [(l' & E & Hip)|(o' & E & Hip)]; simpl in E.
  - apply lookup_insert_Some in E as [[-> ->]|[Hne E]]; [by left|]. right. split; [done|]. left. eauto.
  - apply lookup_delete_Some in E as [Hne E]. right. split; [done|]. right. eauto.
Qed.

(** A free address stays exclusive when its new holder takes it. *)
Lemma free_not_held s id id' ip :
  ip ∉ occupied s id -> holds s id' ip -> id' = id.
Proof.
  intros Hocc Hh. destruct (decide (id' = id)); [done|]. exfalso. apply Hocc, occupied_spec. eauto.
Qed.

Lemma free_not_declined s id ip : ip ∉ occupied s id -> declined s !! ip = None.
Proof.
  intros Hocc. destruct (declined s !! ip) eqn:E; [|done].
  exfalso. apply Hocc, occupied_spec. right. eauto.
Qed.

Lemma wf_set_offer s id o :
  wf c reserved s -> entry_wf c id o -> IP o ∉ occupied s id ->
  wf c reserved (mkState (leases s) (<[id := o]> (offers s)) (declined s)).
Proof.
  intros [H1 H2 H3 H4 H5 H6] Ho Hocc. split; simpl; try done.
  - intros id' o' E. apply lookup_insert_Some in E as [[-> ->]|[Hne E]]; auto.
  - intros id1 id2 ip [[-> ->]|Ha]%holds_update_offer [[-> Hip]|Hb]%holds_update_offer; auto.
    + symmetry. by eapply free_not_held.
    + subst. by eapply free_not_held.
    + by eapply H4.
  - intros id' ip [[-> ->]|Ha]%holds_update_offer; [by eapply free_not_declined|by eapply H5].
Qed.

Lemma wf_set_lease s id l :
  wf c reserved s -> entry_wf c id l -> Hostname l ∉ reserved -> IP l ∉ occupied s id ->
  (Hostname l <> [] -> nameTaken s id (Hostname l) = false) ->
  wf c reserved (mkState (<[id := l]> (leases s)) (delete id (offers s)) (declined s)).
Proof.
  intros [H1 H2 H3 H4 H5 H6] Hl Hres Hocc Hname. split; simpl.
  - intros id' l' E. apply lookup_insert_Some in E as [[-> ->]|[Hne E]]; auto.
  - intros id' o' E. apply lookup_delete_Some in E as [Hne E]. auto.
  - done.
  - intros id1 id2 ip [[-> ->]|[Hn1 Ha]]%holds_update_lease [[-> Hip]|[Hn2 Hb]]%holds_update_lease; auto.
    + symmetry. by eapply free_not_held.
    + subst. by eapply free_not_held.
    + by eapply H4.
  - intros id' ip [[-> ->]|[Hn Ha]]%holds_update_lease; [by eapply free_not_declined|by eapply H5].
  - intros id1 id2 l1 l2 E1 E2 En Hne.
    apply lookup_insert_Some in E1 as [[-> ->]|[Hn1 E1]];
      apply lookup_insert_Some in E2 as [[-> ->]|[Hn2 E2]]; auto.
    + exfalso. apply (not_true_iff_false _) in Hname; [|done]. apply Hname, nameTaken_spec. eauto.
    + exfalso. rewrite En in Hne. apply (not_true_iff_false _) in Hname; [|done].
      apply Hname, nameTaken_spec. eauto.
    + by eapply H6.
Qed.

End preservation.

(** ** The choices an offer and a commit make *)

Lemma holder_not_occupied c reserved s id ip :
  wf c reserved s -> holds s id ip -> ip ∉ occupied s id.
Proof.
  intros Hwf Hh [(id' & Hne & Hh')|[t Ht]]%occupied_spec.
  - apply Hne. by eapply (wf_exclusive _ _ _ Hwf).
  - apply (wf_quarantine _ _ _ Hwf) in Hh. congruence.
Qed.

Lemma offerIP_ok m s id requested :
  cfg_wf (cfg m) (reservedNames m) -> wf (cfg m) (reservedNames m) s ->
  IsValid (offerIP m s id requested) = true ->
  inPool (cfg m) (offerIP m s id requested) = true /\ offerIP m s id requested ∉ occupied s id.
Proof.
  intros Hc Hwf. unfold offerIP. destruct (leases s !! id) as [cur|] eqn:El.
  { intros _. split; [by apply (wf_leases _ _ _ Hwf) in El as [(_ & _ & ? & _) _]|].
    eapply holder_not_occupied; [done|]. left. eauto. }
  destruct (offers s !! id) as [prev|] eqn:Eo.
  { intros _. split; [by apply (wf_offers _ _ _ Hwf) in Eo as (_ & _ & ? & _)|].
    eapply holder_not_occupied; [done|]. right. eauto. }
  destruct (inPool (cfg m) (Unmap requested) && _) eqn:Er; [by bool_hyps|].
  intros Hv. destruct (firstFree_pool (cfg m) (occupied s id) (cfg_pool _ _ Hc)) as [Hok _].
  by destruct (Hok Hv) as (? & ? & _).
Qed.

Lemma NormalizeHostname_under h d :
  validDNSName d = true -> NormalizeHostname h d = [] \/ canonicalUnder d (NormalizeHostname h d).
Proof.
  intros Hd. destruct (decide (NormalizeHostname h d = [])) as [|Hn]; [by left|right].
  apply NormalizeHostname_canonical in Hn as [Hn _]. by rewrite normDomain_valid in Hn.
Qed.

Lemma offerName_ok m s id hostname fallback :
  cfg_wf (cfg m) (reservedNames m) -> wf (cfg m) (reservedNames m) s ->
  let name := offerName m s id hostname fallback in
  name = [] \/ canonicalUnder (Domain (cfg m)) name.
Proof.
  intros Hc Hwf. pose proof (fun h => NormalizeHostname_under h _ (cfg_domain _ _ Hc)) as Hn.
  unfold offerName. repeat case_match; auto.
  - by match goal with E : offers s !! id = _ |- _ => apply (wf_offers _ _ _ Hwf) in E as (_&_&_&_&?) end.
  - by match goal with E : leases s !! id = _ |- _ => apply (wf_leases _ _ _ Hwf) in E as [(_&_&_&_&?) _] end.
Qed.

Lemma commitWish_ok m s id ip hostname fallback :
  cfg_wf (cfg m) (reservedNames m) -> wf (cfg m) (reservedNames m) s ->
  let name := commitWish m s id ip hostname fallback in
  name = [] \/ canonicalUnder (Domain (cfg m)) name.
Proof.
  intros Hc Hwf. pose proof (fun h => NormalizeHostname_under h _ (cfg_domain _ _ Hc)) as Hn.
  unfold commitWish. repeat case_match; auto;
    first [ by match goal with E : leases s !! id = _ |- _ => apply (wf_leases _ _ _ Hwf) in E as [(_&_&_&_&?) _] end
          | by match goal with E : offers s !! id = _ |- _ => apply (wf_offers _ _ _ Hwf) in E as (_&_&_&_&?) end ].
Qed.

Lemma commitName_ok m s id ip hostname fallback :
  cfg_wf (cfg m) (reservedNames m) -> wf (cfg m) (reservedNames m) s ->
  let name := commitName m s id ip hostname fallback in
  (name = [] \/ canonicalUnder (Domain (cfg m)) name) /\ (name ∉ reservedNames m) /\
  (name <> [] -> nameTaken s id name = false).
Proof.
  intros Hc Hwf. pose proof (commitWish_ok m s id ip hostname fallback Hc Hwf) as Hw.
  destruct (cfg_reserved _ _ Hc) as [Hnil _]. unfold commitName.
  destruct (bool_decide (commitWish m s id ip hostname fallback ∈ reservedNames m)) eqn:Er;
    [change (negb (beq [] [])) with false; simpl; naive_solver|].
  bool_hyps. destruct (negb (beq _ []) && nameTaken s id _) eqn:Et;
    [split_and!; [by left|done|done]|].
  split_and!; [done|done|]. intros Hne. apply andb_false_iff in Et as [Et|Et]; [|done].
  by apply negb_false_iff, beq_true in Et.
Qed.

(** ** Restoring *)

Section restoring.
Context (c : Config) (reserved : gset bytes) (now : time).
Context (Hc : cfg_wf c reserved) (Hnow : zeroTime <= now).

(** The loop invariant of [restoreLeases]. *)
Record leases_wf (ls : gmap bytes Lease) (addresses : gset Addr) (names : gset bytes) : Prop := {
  lw_entry : forall id l, ls !! id = Some l ->
    entry_wf c id l /\ (Hostname l ∉ reserved) /\ (IP l ∈ addresses) /\
    (Hostname l <> [] -> Hostname l ∈ names) /\ now < ExpiresAt l;
  lw_ips : forall id1 id2 l1 l2, ls !! id1 = Some l1 -> ls !! id2 = Some l2 ->
    IP l1 = IP l2 -> id1 = id2;
  lw_names : forall id1 id2 l1 l2, ls !! id1 = Some l1 -> ls !! id2 = Some l2 ->
    Hostname l1 = Hostname l2 -> Hostname l1 <> [] -> id1 = id2
}.

Lemma leases_wf_insert ls addresses names l names' :
  leases_wf ls addresses names -> entry_wf c (ClientID l) l -> Hostname l ∉ reserved ->
  now < ExpiresAt l -> IP l ∉ addresses -> (Hostname l <> [] -> Hostname l ∉ names) ->
  names ⊆ names' -> (Hostname l <> [] -> Hostname l ∈ names') ->
  leases_wf (<[ClientID l := l]> ls) ({[IP l]} ∪ addresses) names'.
Proof.
  intros [H1 H2 H3] He Hr Ht Hip Hn Hsub Hn'. split.
  - intros id l' [[<- <-]|[Hne E]]%lookup_insert_Some; [set_solver|].
    destruct (H1 _ _ E) as (? & ? & ? & ? & ?). set_solver.
  - intros id1 id2 l1 l2 [[<- <-]|[Hne1 E1]]%lookup_insert_Some [[<- <-]|[Hne2 E2]]%lookup_insert_Some Hq; auto.
    + destruct (H1 _ _ E2) as (_ & _ & ? & _). congruence.
    + destruct (H1 _ _ E1) as (_ & _ & ? & _). congruence.
    + by eapply H2.
  - intros id1 id2 l1 l2 [[<- <-]|[Hne1 E1]]%lookup_insert_Some [[<- <-]|[Hne2 E2]]%lookup_insert_Some Hq Hx; auto.
    + destruct (H1 _ _ E2) as (_ & _ & _ & Hin & _). exfalso. apply Hn; [done|]. rewrite Hq. apply Hin. congruence.
    + destruct (H1 _ _ E1) as (_ & _ & _ & Hin & _). exfalso. apply Hn; [congruence|]. rewrite <- Hq. by apply Hin.
    + by eapply H3.
Qed.

(** What the two validity tests of the loop establish. *)
Lemma restore_entry_ok l :
  negb (validClientID (ClientID l)) || negb (inPool c (IP l)) || IsZero (ExpiresAt l) = false ->
  negb (beq (Hostname l) [])
    && (negb (beq (NormalizeHostname (Hostname l) (Domain c)) (Hostname l))
        || beq (Hostname l) (str "ns." ++ Domain c ++ [DOT])) = false ->
  now < ExpiresAt l -> entry_wf c (ClientID l) l.
Proof.
  intros H1 H2 Ht. bool_hyps. split_and!; try done; [lia|].
  apply andb_false_iff in H2 as [H2|H2]; bool_hyps; [left; by apply beq_true|].
  match goal with H : beq (NormalizeHostname _ _) _ = true |- _ => apply beq_true in H as Hn end.
  rewrite <- Hn. apply NormalizeHostname_under, (cfg_domain _ _ Hc).
Qed.

Lemma restoreLeases_wf saved ls addresses names ls' addresses' :
  leases_wf ls addresses names ->
  restoreLeases c reserved now saved ls addresses names = Ok (ls', addresses') ->
  exists names', leases_wf ls' addresses' names'.
Proof.
  revert ls addresses names. induction saved as [|x saved IH]; intros ls addresses names Hw.
  { simpl. intros E. simplify_eq. eauto. }
  cbn [restoreLeases].
  destruct (negb (validClientID _) || _ || _) eqn:E1; [done|].
  destruct (negb (beq (Hostname x) []) && _) eqn:E2; [done|].
  destruct (negb (After _ _)) eqn:E3; [by apply IH|].
  assert (Ht : now < ExpiresAt x) by (unfold After in E3; clear -E3; bool_hyps; lia).
  pose proof (restore_entry_ok x E1 E2 Ht) as He. clear E1 E2 E3.
  destruct (bool_decide (is_Some _)) eqn:E4; [done|].
  destruct (bool_decide (IP x ∈ _)) eqn:E5; [done|].
  destruct (negb _ && bool_decide (_ ∈ names)) eqn:E6; [done|].
  bool_hyps. apply IH.
  assert (Hn : Hostname x <> [] -> Hostname x ∉ names).
  { intros Hne. apply andb_false_iff in E6 as [E6|E6]; bool_hyps; [|done]. by apply beq_true in E6. }
  destruct (bool_decide (Hostname x ∈ reserved)) eqn:E7.
  - apply (leases_wf_insert _ _ names (mkLease (ClientID x) (IP x) [] (ExpiresAt x))); simpl; try done.
    + destruct He as (? & ? & ? & ? & _). split_and!; simpl; auto.
    + apply (cfg_reserved _ _ Hc).
    + case_match; set_solver.
  - bool_hyps. apply (leases_wf_insert _ _ names x); try done.
    + case_match; set_solver.
    + intros Hne. apply beq_false in Hne as ->. set_solver.
Qed.

Lemma restoreDeclined_wf saved acc addresses ds (ips : gset Addr) :
  restoreDeclined c now saved acc addresses = Ok ds -> ips ⊆ addresses ->
  (forall ip t, acc !! ip = Some t -> inPool c ip = true /\ zeroTime < t /\ ip ∉ ips) ->
  forall ip t, ds !! ip = Some t -> inPool c ip = true /\ zeroTime < t /\ ip ∉ ips.
Proof.
  revert acc addresses. induction saved as [|x saved IH]; intros acc addresses; cbn [restoreDeclined].
  { intros E. by simplify_eq. }
  destruct (negb (inPool _ _) || _) eqn:E1; [done|].
  destruct (negb (After _ _)) eqn:E2; [by apply IH|].
  destruct (bool_decide _) eqn:E3; [done|]. unfold After in *. bool_hyps.
  intros E Hsub Hacc. eapply IH; [done|set_solver|].
  intros ip t [[<- <-]|[_ Hl]]%lookup_insert_Some; [|by apply Hacc].
  split_and!; [done|lia|set_solver].
Qed.

(** A state restored from any accepted file satisfies the invariant. *)
Lemma restore_wf disk s : restore c reserved now disk = Ok s -> wf c reserved s.
Proof.
  assert (Hempty : wf c reserved newState).
  { split; simpl; try (intros *; rewrite ?lookup_empty; naive_solver).
    intros id1 id2 ip [(l & E & _)|(o & E & _)]; simpl in E; by rewrite lookup_empty in E. }
  unfold restore. destruct (beq (File c) []); [by intros E; simplify_eq|].
  destruct disk as [| | | |saved]; try (by intros E; simplify_eq).
  destruct (negb (Version saved =? 1)); [done|].
  destruct (restoreLeases _ _ _ _ _ _ _) as [[ls addresses]|] eqn:El; [|done].
  destruct (restoreDeclined _ _ _ _ _) as [ds|] eqn:Ed; [|done]. intros E. simplify_eq.
  apply restoreLeases_wf in El as [names [H1 H2 H3]].
  2:{ split; intros *; rewrite lookup_empty; done. }
  pose proof (restoreDeclined_wf _ _ _ _ addresses Ed) as Hd.
  specialize (Hd ltac:(done) ltac:(intros ??; by rewrite lookup_empty)).
  assert (Hh : forall id ip, holds (mkState ls ∅ ds) id ip -> exists l, ls !! id = Some l /\ IP l = ip).
  { intros id ip [?|(o & E & _)]; [done|]. simpl in E. by rewrite lookup_empty in E. }
  split; simpl.
  - intros id l E. destruct (H1 _ _ E) as (? & ? & _). done.
  - intros id o E. by rewrite lookup_empty in E.
  - intros ip t E. naive_solver.
  - intros id1 id2 ip (l1 & E1 & I1)%Hh (l2 & E2 & I2)%Hh. eapply H2; eauto. congruence.
  - intros id ip (l & E & <-)%Hh. destruct (ds !! IP l) as [t|] eqn:Ei; [|done].
    apply Hd in Ei as (_ & _ & Hn). by destruct (H1 _ _ E) as (_ & _ & ? & _).
  - done.
Qed.

End restoring.

(** ** Construction *)

Lemma canonicalUnder_nonempty d name : canonicalUnder d name -> name <> [].
Proof. intros (h & -> & _ & Hh). by destruct h. Qed.

Lemma reserveNames_grows domain names acc reserved :
  reserveNames domain names acc = Ok reserved -> [] ∉ acc -> acc ⊆ reserved /\ [] ∉ reserved.
Proof.
  revert acc. induction names as [|n names IH]; intros acc; simpl.
  { intros E ?. by simplify_eq. }
  destruct (existsb _ _); [done|]. destruct (beq _ [] || beq _ _) eqn:Eb; [done|].
  bool_hyps. intros E Hn. apply IH in E as [Hs Hn']; [set_solver|].
  match goal with H : beq (NormalizeHostname _ _) [] = false |- _ => apply beq_false in H end. set_solver.
Qed.

Lemma newManager_wf c now disk m :
  (forall v, (Unmap (PoolEnd c)) = Addr4 v -> v < 2 ^ 32) -> zeroTime <= now ->
  newManager c now disk = Ok m -> manager_wf m.
Proof.
  unfold newManager. intros Hw Hnow.
  destruct (negb (Is4 (Unmap (PoolStart c))) || _ || _) eqn:E1; [done|].
  set (d := ToLower _). destruct (validDNSName d) eqn:E2; [|done]. cbn [negb].
  destruct (LeaseDuration c <=? 0) eqn:E3; [done|].
  destruct ((OfferDuration c <? 0) || (DeclineDuration c <? 0)) eqn:E4; [done|].
  destruct (reserveNames _ _ _) as [reserved|] eqn:E5; [|done].
  set (c' := mkConfig _ _ _ _ _ _ _ _).
  destruct (restore c' reserved now disk) as [s|] eqn:E6; [|done]. intros E. simplify_eq.
  assert (Hc : cfg_wf c' reserved).
  { apply reserveNames_grows in E5 as [Hs Hn].
    2:{ intros Hin. apply elem_of_union in Hin as [Hin|Hin]; apply elem_of_singleton in Hin; done. }
    bool_hyps. split; simpl.
    - destruct (Unmap (PoolStart c)) as [|a|]; try done. destruct (Unmap (PoolEnd c)) as [|b|]; try done.
      exists a, b. rewrite addr_leb4 in *. bool_hyps. naive_solver.
    - done.
    - unfold defaultTo, minute, second.
      destruct (Z.eqb_spec (OfferDuration c) 0), (Z.eqb_spec (DeclineDuration c) 0); lia.
    - split_and!; [done| |]; apply Hs; set_solver. }
  split; [done|]. simpl. by eapply restore_wf.
Qed.

(** ** Saving and restoring *)

Section round_trip.
Context (c : Config) (reserved : gset bytes) (now : time) (Hc : cfg_wf c reserved).

Definition inj_on {A B} (f : A -> B) (l : list A) : Prop :=
  forall x y, x ∈ l -> y ∈ l -> f x = f y -> x = y.

(** A list of saved leases that [restoreLeases] accepts after the leases [acc]. *)
Record acceptable (l : list Lease) (acc : gmap bytes Lease) (addresses : gset Addr)
    (names : gset bytes) : Prop := {
  ac_entries : forall x, x ∈ l -> entry_wf c (ClientID x) x /\ Hostname x ∉ reserved;
  ac_nodup : NoDup l;
  ac_clients : inj_on ClientID l;
  ac_ips : inj_on IP l;
  ac_names : forall x y, x ∈ l -> y ∈ l -> Hostname x = Hostname y -> Hostname x <> [] -> x = y;
  ac_fresh : forall x, x ∈ l -> acc !! ClientID x = None /\ (IP x ∉ addresses) /\
    (Hostname x <> [] -> Hostname x ∉ names)
}.

Lemma acceptable_tail x l acc addresses names :
  acceptable (x :: l) acc addresses names -> acceptable l acc addresses names.
Proof.
  intros [H1 H2 H3 H4 H5 H6]. apply NoDup_cons in H2 as [_ H2].
  split; [intros y Hy|done|intros y z Hy Hz|intros y z Hy Hz|intros y z Hy Hz|intros y Hy].
  - apply H1. by right.
  - apply H3; by right.
  - apply H4; by right.
  - apply H5; by right.
  - apply H6. by right.
Qed.

Lemma acceptable_step x l acc addresses names names' :
  acceptable (x :: l) acc addresses names -> (forall n, n ∈ names' -> n ∈ names \/ n = Hostname x) ->
  acceptable l (<[ClientID x := x]> acc) ({[IP x]} ∪ addresses) names'.
Proof.
  intros H Hn. pose proof (acceptable_tail _ _ _ _ _ H) as Ht.
  destruct H as [_ [Hx _]%NoDup_cons H3 H4 H5 _]. destruct Ht as [T1 T2 T3 T4 T5 T6]. split; auto.
  intros y Hy. destruct (T6 y Hy) as (F1 & F2 & F3).
  assert (Hne : y <> x) by by intros ->.
  split_and!.
  - rewrite lookup_insert_ne; [done|]. intros E. apply Hne. symmetry. apply H3; [left|by right|done].
  - rewrite elem_of_union, elem_of_singleton. intros [E|E]; [|done].
    apply Hne. symmetry. apply H4; [left|by right|done].
  - intros Hy' [E|E]%Hn; [by apply F3|]. apply Hne. apply H5; [by right|left|done|done].
Qed.

(** Every saved lease is accepted, and exactly the live ones are kept. *)
Lemma restoreLeases_accepts l acc addresses names :
  acceptable l acc addresses names ->
  exists ls addresses', restoreLeases c reserved now l acc addresses names = Ok (ls, addresses') /\
    (forall id y, ls !! id = Some y <->
       acc !! id = Some y \/ (y ∈ l /\ ClientID y = id /\ now < ExpiresAt y)) /\
    (forall ip, ip ∈ addresses' <-> (ip ∈ addresses) \/ exists y, y ∈ l /\ now < ExpiresAt y /\ IP y = ip).
Proof.
  revert acc addresses names. induction l as [|x l IH]; intros acc addresses names Ha.
  { exists acc, addresses. split; [done|]. split; intros; (split; [by left|]);
      [intros [?|(Hy & _)]|intros [?|(y & Hy & _)]]; try done; by apply not_elem_of_nil in Hy. }
  destruct (ac_entries _ _ _ _ Ha x ltac:(left)) as [(_ & Hid & Hp & Hz & Hh) Hr].
  destruct (ac_fresh _ _ _ _ Ha x ltac:(left)) as (F1 & F2 & F3).
  cbn [restoreLeases]. rewrite Hid, Hp. unfold IsZero. rewrite (proj2 (Z.eqb_neq _ _)) by lia.
  assert (Hhost : negb (beq (Hostname x) []) && (negb (beq (NormalizeHostname (Hostname x) (Domain c)) (Hostname x))
        || beq (Hostname x) (str "ns." ++ Domain c ++ [DOT])) = false).
  { destruct Hh as [->|Hh]; [done|]. rewrite (canonical_fixed _ _ (cfg_domain _ _ Hc) Hh), beq_refl.
    assert (Hns : Hostname x <> str "ns." ++ Domain c ++ [DOT]).
    { intros E. apply Hr. rewrite E. apply (cfg_reserved _ _ Hc). }
    rewrite (proj2 (beq_false _ _) Hns). apply andb_false_r. }
  rewrite Hhost. cbn [negb orb]. unfold After. destruct (Z.ltb_spec now (ExpiresAt x)) as [Hl|Hl]; cbn [negb].
  - rewrite (bool_decide_eq_false_2 (is_Some _)) by (rewrite F1; apply is_Some_None).
    rewrite (bool_decide_eq_false_2 (IP x ∈ _)) by done.
    assert (Hname : negb (beq (Hostname x) []) && bool_decide (Hostname x ∈ names) = false).
    { destruct (beq (Hostname x) []) eqn:E; [done|]. simpl. apply bool_decide_eq_false_2, F3. by apply beq_false. }
    rewrite Hname, (bool_decide_eq_false_2 (Hostname x ∈ reserved)) by done.
    set (names' := if beq (Hostname x) [] then names else {[Hostname x]} ∪ names).
    assert (Hnames' : forall n, n ∈ names' -> n ∈ names \/ n = Hostname x).
    { intros n. subst names'. case_match; [by left|]. rewrite elem_of_union, elem_of_singleton. intros [?|?]; auto. }
    destruct (IH _ _ _ (acceptable_step x l _ _ _ _ Ha Hnames')) as (ls & ad & E & Hls & Had).
    exists ls, ad. split; [exact E|]. split.
    + intros id y. rewrite Hls, lookup_insert_Some, elem_of_cons. split.
      * intros [[[<- <-]|[_ Hy]]|(Hy & <- & Hy')]; [right; auto|by left|right; auto].
      * intros [Hy|([->|Hy] & <- & Hy')]; [left; right; split; [by intros <-; congruence|done]|auto|auto].
    + intros ip. rewrite Had, elem_of_union, elem_of_singleton. setoid_rewrite elem_of_cons. split.
      * intros [[->|Hin]|(y & Hy & Hy' & Hip)]; [right; exists x; auto|by left|right; exists y; auto].
      * intros [Hin|(y & [->|Hy] & Hy' & Hip)]; [auto|left; by left|right; exists y; auto].
  - destruct (IH acc addresses names (acceptable_tail _ _ _ _ _ Ha)) as (ls & ad & E & Hls & Had).
    exists ls, ad. split; [exact E|]. setoid_rewrite elem_of_cons. split.
    + intros id y. rewrite Hls. split; [intros [?|(?&?&?)]; auto|].
      intros [?|([->|?]&?&?)]; [by left|lia|auto].
    + intros ip. rewrite Had. split; [intros [?|(y&?&?&?)]; [by left|right; exists y; auto]|].
      intros [?|(y&[->|?]&?&?)]; [by left|lia|right; exists y; auto].
Qed.

Lemma restoreDeclined_accepts l acc addresses :
  (forall x, x ∈ l -> inPool c (d_IP x) = true /\ zeroTime < d_ExpiresAt x) -> NoDup l ->
  inj_on d_IP l -> (forall x, x ∈ l -> now < d_ExpiresAt x -> d_IP x ∉ addresses) ->
  exists ds, restoreDeclined c now l acc addresses = Ok ds /\
    (forall ip t, ds !! ip = Some t <->
       (mkDeclined ip t ∈ l /\ now < t) \/ (acc !! ip = Some t /\ forall t', mkDeclined ip t' ∈ l -> t' <= now)).
Proof.
  revert acc addresses. induction l as [|[ip0 t0] l IH]; intros acc addresses Hok Hnd Hinj Hfresh.
  { exists acc. split; [done|]. intros ip t. split.
    - intros E. right. split; [done|]. intros t' Ht'. by apply not_elem_of_nil in Ht'.
    - intros [[Ht _]|[E _]]; [by apply not_elem_of_nil in Ht|done]. }
  apply NoDup_cons in Hnd as [Hx Hnd].
  destruct (Hok (mkDeclined ip0 t0) ltac:(left)) as [Hp Hz]. simpl in Hp, Hz.
  assert (Hother : forall t, mkDeclined ip0 t ∈ l -> False).
  { intros t Ht. apply Hx. replace (mkDeclined ip0 t0) with (mkDeclined ip0 t); [done|].
    apply Hinj; [by right|left|done]. }
  cbn [restoreDeclined d_IP d_ExpiresAt]. rewrite Hp. unfold IsZero, After.
  rewrite (proj2 (Z.eqb_neq _ _)) by lia. cbn [negb orb].
  destruct (Z.ltb_spec now t0) as [Hl|Hl]; cbn [negb].
  - rewrite bool_decide_eq_false_2 by by apply (Hfresh (mkDeclined ip0 t0)); [left|].
    destruct (IH (<[ip0 := t0]> acc) ({[ip0]} ∪ addresses)) as (ds & E & Hds); auto.
    { intros x Hy. apply Hok. by right. }
    { intros x y Hy Hy'. apply Hinj; by right. }
    { intros [ip t] Hy Ht. simpl in *. rewrite elem_of_union, elem_of_singleton. intros [->|Hin]; [eauto|].
      by apply (Hfresh (mkDeclined ip t)); [right|..]. }
    exists ds. split; [exact E|]. intros ip t. rewrite Hds, lookup_insert_Some. setoid_rewrite elem_of_cons. split.
    + intros [[Hy Ht]|[[[-> ->]|[Hne Hy]] Ha]]; [auto| |].
      * left. split; [by left|done].
      * right. split; [done|]. intros t' [Hq|Hq]; [by simplify_eq|auto].
    + intros [[[Hq|Hy] Ht]|[Hy Ha]]; [simplify_eq|auto|].
      * right. split; [by left|]. intros t' Hq. by apply Hother in Hq.
      * right. split; [|intros t' Hq; apply Ha; by right]. right. split; [|done]. intros <-.
        specialize (Ha t0 ltac:(by left)). lia.
  - destruct (IH acc addresses) as (ds & E & Hds); auto.
    { intros x Hy. apply Hok. by right. }
    { intros x y Hy Hy'. apply Hinj; by right. }
    { intros x Hy. apply Hfresh. by right. }
    exists ds. split; [exact E|]. intros ip t. rewrite Hds. setoid_rewrite elem_of_cons. split.
    + intros [[Hy Ht]|[Hy Ha]]; [auto|]. right. split; [done|]. intros t' [Hq|Hq]; [simplify_eq; lia|auto].
    + intros [[[Hq|Hy] Ht]|[Hy Ha]]; [simplify_eq; lia|auto|]. right. split; [done|]. intros t' Hq. apply Ha. by right.
Qed.

End round_trip.

Lemma snapshot_leases s l : l ∈ Leases (snapshot s) <-> exists id, leases s !! id = Some l.
Proof.
  simpl. rewrite merge_sort_Permutation, list_elem_of_fmap. split.
  - intros ([id e] & -> & Hin). apply elem_of_map_to_list in Hin. eauto.
  - intros [id E]. exists (id, l). by rewrite elem_of_map_to_list.
Qed.

Lemma snapshot_declined s d :
  d ∈ Declined (snapshot s) <-> declined s !! d_IP d = Some (d_ExpiresAt d).
Proof.
  simpl. rewrite merge_sort_Permutation, list_elem_of_fmap. split.
  - intros ([ip t] & -> & Hin). by apply elem_of_map_to_list in Hin.
  - intros E. exists (d_IP d, d_ExpiresAt d). rewrite elem_of_map_to_list. by destruct d.
Qed.

Lemma snapshot_acceptable c reserved s :
  wf c reserved s -> acceptable c reserved (Leases (snapshot s)) ∅ ∅ ∅.
Proof.
  intros Hwf. assert (Hkey : forall l, l ∈ Leases (snapshot s) -> leases s !! ClientID l = Some l).
  { intros l [id E]%snapshot_leases. by destruct (wf_leases _ _ _ Hwf _ _ E) as [(-> & _) _]. }
  split.
  - intros x Hx. apply Hkey, (wf_leases _ _ _ Hwf) in Hx. done.
  - simpl. rewrite merge_sort_Permutation. apply NoDup_fmap_2_strong; [|apply NoDup_map_to_list].
    intros [i x] [j y] Hx Hy E. simpl in E. subst y. apply elem_of_map_to_list in Hx, Hy.
    apply (wf_leases _ _ _ Hwf) in Hx as [(<- & _) _], Hy as [(<- & _) _]. done.
  - intros x y Hx%Hkey Hy%Hkey E. rewrite E in Hx. congruence.
  - intros x y Hx%Hkey Hy%Hkey E. assert (ClientID x = ClientID y) as Ec; [|rewrite Ec in Hx; congruence].
    eapply (wf_exclusive _ _ _ Hwf); left; eauto.
  - intros x y Hx%Hkey Hy%Hkey E Hne. assert (ClientID x = ClientID y) as Ec; [|rewrite Ec in Hx; congruence].
    by eapply (wf_names _ _ _ Hwf).
  - intros x _. rewrite lookup_empty. split_and!; [done|apply not_elem_of_empty|intros _; apply not_elem_of_empty].
Qed.

(** Restoring a saved state at a later instant gives back exactly what is still
    live: no lease or quarantine is lost or invented, and no offer survives. *)
Lemma restore_snapshot c reserved s now :
  cfg_wf c reserved -> wf c reserved s -> File c <> [] ->
  restore c reserved now (FileSaved (snapshot s))
    = Ok (mkState (leases (expire now s)) ∅ (declined (expire now s))).
Proof.
  intros Hc Hwf Hf. unfold restore. rewrite (proj2 (beq_false _ _) Hf).
  change (Version (snapshot s)) with 1. cbn [negb Z.eqb Pos.eqb].
  destruct (restoreLeases_accepts c reserved now Hc _ _ _ _ (snapshot_acceptable _ _ _ Hwf)) as (ls & ad & -> & Hls & Had).
  destruct (restoreDeclined_accepts c now (Declined (snapshot s)) ∅ ad) as (ds & -> & Hds).
  - intros d Hd. by apply snapshot_declined, (wf_declined _ _ _ Hwf) in Hd.
  - simpl. rewrite merge_sort_Permutation. apply NoDup_fmap_2_strong; [|apply NoDup_map_to_list].
    intros [] [] _ _ E. by simplify_eq.
  - intros [i1 t1] [i2 t2] H1 H2 E. apply snapshot_declined in H1, H2. simpl in *. congruence.
  - intros d Hd _ [Hin|(y & [id E]%snapshot_leases & _ & Hip)]%Had; [by apply not_elem_of_empty in Hin|].
    apply snapshot_declined in Hd. rewrite <- Hip in Hd.
    rewrite (wf_quarantine _ _ _ Hwf id) in Hd; [done|]. left. eauto.
  - do 2 f_equal.
    + apply map_eq. intros id. apply option_eq. intros l. rewrite Hls, expire_leases, lookup_empty, snapshot_leases.
      split; [intros [?|([id' E] & <- & Ht)]; [done|]|].
      * split; [|done]. by destruct (wf_leases _ _ _ Hwf _ _ E) as [(-> & _) _].
      * intros [E Ht]. right. split_and!; eauto. by destruct (wf_leases _ _ _ Hwf _ _ E) as [(-> & _) _].
    + apply map_eq. intros ip. apply option_eq. intros t. rewrite Hds, expire_declined, lookup_empty, snapshot_declined.
      simpl. naive_solver.
Qed.

(** ** Later restores *)

(** What survives a restart at [now]. *)
Definition live (now : time) (s : state) : state :=
  mkState (leases (expire now s)) ∅ (declined (expire now s)).

Lemma expire_expire t now s : t <= now -> expire now (expire t s) = expire now s.
Proof.
  intros Ht. unfold expire. simpl. f_equal; rewrite map_filter_filter_l; try done; intros [] ? ?; simpl in *; lia.
Qed.

Section later.
Context (c : Config) (reserved : gset bytes) (now later : time) (Hle : now <= later).

Lemma restoreLeases_later l acc addresses names acc2 addresses2 names2 ls ad :
  restoreLeases c reserved now l acc addresses names = Ok (ls, ad) ->
  acc2 = filter (fun e : bytes * Lease => later < ExpiresAt e.2) acc ->
  addresses2 ⊆ addresses -> names2 ⊆ names ->
  exists ad2, restoreLeases c reserved later l acc2 addresses2 names2
    = Ok (filter (fun e : bytes * Lease => later < ExpiresAt e.2) ls, ad2) /\ ad2 ⊆ ad.
Proof.
  revert acc addresses names acc2 addresses2 names2.
  induction l as [|x l IH]; intros acc addresses names acc2 addresses2 names2.
  { cbn [restoreLeases]. intros E -> Ha Hn. simplify_eq. eauto. }
  cbn [restoreLeases]. destruct (negb (validClientID _) || _ || _); [done|].
  destruct (negb (beq (Hostname x) []) && _); [done|]. unfold After.
  destruct (Z.ltb_spec now (ExpiresAt x)) as [Hl|Hl]; cbn [negb].
  2:{ destruct (Z.ltb_spec later (ExpiresAt x)); [lia|]. cbn [negb]. apply IH. }
  destruct (bool_decide (is_Some (acc !! _))) eqn:E1; [done|].
  destruct (bool_decide (IP x ∈ addresses)) eqn:E2; [done|].
  destruct (negb _ && bool_decide (_ ∈ names)) eqn:E3; [done|].
  apply bool_decide_eq_false in E1, E2. apply eq_None_not_Some in E1.
  set (kept := if bool_decide (Hostname x ∈ reserved) then _ else x).
  assert (Hkept : ExpiresAt kept = ExpiresAt x) by (subst kept; by case_match).
  intros E -> Ha Hn. destruct (Z.ltb_spec later (ExpiresAt x)) as [Hl2|Hl2]; cbn [negb].
  - rewrite (bool_decide_eq_false_2 (is_Some _)).
    2:{ rewrite map_lookup_filter, E1. simpl. apply is_Some_None. }
    rewrite (bool_decide_eq_false_2 (IP x ∈ _)) by set_solver.
    assert (E3' : negb (beq (Hostname x) []) && bool_decide (Hostname x ∈ names2) = false).
    { apply andb_false_iff in E3 as [->|E3]; [done|]. apply bool_decide_eq_false in E3.
      rewrite (bool_decide_eq_false_2 (Hostname x ∈ names2)) by set_solver. apply andb_false_r. }
    rewrite E3'. eapply (IH _ _ _ _ _ _ E).
    + rewrite map_filter_insert_True; [done|]. simpl. lia.
    + set_solver.
    + case_match; set_solver.
  - eapply (IH _ _ _ _ _ _ E).
    + rewrite map_filter_insert_not'; [done|simpl; lia|]. intros y. by rewrite E1.
    + set_solver.
    + case_match; set_solver.
Qed.

Lemma restoreDeclined_later l acc addresses acc2 addresses2 ds :
  restoreDeclined c now l acc addresses = Ok ds ->
  acc2 = filter (fun e : Addr * time => later < e.2) acc -> addresses2 ⊆ addresses ->
  dom acc ⊆ addresses ->
  restoreDeclined c later l acc2 addresses2 = Ok (filter (fun e : Addr * time => later < e.2) ds).
Proof.
  revert acc addresses acc2 addresses2. induction l as [|x l IH]; intros acc addresses acc2 addresses2.
  { cbn [restoreDeclined]. intros E -> _ _. by simplify_eq. }
  cbn [restoreDeclined]. destruct (negb (inPool _ _) || _); [done|]. unfold After.
  destruct (Z.ltb_spec now (d_ExpiresAt x)) as [Hl|Hl]; cbn [negb].
  2:{ destruct (Z.ltb_spec later (d_ExpiresAt x)); [lia|]. cbn [negb]. apply IH. }
  destruct (bool_decide (d_IP x ∈ addresses)) eqn:E1; [done|]. apply bool_decide_eq_false in E1.
  intros E -> Ha Hd. assert (Hacc : acc !! d_IP x = None) by (apply not_elem_of_dom; set_solver).
  destruct (Z.ltb_spec later (d_ExpiresAt x)) as [Hl2|Hl2]; cbn [negb].
  - rewrite (bool_decide_eq_false_2 (d_IP x ∈ _)) by set_solver.
    eapply (IH _ _ _ _ E); [|set_solver|rewrite dom_insert_L; set_solver].
    rewrite map_filter_insert_True; [done|]. simpl. lia.
  - eapply (IH _ _ _ _ E); [|set_solver|rewrite dom_insert_L; set_solver].
    rewrite map_filter_insert_not'; [done|simpl; lia|]. intros y. by rewrite Hacc.
Qed.

Lemma restore_later disk s :
  restore c reserved now disk = Ok s -> restore c reserved later disk = Ok (live later s).
Proof.
  assert (Hn : live later newState = newState) by (unfold live, expire; simpl; by rewrite !map_filter_empty).
  unfold restore. destruct (beq (File c) []); [intros E; by simplify_eq|].
  destruct disk as [| | | |saved]; try done; [intros E; by simplify_eq|].
  destruct (negb (Version saved =? 1)); [done|].
  destruct (restoreLeases c reserved now _ _ _ _) as [[ls ad]|] eqn:El; [|done].
  destruct (restoreDeclined c now _ _ _) as [ds|] eqn:Ed; [|done]. intros E. simplify_eq.
  eapply restoreLeases_later in El as (ad2 & -> & Hsub); [|by rewrite map_filter_empty|done|done].
  by erewrite restoreDeclined_later; [|exact Ed|by rewrite map_filter_empty|done|set_solver].
Qed.

End later.
