(* ===== verification/LeaseOps.v ===== *)
(** * Package internal/lease: the manager as a transition system

    The system is a manager with its lease file.  Its steps are the exported
    methods, at nondecreasing clock readings and with any persistence failure,
    and restarts from the file.  This file shows that every reachable system is
    well formed and that its file always restores to what is live. *)

From stdpp Require Import gmap list strings sorting.
From Stdlib Require Import ZArith Lia.
From S2P Require Import Prelude GoStrings Names GoNet Lease LeaseFacts.

(** ** The system *)

Record sys := mkSys { mgr : Manager; disk : file }.

(** The exported methods with their arguments. *)
Inductive op :=
| OpOffer (clientID : bytes) (requested : Addr) (hostname fallback : bytes)
| OpCommit (clientID : bytes) (ip : Addr) (hostname fallback : bytes)
| OpRelease (clientID : bytes) (ip : Addr)
| OpDecline (clientID : bytes) (ip : Addr)
| OpLookupName (name : bytes)
| OpHasName (name : bytes)
| OpLookupIP (ip : Addr).

Definition run_op (now : time) (io : option persist_step) (o : op) (y : sys) : sys :=
  let '(mkSys m d) := y in
  match o with
  | OpOffer id r h f => mkSys (OfferWithFallback m now id r h f).2 d
  | OpCommit id ip h f => let '(_, m', d') := CommitWithFallback m now io d id ip h f in mkSys m' d'
  | OpRelease id ip => let '(_, m', d') := Release m now io d id ip in mkSys m' d'
  | OpDecline id ip => let '(_, m', d') := Decline m now io d id ip in mkSys m' d'
  | OpLookupName n => mkSys (LookupName m now n).2 d
  | OpHasName n => mkSys (HasName m now n).2 d
  | OpLookupIP ip => mkSys (LookupIP m now ip).2 d
  end.

(** The client an operation is for. *)
Definition op_client (o : op) : option bytes :=
  match o with
  | OpOffer id _ _ _ | OpCommit id _ _ _ | OpRelease id _ | OpDecline id _ => Some id
  | OpLookupName _ | OpHasName _ | OpLookupIP _ => None
  end.

(** One step of a system started with configuration [c], with the time of the
    last step: an operation, or a restart from the file. *)
Inductive step (c : Config) : time * sys -> time * sys -> Prop :=
| step_op t now io o y :
    t <= now -> step c (t, y) (now, run_op now io o y)
| step_restart t now y m :
    t <= now -> newManager c now (disk y) = Ok m -> step c (t, y) (now, mkSys m (disk y)).

(** The steps that are no restart. *)
Inductive op_step : time * sys -> time * sys -> Prop :=
| op_step_op t now io o y : t <= now -> op_step (t, y) (now, run_op now io o y).

Inductive init (c : Config) : time * sys -> Prop :=
| init_new now d m :
    zeroTime <= now -> newManager c now d = Ok m -> init c (now, mkSys m d).

Definition reach (c : Config) (ty : time * sys) : Prop :=
  exists ty0, init c ty0 /\ rtc (step c) ty0 ty.

(** ** One step *)

(** A step forgets what expired and updates the offers, or publishes a next
    state to memory and to the file. *)
Inductive effect (now : time) (m : Manager) (d : file) : sys -> Prop :=
| effect_keep s' :
    leases s' = leases (expire now (mstate m)) -> declined s' = declined (expire now (mstate m)) ->
    wf (cfg m) (reservedNames m) s' -> effect now m d (mkSys (set_state m s') d)
| effect_publish s' d' :
    wf (cfg m) (reservedNames m) s' ->
    declined (expire now (mstate m)) ⊆ declined s' ->
    (File (cfg m) <> [] -> d' = FileSaved (snapshot s')) -> effect now m d (mkSys (set_state m s') d').

Lemma effect_expire now m d :
  manager_wf m -> effect now m d (mkSys (set_state m (expire now (mstate m))) d).
Proof. intros [Hc Hwf]. apply effect_keep; [done|done|]. by apply wf_expire. Qed.

Lemma publish_effect now m io d next :
  manager_wf m -> wf (cfg m) (reservedNames m) next ->
  declined (expire now (mstate m)) ⊆ declined next ->
  let '(_, m', d') := publish (set_state m (expire now (mstate m))) io d next in
  effect now m d (mkSys m' d').
Proof.
  intros Hm Hn Hd. unfold publish, persist. simpl.
  destruct (beq (File (cfg m)) []) eqn:Ef; simpl.
  - apply beq_true in Ef. by apply (effect_publish now m d next d).
  - destruct io; simpl; [by apply effect_expire|].
    by apply (effect_publish now m d next (FileSaved (snapshot next))).
Qed.

Section steps.
Context (m : Manager) (d : file) (now : time) (Hm : manager_wf m) (Hnow : zeroTime <= now).

Let Hwf : wf (cfg m) (reservedNames m) (expire now (mstate m)).
Proof. by apply wf_expire, Hm. Qed.

Lemma Offer_effect id r h f : effect now m d (mkSys (OfferWithFallback m now id r h f).2 d).
Proof.
  unfold OfferWithFallback. set (s := expire now (mstate m)). set (m1 := set_state m s).
  destruct (validClientID id) eqn:Ev; simpl; [|by apply effect_expire].
  destruct (IsValid (offerIP m1 s id r)) eqn:Ei; simpl; [|by apply effect_expire].
  destruct (offerIP_ok m1 s id r (proj1 Hm) Hwf Ei) as [Hp Hocc].
  match goal with |- context [set_state m1 ?x] => change (set_state m1 x) with (set_state m x) end.
  apply effect_keep; [done|done|]. apply (wf_set_offer _ _ s); [done| |done].
  split_and!; simpl; [done|done|done| |].
  - pose proof (cfg_durations _ _ (proj1 Hm)). lia.
  - exact (offerName_ok m1 s id h f (proj1 Hm) Hwf).
Qed.

Lemma Commit_next_wf id ip h f :
  let s := expire now (mstate m) in let m1 := set_state m s in
  validClientID id = true -> inPool (cfg m) (Unmap ip) = true -> Unmap ip ∉ occupied s id ->
  wf (cfg m) (reservedNames m)
    (mkState (<[id := mkLease id (Unmap ip) (commitName m1 s id (Unmap ip) h f) (now + LeaseDuration (cfg m))]> (leases s))
       (delete id (offers s)) (declined s)).
Proof.
  intros s m1 Hv Hp Hocc.
  destruct (commitName_ok m1 s id (Unmap ip) h f (proj1 Hm) Hwf) as (Hn & Hr & Ht).
  apply wf_set_lease; simpl; try done. split_and!; simpl; try done.
  pose proof (cfg_durations _ _ (proj1 Hm)). lia.
Qed.

Lemma Commit_effect io id ip h f :
  let '(_, m', d') := CommitWithFallback m now io d id ip h f in effect now m d (mkSys m' d').
Proof.
  unfold CommitWithFallback. set (s := expire now (mstate m)). set (m1 := set_state m s).
  destruct (negb (validClientID id) || _ || _) eqn:Eg; [by apply effect_expire|].
  bool_hyps. pose proof (Commit_next_wf id ip h f) as Hn. simpl in Hn.
  pose proof (publish_effect now m io d _ Hm (Hn ltac:(done) ltac:(done) ltac:(done)) (reflexivity _)) as Hp.
  fold s m1 in Hp |- *. simpl. destruct (publish _ _ _ _) as [[[[]|e] m'] d']; exact Hp.
Qed.

Lemma Release_effect io id ip :
  let '(_, m', d') := Release m now io d id ip in effect now m d (mkSys m' d').
Proof.
  unfold Release. destruct (owns _ _ _) eqn:Eo; simpl; [|by apply effect_expire].
  apply publish_effect; [done| |done]. by apply wf_remove.
Qed.

Lemma Decline_effect io id ip :
  let '(_, m', d') := Decline m now io d id ip in effect now m d (mkSys m' d').
Proof.
  unfold Decline. destruct (owns _ _ _) eqn:Eo; simpl; [|by apply effect_expire].
  apply publish_effect; [done| |].
  - apply (wf_decline _ _ (expire now (mstate m)) id (Unmap ip)); [done|done|].
    pose proof (cfg_durations _ _ (proj1 Hm)). lia.
  - apply (insert_subseteq (declined (expire now (mstate m)))).
    by apply (wf_quarantine _ _ _ Hwf id), owns_spec.
Qed.

Lemma lookup_effects :
  (forall n, (LookupName m now n).2 = set_state m (expire now (mstate m))) /\
  (forall n, (HasName m now n).2 = set_state m (expire now (mstate m))) /\
  (forall ip, (LookupIP m now ip).2 = set_state m (expire now (mstate m))).
Proof.
  split_and!; intros x; unfold LookupName, HasName, LookupIP; cbv zeta;
    try match goal with |- context [if ?b then (_, _) else _] => destruct b end; reflexivity.
Qed.

Lemma run_op_effect io o : effect now m d (run_op now io o (mkSys m d)).
Proof.
  destruct lookup_effects as (Hn & Hh & Hi).
  destruct o; unfold run_op; [| | | |rewrite Hn|rewrite Hh|rewrite Hi]; try apply (effect_expire now m d Hm).
  - apply Offer_effect.
  - pose proof (Commit_effect io clientID ip hostname fallback) as H. by destruct (CommitWithFallback _ _ _ _ _ _ _ _) as [[] ].
  - pose proof (Release_effect io clientID ip) as H. by destruct (Release _ _ _ _ _ _) as [[] ].
  - pose proof (Decline_effect io clientID ip) as H. by destruct (Decline _ _ _ _ _ _) as [[] ].
Qed.

End steps.

(** ** Reachable systems *)

(** The pool ends of a configuration are 32-bit addresses. *)
Definition pool_32 (c : Config) : Prop := forall v, Unmap (PoolEnd c) = Addr4 v -> v < 2 ^ 32.

(** [m] is a manager [newManager c] builds, up to its state. *)
Definition built (c : Config) (m : Manager) : Prop :=
  forall now d, newManager c now d
    = match restore (cfg m) (reservedNames m) now d with
      | Err e => Err (ErrRestore e)
      | Ok s => Ok (set_state m s)
      end.

(** The invariant of reachable systems: well formed, and the file restores to
    what is live from the last step on. *)
Definition sys_inv (c : Config) (ty : time * sys) : Prop :=
  let '(t, y) := ty in
  zeroTime <= t /\ manager_wf (mgr y) /\ built c (mgr y) /\
  forall now, t <= now -> File (cfg (mgr y)) <> [] ->
    restore (cfg (mgr y)) (reservedNames (mgr y)) now (disk y) = Ok (live now (mstate (mgr y))).

Lemma newManager_restore c now d m :
  newManager c now d = Ok m ->
  restore (cfg m) (reservedNames m) now d = Ok (mstate m) /\ built c m.
Proof.
  unfold built, newManager. intros H. repeat (case_match; try done). simplify_eq.
  split; [done|]. intros now' d'. cbn [cfg reservedNames]. by destruct (restore _ _ now' d').
Qed.

Lemma sys_inv_init c now d m :
  pool_32 c -> zeroTime <= now -> newManager c now d = Ok m -> sys_inv c (now, mkSys m d).
Proof.
  intros Hp Hn E. destruct (newManager_restore _ _ _ _ E) as [Er Hb].
  split; [done|]. split; [by eapply newManager_wf|]. split; [done|].
  intros later Hl _. eapply restore_later; [exact Hl|done].
Qed.

Lemma sys_inv_op c t now io o y :
  sys_inv c (t, y) -> t <= now -> sys_inv c (now, run_op now io o y).
Proof.
  intros (Hz & Hm & Hb & Hd) Ht. destruct y as [m d].
  destruct (run_op_effect m d now Hm ltac:(lia) io o) as [s' El Ed Hs|s' d' Hs _ Hf]; (split; [lia|]);
    (split; [split; [exact (proj1 Hm)|done]|]); (split; [exact Hb|]); intros later Hl Hfile; simpl in *.
  - rewrite Hd by (done || lia). f_equal. unfold live.
    rewrite <- (expire_expire now later (mstate m)) by done.
    unfold expire at 1 2 5 6. simpl. by rewrite El, Ed.
  - rewrite Hf by done. apply restore_snapshot; [exact (proj1 Hm)|done|done].
Qed.

Lemma sys_inv_step c ty ty' : pool_32 c -> sys_inv c ty -> step c ty ty' -> sys_inv c ty'.
Proof.
  intros Hp Hi. destruct 1 as [t now io o y Ht|t now y m Ht E]; [by eapply sys_inv_op|].
  destruct Hi as [? _]. eapply sys_inv_init; [done| |done]. lia.
Qed.

Lemma sys_inv_steps c ty ty' : pool_32 c -> sys_inv c ty -> rtc (step c) ty ty' -> sys_inv c ty'.
Proof. intros Hp Hi. induction 1; [done|]. eauto using sys_inv_step. Qed.

Lemma reach_inv c ty : pool_32 c -> reach c ty -> sys_inv c ty.
Proof.
  intros Hp (ty0 & [now d m Hn E] & Hs). eapply sys_inv_steps; [done| |done]. by apply sys_inv_init.
Qed.

Lemma reach_op c t y now io o : reach c (t, y) -> t <= now -> reach c (now, run_op now io o y).
Proof. intros (i & Hi & Hs) Ht. exists i. split; [done|]. eapply rtc_r; [exact Hs|]. by apply step_op. Qed.

Lemma step_time c ty ty' : step c ty ty' -> ty.1 <= ty'.1.
Proof. by destruct 1. Qed.

Lemma steps_time c ty ty' : rtc (step c) ty ty' -> ty.1 <= ty'.1.
Proof. induction 1 as [|x y z H _ IH]; [lia|]. apply step_time in H. lia. Qed.

(** A restart of a reachable system succeeds, with what is live. *)
Lemma sys_inv_restart c t y now :
  sys_inv c (t, y) -> t <= now ->
  newManager c now (disk y)
    = Ok (set_state (mgr y) (if beq (File (cfg (mgr y))) [] then newState else live now (mstate (mgr y)))).
Proof.
  intros (_ & _ & Hb & Hd) Ht. rewrite (Hb now (disk y)). destruct (beq (File _) []) eqn:Ef.
  - unfold restore. by rewrite Ef.
  - apply beq_false in Ef. by rewrite Hd.
Qed.

(** ** Quarantine *)

(** A quarantined address stays quarantined, until the same instant, across
    every operation; with a lease file, across restarts too. *)
Lemma quarantine_op t y t' y' ip u :
  manager_wf (mgr y) -> zeroTime <= t -> op_step (t, y) (t', y') -> declined (mstate (mgr y)) !! ip = Some u -> t' < u ->
  declined (mstate (mgr y')) !! ip = Some u /\ cfg (mgr y') = cfg (mgr y).
Proof.
  intros Hm Hz Hs Hd Hu. inversion Hs as [? ? io o ? Ht]; subst. destruct y as [m d]. simpl in Hd.
  assert (He : declined (expire t' (mstate m)) !! ip = Some u) by (apply expire_declined; auto).
  destruct (run_op_effect m d t' Hm ltac:(lia) io o) as [s' _ Ed _|s' d' _ Hsub _]; (split; [|done]); simpl.
  - by rewrite Ed.
  - by eapply lookup_weaken.
Qed.

Lemma quarantine_step c t y t' y' ip u :
  sys_inv c (t, y) -> step c (t, y) (t', y') -> File (cfg (mgr y)) <> [] ->
  declined (mstate (mgr y)) !! ip = Some u -> t' < u ->
  declined (mstate (mgr y')) !! ip = Some u /\ cfg (mgr y') = cfg (mgr y).
Proof.
  intros Hi Hs Hf Hd Hu. inversion Hs as [? ? io o ? Ht|? ? ? m Ht E]; subst.
  - destruct Hi as (Hz & Hm & _). eapply quarantine_op; [exact Hm|exact Hz|by constructor|done|done].
  - rewrite (sys_inv_restart c t y t' Hi Ht) in E. apply beq_false in Hf. rewrite Hf in E. simplify_eq.
    split; [|done]. simpl. apply map_lookup_filter_Some. auto.
Qed.

Lemma op_step_step c x y : op_step x y -> step c x y.
Proof. intros [t now io o s Ht]. by constructor. Qed.

Lemma quarantine_steps c t y t' y' ip u :
  pool_32 c -> sys_inv c (t, y) ->
  File (cfg (mgr y)) <> [] /\ rtc (step c) (t, y) (t', y') \/ rtc op_step (t, y) (t', y') ->
  declined (mstate (mgr y)) !! ip = Some u -> t' < u ->
  declined (mstate (mgr y')) !! ip = Some u.
Proof.
  intros Hp Hi [[Hf Hs]|Hs]; remember (t, y) as ty eqn:E1; remember (t', y') as ty' eqn:E2.
  - revert t y E1 Hi Hf. induction Hs as [|ty [t1 y1] ty' H Hs IH]; intros t y -> Hi Hf Hd Hu; [by simplify_eq|].
    pose proof (steps_time _ _ _ Hs) as Ht. subst ty'. simpl in Ht.
    destruct (quarantine_step _ _ _ _ _ _ _ Hi H Hf Hd) as [Hd1 Hc1]; [lia|].
    eapply (IH eq_refl t1 y1 eq_refl); [by eapply sys_inv_step|by rewrite Hc1|done|done].
  - revert t y E1 Hi. induction Hs as [|ty [t1 y1] ty' H Hs IH]; intros t y -> Hi Hd Hu; [by simplify_eq|].
    assert (Hs' : rtc (step c) (t1, y1) ty') by (eapply rtc_subrel; [|exact Hs]; apply op_step_step).
    pose proof (steps_time _ _ _ Hs') as Ht. subst ty'. simpl in Ht.
    pose proof Hi as (Hz & Hm & _). destruct (quarantine_op _ _ _ _ _ _ Hm Hz H Hd) as [Hd1 _]; [lia|].
    eapply (IH eq_refl t1 y1 eq_refl); [|done|done]. eapply sys_inv_step; [done|exact Hi|by apply op_step_step].
Qed.
