(* ===== verification/LeaseProps.v ===== *)
(** * Package internal/lease: what the manager promises

    The properties of the lease manager, over the reachable systems of
    LeaseOps.v and over the single operations of Lease.v, each with a concrete
    run that meets its hypotheses. *)

From stdpp Require Import gmap list strings sorting.
From Stdlib Require Import ZArith Lia.
From S2P Require Import Prelude GoStrings Names GoNet Lease LeaseFacts LeaseOps.

(** ** A concrete system *)

(** A pool of three addresses, and two clients. *)
Definition pool_base : Z := 10 * 2 ^ 24 + 10.
Definition ip_a : Addr := Addr4 pool_base.
Definition ip_b : Addr := Addr4 (pool_base + 1).

Definition demo_cfg : Config :=
  mkConfig ip_a (Addr4 (pool_base + 2)) (str "Home.arpa.") (60 * minute) 0 0
    [str "printer"] (str "/var/lib/leases.json").

Definition alice : bytes := str "hw/01/aa".
Definition bob : bytes := str "hw/01/bb".

Definition demo_mgr : Manager :=
  match newManager demo_cfg 0 FileAbsent with Ok m => m | Err _ => mkManager demo_cfg newState ∅ end.
Definition demo0 : sys := mkSys demo_mgr FileAbsent.
Definition demo1 : sys := run_op 1 None (OpCommit alice ip_a (str "Laptop") []) demo0.
Definition demo2 : sys := run_op 2 None (OpOffer bob AddrNone [] (str "box")) demo1.
Definition demo3 : sys := run_op 2 None (OpDecline bob ip_b) demo2.
Definition demo4 : sys := run_op 3 None (OpLookupIP ip_b) demo3.

(** [s'] agrees with [s] on the entries of [id]. *)
Definition same_entries (id : bytes) (s s' : state) : Prop :=
  leases s' !! id = leases s !! id /\ offers s' !! id = offers s !! id.

(** ** Helper lemmas *)

Lemma demo_pool : pool_32 demo_cfg.
Proof. intros v E. vm_compute in E. simplify_eq. done. Qed.

Lemma demo_reach0 : reach demo_cfg (0, demo0).
Proof.
  exists (0, demo0). split; [|apply rtc_refl]. apply init_new; [done|].
  vm_compute. reflexivity.
Qed.

Lemma demo_reach2 : reach demo_cfg (2, demo2).
Proof.
  destruct demo_reach0 as (i & Hi & Hs). exists i. split; [done|].
  etrans; [exact Hs|].
  eapply rtc_l; [apply (step_op demo_cfg 0 1); lia|].
  eapply rtc_l; [apply (step_op demo_cfg 1 2); lia|]. apply rtc_refl.
Qed.

Lemma demo_wf0 : manager_wf demo_mgr.
Proof. by destruct (reach_inv _ _ demo_pool demo_reach0) as (_ & H & _). Qed.

Lemma demo_wf2 : manager_wf (mgr demo2).
Proof. by destruct (reach_inv _ _ demo_pool demo_reach2) as (_ & H & _). Qed.

Lemma publish_err m io d next e m' d' :
  publish m io d next = (Err e, m', d') -> m' = m /\ d' = d.
Proof.
  unfold publish, persist. destruct (beq _ []), io; simpl; intros E; by simplify_eq.
Qed.

Lemma publish_ok m io d next m' d' :
  publish m io d next = (Ok tt, m', d') -> m' = set_state m next.
Proof.
  unfold publish, persist. destruct (beq _ []), io; simpl; intros E; by simplify_eq.
Qed.

(** The lease an address or a name resolves to is the unique one carrying it. *)
Lemma LookupIP_lease m now id l :
  manager_wf m -> leases (mstate m) !! id = Some l -> now < ExpiresAt l ->
  (LookupIP m now (IP l)).1 = Some l.
Proof.
  intros [Hc Hwf] El Ht. unfold LookupIP. cbn [fst].
  assert (Hw : wf (cfg m) (reservedNames m) (expire now (mstate m))) by by apply wf_expire.
  assert (E : leases (expire now (mstate m)) !! id = Some l) by by apply expire_leases.
  destruct (wf_leases _ _ _ Hw _ _ E) as [(_ & _ & Hp & _) _].
  rewrite (inPool_Unmap _ _ Hp). eapply findLease_unique; [done|by apply addr_eqb_true|].
  intros id' l' E' Hi%addr_eqb_true. assert (id' = id) as ->; [|congruence].
  eapply (wf_exclusive _ _ _ Hw); left; eauto.
Qed.

Lemma LookupName_lease m now id l :
  manager_wf m -> leases (mstate m) !! id = Some l -> now < ExpiresAt l -> Hostname l <> [] ->
  (LookupName m now (Hostname l)).1 = Some l.
Proof.
  intros [Hc Hwf] El Ht Hn. unfold LookupName.
  assert (Hw : wf (cfg m) (reservedNames m) (expire now (mstate m))) by by apply wf_expire.
  assert (E : leases (expire now (mstate m)) !! id = Some l) by by apply expire_leases.
  destruct (wf_leases _ _ _ Hw _ _ E) as [(_ & _ & _ & _ & [?|Hu]) Hr]; [done|].
  cbn [set_state cfg reservedNames].
  rewrite (canonical_fixed _ _ (cfg_domain _ _ Hc) Hu), (proj2 (beq_false _ _) Hn).
  rewrite bool_decide_eq_false_2 by done. cbn [orb fst].
  eapply findLease_unique; [done|apply beq_refl|]. intros id' l' E' Hl%beq_true.
  assert (id' = id) as ->; [|congruence]. apply (wf_names _ _ _ Hw id' id l' l); [done|done|done|congruence].
Qed.

(** The entries of [id] after an operation of another client [c]. *)
Section frame.
Context (m : Manager) (now : time) (c id : bytes) (Hne : c <> id).

Let s : state := expire now (mstate m).

Lemma remove_frame ip : same_entries id s (remove s c ip).
Proof. split; simpl; case_match; try done; by rewrite lookup_delete_ne. Qed.

Lemma publish_frame io d next :
  same_entries id s next -> same_entries id s (mstate (publish (set_state m s) io d next).1.2).
Proof. intros H. unfold publish, persist. destruct (beq _ []), io; simpl; done. Qed.

Lemma Offer_frame r h f : same_entries id s (mstate (OfferWithFallback m now c r h f).2).
Proof.
  unfold OfferWithFallback. fold s. destruct (negb (validClientID c)); [done|].
  destruct (negb (IsValid _)); [done|]. split; [done|]. cbn [snd mstate set_state offers].
  by rewrite lookup_insert_ne.
Qed.

Lemma Commit_frame io d ip h f : same_entries id s (mstate (CommitWithFallback m now io d c ip h f).1.2).
Proof.
  unfold CommitWithFallback. fold s. destruct (negb _ || _ || _); [done|].
  match goal with |- context [publish ?a ?b ?e ?n] => pose proof (publish_frame b e n) as H end.
  specialize (H ltac:(split; cbn [leases offers]; by rewrite ?lookup_insert_ne, ?lookup_delete_ne)).
  destruct (publish _ _ _ _) as [[[[]|e] m'] d']; exact H.
Qed.

Lemma Release_frame io d ip : same_entries id s (mstate (Release m now io d c ip).1.2).
Proof.
  unfold Release. fold s. destruct (negb _); [done|]. apply publish_frame, remove_frame.
Qed.

Lemma Decline_frame io d ip : same_entries id s (mstate (Decline m now io d c ip).1.2).
Proof.
  unfold Decline. fold s. destruct (negb _); [done|]. apply publish_frame. exact (remove_frame (Unmap ip)).
Qed.

End frame.

(** Freshness of an offered address: the choice [offerIP] makes for a client
    with neither a lease nor an offer. *)
Lemma offerIP_fresh m s id requested :
  leases s !! id = None -> offers s !! id = None ->
  offerIP m s id requested
  = if inPool (cfg m) (Unmap requested) && negb (bool_decide (Unmap requested ∈ occupied s id))
    then Unmap requested
    else firstFree (poolSize (cfg m)) (PoolStart (cfg m)) (PoolEnd (cfg m)) (occupied s id).
Proof. intros El Eo. unfold offerIP. by rewrite El, Eo. Qed.

(** When no address is offered, none is free. *)
Lemma offerIP_none m s id requested :
  cfg_wf (cfg m) (reservedNames m) -> wf (cfg m) (reservedNames m) s ->
  IsValid (offerIP m s id requested) = false ->
  forall ip, inPool (cfg m) ip = true -> ip ∈ occupied s id.
Proof.
  intros Hc Hwf. destruct (leases s !! id) as [l|] eqn:El.
  { unfold offerIP. rewrite El. apply (wf_leases _ _ _ Hwf) in El as [(_ & _ & Hp & _) _].
    by destruct (inPool_4 _ _ Hp) as [v ->]. }
  destruct (offers s !! id) as [o|] eqn:Eo.
  { unfold offerIP. rewrite El, Eo. apply (wf_offers _ _ _ Hwf) in Eo as (_ & _ & Hp & _).
    by destruct (inPool_4 _ _ Hp) as [v ->]. }
  rewrite offerIP_fresh by done. destruct (inPool _ _ && _) eqn:Ep.
  { apply andb_true_iff in Ep as [Ep _]. by destruct (inPool_4 _ _ Ep) as [v ->]. }
  destruct (firstFree_pool (cfg m) (occupied s id) (cfg_pool _ _ Hc)) as [_ H]. exact H.
Qed.

(** ** Properties *)

(** C1: In every reachable system at most one client holds an address (by lease
    or by outstanding offer), a held address lies in the pool and is not
    quarantined, two leases never carry the same name, and no lease carries a
    reserved name. *)
Theorem reach_exclusive c t y :
  pool_32 c -> reach c (t, y) ->
  let s := mstate (mgr y) in
  (forall id1 id2 ip, holds s id1 ip -> holds s id2 ip ->
     id1 = id2 /\ inPool (cfg (mgr y)) ip = true /\ declined s !! ip = None) /\
  (forall id1 id2 l1 l2, leases s !! id1 = Some l1 -> leases s !! id2 = Some l2 ->
     Hostname l1 = Hostname l2 -> Hostname l1 <> [] -> id1 = id2) /\
  (forall id l, leases s !! id = Some l -> Hostname l ∉ reservedNames (mgr y)).
Proof.
  intros Hp Hr s. destruct (reach_inv _ _ Hp Hr) as (_ & [_ [H1 H2 H3 H4 H5 H6]] & _).
  split_and!; [|exact H6|intros id l E; apply (H1 _ _ E)].
  intros id1 id2 ip Ha Hb. split_and!; [by eapply H4| |by eapply H5].
  destruct Ha as [(l & E & <-)|(o & E & <-)]; [apply H1 in E as [(_ & _ & ? & _) _]|apply H2 in E as (_ & _ & ? & _)]; done.
Qed.

Lemma reach_exclusive_witness :
  reach demo_cfg (2, demo2) /\ holds (mstate (mgr demo2)) alice ip_a /\
  declined (mstate (mgr demo2)) !! ip_a = None.
Proof.
  assert (H : holds (mstate (mgr demo2)) alice ip_a) by (apply owns_spec; vm_compute; reflexivity).
  split; [exact demo_reach2|]. split; [exact H|].
  apply (reach_exclusive demo_cfg 2 demo2 demo_pool demo_reach2) with (id1 := alice) (id2 := alice); exact H.
Defined.

(** C4: A restart of a reachable system never fails.  Without a lease file it
    starts empty; with one it comes back with exactly the leases and the
    quarantines that are still live and no offer, whatever operations and
    persistence failures came before. *)
Theorem restart_recovers c t y now :
  pool_32 c -> reach c (t, y) -> t <= now ->
  newManager c now (disk y) =
    Ok (set_state (mgr y)
          (if beq (File (cfg (mgr y))) [] then newState
           else mkState (leases (expire now (mstate (mgr y)))) ∅ (declined (expire now (mstate (mgr y)))))).
Proof. intros Hp Hr Ht. apply (sys_inv_restart c t y now (reach_inv _ _ Hp Hr) Ht). Qed.

Lemma restart_recovers_witness :
  exists m, newManager demo_cfg 3 (disk demo2) = Ok m /\ is_Some (leases (mstate m) !! alice).
Proof.
  eexists. split; [apply (restart_recovers demo_cfg 2 demo2 3 demo_pool demo_reach2); lia|].
  vm_compute. eauto.
Defined.

(** An update that fails, for whatever reason, changes neither the file nor
    the manager, apart from forgetting what had expired. *)
Theorem failed_update_changes_nothing m now io d id ip h f :
  let kept := set_state m (expire now (mstate m)) in
  (forall e m' d', CommitWithFallback m now io d id ip h f = (Err e, m', d') -> m' = kept /\ d' = d) /\
  (forall e m' d', Release m now io d id ip = (Err e, m', d') -> m' = kept /\ d' = d) /\
  (forall e m' d', Decline m now io d id ip = (Err e, m', d') -> m' = kept /\ d' = d).
Proof.
  intros kept. split_and!; intros e m' d'.
  - unfold CommitWithFallback. fold kept. destruct (negb _ || _ || _); [intros E; by simplify_eq|].
    destruct (publish _ _ _ _) as [[[[]|e'] m1] d1] eqn:Ep; [done|]. intros E. simplify_eq.
    by eapply publish_err.
  - unfold Release. fold kept. destruct (negb _); [intros E; by simplify_eq|]. apply publish_err.
  - unfold Decline. fold kept. destruct (negb _); [intros E; by simplify_eq|]. apply publish_err.
Qed.

(** C39: An offer to a valid client reports exhaustion exactly when every pool
    address is held by someone else or quarantined.  Otherwise it reserves a
    free pool address: the client's own if it has one, else the requested one if
    that is free, else the lowest free one. *)
Theorem Offer_allocates m now id requested h f :
  manager_wf m -> validClientID id = true ->
  let s := expire now (mstate m) in
  let '(r, m') := OfferWithFallback m now id requested h f in
  match r with
  | Err e => e = ErrPoolExhausted /\ forall ip, inPool (cfg m) ip = true -> ip ∈ occupied s id
  | Ok l =>
      offers (mstate m') !! id = Some l /\ ExpiresAt l = now + OfferDuration (cfg m) /\
      inPool (cfg m) (IP l) = true /\ (IP l ∉ occupied s id) /\
      (forall cur, leases s !! id = Some cur -> IP l = IP cur) /\
      (forall o, leases s !! id = None -> offers s !! id = Some o -> IP l = IP o) /\
      (leases s !! id = None -> offers s !! id = None ->
       IP l = Unmap requested \/
       ((inPool (cfg m) (Unmap requested) = false \/ Unmap requested ∈ occupied s id) /\
        forall ip, inPool (cfg m) ip = true -> ip ∉ occupied s id -> addr_leb (IP l) ip = true))
  end.
Proof.
  intros [Hc Hwf] Hv s. assert (Hw : wf (cfg m) (reservedNames m) s) by by apply wf_expire.
  unfold OfferWithFallback. fold s. set (m1 := set_state m s). rewrite Hv. cbn [negb].
  destruct (IsValid (offerIP m1 s id requested)) eqn:Ei; cbn [negb].
  2:{ split; [done|]. by apply (offerIP_none m1 s id requested Hc Hw). }
  destruct (offerIP_ok m1 s id requested Hc Hw Ei) as [Hp Hocc].
  split_and!; cbn [mstate offers IP ExpiresAt set_state]; [by rewrite lookup_insert_eq|done|exact Hp|exact Hocc| | |].
  - intros cur El. unfold offerIP. by rewrite El.
  - intros o El Eo. unfold offerIP. by rewrite El, Eo.
  - intros El Eo. rewrite (offerIP_fresh m1 s id requested El Eo) in Ei |- *.
    destruct (inPool (cfg m1) (Unmap requested) && _) eqn:Er; [by left|right].
    split; [apply andb_false_iff in Er as [?|?%negb_false_iff%bool_decide_eq_true]; auto|].
    destruct (firstFree_pool (cfg m1) (occupied s id) (cfg_pool _ _ Hc)) as [H _]. by apply (H Ei).
Qed.

Lemma Offer_allocates_witness :
  exists l, offers (mstate (OfferWithFallback demo_mgr 5 bob AddrNone [] []).2) !! bob = Some l /\ IP l = ip_a.
Proof.
  pose proof (Offer_allocates demo_mgr 5 bob AddrNone [] [] demo_wf0 ltac:(vm_compute; reflexivity)) as H.
  destruct (OfferWithFallback demo_mgr 5 bob AddrNone [] []) as [r m'] eqn:E.
  vm_compute in E. injection E as <- <-. destruct H as (H & _).
  eexists. split; [exact H|reflexivity].
Defined.

(** A commit is refused exactly when the client identifier is invalid, the
    address is outside the pool or the address is held by another client or
    quarantined.  Once it succeeds the lease is found by its address, and by its
    name when it has one, until it expires. *)
Theorem Commit_visible m now d id ip h f :
  manager_wf m -> zeroTime <= now ->
  let s := expire now (mstate m) in
  let '(r, m', _) := CommitWithFallback m now None d id ip h f in
  match r with
  | Err e => e = ErrUnavailable /\
      (validClientID id = false \/ inPool (cfg m) (Unmap ip) = false \/ Unmap ip ∈ occupied s id)
  | Ok l =>
      validClientID id = true /\ inPool (cfg m) (Unmap ip) = true /\ (Unmap ip ∉ occupied s id) /\
      IP l = Unmap ip /\ ClientID l = id /\ ExpiresAt l = now + LeaseDuration (cfg m) /\
      forall later, later < ExpiresAt l ->
        (LookupIP m' later ip).1 = Some l /\
        (Hostname l <> [] -> (LookupName m' later (Hostname l)).1 = Some l)
  end.
Proof.
  intros Hm Hnow s. unfold CommitWithFallback. fold s. set (m1 := set_state m s).
  destruct (negb (validClientID id) || _ || _) eqn:Eg.
  { split; [done|]. rewrite !orb_true_iff, !negb_true_iff, bool_decide_eq_true in Eg. tauto. }
  rewrite !orb_false_iff, !negb_false_iff, bool_decide_eq_false in Eg. destruct Eg as [[Ev Ep] Eo].
  assert (Hio : exists d', publish m1 None d
      (mkState (<[id := mkLease id (Unmap ip) (commitName m1 s id (Unmap ip) h f) (now + LeaseDuration (cfg m1))]> (leases s))
         (delete id (offers s)) (declined s))
    = (Ok tt, set_state m (mkState (<[id := mkLease id (Unmap ip) (commitName m1 s id (Unmap ip) h f) (now + LeaseDuration (cfg m))]> (leases s))
         (delete id (offers s)) (declined s)), d')).
  { unfold publish, persist. destruct (beq _ []); eauto. }
  destruct Hio as [d' ->]. set (l := mkLease id (Unmap ip) _ _). set (s' := mkState (<[id := l]> _) _ _).
  split_and!; [done|done|done|done|done|done|]. intros later Hl.
  destruct (commitName_ok m1 s id (Unmap ip) h f (proj1 Hm) (wf_expire _ _ _ _ (proj2 Hm))) as (Hn & Hr & Ht).
  assert (Hm' : manager_wf (set_state m s')).
  { split; [exact (proj1 Hm)|]. apply wf_set_lease; [by apply wf_expire, Hm| |done|done|done].
    split_and!; try done. destruct (cfg_durations _ _ (proj1 Hm)) as [Hd _].
    subst l. cbn [ExpiresAt]. change (cfg m1) with (cfg m). lia. }
  assert (E : leases (mstate (set_state m s')) !! id = Some l) by apply lookup_insert_eq.
  split; [|intros Hne; exact (LookupName_lease _ later id l Hm' E Hl Hne)].
  pose proof (LookupIP_lease _ later id l Hm' E Hl) as H. cbn [IP l] in H.
  unfold LookupIP in H |- *. by rewrite Unmap_idem in H.
Qed.

Lemma Commit_visible_witness :
  exists l, (CommitWithFallback (mgr demo2) 4 None (disk demo2) bob ip_b (str "desk") []).1.1 = Ok l /\
    Hostname l = str "desk.home.arpa." /\
    (LookupName (CommitWithFallback (mgr demo2) 4 None (disk demo2) bob ip_b (str "desk") []).1.2 9
       (Hostname l)).1 = Some l.
Proof.
  pose proof (Commit_visible (mgr demo2) 4 (disk demo2) bob ip_b (str "desk") [] demo_wf2 ltac:(done)) as H.
  destruct (CommitWithFallback (mgr demo2) 4 None (disk demo2) bob ip_b (str "desk") []) as [[[l|e] m'] d'] eqn:E;
    [|exfalso; vm_compute in E; discriminate E].
  destruct H as (_ & _ & _ & _ & _ & Hexp & H). exists l.
  assert (Hl : l = mkLease bob ip_b (str "desk.home.arpa.") (4 + 60 * minute)).
  { apply (f_equal (fun x => x.1.1)) in E. vm_compute in E. injection E as <-. vm_compute. reflexivity. }
  split; [reflexivity|]. split; [rewrite Hl; reflexivity|].
  apply H; [rewrite Hl; vm_compute; reflexivity|rewrite Hl; vm_compute; discriminate].
Defined.

(** C26: Once a client declines an address, no operation of any client brings it
    back before the quarantine ends, and no restart does if there is a lease file:
    until then no offer proposes it and every commit of it is refused.  A manager
    that keeps its leases in memory only, as it does without a file, holds to this
    until it is restarted. *)
Theorem declined_stays_out c t y id ip d' m' t' y' now :
  pool_32 c -> reach c (t, y) ->
  Decline (mgr y) t None (disk y) id ip = (Ok tt, m', d') ->
  File (cfg (mgr y)) <> [] /\ rtc (step c) (t, mkSys m' d') (t', y') \/ rtc op_step (t, mkSys m' d') (t', y') ->
  t' <= now < t + DeclineDuration (cfg (mgr y)) ->
  forall id2 req h f,
    (forall l, (OfferWithFallback (mgr y') now id2 req h f).1 = Ok l -> IP l <> Unmap ip) /\
    (CommitWithFallback (mgr y') now None (disk y') id2 ip h f).1.1 = Err ErrUnavailable.
Proof.
  intros Hp Hr Ed Hs Hn id2 req h f. pose proof (reach_inv _ _ Hp Hr) as Hi.
  assert (Hi1 : sys_inv c (t, mkSys m' d')).
  { pose proof (sys_inv_op c t t None (OpDecline id ip) y Hi ltac:(lia)) as H.
    destruct y as [m d]. cbn [run_op mgr disk] in *. by rewrite Ed in H. }
  assert (Hd : declined (mstate m') !! Unmap ip = Some (t + DeclineDuration (cfg (mgr y))) /\ cfg m' = cfg (mgr y)).
  { unfold Decline in Ed. destruct (negb _); [done|]. apply publish_ok in Ed as ->. split; [|done].
    cbn [mstate set_state declined]. by rewrite lookup_insert_eq. }
  destruct Hd as [Hd Hc]. assert (Hq : declined (mstate (mgr y')) !! Unmap ip = Some (t + DeclineDuration (cfg (mgr y)))).
  { eapply (quarantine_steps c t _ t' y'); [done|exact Hi1|cbn [mgr]; by rewrite Hc|done|lia]. }
  assert (Ho : Unmap ip ∈ occupied (expire now (mstate (mgr y'))) id2).
  { apply occupied_spec. right. eexists. apply expire_declined. split; [exact Hq|lia]. }
  assert (Hs' : rtc (step c) (t, mkSys m' d') (t', y')).
  { destruct Hs as [[_ Hs]|Hs]; [done|]. eapply rtc_subrel; [|exact Hs]. apply op_step_step. }
  pose proof (sys_inv_steps _ _ _ Hp Hi1 Hs') as (_ & [Hc' Hw'] & _). split.
  - intros l. unfold OfferWithFallback. set (s := expire now _) in *. set (m1 := set_state _ s).
    destruct (negb (validClientID id2)); [done|].
    destruct (IsValid (offerIP m1 s id2 req)) eqn:Ei; cbn [negb fst]; [|done]. intros E. simplify_eq. cbn [IP].
    destruct (offerIP_ok m1 s id2 req Hc' (wf_expire _ _ _ _ Hw') Ei) as [_ Hocc]. congruence.
  - unfold CommitWithFallback. rewrite (bool_decide_eq_true_2 _ Ho), orb_true_r. done.
Qed.

(** The same after a restart from the lease file, and without one. *)
Definition demo_restarted : sys :=
  match newManager demo_cfg 3 (disk demo3) with Ok m => mkSys m (disk demo3) | Err _ => demo3 end.

Lemma declined_stays_out_witness :
  (CommitWithFallback (mgr demo_restarted) 4 None (disk demo_restarted) bob ip_b [] []).1.1 = Err ErrUnavailable /\
  (CommitWithFallback (mgr demo4) 4 None (disk demo4) bob ip_b [] []).1.1 = Err ErrUnavailable.
Proof.
  split.
  - refine (proj2 (declined_stays_out demo_cfg 2 demo2 bob ip_b (disk demo3) (mgr demo3) 3 demo_restarted 4
      demo_pool demo_reach2 ltac:(vm_compute; reflexivity) _ _ bob AddrNone [] [])).
    + left. split; [vm_compute; discriminate|]. apply rtc_once. unfold demo_restarted.
      destruct (newManager demo_cfg 3 (disk demo3)) as [m|] eqn:E; [|exfalso; vm_compute in E; discriminate E].
      apply (step_restart demo_cfg 2 3 (mkSys (mgr demo3) (disk demo3)) m); [lia|exact E].
    + vm_compute. split; [discriminate|reflexivity].
  - refine (proj2 (declined_stays_out demo_cfg 2 demo2 bob ip_b (disk demo3) (mgr demo3) 3 demo4 4
      demo_pool demo_reach2 ltac:(vm_compute; reflexivity) _ _ bob AddrNone [] [])).
    + right. apply rtc_once, (op_step_op 2 3 None (OpLookupIP ip_b)). lia.
    + vm_compute. split; [discriminate|reflexivity].
Defined.

(** An operation leaves every live lease and offer of every client other
    than the one it is for as it is; lookups are for nobody. *)
Theorem other_clients_untouched now io o m d id :
  op_client o <> Some id ->
  same_entries id (expire now (mstate m)) (mstate (mgr (run_op now io o (mkSys m d)))).
Proof.
  intros Hid. destruct (lookup_effects m now) as (Hn & Hh & Hi).
  destruct o as [c r h f|c ip h f|c ip|c ip| | |]; cbn [op_client] in Hid; unfold run_op;
    [| | | |by rewrite Hn|by rewrite Hh|by rewrite Hi]; assert (c <> id) by congruence.
  - by apply Offer_frame.
  - pose proof (Commit_frame m now c id H io d ip h f). by destruct (CommitWithFallback _ _ _ _ _ _ _ _) as [[] ].
  - pose proof (Release_frame m now c id H io d ip). by destruct (Release _ _ _ _ _ _) as [[] ].
  - pose proof (Decline_frame m now c id H io d ip). by destruct (Decline _ _ _ _ _ _) as [[] ].
Qed.

Lemma other_clients_untouched_witness :
  same_entries alice (expire 5 (mstate (mgr demo2)))
    (mstate (mgr (run_op 5 None (OpRelease bob ip_a) (mkSys (mgr demo2) (disk demo2))))).
Proof. apply other_clients_untouched. vm_compute. discriminate. Defined.

(** Forward and reverse lookups agree.  A name resolves to the one live
    lease that carries it in normalised form, whose address resolves back to the
    same lease; a lease found by address is found again by its name; and a live
    unreserved lease of either kind is always found. *)
Theorem lookups_agree m now :
  manager_wf m ->
  (forall name l, (LookupName m now name).1 = Some l ->
     Hostname l = NormalizeHostname name (Domain (cfg m)) /\ now < ExpiresAt l /\
     (LookupIP m now (IP l)).1 = Some l) /\
  (forall ip l, (LookupIP m now ip).1 = Some l ->
     IP l = Unmap ip /\ now < ExpiresAt l /\
     (Hostname l <> [] -> (LookupName m now (Hostname l)).1 = Some l)) /\
  (forall id l, leases (mstate m) !! id = Some l -> now < ExpiresAt l ->
     (LookupIP m now (IP l)).1 = Some l /\
     (Hostname l <> [] -> (LookupName m now (Hostname l)).1 = Some l)).
Proof.
  intros Hm. split_and!.
  - intros name l. unfold LookupName. destruct (beq _ [] || _); [done|]. cbn [fst].
    intros (Ht%beq_true & id & [El Hl]%expire_leases)%findLease_Some. split_and!; [done|done|].
    by apply (LookupIP_lease m now id l).
  - intros ip l. unfold LookupIP. cbn [fst].
    intros (Ht%addr_eqb_true & id & [El Hl]%expire_leases)%findLease_Some. split_and!; [done|done|].
    by apply (LookupName_lease m now id l).
  - intros id l El Hl. split; [by eapply LookupIP_lease|by eapply LookupName_lease].
Qed.

Lemma lookups_agree_witness :
  exists l, (LookupName (mgr demo2) 3 (str "LAPTOP")).1 = Some l /\ IP l = ip_a /\
    (LookupIP (mgr demo2) 3 (IP l)).1 = Some l.
Proof.
  destruct (LookupName (mgr demo2) 3 (str "LAPTOP")) as [[l|] m'] eqn:E;
    [|exfalso; vm_compute in E; discriminate E].
  apply (f_equal fst) in E. exists l. split; [reflexivity|]. split.
  - vm_compute in E. injection E as <-. reflexivity.
  - exact (proj2 (proj2 (proj1 (lookups_agree (mgr demo2) 3 demo_wf2) (str "LAPTOP") l E))).
Defined.

(** A release or a decline succeeds (when it can be saved) exactly for the
    client that holds the address, and afterwards nobody holds it. *)
Theorem release_decline_own m now d id ip :
  manager_wf m ->
  let s := expire now (mstate m) in
  let '(r, m', _) := Release m now None d id ip in
  let '(r2, m2, _) := Decline m now None d id ip in
  (r = Ok tt <-> holds s id (Unmap ip)) /\ (r2 = Ok tt <-> holds s id (Unmap ip)) /\
  (r = Ok tt -> forall id', ~ holds (mstate m') id' (Unmap ip)) /\
  (r2 = Ok tt -> (forall id', ~ holds (mstate m2) id' (Unmap ip)) /\
     declined (mstate m2) !! Unmap ip = Some (now + DeclineDuration (cfg m))).
Proof.
  intros [Hc Hwf] s. assert (Hw : wf (cfg m) (reservedNames m) s) by by apply wf_expire.
  unfold Release, Decline. fold s. set (m1 := set_state m s).
  destruct (owns s id (Unmap ip)) eqn:Eo; cbn [negb].
  2:{ apply not_true_iff_false in Eo. rewrite owns_spec in Eo. naive_solver. }
  pose proof (fun id' => remove_free _ _ s id (Unmap ip) id' Hw Eo) as Hfree.
  assert (Hp : forall next, exists d', publish m1 None d next = (Ok tt, set_state m1 next, d')).
  { intros next. unfold publish, persist. destruct (beq _ []); eauto. }
  destruct (Hp (remove s id (Unmap ip))) as [d1 ->].
  match goal with |- context [publish m1 None d ?n] => destruct (Hp n) as [d2 ->] end.
  apply owns_spec in Eo as Hh. split_and!; [done|done|intros _; exact Hfree|intros _].
  split; [|cbn [mstate set_state declined]; by rewrite lookup_insert_eq].
  exact Hfree.
Qed.

Lemma release_decline_own_witness :
  let '(r, m', _) := Release (mgr demo2) 4 None (disk demo2) alice ip_a in
  r = Ok tt /\ ~ holds (mstate m') alice ip_a.
Proof.
  pose proof (release_decline_own (mgr demo2) 4 (disk demo2) alice ip_a demo_wf2) as H.
  destruct (Release (mgr demo2) 4 None (disk demo2) alice ip_a) as [[r m'] d'] eqn:E.
  destruct (Decline (mgr demo2) 4 None (disk demo2) alice ip_a) as [[r2 m2] d2].
  destruct H as (H1 & _ & H2 & _).
  assert (Hr : r = Ok tt).
  { apply H1. apply owns_spec. vm_compute. reflexivity. }
  split; [exact Hr|]. exact (H2 Hr alice).
Defined.
