(* ===== verification/Dhcp.v ===== *)
(** * Package internal/dhcpserver

    The DHCP handler over the lease manager of Lease.v.  Packets come decoded
    by the dhcpv4 library: the model's [DHCPv4] has the header fields and the
    option map the handler reads, and the library's decoding accessors and its
    reply constructor are the class [Dhcpv4].  A reply is the list of
    modifications the handler asks the library to apply. *)

From stdpp Require Import gmap list strings.
From Stdlib Require Import ZArith Lia.
From S2P Require Import Prelude GoStrings Names GoHash GoNet Lease.

(** ** Packets *)

Record DHCPv4 := mkDHCPv4 {
  OpCode : Z;
  HWType : Z;
  HopCount : Z;
  ClientHWAddr : bytes;
  ClientIPAddr : bytes;
  GatewayIPAddr : bytes;
  Options : gmap Z bytes
}.

(** Codes of RFC 2131, 2132, 4578 and 4702. *)
Definition OpcodeBootRequest : Z := 1.
Definition OptionRequestedIPAddress : Z := 50.
Definition OptionDHCPMessageType : Z := 53.
Definition OptionServerIdentifier : Z := 54.
Definition OptionClientIdentifier : Z := 61.
Definition OptionFQDN : Z := 81.
Definition OptionClientSystemArchitectureType : Z := 93.
Definition OptionVendorSpecificInformation : Z := 43.

Definition MessageTypeDiscover : Z := 1.
Definition MessageTypeOffer : Z := 2.
Definition MessageTypeRequest : Z := 3.
Definition MessageTypeDecline : Z := 4.
Definition MessageTypeAck : Z := 5.
Definition MessageTypeNak : Z := 6.
Definition MessageTypeRelease : Z := 7.
Definition MessageTypeInform : Z := 8.

Definition ServerPort : Z := 67.
Definition ClientPort : Z := 68.

(** [Options.Get]: [None] is the nil slice of an absent option. *)
Definition Get (request : DHCPv4) (code : Z) : option bytes := Options request !! code.
Definition GetLen (request : DHCPv4) (code : Z) : Z :=
  match Get request code with Some raw => len raw | None => 0 end.

(** The modifications a reply may carry. *)
Inductive Modifier :=
| WithMessageType (kind : Z)
| OptServerIdentifier (ip : bytes)
| WithBroadcast (b : bool)
| WithClientIP (ip : bytes)
| WithNetmask (ones bits : Z)
| WithDNS (ip : bytes)
| OptNTPServers (ip : bytes)
| OptGeneric (code : Z) (raw : bytes)
| OptDomainName (domain : bytes)
| WithDomainSearchList (domain : bytes)
| WithRouter (ip : bytes)
| WithServerIP (ip : bytes)
| OptTFTPServerName (name : bytes)
| OptBootFileName (name : bytes)
| SetBootFileName (name : bytes)
| WithYourIP (ip : bytes)
| OptIPAddressLeaseTime (d : duration)
| OptRenewTimeValue (d : duration)
| OptRebindingTimeValue (d : duration)
| OptHostName (name : bytes).

(** What the handler asks of the dhcpv4 library. *)
Class Dhcpv4 := {
  ServerIdentifier : DHCPv4 -> bytes;
  RequestedIPAddress : DHCPv4 -> bytes;
  MessageType : DHCPv4 -> Z;
  HostName : DHCPv4 -> bytes;
  Reply : Type;
  NewReplyFromRequest : DHCPv4 -> list Modifier -> option Reply;
  replyMessageType : Reply -> Z
}.

(** ** Server *)

Record DhcpConfig := mkDhcpConfig {
  dc_ServerIP : Addr;
  dc_Subnet : Prefix;
  dc_Router : Addr;
  dc_Domain : bytes;
  dc_LeaseDuration : duration
}.

Inductive dhcp_new_error := ErrServerSubnet | ErrDhcpLeaseDuration.

(** The library's largest lease time, 2^32-1 seconds, is a parameter. *)
Definition New_dhcp (maxLeaseTime : duration) (c : DhcpConfig) : result dhcp_new_error DhcpConfig :=
  if negb (Is4 (dc_ServerIP c)) || negb (prefix_IsValid (dc_Subnet c))
     || negb (Contains (dc_Subnet c) (dc_ServerIP c)) then Err ErrServerSubnet
  else if (dc_LeaseDuration c <? minute) || (maxLeaseTime <? dc_LeaseDuration c)
  then Err ErrDhcpLeaseDuration
  else Ok (mkDhcpConfig (dc_ServerIP c) (dc_Subnet c) (dc_Router c)
             (ToLower (TrimSuffix (dc_Domain c) [DOT])) (dc_LeaseDuration c)).

(** ** Client identity and names *)

(** [ipv4]: unspecified and non-IPv4 values become the zero address. *)
Definition ipv4 (ip : bytes) : Addr :=
  match AddrFromSlice (default [] (To4 ip)) with
  | None => AddrNone
  | Some addr => if IsUnspecified addr then AddrNone else Unmap addr
  end.

Definition clientIdentifier (request : DHCPv4) : bytes :=
  match Get request OptionClientIdentifier with
  | Some id =>
      if (len id <? 2) || (255 <? len id) then [] else str "id:" ++ HexEncode id
  | None =>
      if (len (ClientHWAddr request) =? 0) || (16 <? len (ClientHWAddr request)) then []
      else str "hw:" ++ FormatUint (HWType request) ++ str ":" ++ HexEncode (ClientHWAddr request)
  end.

(** The loop of [clientHostname] over a wire name; every turn consumes at least
    one byte, so [fuel] is the length of the name. *)
Fixpoint wireName (fuel : nat) (remaining : bytes) (labels : list bytes) : bytes :=
  match fuel with
  | O => []
  | S k =>
      match remaining with
      | [] => []
      | n :: remaining =>
          if n =? 0 then
            if negb (len remaining =? 0) then [0] else Join labels [DOT]
          else if (63 <? n) || (len remaining <? n) then [0]
          else
            let labels := labels ++ [take (Z.to_nat n) remaining] in
            let remaining := drop (Z.to_nat n) remaining in
            if len remaining =? 0 then Join labels [DOT] else wireName k remaining labels
      end
  end.

(** The FQDN branch of [clientHostname], on the raw option. *)
Definition fqdnName (raw : bytes) : bytes :=
  if (len raw <? 3) || negb (Z.land (at_ raw 0) 240 =? 0) || negb (Z.land (at_ raw 0) 8 =? 0)
  then [0]
  else if Z.land (at_ raw 0) 4 =? 0 then drop 3 raw
  else wireName (length (drop 3 raw)) (drop 3 raw) [].

Definition fallbackHostname (clientID : bytes) : bytes :=
  if beq clientID [] then []
  else
    let name := str "host-" ++ ReplaceByte clientID 58 HYPHEN in
    if len name <=? 63 then name
    else str "host-sha256-" ++ HexEncode (take 24 (Sum256 clientID)).

(** The wire form of a name's labels, without the root label. *)
Definition wireLabels (hostname : bytes) : bytes :=
  flat_map (fun label => u8 (len label) :: label) (Split (TrimSuffix hostname [DOT]) DOT).

Definition fqdnFlags (first : Z) (hostname : bytes) : Z :=
  let flags := Z.land first 4 in
  let flags := if beq hostname [] then Z.lor flags 8 else Z.lor flags 1 in
  if negb (Z.land flags 1 =? Z.land first 1) then Z.lor flags 2 else flags.

(** [fqdnReply]: [None] is the nil slice. *)
Definition fqdnReply (request : DHCPv4) (hostname : bytes) : option bytes :=
  match Get request OptionFQDN with
  | None => None
  | Some raw =>
      if len raw <? 3 then None
      else
        let flags := fqdnFlags (at_ raw 0) hostname in
        let result := [flags; 0; 0] in
        if Z.land flags 4 =? 0 then Some (result ++ TrimSuffix hostname [DOT])
        else Some (result ++ (if beq hostname [] then [] else wireLabels hostname) ++ [0])
  end.

(** ** Network boot *)

Definition bootFile (architecture : Z) : bytes :=
  if architecture =? 0 then str "pxelinux.0"
  else if (architecture =? 7) || (architecture =? 9) then str "bootx64.efi"
  else [].

(** The loop over the 16-bit entries of option 93; [fuel] is their number. *)
Fixpoint bootChoice (fuel : nat) (architectures : bytes) : option (bytes * bytes) :=
  match fuel with
  | O => None
  | S k =>
      match architectures with
      | hi :: lo :: rest =>
          let filename := bootFile (be_decode [hi; lo]) in
          if beq filename [] then bootChoice k rest else Some (filename, [hi; lo])
      | _ => None
      end
  end.

(** [Addr.String] for the IPv4 addresses [New_dhcp] admits. *)
Definition AddrString (a : Addr) : bytes :=
  match a with Addr4 v => String4 v | _ => [] end.

Definition bootOptions (c : DhcpConfig) (request : DHCPv4) : list Modifier :=
  let architectures := default [] (Get request OptionClientSystemArchitectureType) in
  if (len architectures =? 0) || negb (len architectures mod 2 =? 0) then []
  else match bootChoice (length architectures / 2) architectures with
       | None => []
       | Some (filename, arch) =>
           [WithServerIP (AsSlice (dc_ServerIP c));
            OptTFTPServerName (AddrString (dc_ServerIP c));
            OptBootFileName filename;
            OptGeneric OptionClientSystemArchitectureType arch;
            SetBootFileName filename]
       end.

(** ** The handler *)

Inductive dhcp_error :=
| ErrOffer (e : lease_error)
| ErrCommit (e : lease_error)
| ErrRelease (e : lease_error)
| ErrDecline (e : lease_error)
| ErrBuildReply.

Section handler.
Context `{Dhcpv4} (c : DhcpConfig).

(** Invalid names deliberately remain nonempty; an absent name is empty. *)
Definition clientHostname (request : DHCPv4) : bytes :=
  match Get request OptionFQDN with
  | None => HostName request
  | Some raw => fqdnName raw
  end.

Definition replyModifiers (request : DHCPv4) (kind : Z) (allocation : option Lease) : list Modifier :=
  let server := AsSlice (dc_ServerIP c) in
  [WithMessageType kind; OptServerIdentifier server] ++
  (if kind =? MessageTypeNak then [WithBroadcast true]
   else
     [WithClientIP (ClientIPAddr request);
      WithNetmask (p_bits (dc_Subnet c)) 32;
      WithDNS server;
      OptNTPServers server;
      OptGeneric OptionVendorSpecificInformation
        (str "http://" ++ AddrString (dc_ServerIP c) ++ str "/ca.pem");
      OptDomainName (dc_Domain c);
      WithDomainSearchList (dc_Domain c)] ++
     (if IsValid (dc_Router c) then [WithRouter (AsSlice (dc_Router c))] else []) ++
     (match allocation with
      | None => []
      | Some a =>
          bootOptions c request ++
          [WithYourIP (AsSlice (IP a));
           OptIPAddressLeaseTime (dc_LeaseDuration c);
           OptRenewTimeValue (dc_LeaseDuration c / 2);
           OptRebindingTimeValue (dc_LeaseDuration c / 8 * 7)] ++
          (if beq (Hostname a) [] then [] else [OptHostName (TrimSuffix (Hostname a) [DOT])]) ++
          (match fqdnReply request (Hostname a) with
           | None => []
           | Some option => [OptGeneric OptionFQDN option]
           end)
      end) ++
     (if negb (IsValid (ipv4 (ClientIPAddr request))) && negb (IsValid (ipv4 (GatewayIPAddr request)))
      then [WithBroadcast true] else [])).

Definition reply (request : DHCPv4) (kind : Z) (allocation : option Lease)
    : result dhcp_error (option Reply) :=
  match NewReplyFromRequest request (replyModifiers request kind allocation) with
  | None => Err ErrBuildReply
  | Some r => Ok (Some r)
  end.

(** Where a reply is sent: address and port. *)
Definition IPv4bcast : Addr := Addr4 (2 ^ 32 - 1).

Definition replyAddress (request : DHCPv4) (r : Reply) : Addr * Z :=
  let relay := ipv4 (GatewayIPAddr request) in
  let current := ipv4 (ClientIPAddr request) in
  if IsValid relay then (relay, ServerPort)
  else if negb (replyMessageType r =? MessageTypeNak) && IsValid current then (current, ClientPort)
  else (IPv4bcast, ClientPort).

(** The option lengths checked before anything is decoded. *)
Definition badLength (request : DHCPv4) (code : Z) : bool :=
  match Get request code with Some raw => negb (len raw =? 4) | None => false end.

(** [Handle] over the manager and its file; [now] is the clock reading of the one
    manager call it may make, and [None] is a nil request. *)
Definition Handle (m : Manager) (now : time) (io : option persist_step) (d : file)
    (request : option DHCPv4) : result dhcp_error (option Reply) * Manager * file :=
  let ignore := (Ok None, m, d) in
  match request with
  | None => ignore
  | Some request =>
  if negb (OpCode request =? OpcodeBootRequest) || (16 <? HopCount request) then ignore
  else if badLength request OptionRequestedIPAddress || badLength request OptionServerIdentifier
  then ignore
  else if negb (GetLen request OptionDHCPMessageType =? 1) then ignore
  else
    let clientID := clientIdentifier request in
    if beq clientID [] then ignore
    else
      let relay := ipv4 (GatewayIPAddr request) in
      if IsValid relay && negb (Contains (dc_Subnet c) relay) then ignore
      else
        let serverID := ipv4 (ServerIdentifier request) in
        if IsValid serverID && negb (addr_eqb serverID (dc_ServerIP c)) then ignore
        else
          let requested := ipv4 (RequestedIPAddress request) in
          let current := ipv4 (ClientIPAddr request) in
          let kind := MessageType request in
          if kind =? MessageTypeDiscover then
            if IsValid current || IsValid serverID then ignore
            else match OfferWithFallback m now clientID requested (clientHostname request)
                         (fallbackHostname clientID) with
                 | (Err ErrPoolExhausted, m') => (Ok None, m', d)
                 | (Err e, m') => (Err (ErrOffer e), m', d)
                 | (Ok allocation, m') => (reply request MessageTypeOffer (Some allocation), m', d)
                 end
          else if kind =? MessageTypeRequest then
            if IsValid current && (IsValid requested || IsValid serverID) then ignore
            else if negb (IsValid current) && negb (IsValid requested) then ignore
            else
              let requested := if IsValid current then current else requested in
              match CommitWithFallback m now io d clientID requested (clientHostname request)
                      (fallbackHostname clientID) with
              | (Err (ErrPersist step), m', d') => (Err (ErrCommit (ErrPersist step)), m', d')
              | (Err _, m', d') => (reply request MessageTypeNak None, m', d')
              | (Ok allocation, m', d') => (reply request MessageTypeAck (Some allocation), m', d')
              end
          else if kind =? MessageTypeRelease then
            if negb (addr_eqb serverID (dc_ServerIP c)) || negb (IsValid current) then ignore
            else match Release m now io d clientID current with
                 | (Err ErrUnavailable, m', d') | (Ok tt, m', d') => (Ok None, m', d')
                 | (Err e, m', d') => (Err (ErrRelease e), m', d')
                 end
          else if kind =? MessageTypeDecline then
            if negb (addr_eqb serverID (dc_ServerIP c)) || negb (IsValid requested) || IsValid current
            then ignore
            else match Decline m now io d clientID requested with
                 | (Err ErrUnavailable, m', d') | (Ok tt, m', d') => (Ok None, m', d')
                 | (Err e, m', d') => (Err (ErrDecline e), m', d')
                 end
          else if kind =? MessageTypeInform then
            if negb (IsValid current) || negb (Contains (dc_Subnet c) current) then ignore
            else (reply request MessageTypeAck None, m, d)
          else ignore
  end.

End handler.
