(* ===== verification/DhcpProps.v ===== *)
(** * Package internal/dhcpserver: properties

    The handler only moves the lease system along its own steps, acknowledges
    only what is recorded, tells clients apart, and encodes and decodes names
    consistently. *)

From stdpp Require Import gmap list strings.
From Stdlib Require Import ZArith Lia.
From S2P Require Import Prelude GoStrings Names GoHash GoNet Lease LeaseFacts LeaseOps Dhcp.

(** ** A concrete library and server *)

(** The accessors read the raw options; a reply is its list of modifications. *)
#[local] Instance demo_lib : Dhcpv4 := {
  ServerIdentifier r := default [] (Get r OptionServerIdentifier);
  RequestedIPAddress r := default [] (Get r OptionRequestedIPAddress);
  MessageType r := at_ (default [] (Get r OptionDHCPMessageType)) 0;
  HostName r := default [] (Get r 12);
  Reply := list Modifier;
  NewReplyFromRequest r mods := Some mods;
  replyMessageType mods := match mods with WithMessageType k :: _ => k | _ => 0 end
}.

Definition dhcp_demo : DhcpConfig :=
  mkDhcpConfig (Addr4 (10 * 2 ^ 24 + 1)) (mkPrefix (Addr4 (10 * 2 ^ 24)) 24) AddrNone
    (str "home.arpa") (60 * minute).

Definition lease_demo : Config :=
  mkConfig (Addr4 (10 * 2 ^ 24 + 10)) (Addr4 (10 * 2 ^ 24 + 12)) (str "home.arpa")
    (60 * minute) 0 0 [] (str "/leases.json").

Definition mgr_demo : Manager :=
  match newManager lease_demo 0 FileAbsent with Ok m => m | Err _ => mkManager lease_demo newState ∅ end.

(** A request for 10.0.0.11 with an FQDN option in wire form. *)
Definition request_demo : DHCPv4 :=
  mkDHCPv4 1 1 0 [2; 0; 0; 0; 0; 1] [] []
    (<[OptionDHCPMessageType := [3]]> (<[OptionRequestedIPAddress := [10; 0; 0; 11]]>
     (<[OptionFQDN := [4; 0; 0; 3; 98; 111; 120; 0]]> ∅))).

(** A well-formed packet: the fields fit their wire width. *)
Definition request_wf (r : DHCPv4) : Prop :=
  0 <= HWType r < 2 ^ 16 /\ wf_bytes (ClientHWAddr r) /\
  forall code raw, Get r code = Some raw -> wf_bytes raw.

(** The entries of option 93, read two bytes at a time. *)
Fixpoint architectures (raw : bytes) : list bytes :=
  match raw with
  | hi :: lo :: rest => [hi; lo] :: architectures rest
  | _ => []
  end.

(** The wire form of a list of labels. *)
Definition wireForm (labels : list bytes) : bytes :=
  flat_map (fun label => len label :: label) labels.

Lemma request_demo_wf : request_wf request_demo.
Proof.
  split; [vm_compute; split; [discriminate|reflexivity]|]. split; [by repeat constructor|].
  intros code raw. unfold Get, request_demo. cbn [Options]. rewrite !lookup_insert_Some, lookup_empty.
  intros [[_ <-]|[_ [[_ <-]|[_ [[_ <-]|[_ [=]]]]]]]; by repeat constructor.
Qed.

(** ** Helper lemmas: the handler *)

(** Case on the guards of the handler, outermost first. *)
Ltac split_handler :=
  repeat match goal with |- context [if ?b then _ else _] =>
    lazymatch b with
    | context [if _ then _ else _] => fail
    | _ => destruct b eqn:?
    end
  end.


Section handling.
Context `{Dhcpv4} (c : DhcpConfig) (m : Manager) (now : time) (io : option persist_step) (d : file).

(** What the handler leaves behind: nothing changed, or one manager operation
    of the requesting client. *)
Definition one_step (r : DHCPv4) (y : sys) : Prop :=
  y = mkSys m d \/
  exists o, op_client o = Some (clientIdentifier r) /\ y = run_op now io o (mkSys m d).

Lemma offer_step r req h f :
  one_step r (mkSys (OfferWithFallback m now (clientIdentifier r) req h f).2 d).
Proof. right. by exists (OpOffer (clientIdentifier r) req h f). Qed.

Lemma commit_step r ip h f x m' d' :
  CommitWithFallback m now io d (clientIdentifier r) ip h f = (x, m', d') -> one_step r (mkSys m' d').
Proof. intros E. right. exists (OpCommit (clientIdentifier r) ip h f). split; [done|]. cbn [run_op]. by rewrite E. Qed.

Lemma release_step r ip x m' d' :
  Release m now io d (clientIdentifier r) ip = (x, m', d') -> one_step r (mkSys m' d').
Proof. intros E. right. exists (OpRelease (clientIdentifier r) ip). split; [done|]. cbn [run_op]. by rewrite E. Qed.

Lemma decline_step r ip x m' d' :
  Decline m now io d (clientIdentifier r) ip = (x, m', d') -> one_step r (mkSys m' d').
Proof. intros E. right. exists (OpDecline (clientIdentifier r) ip). split; [done|]. cbn [run_op]. by rewrite E. Qed.

Lemma keep_step r : one_step r (mkSys m d).
Proof. by left. Qed.

Lemma Handle_one_step r :
  one_step r (mkSys (Handle c m now io d (Some r)).1.2 (Handle c m now io d (Some r)).2).
Proof.
  unfold Handle. cbv zeta. split_handler; try apply keep_step.
  - pose proof (offer_step r (ipv4 (RequestedIPAddress r)) (clientHostname r)
      (fallbackHostname (clientIdentifier r))) as Ho.
    destruct (OfferWithFallback _ _ _ _ _ _) as [[|[]] ]; exact Ho.
  - destruct (CommitWithFallback _ _ _ _ _ _ _ _) as [[[|[]] ] ] eqn:E; exact (commit_step _ _ _ _ _ _ _ E).
  - destruct (CommitWithFallback _ _ _ _ _ _ _ _) as [[[|[]] ] ] eqn:E; exact (commit_step _ _ _ _ _ _ _ E).
  - destruct (Release _ _ _ _ _ _) as [[[[]|[]] ] ] eqn:E; exact (release_step _ _ _ _ _ E).
  - destruct (Decline _ _ _ _ _ _) as [[[[]|[]] ] ] eqn:E; exact (decline_step _ _ _ _ _ E).
Qed.

(** A successful commit is in memory, and on disk when there is a file. *)
Lemma Commit_recorded id ip h f l m' d' :
  CommitWithFallback m now io d id ip h f = (Ok l, m', d') ->
  leases (mstate m') !! id = Some l /\ IP l = Unmap ip /\ ExpiresAt l = now + LeaseDuration (cfg m) /\
  (File (cfg m) <> [] -> io = None /\ d' = FileSaved (snapshot (mstate m'))).
Proof.
  unfold CommitWithFallback. destruct (negb _ || _ || _); [done|]. unfold publish, persist.
  cbn [cfg set_state]. destruct (beq (File (cfg m)) []) eqn:Ef; [|destruct io; [done|]]; cbn [fst snd]; intros E;
    simplify_eq; (split; [cbn [mstate set_state leases]; by rewrite lookup_insert_eq|]); (split_and!; [done..|]);
    [apply beq_true in Ef; by intros Hf|done].
Qed.

Lemma Commit_refused id ip h f e m' d' :
  CommitWithFallback m now io d id ip h f = (Err e, m', d') ->
  m' = set_state m (expire now (mstate m)) /\ d' = d /\ (e = ErrUnavailable \/ exists step, e = ErrPersist step).
Proof.
  unfold CommitWithFallback. destruct (negb _ || _ || _); [intros E; simplify_eq; auto|].
  unfold publish, persist. destruct (beq _ []), io; cbn; intros E; simplify_eq; eauto.
Qed.

(** The outcome of a commit as the handler turns it into a reply. *)
Lemma request_outcome r ip rep m' d' :
  (match CommitWithFallback m now io d (clientIdentifier r) ip (clientHostname r)
           (fallbackHostname (clientIdentifier r)) with
   | (Err (ErrPersist step), m', d') => (Err (ErrCommit (ErrPersist step)), m', d')
   | (Err _, m', d') => (reply c r MessageTypeNak None, m', d')
   | (Ok allocation, m', d') => (reply c r MessageTypeAck (Some allocation), m', d')
   end) = (Ok (Some rep), m', d') ->
  (exists l, NewReplyFromRequest r (replyModifiers c r MessageTypeAck (Some l)) = Some rep /\
     leases (mstate m') !! clientIdentifier r = Some l /\ ExpiresAt l = now + LeaseDuration (cfg m) /\
     (File (cfg m) <> [] -> io = None /\ d' = FileSaved (snapshot (mstate m')))) \/
  (NewReplyFromRequest r (replyModifiers c r MessageTypeNak None) = Some rep /\
     m' = set_state m (expire now (mstate m)) /\ d' = d).
Proof.
  destruct (CommitWithFallback _ _ _ _ _ _ _ _) as [[[l|e] m1] d1] eqn:E.
  - unfold reply. destruct (NewReplyFromRequest _ _) eqn:Er; intros Eq; [|done]. simplify_eq.
    apply Commit_recorded in E as (? & _ & ? & ?). left. eauto.
  - apply Commit_refused in E as (-> & -> & [->|[step ->]]); [|done].
    unfold reply. destruct (NewReplyFromRequest _ _) eqn:Er; intros Eq; [|done]. simplify_eq. by right.
Qed.

End handling.

(** ** Helper lemmas: identity *)

Lemma FormatUint_no_colon n : 0 <= n -> 58 ∉ FormatUint n.
Proof.
  intros Hn Hin. pose proof (proj1 (Forall_forall _ _) (FormatUint_digits n Hn) _ Hin). simpl in *. lia.
Qed.

Lemma clientIdentifier_bytes r :
  request_wf r -> Forall (fun b => 48 <= b <= 58 \/ 97 <= b <= 122) (clientIdentifier r).
Proof.
  intros (Hw & Hm & Ho).
  assert (Hx : forall s, wf_bytes s -> Forall (fun b => 48 <= b <= 58 \/ 97 <= b <= 122) (HexEncode s)).
  { intros s Hs. eapply Forall_impl; [by apply HexEncode_range|]. simpl. lia. }
  unfold clientIdentifier. eval_str. destruct (Get r OptionClientIdentifier) as [id|] eqn:E.
  - destruct (_ || _); [constructor|]. simpl. repeat (constructor; [lia|]). apply Hx. eauto.
  - destruct (_ || _); [constructor|]. simpl. repeat (constructor; [lia|]). apply Forall_app. split.
    + eapply Forall_impl; [apply FormatUint_digits; lia|]. simpl. lia.
    + constructor; [lia|]. by apply Hx.
Qed.

Lemma clientIdentifier_valid r :
  request_wf r -> clientIdentifier r <> [] -> validClientID (clientIdentifier r) = true.
Proof.
  intros Hr Hne. unfold validClientID. rewrite (proj2 (beq_false _ _) Hne). cbn [negb andb].
  assert (Ha : ascii (clientIdentifier r)).
  { eapply Forall_impl; [by apply clientIdentifier_bytes|]. simpl. lia. }
  unfold ValidString. rewrite decode_ascii by done.
  apply forallb_forall. intros [x w] Hin. apply in_map_iff in Hin as (b & Eb & Hin). simplify_eq.
  apply list_elem_of_In in Hin. pose proof (proj1 (Forall_forall _ _) Ha _ Hin) as Hb. simpl in Hb.
  destruct (Z.eqb_spec x RuneError); [unfold RuneError in *; lia|done].
Qed.

Lemma clientIdentifier_inj r1 r2 :
  request_wf r1 -> request_wf r2 -> clientIdentifier r1 <> [] -> clientIdentifier r1 = clientIdentifier r2 ->
  Get r1 OptionClientIdentifier = Get r2 OptionClientIdentifier /\
  (Get r1 OptionClientIdentifier = None -> HWType r1 = HWType r2 /\ ClientHWAddr r1 = ClientHWAddr r2).
Proof.
  intros (Hw1 & Hm1 & Ho1) (Hw2 & Hm2 & Ho2). unfold clientIdentifier.
  pose proof (Ho1 OptionClientIdentifier) as Hi1. pose proof (Ho2 OptionClientIdentifier) as Hi2.
  destruct (Get r1 OptionClientIdentifier) as [id1|], (Get r2 OptionClientIdentifier) as [id2|]; eval_str;
    (destruct (_ || _); [done|]); intros _; (destruct (_ || _); [done|]); intros E; simplify_eq/=.
  - split; [|done]. f_equal. apply HexEncode_inj; eauto.
  - split; [done|]. intros _.
    match goal with E : FormatUint _ ++ _ = _ |- _ => apply sep_unique in E as [Hf Hx] end;
      [|apply FormatUint_no_colon; lia..].
    split; [apply FormatUint_inj in Hf; lia|]. by apply HexEncode_inj.
Qed.

(** ** Helper lemmas: fallback names *)

Lemma validLabel_intro x k y :
  Forall (fun b => label_rune b = true) (x :: k ++ [y]) -> x <> 45 -> y <> 45 -> len (x :: k ++ [y]) <= 63 ->
  validLabel (x :: k ++ [y]) = true.
Proof.
  intros Hr Hx Hy Hl. unfold validLabel, at_, HYPHEN. pose proof (len_nonneg (k ++ [y])).
  rewrite (proj2 (Z.eqb_neq (len _) 0)) by (rewrite len_cons; lia).
  rewrite (proj2 (Z.ltb_ge 63 _)) by done.
  replace (length (x :: k ++ [y]) - 1)%nat with (length (x :: k)) by (simpl; rewrite length_app; simpl; lia).
  assert (Hlast : nth (length (x :: k)) (x :: k ++ [y]) 0 = y).
  { change (x :: k ++ [y]) with ((x :: k) ++ [y]). by rewrite app_nth2, Nat.sub_diag by lia. }
  rewrite Hlast. change (nth 0 (x :: k ++ [y]) 0) with x.
  rewrite (proj2 (Z.eqb_neq x 45)), (proj2 (Z.eqb_neq y 45)) by done. cbn [orb negb andb].
  rewrite runes_ascii.
  - apply forallb_forall. intros b Hb. apply list_elem_of_In in Hb.
    exact (proj1 (Forall_forall _ _) Hr b Hb).
  - eapply Forall_impl; [exact Hr|]. simpl. intros b Hb%label_rune_spec. lia.
Qed.

Lemma HexEncode_last s :
  wf_bytes s -> s <> [] -> exists k y, HexEncode s = k ++ [y] /\ y <> 45.
Proof.
  intros Hs Hne. destruct s as [|b s _] using rev_ind; [done|].
  apply Forall_app in Hs as [_ [Hb _]%Forall_cons]. destruct (nibbles b Hb).
  exists (HexEncode s ++ [hex_digit (b / 16)]), (hex_digit (b mod 16)). split.
  - unfold HexEncode. rewrite flat_map_app. simpl. by rewrite <- app_assoc.
  - pose proof (hex_digit_range (b mod 16)). lia.
Qed.

(** A letter, label characters and a hexadecimal tail make a label. *)
Lemma hex_label x p s :
  label_rune x = true -> x <> 45 -> Forall (fun b => label_rune b = true) p -> wf_bytes s -> s <> [] ->
  len (x :: p ++ HexEncode s) <= 63 -> validLabel (x :: p ++ HexEncode s) = true.
Proof.
  intros Hx Hne Hp Hs Hs0 Hl. destruct (HexEncode_last s Hs Hs0) as (k & y & E & Hy).
  assert (Hh : Forall (fun b => label_rune b = true) (HexEncode s)).
  { eapply Forall_impl; [by apply HexEncode_range|]. simpl. intros b Hb. apply label_rune_spec. lia. }
  rewrite E in Hh, Hl |- *. rewrite app_assoc in Hl |- *. apply validLabel_intro; try done.
  constructor; [done|]. rewrite <- app_assoc. by apply Forall_app.
Qed.

Lemma ReplaceByte_none s a b : a ∉ s -> ReplaceByte s a b = s.
Proof.
  unfold ReplaceByte. induction s as [|c s IH]; [done|]. intros [Hc Hs]%not_elem_of_cons.
  simpl. rewrite (IH Hs). destruct (Z.eqb_spec c a); [congruence|done].
Qed.

Lemma HexEncode_no_colon s : wf_bytes s -> 58 ∉ HexEncode s.
Proof.
  intros Hs Hin. pose proof (proj1 (Forall_forall _ _) (HexEncode_range s Hs) _ Hin). simpl in *. lia.
Qed.

Lemma ReplaceByte_inj a b :
  45 ∉ a -> 45 ∉ b -> ReplaceByte a 58 HYPHEN = ReplaceByte b 58 HYPHEN -> a = b.
Proof.
  unfold ReplaceByte, HYPHEN. revert b. induction a as [|x a IH]; intros [|y b] Ha Hb E; try done.
  apply not_elem_of_cons in Ha as [Hx Ha], Hb as [Hy Hb]. simpl in E. injection E as E1 E2.
  f_equal; [|by apply IH]. destruct (Z.eqb_spec x 58), (Z.eqb_spec y 58); congruence.
Qed.

Lemma clientIdentifier_no_hyphen r : request_wf r -> 45 ∉ clientIdentifier r.
Proof.
  intros Hr Hin. pose proof (proj1 (Forall_forall _ _) (clientIdentifier_bytes r Hr) _ Hin). simpl in *. lia.
Qed.

Lemma fallbackHostname_label r :
  request_wf r -> clientIdentifier r <> [] -> validLabel (fallbackHostname (clientIdentifier r)) = true.
Proof.
  intros Hr Hne. assert (Hid := Hr). destruct Hid as (Hw & Hm & Ho).
  unfold fallbackHostname. rewrite (proj2 (beq_false _ _) Hne).
  destruct (Z.leb_spec (len (str "host-" ++ ReplaceByte (clientIdentifier r) 58 HYPHEN)) 63) as [Hl|_].
  2:{ eval_str. apply (hex_label 104); [done|lia|by repeat constructor| | |].
      - apply Forall_take, Sum256_wf.
      - intros E%(f_equal length). rewrite length_take, length_Sum256 in E. done.
      - unfold len. rewrite length_cons, !length_app, length_HexEncode, length_take, length_Sum256. simpl. lia. }
  revert Hl Hne. unfold clientIdentifier. specialize (Ho OptionClientIdentifier).
  destruct (Get r OptionClientIdentifier) as [id|]; eval_str.
  - destruct ((len id <? 2) || _) eqn:Eg; [done|]. intros Hl _. bool_hyps. specialize (Ho _ eq_refl).
    unfold ReplaceByte in *. rewrite map_app in *. fold (ReplaceByte (HexEncode id) 58 HYPHEN) in *.
    rewrite ReplaceByte_none in * by by apply HexEncode_no_colon.
    cbn [map app Z.eqb Pos.eqb] in Hl |- *. apply (hex_label 104 [111; 115; 116; 45; 105; 100; HYPHEN]);
      [done|lia|by repeat constructor|done| |done].
    intros ->. unfold len in *. simpl in *. lia.
  - destruct ((len (ClientHWAddr r) =? 0) || _) eqn:Eg; [done|]. intros Hl _. bool_hyps.
    unfold ReplaceByte in *. rewrite !map_app in *. fold (ReplaceByte (HexEncode (ClientHWAddr r)) 58 HYPHEN) in *.
    fold (ReplaceByte (FormatUint (HWType r)) 58 HYPHEN) in *.
    rewrite !ReplaceByte_none in * by (by apply HexEncode_no_colon || (apply FormatUint_no_colon; lia)).
    cbn [map app Z.eqb Pos.eqb] in Hl |- *.
    assert (E : forall h, [111; 115; 116; 45; 104; 119; HYPHEN] ++ FormatUint (HWType r) ++ HYPHEN :: h
      = ([111; 115; 116; 45; 104; 119; HYPHEN] ++ FormatUint (HWType r) ++ [HYPHEN]) ++ h)
      by (intros h; by rewrite <- !app_assoc).
    cbn [app] in E. rewrite E in Hl |- *.
    apply (hex_label 104 ([111; 115; 116; 45; 104; 119; HYPHEN] ++ FormatUint (HWType r) ++ [HYPHEN]));
      [done|lia| |done| |done].
    + repeat (constructor; [done|]). apply Forall_app. split; [|by repeat constructor].
      eapply Forall_impl; [apply FormatUint_digits; lia|]. simpl. intros b Hb. apply label_rune_spec. lia.
    + intros En. rewrite En in *. unfold len in *. simpl in *. lia.
Qed.

(** ** Helper lemmas: the FQDN option *)

Lemma wireName_labels labels tail acc fuel :
  Forall (fun l => 0 < len l <= 63) labels -> tail = [0] \/ (tail = [] /\ labels <> []) ->
  (length (wireForm labels ++ tail) <= fuel)%nat ->
  wireName fuel (wireForm labels ++ tail) acc = Join (acc ++ labels) [DOT].
Proof.
  revert acc fuel. induction labels as [|l ls IH]; intros acc fuel Hl Ht Hf.
  { destruct Ht as [->|[_ ?]]; [|done]. destruct fuel; [simpl in Hf; lia|]. simpl. by rewrite app_nil_r. }
  apply Forall_cons in Hl as [Hl Hls]. change (wireForm (l :: ls)) with (len l :: l ++ wireForm ls) in *.
  destruct fuel as [|k]; [simpl in Hf; lia|]. cbn [app wireName].
  rewrite (proj2 (Z.eqb_neq (len l) 0)) by lia. rewrite <- app_assoc.
  rewrite (proj2 (Z.ltb_ge 63 (len l))) by lia.
  rewrite (proj2 (Z.ltb_ge (len (l ++ wireForm ls ++ tail)) (len l)))
    by (rewrite (len_app l); pose proof (len_nonneg (wireForm ls ++ tail)); lia).
  assert (Hn : Z.to_nat (len l) = length l) by (unfold len; lia).
  rewrite Hn, take_app_length, drop_app_length. cbn [orb].
  destruct (len (wireForm ls ++ tail) =? 0) eqn:Ez.
  - apply Z.eqb_eq, len_zero_nil, app_eq_nil in Ez as [E ->]. destruct ls as [|l' ls]; [done|].
    exfalso. discriminate E.
  - replace (acc ++ l :: ls) with ((acc ++ [l]) ++ ls) by by rewrite <- app_assoc. apply IH; [done| |].
    + destruct Ht as [->|[-> _]]; [by left|right]. split; [done|]. intros ->. done.
    + cbn [app length] in Hf. rewrite !length_app in *. lia.
Qed.

(** All the flag bytes at once. *)
Definition flags_ok (named : bool) (first flags : Z) : bool :=
  (Z.land flags 240 =? 0) && (Z.land flags 4 =? Z.land first 4)
  && (Z.land flags 8 =? if named then 0 else 8) && (Z.land flags 1 =? if named then 1 else 0)
  && (Z.land flags 2 =? if Z.land flags 1 =? Z.land first 1 then 0 else 2)
  && (0 <=? flags) && (flags <? 256).

Lemma fqdnFlags_ok first hostname :
  0 <= first < 256 -> flags_ok (negb (beq hostname [])) first (fqdnFlags first hostname) = true.
Proof.
  intros Hf. unfold fqdnFlags. destruct (beq hostname []); cbn [negb].
  - assert (H : forallb (fun f => flags_ok false f
      (let flags := Z.lor (Z.land f 4) 8 in if negb (Z.land flags 1 =? Z.land f 1) then Z.lor flags 2 else flags))
      (seqZ 0 256) = true) by (vm_compute; reflexivity).
    rewrite forallb_forall in H. apply H, list_elem_of_In, elem_of_seqZ. lia.
  - assert (H : forallb (fun f => flags_ok true f
      (let flags := Z.lor (Z.land f 4) 1 in if negb (Z.land flags 1 =? Z.land f 1) then Z.lor flags 2 else flags))
      (seqZ 0 256) = true) by (vm_compute; reflexivity).
    rewrite forallb_forall in H. apply H, list_elem_of_In, elem_of_seqZ. lia.
Qed.

Lemma validLabels_split name : validLabels name = true -> Forall (fun l => 0 < len l <= 63) (Split name DOT).
Proof.
  unfold validLabels. intros H. apply Forall_forall. intros l Hl.
  rewrite forallb_forall in H. apply list_elem_of_In, H in Hl. unfold validLabel in Hl. bool_hyps.
  pose proof (len_nonneg l). lia.
Qed.

Lemma wireLabels_form hostname :
  Forall (fun l => 0 < len l <= 63) (Split (TrimSuffix hostname [DOT]) DOT) ->
  wireLabels hostname = wireForm (Split (TrimSuffix hostname [DOT]) DOT).
Proof.
  unfold wireLabels, wireForm. induction 1 as [|l ls Hl Hls IH]; [done|]. simpl. rewrite IH. f_equal.
  unfold u8. apply Z.mod_small. lia.
Qed.

(** ** Properties *)

(** C13: Whatever the packet, the handler either leaves the lease system alone or
    performs exactly one manager operation, on behalf of the client the packet
    identifies; so everything proved of reachable lease systems holds under any
    DHCP traffic. *)
Theorem Handle_is_a_lease_step `{Dhcpv4} c lc t m d now io r :
  reach lc (t, mkSys m d) -> t <= now ->
  let '(_, m', d') := Handle c m now io d r in
  (exists t', t <= t' <= now /\ reach lc (t', mkSys m' d')) /\
  ((m' = m /\ d' = d) \/
   exists q o, r = Some q /\ op_client o = Some (clientIdentifier q) /\
     mkSys m' d' = run_op now io o (mkSys m d)).
Proof.
  intros (i & Hi & Hs) Ht. destruct r as [q|].
  2:{ simpl. split; [|by left]. exists t. split; [lia|]. by exists i. }
  pose proof (Handle_one_step c m now io d q) as Hq.
  destruct (Handle c m now io d (Some q)) as [[x m'] d']. cbn [fst snd] in Hq. destruct Hq as [E|(o & Ho & E)].
  - simplify_eq. split; [|by left]. exists t. split; [lia|]. by exists i.
  - split; [|right; eauto]. exists now. split; [lia|]. exists i. split; [done|].
    eapply rtc_r; [exact Hs|]. rewrite E. by apply step_op.
Qed.

Lemma Handle_is_a_lease_step_witness :
  exists m' d', (Handle dhcp_demo mgr_demo 7 None FileAbsent (Some request_demo)) .1.2 = m' /\
    exists t', reach lease_demo (t', mkSys m' d').
Proof.
  assert (Hr : reach lease_demo (0, mkSys mgr_demo FileAbsent)).
  { exists (0, mkSys mgr_demo FileAbsent). split; [|apply rtc_refl]. apply init_new; [done|].
    vm_compute. reflexivity. }
  pose proof (Handle_is_a_lease_step dhcp_demo lease_demo 0 mgr_demo FileAbsent 7 None (Some request_demo)
    Hr ltac:(lia)) as Hs.
  destruct (Handle dhcp_demo mgr_demo 7 None FileAbsent (Some request_demo)) as [[x m'] d'].
  exists m', d'. split; [reflexivity|]. destruct Hs as [(t' & _ & Ht) _]. exists t'. exact Ht.
Defined.

(** A reply to a DHCPREQUEST is either an acknowledgement of a lease that is
    recorded, in memory and on disk when there is a lease file, with the full
    lease duration from now; or a refusal that changed nothing.  A storage
    failure is never acknowledged. *)
Theorem ack_is_recorded `{Dhcpv4} c m now io d r rep m' d' :
  MessageType r = MessageTypeRequest ->
  Handle c m now io d (Some r) = (Ok (Some rep), m', d') ->
  (exists l, NewReplyFromRequest r (replyModifiers c r MessageTypeAck (Some l)) = Some rep /\
     leases (mstate m') !! clientIdentifier r = Some l /\ ExpiresAt l = now + LeaseDuration (cfg m) /\
     (File (cfg m) <> [] -> io = None /\ d' = FileSaved (snapshot (mstate m')))) \/
  (NewReplyFromRequest r (replyModifiers c r MessageTypeNak None) = Some rep /\
     m' = set_state m (expire now (mstate m)) /\ d' = d).
Proof.
  intros Hk. unfold Handle. cbv zeta. rewrite Hk.
  change (MessageTypeRequest =? MessageTypeDiscover) with false.
  change (MessageTypeRequest =? MessageTypeRequest) with true. cbv iota.
  split_handler; try done; apply request_outcome.
Qed.

Lemma ack_is_recorded_witness :
  exists l, leases (mstate (Handle dhcp_demo mgr_demo 7 None FileAbsent (Some request_demo)).1.2)
              !! clientIdentifier request_demo = Some l /\ Hostname l = str "box.home.arpa.".
Proof.
  destruct (Handle dhcp_demo mgr_demo 7 None FileAbsent (Some request_demo)) as [[[[rep|]|e] m'] d'] eqn:E;
    try (exfalso; apply (f_equal (fun x => x.1.1)) in E; vm_compute in E; discriminate E).
  assert (Hn : match rep with WithMessageType k :: _ => k | _ => 0 end = MessageTypeAck).
  { apply (f_equal (fun x => x.1.1)) in E. vm_compute in E. injection E as <-. reflexivity. }
  destruct (ack_is_recorded dhcp_demo mgr_demo 7 None FileAbsent request_demo rep m' d'
              ltac:(vm_compute; reflexivity) E) as [(l & _ & Hl & _ & _)|(Er & _)].
  - exists l. split; [exact Hl|]. apply (f_equal (fun x => leases (mstate x.1.2) !! clientIdentifier request_demo)) in E.
    cbn [fst snd] in E. rewrite Hl in E. vm_compute in E. injection E as <-. vm_compute. reflexivity.
  - exfalso. cbn in Er. injection Er as <-. cbn in Hn. discriminate Hn.
Defined.

(** Client identifiers tell clients apart: two well-formed packets share a
    nonempty identifier only if they carry the same client-identifier option, or
    neither carries one and their hardware types and addresses agree.  Every such
    identifier is accepted by the lease manager. *)
Theorem clientIdentifier_distinguishes r1 r2 :
  request_wf r1 -> request_wf r2 -> clientIdentifier r1 <> [] ->
  validClientID (clientIdentifier r1) = true /\
  (clientIdentifier r1 = clientIdentifier r2 ->
   Get r1 OptionClientIdentifier = Get r2 OptionClientIdentifier /\
   (Get r1 OptionClientIdentifier = None -> HWType r1 = HWType r2 /\ ClientHWAddr r1 = ClientHWAddr r2)).
Proof. intros H1 H2 Hne. split; [by apply clientIdentifier_valid|by apply clientIdentifier_inj]. Qed.

Lemma clientIdentifier_distinguishes_witness :
  clientIdentifier request_demo = str "hw:1:020000000001" /\ validClientID (clientIdentifier request_demo) = true.
Proof.
  split; [vm_compute; reflexivity|].
  apply (clientIdentifier_distinguishes request_demo request_demo request_demo_wf request_demo_wf). vm_compute. discriminate.
Defined.

(** The name a client gets when it supplies none is a valid DNS label, and
    two clients whose names are not hashed get different ones. *)
Theorem fallbackHostname_sound r1 r2 :
  request_wf r1 -> request_wf r2 -> clientIdentifier r1 <> [] -> clientIdentifier r2 <> [] ->
  validLabel (fallbackHostname (clientIdentifier r1)) = true /\
  (len (clientIdentifier r1) <= 58 -> len (clientIdentifier r2) <= 58 ->
   fallbackHostname (clientIdentifier r1) = fallbackHostname (clientIdentifier r2) ->
   clientIdentifier r1 = clientIdentifier r2).
Proof.
  intros H1 H2 Hn1 Hn2. split; [by apply fallbackHostname_label|]. intros L1 L2.
  assert (Hs : forall r, clientIdentifier r <> [] -> len (clientIdentifier r) <= 58 ->
    fallbackHostname (clientIdentifier r) = str "host-" ++ ReplaceByte (clientIdentifier r) 58 HYPHEN).
  { intros r Hn Hl. unfold fallbackHostname. rewrite (proj2 (beq_false _ _) Hn), (proj2 (Z.leb_le _ _)); [done|].
    unfold len, ReplaceByte in *. rewrite length_app, length_map. simpl. lia. }
  rewrite !Hs by done. intros E%app_inv_head. by apply ReplaceByte_inj in E; [|apply clientIdentifier_no_hyphen..].
Qed.

Lemma fallbackHostname_sound_witness :
  fallbackHostname (clientIdentifier request_demo) = str "host-hw-1-020000000001" /\
  validLabel (fallbackHostname (clientIdentifier request_demo)) = true.
Proof.
  split; [vm_compute; reflexivity|].
  apply (fallbackHostname_sound request_demo request_demo request_demo_wf request_demo_wf); vm_compute; discriminate.
Defined.

(** The FQDN option the server returns keeps the client's encoding bit, sets
    exactly one of the S bit (registered) and the N bit (not registered), sets
    the O bit exactly when it overrides the client's S bit, and, read back by the
    server's own decoder, names the registered host. *)
Theorem fqdnReply_roundtrip r raw domain hostname :
  Get r OptionFQDN = Some raw -> wf_bytes raw -> 3 <= len raw ->
  hostname = [] \/ canonicalUnder domain hostname ->
  exists out, fqdnReply r hostname = Some out /\
    flags_ok (negb (beq hostname [])) (at_ raw 0) (at_ out 0) = true /\
    (hostname <> [] -> fqdnName out = TrimSuffix hostname [DOT]).
Proof.
  intros Hg Hwf Hl Hh. unfold fqdnReply. rewrite Hg. destruct (Z.ltb_spec (len raw) 3); [lia|].
  assert (Hf : 0 <= at_ raw 0 < 256).
  { destruct Hwf; [unfold len in Hl; simpl in Hl; lia|done]. }
  pose proof (fqdnFlags_ok (at_ raw 0) hostname Hf) as Hok. set (flags := fqdnFlags (at_ raw 0) hostname) in *.
  assert (Hout : forall tail, hostname <> [] ->
    (if Z.land flags 4 =? 0 then tail else wireName (length tail) tail []) = TrimSuffix hostname [DOT] ->
    fqdnName ([flags; 0; 0] ++ tail) = TrimSuffix hostname [DOT]).
  { intros tail Hne E. rewrite (proj2 (beq_false _ _) Hne) in Hok. unfold flags_ok in Hok. bool_hyps.
    unfold fqdnName. change (at_ ([flags; 0; 0] ++ tail) 0) with flags.
    rewrite (proj2 (Z.ltb_ge _ _)) by (rewrite len_app; pose proof (len_nonneg tail); unfold len; simpl; lia).
    rewrite (proj2 (Z.eqb_eq (Z.land flags 240) 0)), (proj2 (Z.eqb_eq (Z.land flags 8) 0)) by (simpl in *; lia).
    exact E. }
  destruct (Z.land flags 4 =? 0) eqn:E4.
  - eexists. split; [done|]. split; [exact Hok|]. intros Hne. by apply Hout.
  - eexists. split; [done|]. split; [exact Hok|]. intros Hne. apply Hout; [done|].
    destruct Hh as [?|(host & -> & Hv & _)]; [done|]. rewrite (proj2 (beq_false _ _) Hne).
    assert (Ht : TrimSuffix (host ++ [DOT] ++ domain ++ [DOT]) [DOT] = host ++ [DOT] ++ domain).
    { rewrite !(app_assoc _ _ [DOT]). apply TrimSuffix_app. }
    apply validDNSName_labels in Hv as [Hv _]. apply validLabels_split in Hv.
    rewrite wireLabels_form, Ht by by rewrite Ht.
    rewrite wireName_labels; [apply Join_Split|done|by left|done].
Qed.

Lemma fqdnReply_roundtrip_witness :
  exists out, fqdnReply request_demo (str "box.home.arpa.") = Some out /\
    fqdnName out = str "box.home.arpa".
Proof.
  destruct (fqdnReply_roundtrip request_demo [4; 0; 0; 3; 98; 111; 120; 0] (str "home.arpa") (str "box.home.arpa.")
    ltac:(vm_compute; reflexivity) ltac:(by repeat constructor) ltac:(vm_compute; discriminate)) as (out & Ho & _ & Hn).
  - right. exists (str "box"). split; [vm_compute; reflexivity|]. split; [vm_compute; reflexivity|vm_compute; discriminate].
  - exists out. split; [exact Ho|]. rewrite Hn; vm_compute; [reflexivity|discriminate].
Defined.

(** Network boot picks the first architecture of the client's list that the
    server has a boot file for, and offers nothing when there is none or the
    option is malformed. *)
Theorem bootOptions_first_supported c r :
  let raw := default [] (Get r OptionClientSystemArchitectureType) in
  bootOptions c r =
  if (len raw mod 2 =? 0) then
    match find (fun a => negb (beq (bootFile (be_decode a)) [])) (architectures raw) with
    | None => []
    | Some a => [WithServerIP (AsSlice (dc_ServerIP c)); OptTFTPServerName (AddrString (dc_ServerIP c));
                 OptBootFileName (bootFile (be_decode a));
                 OptGeneric OptionClientSystemArchitectureType a; SetBootFileName (bootFile (be_decode a))]
    end
  else [].
Proof.
  intros raw. unfold bootOptions. fold raw. clearbody raw.
  assert (Hc : forall n raw, (length raw = 2 * n)%nat ->
    bootChoice n raw = match find (fun a => negb (beq (bootFile (be_decode a)) [])) (architectures raw) with
                       | None => None | Some a => Some (bootFile (be_decode a), a) end).
  { induction n as [|n IH]; intros [|x [|y l]] Hn; simpl in Hn; try lia; [done|].
    cbn [bootChoice architectures find]. destruct (beq _ []); [apply IH; lia|done]. }
  destruct (Z.eqb_spec (len raw) 0) as [E0|E0].
  { apply len_zero_nil in E0 as ->. done. }
  destruct (Z.eqb_spec (len raw mod 2) 0) as [E|E]; [|done]. cbn [negb orb].
  rewrite (Hc (length raw / 2)%nat); [by destruct (find _ _)|].
  unfold len in E. rewrite <- (Nat2Z.inj_mod _ 2) in E. pose proof (Nat.div_mod (length raw) 2). lia.
Qed.
