(* ===== verification/DhcpServe.v ===== *)
(** * Package internal/dhcpserver: Run, listen and Serve

    One goroutine reads packets, decodes them, runs [Handle] on the shared lease
    manager and sends the reply; a cancelled context closes the socket under it.
    Between its steps the other services look leases up in the same manager. *)

From stdpp Require Import gmap list strings relations.
From Stdlib Require Import ZArith Lia.
From S2P Require Import Prelude GoStrings GoNet GoSync Lease LeaseFacts LeaseOps LeaseProps Dhcp DhcpProps.

(** The wire format of the DHCP library. *)
Class Dhcpv4Wire `{Dhcpv4} := {
  FromBytes : bytes -> option DHCPv4;
  ToBytes : Reply -> bytes
}.

Section serve.
Context `{Dhcpv4Wire} (c : DhcpConfig).

Inductive dhcp_pc :=
| DhcpResolve
| DhcpListen
| DhcpRead
| DhcpReadFailed
| DhcpGot (data : bytes)
| DhcpDecode (data : bytes)
| DhcpHandle (request : DHCPv4)
| DhcpDeadline (request : DHCPv4) (r : Reply)
| DhcpWrite (request : DHCPv4) (r : Reply)
| DhcpStop (r : exit)
| DhcpWait (r : exit)
| DhcpClose (r : exit)
| DhcpReturned (r : exit).

(** The clock, the lease manager with its file, and what was sent where. *)
Record dhcp_state := mkDhcp {
  dp_pc : dhcp_pc;
  dp_sock : owned;
  dp_time : time;
  dp_sys : sys;
  dp_sent : list (bytes * (Addr * Z))
}.

Inductive dhcp_label :=
| DhcpRecv (data : bytes)
| DhcpLookup (now : time) (o : op)
| DhcpManager (now : time) (io : option persist_step)
| DhcpGo
| DhcpHook
| DhcpFault.

Definition dhcp_go (s : dhcp_state) (pc : dhcp_pc) : option dhcp_state :=
  Some (mkDhcp pc (dp_sock s) (dp_time s) (dp_sys s) (dp_sent s)).
Definition dhcp_own (s : dhcp_state) (pc : dhcp_pc) (o : owned) : option dhcp_state :=
  Some (mkDhcp pc o (dp_time s) (dp_sys s) (dp_sent s)).

(** The read buffer. *)
Definition dhcpBuffer : nat := Z.to_nat 65535.

(** One step of [Run]: [listen], then [Serve].  A failure to set the write
    deadline is reported without a look at the context. *)
Definition Run_dhcp (l : dhcp_label) (s : dhcp_state) : option dhcp_state :=
  let o := dp_sock s in
  match l, dp_pc s with
  | DhcpGo, DhcpResolve => dhcp_go s DhcpListen
  | DhcpFault, DhcpResolve => dhcp_go s (DhcpReturned (Err (str "resolve DHCP listener")))
  | DhcpGo, DhcpListen => dhcp_own s DhcpRead (own_opened o)
  | DhcpFault, DhcpListen => dhcp_go s (DhcpReturned (Err (str "listen for DHCP")))
  | DhcpRecv data, DhcpRead => if ow_open o then dhcp_go s (DhcpGot (take dhcpBuffer data)) else None
  | DhcpFault, DhcpRead => if ow_open o then dhcp_go s DhcpReadFailed else None
  | DhcpGo, DhcpRead => if ow_open o then None else dhcp_go s DhcpReadFailed
  | DhcpGo, DhcpReadFailed => dhcp_go s (DhcpStop (unlessCancelled o (str "read DHCP packet")))
  | DhcpGo, DhcpGot data => dhcp_go s (if ow_cancelled o then DhcpStop (Ok tt) else DhcpDecode data)
  | DhcpGo, DhcpDecode data =>
      match FromBytes data with
      | None => dhcp_go s DhcpRead
      | Some request => dhcp_go s (DhcpHandle request)
      end
  | DhcpManager now io, DhcpHandle request =>
      if dp_time s <=? now then
        let '(r, m, d) := Handle c (mgr (dp_sys s)) now io (disk (dp_sys s)) (Some request) in
        Some (mkDhcp match r with Ok (Some r) => DhcpDeadline request r | _ => DhcpRead end
                     o now (mkSys m d) (dp_sent s))
      else None
  | DhcpGo, DhcpDeadline request r =>
      dhcp_go s (if ow_open o then DhcpWrite request r else DhcpStop (Err (str "set DHCP write deadline")))
  | DhcpFault, DhcpDeadline _ _ => dhcp_go s (DhcpStop (Err (str "set DHCP write deadline")))
  | DhcpGo, DhcpWrite request r =>
      Some (mkDhcp DhcpRead o (dp_time s) (dp_sys s)
              (if ow_open o then dp_sent s ++ [(ToBytes r, replyAddress request r)] else dp_sent s))
  | DhcpFault, DhcpWrite _ _ => dhcp_go s DhcpRead
  | DhcpGo, DhcpStop r =>
      let '(stopped, o) := own_stop o in dhcp_own s (if stopped then DhcpClose r else DhcpWait r) o
  | DhcpGo, DhcpWait r => if own_waited o then dhcp_go s (DhcpClose r) else None
  | DhcpGo, DhcpClose r => dhcp_own s (DhcpReturned r) (own_close o)
  | DhcpHook, pc => match own_hook o with Some o => dhcp_own s pc o | None => None end
  | DhcpLookup now op, pc =>
      if (dp_time s <=? now) && bool_decide (op_client op = None)
      then Some (mkDhcp pc o now (run_op now None op (dp_sys s)) (dp_sent s)) else None
  | _, _ => None
  end.

(** The service over a lease system at a time. *)
Definition dhcp_machine (t : time) (y : sys) : machine := {|
  mc_state := dhcp_state;
  mc_label := dhcp_label;
  mc_init := mkDhcp DhcpResolve own_init t y [];
  mc_step := Run_dhcp;
  mc_cancel s := mkDhcp (dp_pc s) (own_cancel (dp_sock s)) (dp_time s) (dp_sys s) (dp_sent s);
  mc_cancelled s := ow_cancelled (dp_sock s);
  mc_arrives l := match l with DhcpRecv _ | DhcpLookup _ _ => true | _ => false end;
  mc_own l := match l with DhcpManager _ _ | DhcpGo | DhcpHook => true | _ => false end;
  mc_fault l := match l with DhcpFault => true | _ => false end;
  mc_returned s := match dp_pc s with DhcpReturned r => Some r | _ => None end;
  mc_released s := negb (ow_open (dp_sock s))
|}.

(** ** Facts *)

Definition dhcp_phase (pc : dhcp_pc) : phase :=
  match pc with
  | DhcpResolve | DhcpListen => Before
  | DhcpWait _ => Waiting
  | DhcpClose _ => Closing
  | DhcpReturned _ => Over
  | _ => Serving
  end.

Definition dhcp_rank (pc : dhcp_pc) : nat :=
  match pc with
  | DhcpResolve => 15 | DhcpListen => 14
  | DhcpGot _ => 10 | DhcpDecode _ => 9 | DhcpHandle _ => 8 | DhcpDeadline _ _ => 7 | DhcpWrite _ _ => 6
  | DhcpRead => 5 | DhcpReadFailed => 4 | DhcpStop _ => 3 | DhcpWait _ => 2 | DhcpClose _ => 1
  | DhcpReturned _ => 0
  end.

Definition dhcp_inv (s : dhcp_state) : Prop :=
  phase_hook (dhcp_phase (dp_pc s)) (dp_sock s) = true /\
  match dp_pc s with
  | DhcpStop r | DhcpWait r | DhcpClose r | DhcpReturned r => exit_reason (dp_sock s) r
  | _ => True
  end.

(** One case for each step that is enabled. *)
Ltac dhcp_cases E :=
  cbn [mc_step dhcp_machine] in E; unfold Run_dhcp, dhcp_go, dhcp_own in E;
  cbn [dp_pc dp_sock dp_time dp_sys dp_sent] in E;
  match type of E with match ?l with _ => _ end = _ => destruct l end;
  match type of E with
  | match ?pc with _ => _ end = _ => is_var pc; destruct pc
  | _ => idtac
  end; try discriminate E; step_cases E; cbn [dp_pc dp_sock dp_time dp_sys dp_sent dhcp_phase dhcp_rank] in *.

Lemma dhcp_inv_step l s s' : dhcp_inv s -> Run_dhcp l s = Some s' -> dhcp_inv s'.
Proof.
  destruct s as [pc o t y sent]. intros (Hp & Hr). unfold dhcp_inv. cbn [dp_pc dp_sock] in *. intros E.
  dhcp_cases E; split; eauto with own. destruct pc; eauto with own.
Qed.

Lemma dhcp_inv_cancel s t y : dhcp_inv s -> dhcp_inv (mc_cancel (dhcp_machine t y) s).
Proof.
  destruct s as [pc o t' y' sent]. intros (Hp & Hr). split; [by apply own_cancel_ok|].
  destruct pc; cbn in *; eauto with own.
Qed.

Section system.
Context (t0 : time) (y0 : sys).

Lemma dhcp_reachable s : reachable (dhcp_machine t0 y0) s -> dhcp_inv s.
Proof. apply reachable_invariant; [done|exact dhcp_inv_step|intros s'; apply dhcp_inv_cancel]. Qed.

Lemma dhcp_progress s :
  dhcp_inv s -> ow_cancelled (dp_sock s) = true -> mc_returned (dhcp_machine t0 y0) s = None ->
  exists l, mc_own (dhcp_machine t0 y0) l = true /\ is_Some (Run_dhcp l s).
Proof.
  destruct s as [pc o t y sent]. intros (Hp & _) Hc Hr. cbn [dp_pc dp_sock mc_returned dhcp_machine dhcp_phase] in *.
  assert (Hhook : is_Some (own_hook o) -> is_Some (Run_dhcp DhcpHook (mkDhcp pc o t y sent))).
  { intros [o' Ho]. unfold Run_dhcp. cbn [dp_pc dp_sock]. by rewrite Ho. }
  destruct pc; try discriminate Hr; try by (exists DhcpGo).
  - destruct (ow_open o) eqn:Ho; [exists DhcpHook; split; [done|]; by apply Hhook, own_open_hook|].
    exists DhcpGo. split; [done|]. unfold Run_dhcp. cbn [dp_pc dp_sock]. by rewrite Ho.
  - exists DhcpGo. split; [done|]. unfold Run_dhcp. cbn [dp_pc dp_sock]. by destruct (FromBytes data).
  - exists (DhcpManager t None). split; [done|]. unfold Run_dhcp. cbn [dp_pc dp_sock dp_time].
    rewrite Z.leb_refl. by destruct (Handle _ _ _ _ _ _) as [[? ?] ?].
  - exists DhcpGo. split; [done|]. unfold Run_dhcp. cbn [dp_pc dp_sock]. by destruct (own_stop o).
  - destruct (own_waited o) eqn:Ho; [|exists DhcpHook; split; [done|]; by apply Hhook, own_wait_hook].
    exists DhcpGo. split; [done|]. unfold Run_dhcp. cbn [dp_pc dp_sock]. by rewrite Ho.
Qed.

#[export, refine] Instance dhcp_stoppable : Stoppable (dhcp_machine t0 y0) := {
  st_work := (fun s => dhcp_rank (dp_pc s) + hook_work (ow_hook (dp_sock s)))%nat : mc_state (dhcp_machine t0 y0) -> nat;
  st_load := 6
}.
Proof.
  - by intros [].
  - intros l [pc o t y sent] s' _ E. cbn [mc_arrives dhcp_machine dp_pc dp_sock]. dhcp_cases E; own_facts; lia.
  - done.
  - done.
  - intros l [pc o t y sent] s' E Hc. cbn [mc_cancelled dhcp_machine dp_sock] in *. dhcp_cases E; own_facts; congruence.
  - intros s Hs. apply dhcp_progress. by apply dhcp_reachable.
  - intros l [pc o t y sent] s' r E Hr. cbn [mc_returned dhcp_machine dp_pc] in *. by dhcp_cases E.
  - done.
  - intros [pc o t y sent] r Hs Hr. apply dhcp_reachable in Hs as (Hp & _). cbn in *. destruct pc; try discriminate Hr.
    by rewrite (own_over o Hp).
Defined.

(** ** Properties *)

(** A reply that [Handle] gave on a reachable lease system. *)
Definition handled (lc : Config) (request : DHCPv4) (r : Reply) : Prop :=
  exists t y now io, reach lc (t, y) /\ t <= now /\
    (Handle c (mgr y) now io (disk y) (Some request)).1.1 = Ok (Some r).

Definition leases_inv (lc : Config) (s : dhcp_state) : Prop :=
  (exists t, t <= dp_time s /\ reach lc (t, dp_sys s)) /\
  Forall (fun w => exists request r, handled lc request r /\ w = (ToBytes r, replyAddress request r)) (dp_sent s) /\
  match dp_pc s with DhcpDeadline request r | DhcpWrite request r => handled lc request r | _ => True end.

Lemma Handle_reach lc t y now io q x m d :
  reach lc (t, y) -> t <= now -> Handle c (mgr y) now io (disk y) (Some q) = (x, m, d) ->
  exists t', t' <= now /\ reach lc (t', mkSys m d).
Proof.
  intros Hr Ht E. pose proof (Handle_one_step c (mgr y) now io (disk y) q) as Hq. rewrite E in Hq. cbn [fst snd] in Hq.
  destruct y as [m0 d0]. destruct Hq as [Hq|(o & _ & Hq)]; rewrite Hq; [by exists t|].
  exists now. split; [lia|]. by apply reach_op with t.
Qed.

Lemma leases_inv_step lc l s s' : leases_inv lc s -> Run_dhcp l s = Some s' -> leases_inv lc s'.
Proof.
  destruct s as [pc o t y sent]. intros ((t1 & Ht & Hr) & Hs & Hp) E. unfold leases_inv. cbn [dp_pc dp_time dp_sys dp_sent] in *.
  dhcp_cases E; (split; [try by exists t1|split; [try done|try done]]); bool_hyps.
  - exists now. split; [lia|]. apply reach_op with t1; [done|lia].
  - eapply Handle_reach; [exact Hr| |eassumption]; lia.
  - exists t1, y, now, io. split; [done|]. split; [lia|].
    match goal with E : Handle _ _ _ _ _ _ = _ |- _ => by rewrite E end.
  - eapply Handle_reach; [exact Hr| |eassumption]; lia.
  - eapply Handle_reach; [exact Hr| |eassumption]; lia.
  - apply Forall_app_2; [done|]. constructor; [by exists request, r|constructor].
Qed.

(** C14: Whatever datagrams arrive, whatever the other services look up and however
    the disk behaves, the lease system stays one that the lease manager alone
    could have reached, so no two clients hold one address; and everything sent
    is a reply that [Handle] gave on such a system, to the address the request
    calls for. *)
Theorem dhcp_traffic_keeps_leases lc s :
  pool_32 lc -> reach lc (t0, y0) -> reachable (dhcp_machine t0 y0) s ->
  (exists t, t <= dp_time s /\ reach lc (t, dp_sys s)) /\
  (forall id1 id2 ip, holds (mstate (mgr (dp_sys s))) id1 ip -> holds (mstate (mgr (dp_sys s))) id2 ip -> id1 = id2) /\
  Forall (fun w => exists request r, handled lc request r /\ w = (ToBytes r, replyAddress request r)) (dp_sent s).
Proof.
  intros Hp Hr Hs. assert (Hi : leases_inv lc s).
  { revert s Hs. apply reachable_invariant; [|apply leases_inv_step|done]. split; [by exists t0|by split]. }
  destruct Hi as ((t & Ht & Hy) & Hsent & _). split; [by exists t|]. split; [|done].
  destruct (reach_inv _ _ Hp Hy) as (_ & [_ [_ _ _ Hex _ _]] & _). exact Hex.
Qed.

(** C15: A clean shutdown can be reported as a failure.  Whenever a request is
    answered, the context may be cancelled while [Handle] runs: the socket is
    closed before the write deadline is set, and although no system call failed
    by itself, [Serve] returns an error. *)
Theorem dhcp_shutdown_reports_failure data request now io r m d :
  FromBytes (take dhcpBuffer data) = Some request -> t0 <= now ->
  Handle c (mgr y0) now io (disk y0) (Some request) = (Ok (Some r), m, d) ->
  exists s, faultless (dhcp_machine t0 y0) s /\ mc_cancelled (dhcp_machine t0 y0) s = true /\
    mc_returned (dhcp_machine t0 y0) s = Some (Err (str "set DHCP write deadline")).
Proof.
  intros Hd Ht Hh. pose (s1 := mkDhcp (DhcpHandle request) (own_opened own_init) t0 y0 []).
  assert (H1 : faultless (dhcp_machine t0 y0) s1).
  { apply exec_reachable_by with [DhcpGo; DhcpGo; DhcpRecv data; DhcpGo; DhcpGo] (mc_init (dhcp_machine t0 y0));
      [apply ReachInit|by repeat constructor|]. cbn. by rewrite Hd. }
  apply ReachCancel in H1. eexists. split; [|split].
  - eapply exec_reachable_by; [exact H1| |].
    + instantiate (1 := [DhcpManager now io; DhcpHook; DhcpHook; DhcpGo; DhcpGo; DhcpHook; DhcpGo; DhcpGo]).
      by repeat constructor.
    + cbn -[Handle Z.leb str]. rewrite (proj2 (Z.leb_le t0 now) Ht), Hh. reflexivity.
  - done.
  - done.
Qed.

End system.
End serve.

(** ** Witnesses *)

#[local] Existing Instance demo_lib.

(** A library that decodes one packet. *)
#[local] Instance demo_wire : Dhcpv4Wire := {
  FromBytes data := if beq data [1] then Some request_demo else None;
  ToBytes r := match r with WithMessageType k :: _ => [k] | _ => [] end
}.

Lemma mgr_demo_reach : reach lease_demo (0, mkSys mgr_demo FileAbsent).
Proof.
  exists (0, mkSys mgr_demo FileAbsent). split; [|apply rtc_refl]. apply init_new; [done|]. vm_compute. reflexivity.
Qed.

(** A run: the packet is received, decoded, handled and acknowledged. *)
Definition dhcp_schedule : list dhcp_label :=
  [DhcpGo; DhcpGo; DhcpRecv [1]; DhcpGo; DhcpGo; DhcpManager 7 None; DhcpGo; DhcpGo].

Lemma dhcp_traffic_keeps_leases_witness :
  exists s, exec (M := dhcp_machine dhcp_demo 0 (mkSys mgr_demo FileAbsent)) dhcp_schedule (mc_init _) = Some s /\
    length (dp_sent s) = 1%nat /\ exists t, t <= 7 /\ reach lease_demo (t, dp_sys s).
Proof.
  set (M := dhcp_machine dhcp_demo 0 (mkSys mgr_demo FileAbsent)).
  destruct (exec (M := M) dhcp_schedule (mc_init M)) as [s|] eqn:E; [|exfalso; vm_compute in E; discriminate E].
  exists s. split; [reflexivity|].
  assert (Hs : length (dp_sent s) = 1%nat /\ dp_time s = 7) by (vm_compute in E; injection E as <-; by split).
  destruct Hs as [Hl Ht]. split; [exact Hl|]. rewrite <- Ht.
  refine (proj1 (dhcp_traffic_keeps_leases dhcp_demo 0 (mkSys mgr_demo FileAbsent) lease_demo s _ mgr_demo_reach _)).
  - intros v Hv. vm_compute in Hv. injection Hv as <-. reflexivity.
  - exact (exec_reachable M dhcp_schedule (mc_init M) s (ReachInit M _) E).
Defined.

Lemma dhcp_shutdown_reports_failure_witness :
  exists s, faultless (dhcp_machine dhcp_demo 0 (mkSys mgr_demo FileAbsent)) s /\
    mc_returned (dhcp_machine dhcp_demo 0 (mkSys mgr_demo FileAbsent)) s = Some (Err (str "set DHCP write deadline")).
Proof.
  destruct (Handle dhcp_demo mgr_demo 7 None FileAbsent (Some request_demo)) as [[[[rep|]|e] m'] d'] eqn:E;
    try (exfalso; apply (f_equal (fun x => match x.1.1 with Ok (Some _) => true | _ => false end)) in E; vm_compute in E; discriminate E).
  destruct (dhcp_shutdown_reports_failure (H0 := demo_wire) dhcp_demo 0 (mkSys mgr_demo FileAbsent) [1] request_demo 7 None rep m' d'
    ltac:(vm_compute; reflexivity) ltac:(lia) E) as (s & Hs & _ & Hr).
  exists s. split; [exact Hs|exact Hr].
Defined.
