(* ===== verification/Registry.v ===== *)
(** * The interface between the lease manager and its clients

    dnsserver.Registry (and the lookups acmevalidate makes) as a type class: the
    three lookups, each at a clock reading, over a registry that may forget
    expired entries as it is consulted.  The laws say what a client may rely on;
    the lease manager is an instance. *)

From stdpp Require Import gmap list strings.
From Stdlib Require Import ZArith Lia.
From S2P Require Import Prelude GoStrings Names GoNet Lease LeaseFacts LeaseOps.

(** ** The interface *)

Class Registry (R : Type) := {
  rLookupName : R -> time -> bytes -> option Lease * R;
  rLookupIP : R -> time -> Addr -> option Lease * R;
  rHasName : R -> time -> bytes -> bool * R
}.

(** What a registry promises about the names under [domain]. *)
Class RegistryLaws (R : Type) `{Registry R} (domain : bytes) := {
  (** Well-formed registries, and the registry after a lookup. *)
  r_ok : R -> Prop;
  (** The live leases at an instant. *)
  r_live : R -> time -> Lease -> Prop;
  (** Names the registry never resolves. *)
  r_reserved : R -> gset bytes;

  r_domain : validDNSName domain = true;
  r_expiry r now l : r_ok r -> r_live r now l -> now < ExpiresAt l;
  r_stable r now now' l : r_ok r -> now <= now' -> now' < ExpiresAt l -> r_live r now l -> r_live r now' l;
  r_earlier r now now' l : r_ok r -> now <= now' -> r_live r now' l -> r_live r now l;
  r_names r now l1 l2 : r_ok r -> r_live r now l1 -> r_live r now l2 ->
    Hostname l1 = Hostname l2 -> Hostname l1 <> [] -> l1 = l2;
  r_addresses r now l1 l2 : r_ok r -> r_live r now l1 -> r_live r now l2 -> IP l1 = IP l2 -> l1 = l2;
  r_wellformed r now l : r_ok r -> r_live r now l ->
    (exists v, IP l = Addr4 v) /\ (Hostname l = [] \/ canonicalUnder domain (Hostname l)) /\
    Hostname l ∉ r_reserved r;

  rLookupName_spec r now n : r_ok r ->
    match (rLookupName r now n).1 with
    | Some l => r_live r now l /\ Hostname l = NormalizeHostname n domain /\ Hostname l <> []
    | None => forall l, r_live r now l -> Hostname l <> [] -> Hostname l <> NormalizeHostname n domain
    end;
  rLookupIP_spec r now ip : r_ok r ->
    match (rLookupIP r now ip).1 with
    | Some l => r_live r now l /\ IP l = Unmap ip
    | None => forall l, r_live r now l -> IP l <> Unmap ip
    end;
  rHasName_spec r now n : r_ok r ->
    let name := if beq (ToLower (TrimSuffix n [DOT])) domain
                then ToLower (TrimSuffix n [DOT]) ++ [DOT] else NormalizeHostname n domain in
    (rHasName r now n).1 = true <->
    name <> [] /\ exists l, r_live r now l /\ Hostname l <> [] /\
      (Hostname l = name \/ exists k, Hostname l = k ++ [DOT] ++ name);

  (** Consulting a registry does not change what it answers from then on. *)
  r_lookup_ok r now r' :
    r_ok r -> (exists n, r' = (rLookupName r now n).2) \/ (exists ip, r' = (rLookupIP r now ip).2)
              \/ (exists n, r' = (rHasName r now n).2) ->
    r_ok r' /\ r_reserved r' = r_reserved r /\
    forall later l, now <= later -> r_live r' later l <-> r_live r later l
}.

(** ** The lease manager is a registry *)

#[export] Instance manager_registry : Registry Manager := {
  rLookupName := LookupName;
  rLookupIP := LookupIP;
  rHasName := HasName
}.

Section manager.
Context (domain : bytes).

Definition m_ok (m : Manager) : Prop := manager_wf m /\ Domain (cfg m) = domain.
Definition m_live (m : Manager) (now : time) (l : Lease) : Prop :=
  exists id, leases (mstate m) !! id = Some l /\ now < ExpiresAt l.

Lemma m_live_expire m now l : m_live m now l <-> exists id, leases (expire now (mstate m)) !! id = Some l.
Proof. unfold m_live. by setoid_rewrite expire_leases. Qed.

Lemma m_live_wf m now l :
  m_ok m -> m_live m now l ->
  (exists v, IP l = Addr4 v) /\ (Hostname l = [] \/ canonicalUnder domain (Hostname l)) /\
  Hostname l ∉ reservedNames m.
Proof.
  intros [[Hc Hw] <-] (id & E & _). destruct (wf_leases _ _ _ Hw _ _ E) as [(_ & _ & Hp & _ & Hn) Hr].
  split; [by eapply inPool_4|done].
Qed.

Lemma m_unique m now l1 l2 :
  m_ok m -> m_live m now l1 -> m_live m now l2 ->
  (IP l1 = IP l2 -> l1 = l2) /\ (Hostname l1 = Hostname l2 -> Hostname l1 <> [] -> l1 = l2).
Proof.
  intros [[Hc Hw] _] (id1 & E1 & _) (id2 & E2 & _). split.
  - intros E. assert (id1 = id2) as ->; [|congruence]. eapply (wf_exclusive _ _ _ Hw); left; eauto.
  - intros E Hn. assert (id1 = id2) as ->; [|congruence]. by eapply (wf_names _ _ _ Hw).
Qed.

Lemma m_LookupName m now n :
  m_ok m ->
  match (LookupName m now n).1 with
  | Some l => m_live m now l /\ Hostname l = NormalizeHostname n domain /\ Hostname l <> []
  | None => forall l, m_live m now l -> Hostname l <> [] -> Hostname l <> NormalizeHostname n domain
  end.
Proof.
  intros Hm. pose proof Hm as [_ Hd]. unfold LookupName. cbn [cfg set_state reservedNames]. rewrite Hd.
  destruct (beq (NormalizeHostname n domain) [] || _) eqn:Eg; cbn [fst].
  - intros l Hl Hne E. destruct (m_live_wf _ _ _ Hm Hl) as (_ & _ & Hr).
    apply orb_true_iff in Eg as [Eg%beq_true|Eg%bool_decide_eq_true]; congruence.
  - apply orb_false_iff in Eg as [Eg%beq_false _].
    destruct (findLease _ _) as [l|] eqn:Ef.
    + apply findLease_Some in Ef as (Ht%beq_true & Hl). split; [by apply m_live_expire|]. split; congruence.
    + intros l [id Hl]%m_live_expire Hne. apply (findLease_None _ _ _ _ Ef) in Hl. by apply beq_false in Hl.
Qed.

Lemma m_LookupIP m now ip :
  match (LookupIP m now ip).1 with
  | Some l => m_live m now l /\ IP l = Unmap ip
  | None => forall l, m_live m now l -> IP l <> Unmap ip
  end.
Proof.
  unfold LookupIP. cbn [fst]. destruct (findLease _ _) as [l|] eqn:Ef.
  - apply findLease_Some in Ef as (Ht%addr_eqb_true & Hl). split; [by apply m_live_expire|done].
  - intros l [id Hl]%m_live_expire. apply (findLease_None _ _ _ _ Ef) in Hl. by apply addr_eqb_false in Hl.
Qed.

Lemma m_HasName m now n :
  m_ok m ->
  let name := if beq (ToLower (TrimSuffix n [DOT])) domain
              then ToLower (TrimSuffix n [DOT]) ++ [DOT] else NormalizeHostname n domain in
  (HasName m now n).1 = true <->
  name <> [] /\ exists l, m_live m now l /\ Hostname l <> [] /\
    (Hostname l = name \/ exists k, Hostname l = k ++ [DOT] ++ name).
Proof.
  intros Hm name. pose proof Hm as [_ Hd]. unfold HasName. cbn [cfg set_state reservedNames]. rewrite Hd. fold name.
  destruct (beq name []) eqn:En; cbn [fst].
  { apply beq_true in En. split; [done|]. by intros [? _]. }
  apply beq_false in En. rewrite existsb_exists. split.
  - intros (l & Hin & Ht). split; [done|]. exists l.
    apply in_map_iff in Hin as ([id e] & <- & Hin). apply list_elem_of_In, elem_of_map_to_list in Hin.
    apply andb_true_iff in Ht as [Hu Ht]. apply negb_true_iff, orb_false_iff in Hu as [Hu%beq_false _].
    split; [apply m_live_expire; eauto|]. split; [done|].
    apply orb_true_iff in Ht as [Ht%beq_true|Ht%HasSuffix_spec]; auto.
  - intros (_ & l & Hl & Hne & Hs). exists l. destruct (m_live_wf _ _ _ Hm Hl) as (_ & _ & Hr).
    apply m_live_expire in Hl as [id Hl]. split.
    + apply in_map_iff. exists (id, l). split; [done|]. by apply list_elem_of_In, elem_of_map_to_list.
    + rewrite (proj2 (beq_false _ _) Hne), bool_decide_eq_false_2 by done. cbn [orb negb andb].
      apply orb_true_iff. destruct Hs as [->|[k Hk]]; [left; apply beq_refl|right].
      apply HasSuffix_spec. eauto.
Qed.

Lemma m_lookup_ok m now m' :
  m_ok m -> m' = set_state m (expire now (mstate m)) ->
  m_ok m' /\ reservedNames m' = reservedNames m /\ forall later l, now <= later -> m_live m' later l <-> m_live m later l.
Proof.
  intros [[Hc Hw] Hd] ->. split; [split; [split; [done|by apply wf_expire]|done]|]. split; [done|].
  intros later l Hle. unfold m_live. cbn [mstate set_state]. setoid_rewrite expire_leases. split.
  - intros (id & [E _] & Ht). eauto.
  - intros (id & E & Ht). exists id. split; [split; [done|lia]|done].
Qed.

#[export] Instance manager_laws (Hdom : validDNSName domain = true) : RegistryLaws Manager domain.
Proof.
  apply (Build_RegistryLaws Manager _ domain m_ok m_live reservedNames Hdom).
  - by intros r now l _ (id & _ & Ht).
  - intros r now now' l _ _ Ht (id & E & _). exists id. done.
  - intros r now now' l _ Hle (id & E & Ht). exists id. split; [done|lia].
  - intros r now l1 l2 Hr H1 H2. exact (proj2 (m_unique r now l1 l2 Hr H1 H2)).
  - intros r now l1 l2 Hr H1 H2. exact (proj1 (m_unique r now l1 l2 Hr H1 H2)).
  - intros r now l. apply m_live_wf.
  - exact m_LookupName.
  - intros r now ip _. apply m_LookupIP.
  - exact m_HasName.
  - intros r now r' Hr Hq. apply (m_lookup_ok r now r' Hr).
    destruct (lookup_effects r now) as (Hn & Hh & Hi).
    destruct Hq as [[n ->]|[[ip ->]|[n ->]]]; [apply Hn|apply Hi|apply Hh].
Defined.

End manager.
