(* ===== verification/Dns.v ===== *)
(** * Package internal/dnsserver

    The authoritative zone, the reverse zones, the static overrides and the
    forwarder.  Messages and domain-name primitives belong to the miekg/dns
    library: a message is the record of the fields the server reads or writes,
    and the library's functions are the class [DnsLib].  The lease registry is
    the class [Registry]; each lookup and each [time.Now] consumes one reading of
    a clock. *)

From stdpp Require Import gmap list strings.
From Stdlib Require Import ZArith Lia.
From S2P Require Import Prelude GoStrings Names GoNet GoAddr Lease Registry.

(** ** Messages *)

Definition maxUDPPayload : Z := 1232.
Definition MinMsgSize : Z := 512.

Definition TypeA : Z := 1.
Definition TypeNS : Z := 2.
Definition TypeSOA : Z := 6.
Definition TypePTR : Z := 12.
Definition TypeIXFR : Z := 251.
Definition TypeAXFR : Z := 252.
Definition TypeANY : Z := 255.
Definition ClassINET : Z := 1.
Definition OpcodeQuery : Z := 0.

Definition RcodeSuccess : Z := 0.
Definition RcodeFormatError : Z := 1.
Definition RcodeServerFailure : Z := 2.
Definition RcodeNameError : Z := 3.
Definition RcodeNotImplemented : Z := 4.
Definition RcodeRefused : Z := 5.
Definition RcodeBadVers : Z := 16.

Record RR_Header := mkHdr { h_Name : bytes; h_Rrtype : Z; h_Class : Z; h_Ttl : Z }.

(** The records the server produces; [RROther] is any record of an upstream. *)
Inductive RR :=
| RR_A (hdr : RR_Header) (a : bytes)
| RR_NS (hdr : RR_Header) (ns : bytes)
| RR_PTR (hdr : RR_Header) (ptr : bytes)
| RR_SOA (hdr : RR_Header) (ns mbox : bytes) (serial refresh retry expire minttl : Z)
| RROther (hdr : RR_Header).

Record Question := mkQuestion { q_Name : bytes; q_Qtype : Z; q_Qclass : Z }.

(** The OPT pseudo-record of a message. *)
Record OPT := mkOPT { o_Version : Z; o_Do : bool; o_UDPSize : Z }.

Record Msg := mkMsg {
  Id : Z;
  Response : bool;
  Opcode : Z;
  Authoritative : bool;
  Truncated : bool;
  RecursionDesired : bool;
  RecursionAvailable : bool;
  AuthenticatedData : bool;
  CheckingDisabled : bool;
  Rcode : Z;
  Questions : list Question;
  Answer : list RR;
  Ns : list RR;
  Extra : list RR;
  Edns : option OPT;
  Tsig : bool
}.

(** Field updates, as the code assigns them. *)
Definition set_Rcode (v : Z) (m : Msg) : Msg :=
  let '(mkMsg i r o a t rd ra ad cd _ q an ns ex ed ts) := m in mkMsg i r o a t rd ra ad cd v q an ns ex ed ts.
Definition set_Authoritative (v : bool) (m : Msg) : Msg :=
  let '(mkMsg i r o _ t rd ra ad cd rc q an ns ex ed ts) := m in mkMsg i r o v t rd ra ad cd rc q an ns ex ed ts.
Definition set_RecursionAvailable (v : bool) (m : Msg) : Msg :=
  let '(mkMsg i r o a t rd _ ad cd rc q an ns ex ed ts) := m in mkMsg i r o a t rd v ad cd rc q an ns ex ed ts.
Definition set_CheckingDisabled (v : bool) (m : Msg) : Msg :=
  let '(mkMsg i r o a t rd ra ad _ rc q an ns ex ed ts) := m in mkMsg i r o a t rd ra ad v rc q an ns ex ed ts.
Definition set_forwarded (id : Z) (m : Msg) : Msg :=
  let '(mkMsg _ r o _ t rd _ _ cd rc q an ns ex ed ts) := m in
  mkMsg id r o false t rd true false cd rc q an ns ex ed ts.
Definition add_Answer (rr : RR) (m : Msg) : Msg :=
  let '(mkMsg i r o a t rd ra ad cd rc q an ns ex ed ts) := m in
  mkMsg i r o a t rd ra ad cd rc q (an ++ [rr]) ns ex ed ts.
Definition add_Ns (rr : RR) (m : Msg) : Msg :=
  let '(mkMsg i r o a t rd ra ad cd rc q an ns ex ed ts) := m in
  mkMsg i r o a t rd ra ad cd rc q an (ns ++ [rr]) ex ed ts.
Definition add_Extra (rr : RR) (m : Msg) : Msg :=
  let '(mkMsg i r o a t rd ra ad cd rc q an ns ex ed ts) := m in
  mkMsg i r o a t rd ra ad cd rc q an ns (ex ++ [rr]) ed ts.

(** ** The library *)

(** Domain names in presentation form: [NextLabel s] is the offset of the second
    label of [s] and whether the end was reached. *)
Class DnsLib := {
  Fqdn : bytes -> bytes;
  CanonicalName : bytes -> bytes;
  IsDomainName : bytes -> bool;
  IsSubDomain : bytes -> bytes -> bool;
  NextLabel : bytes -> nat * bool;
  SetReply : Msg -> Msg;
  SetQuestion : bytes -> Z -> Msg;
  SetEdns0 : Z -> bool -> Msg -> Msg;
  Truncate : Z -> Msg -> Msg
}.

(** ** Server *)

Record DnsConfig := mkDnsConfig {
  n_Address : bytes;
  n_Domain : bytes;
  n_ServerIP : Addr;
  n_Subnet : Prefix;
  n_ARecords : gmap bytes Addr;
  n_Upstream : bytes;
  n_TTL : duration
}.

Record DnsServer := mkDnsServer {
  config : DnsConfig;
  nsName : bytes;
  gatewayName : bytes;
  staticNames : gset bytes;
  ttl : Z
}.

Inductive dns_new_error :=
| ErrListenAddress
| ErrDnsDomain
| ErrARecordName (name : bytes)
| ErrARecordReserved (name : bytes)
| ErrARecordDuplicate (name : bytes)
| ErrARecordAddress (name : bytes)
| ErrDnsServerIP
| ErrTTL
| ErrUpstream
| ErrUpstreamLoop.

Definition validDomain (domain : bytes) : bool :=
  if (243 <? len domain) || beq domain (str ".") then false
  else validLabels (TrimSuffix domain [DOT]).

(** [validateAddress]: true when the address is accepted. *)
Definition validateAddress (address : bytes) (listen : bool) : bool :=
  match SplitHostPort address with
  | None => false
  | Some (host, port) =>
      match Atoi port with
      | None => false
      | Some n =>
          if (n <? 0) || (65535 <? n) || (negb listen && (n =? 0)) then false
          else if beq host [] && listen then true
          else match ParseAddr host with
               | None => false
               | Some ip => negb (negb listen && (IsUnspecified ip || IsMulticast ip))
               end
      end
  end.

Definition isUnicast4 (ip : Addr) : bool :=
  match ip with Addr4 v => IsGlobalUnicast4 v | _ => false end.

(** The loop over the configured records, in the order the map is visited. *)
Fixpoint normalizeRecords (domain : bytes) (records : list (bytes * Addr)) (normalized : gmap bytes Addr)
    : result dns_new_error (gmap bytes Addr) :=
  match records with
  | [] => Ok normalized
  | (name, ip) :: rest =>
      let canonical := NormalizeARecord name domain in
      if beq canonical [] then Err (ErrARecordName name)
      else if beq canonical (str "ns." ++ domain) || beq canonical (str "gateway." ++ domain)
      then Err (ErrARecordReserved name)
      else if bool_decide (is_Some (normalized !! canonical)) then Err (ErrARecordDuplicate name)
      else if negb (isUnicast4 ip) then Err (ErrARecordAddress name)
      else normalizeRecords domain rest (<[canonical := ip]> normalized)
  end.

Definition normalizeARecords (domain : bytes) (records : gmap bytes Addr)
    : result dns_new_error (gmap bytes Addr) :=
  normalizeRecords domain (map_to_list records) ∅.

Section server.
Context `{DnsLib}.

(** The inner loop of [New]: a record's name and its ancestors; every turn drops
    a label, so [fuel] is the length of the name. *)
Fixpoint addAncestors (fuel : nat) (name : bytes) (names : gset bytes) : gset bytes :=
  match fuel with
  | O => names
  | S k =>
      if beq name (str ".") then names
      else
        let names := {[name]} ∪ names in
        let '(next, end_) := NextLabel name in
        if end_ then names else addAncestors k (drop next name) names
  end.

Definition upstreamLoops (c : DnsConfig) : bool :=
  match SplitHostPort (n_Address c), SplitHostPort (n_Upstream c) with
  | Some (listenHost, listenPort), Some (upstreamHost, upstreamPort) =>
      let upstreamIP := default AddrNone (ParseAddr upstreamHost) in
      let listenIP := default AddrNone (ParseAddr listenHost) in
      beq listenPort upstreamPort &&
      (addr_eqb listenIP upstreamIP ||
       ((beq listenHost [] || IsUnspecified listenIP)
        && (IsLoopback upstreamIP || addr_eqb upstreamIP (n_ServerIP c))))
  | _, _ => false
  end.

Definition New_dns (c : DnsConfig) : result dns_new_error DnsServer :=
  if negb (validateAddress (n_Address c) true) then Err ErrListenAddress
  else
    let domain := ToLower (Fqdn (TrimSpace (n_Domain c))) in
    if negb (validDomain domain) then Err ErrDnsDomain
    else
      aRecords <-! normalizeARecords domain (n_ARecords c) ;
      if negb (Is4 (n_ServerIP c)) || negb (prefix_IsValid (n_Subnet c))
         || negb (Is4 (p_addr (n_Subnet c))) || negb (Contains (n_Subnet c) (n_ServerIP c))
      then Err ErrDnsServerIP
      else
        let subnet := Masked (n_Subnet c) in
        if (n_TTL c <? 0) || (2 ^ 32 - 1 <? n_TTL c / second) then Err ErrTTL
        else if negb (beq (n_Upstream c) []) && negb (validateAddress (n_Upstream c) false)
        then Err ErrUpstream
        else if negb (beq (n_Upstream c) []) && upstreamLoops c then Err ErrUpstreamLoop
        else
          let static : gset bytes :=
            {[ str "."; domain; str "ns." ++ domain; str "gateway." ++ domain ]} in
          Ok (mkDnsServer
                (mkDnsConfig (n_Address c) domain (n_ServerIP c) subnet aRecords (n_Upstream c) (n_TTL c))
                (str "ns." ++ domain) (str "gateway." ++ domain)
                (map_fold (fun name _ names => addAncestors (length name) name names) static aRecords)
                (u32 (n_TTL c / second))).

(** ** Records *)

Definition header (name : bytes) (kind ttl : Z) : RR_Header := mkHdr name kind ClassINET ttl.

Definition addressRecord (name : bytes) (ip : Addr) (ttl : Z) : RR :=
  RR_A (header name TypeA ttl) (AsSlice ip).

Context (s : DnsServer).

(** [soa], with the TTL of its header. *)
Definition soa (zone : bytes) (hdrTtl minttl : Z) : RR :=
  RR_SOA (header zone TypeSOA hdrTtl) (nsName s) (str "hostmaster." ++ n_Domain (config s))
    1 60 60 3600 minttl.

(** ** The registry and the clock *)

Context {R : Type} `{Registry R}.

Record world := mkWorld { reg : R; clock : nat -> time; tick : nat }.

Definition Now : St world time :=
  fun w => (clock w (tick w), mkWorld (reg w) (clock w) (S (tick w))).

Definition LookupName_ (name : bytes) : St world (option Lease) :=
  t <-- Now ;; fun w => let '(o, r) := rLookupName (reg w) t name in (o, mkWorld r (clock w) (tick w)).
Definition LookupIP_ (ip : Addr) : St world (option Lease) :=
  t <-- Now ;; fun w => let '(o, r) := rLookupIP (reg w) t ip in (o, mkWorld r (clock w) (tick w)).
Definition HasName_ (name : bytes) : St world bool :=
  t <-- Now ;; fun w => let '(o, r) := rHasName (reg w) t name in (o, mkWorld r (clock w) (tick w)).

Definition leaseTTL (entry : Lease) : St world Z :=
  t <-- Now ;;
  let remaining := ExpiresAt entry - t in
  st_ret (if remaining <=? 0 then 0 else u32 (Z.min (remaining / second) (ttl s))).

Definition hasName (name : bytes) : St world bool :=
  if bool_decide (name ∈ staticNames s) then st_ret true else HasName_ name.

(** The loop over the ancestors of a name that does not exist; [fuel] is the
    length of the name, since every turn drops at least one byte. *)
Fixpoint closestEncloser (fuel : nat) (name : bytes) : St world (Addr * Z * bool) :=
  match fuel with
  | O => st_ret (AddrNone, 0, false)
  | S k =>
      if beq name (n_Domain (config s)) then st_ret (AddrNone, 0, false)
      else
        let name := drop (NextLabel name).1 name in
        exists_ <-- hasName name ;;
        if exists_ then
          match n_ARecords (config s) !! (str "*." ++ name) with
          | Some address => st_ret (address, ttl s, true)
          | None => st_ret (AddrNone, ttl s, false)
          end
        else closestEncloser k name
  end.

(** The registry's answer counts only while the lease is live. *)
Definition liveEntry (entry : option Lease) : St world (option Lease) :=
  match entry with
  | None => st_ret None
  | Some e => t <-- Now ;; st_ret (if t <? ExpiresAt e then Some e else None)
  end.

Definition lookupLocalAddress (name : bytes) : St world (Addr * Z * bool) :=
  if beq name (nsName s) || beq name (gatewayName s) then st_ret (n_ServerIP (config s), ttl s, true)
  else match n_ARecords (config s) !! name with
  | Some address => st_ret (address, ttl s, true)
  | None =>
      if beq name (n_Domain (config s)) then st_ret (AddrNone, 0, true)
      else
        found <-- LookupName_ name ;;
        entry <-- liveEntry found ;;
        match entry with
        | Some e => t <-- leaseTTL e ;; st_ret (IP e, t, true)
        | None =>
            exists_ <-- hasName name ;;
            if exists_ then st_ret (AddrNone, 0, true) else closestEncloser (length name) name
        end
  end.

Fixpoint externalEncloser (fuel : nat) (name : bytes) : option (Addr * bytes) :=
  match fuel with
  | O => None
  | S k =>
      if beq name (str ".") then None
      else
        let '(next, end_) := NextLabel name in
        if end_ then None
        else
          let name := drop next name in
          if bool_decide (name ∈ staticNames s) then
            match n_ARecords (config s) !! (str "*." ++ name) with
            | Some address => Some (address, name)
            | None => None
            end
          else externalEncloser k name
  end.

(** [lookupExternalAddress]: the address and the zone, when found. *)
Definition lookupExternalAddress (name : bytes) : option (Addr * bytes) :=
  match n_ARecords (config s) !! name with
  | Some address => Some (address, name)
  | None =>
      if bool_decide (name ∈ staticNames s) then None
      else externalEncloser (length name) name
  end.

(** ** Reverse zones *)

Definition suffix : bytes := str "in-addr.arpa.".

(** The loop of [reverseAuthority] at octet [i]: [rest] is the labels still to
    read, last first, and [read] those already read, in their order. *)
Fixpoint reverseOctets (fuel : nat) (i : Z) (rest read : list bytes) (octets : bytes) (zone : bytes)
    : bytes * Addr * bool :=
  let fail := (zone, AddrNone, negb (beq zone [])) in
  match fuel, rest with
  | S k, label :: rest =>
      match ParseUint label 8 with
      | None => fail
      | Some n =>
          if negb (beq (FormatUint n) label) then fail
          else
            let octets := octets ++ [n] in
            let read := label :: read in
            let addr := Addr4 (be_decode (octets ++ replicate (4 - length octets) 0)) in
            let zone := if beq zone [] && (p_bits (n_Subnet (config s)) <=? (i + 1) * 8)
                           && Contains (n_Subnet (config s)) addr
                        then Join read [DOT] ++ [DOT] ++ suffix else zone in
            if (i =? 3) && (len rest =? 0) then (zone, addr, negb (beq zone []))
            else reverseOctets k (i + 1) rest read octets zone
      end
  | _, _ => fail
  end.

Definition reverseAuthority (name : bytes) : bytes * Addr * bool :=
  if negb (HasSuffix name ([DOT] ++ suffix)) then ([], AddrNone, false)
  else reverseOctets 4 0 (rev (Split (TrimSuffix name ([DOT] ++ suffix)) DOT)) [] [] [].

(** ** Answers *)

Definition isKind (kind wanted : Z) : bool := (kind =? wanted) || (kind =? TypeANY).

Definition answerOverride (response : Msg) (name : bytes) (kind : Z) (zone : bytes) (address : Addr) : Msg :=
  let response := set_Authoritative true response in
  if isKind kind TypeA then add_Answer (addressRecord name address (ttl s)) response
  else add_Ns (soa zone 0 0) response.

(** The records at the apex of a zone. *)
Definition answerApex (response : Msg) (name : bytes) (kind : Z) (zone : bytes) : Msg :=
  if negb (beq name zone) then response
  else if kind =? TypeSOA then add_Answer (soa zone (ttl s) 0) response
  else if kind =? TypeNS then
    add_Extra (addressRecord (nsName s) (n_ServerIP (config s)) (ttl s))
      (add_Answer (RR_NS (header name TypeNS (ttl s)) (nsName s)) response)
  else response.

(** The records of one name: the message so far and whether the name exists. *)
Definition answerName (response : Msg) (name : bytes) (kind : Z) (zone : bytes) (ip : Addr)
    : St world (Msg * bool) :=
  if beq zone (n_Domain (config s)) then
    r <-- lookupLocalAddress name ;;
    let '(address, ttl, found) := r in
    st_ret (if IsValid address && isKind kind TypeA
            then add_Answer (addressRecord name address ttl) response else response, found)
  else if IsValid ip then
    if addr_eqb ip (n_ServerIP (config s)) then
      st_ret (if isKind kind TypePTR
              then add_Answer (RR_PTR (header name TypePTR (ttl s)) (nsName s)) response else response, true)
    else
      found <-- LookupIP_ ip ;;
      entry <-- liveEntry (match found with
                           | Some e => if beq (Hostname e) [] then None else Some e
                           | None => None
                           end) ;;
      match entry with
      | Some e =>
          if isKind kind TypePTR then
            t <-- leaseTTL e ;;
            st_ret (add_Answer (RR_PTR (header name TypePTR t) (Hostname e)) response, true)
          else st_ret (response, true)
      | None => st_ret (response, beq name zone)
      end
  else st_ret (response, beq name zone).

Definition answerLocal (response : Msg) (name : bytes) (kind : Z) (zone : bytes) (ip : Addr)
    : St world Msg :=
  let response := set_Authoritative true response in
  let response := answerApex response name kind zone in
  r <-- answerName response name kind zone ip ;;
  let '(response, exists_) := r in
  let response := if exists_ then response else set_Rcode RcodeNameError response in
  st_ret (match Answer response with
          | [] => add_Ns (soa zone 0 0) response
          | _ => response
          end).

(** ** Forwarding *)

(** Does an upstream answer belong to the query sent? *)
Definition answers (query answer : Msg) : bool :=
  match Questions answer, Questions query with
  | [qa], qq :: _ =>
      Response answer && (Opcode answer =? OpcodeQuery)
      && EqualFold (q_Name qa) (q_Name qq) && (q_Qtype qa =? q_Qtype qq) && (q_Qclass qa =? ClassINET)
  | _, _ => false
  end.

(** [forward]: [slot] is whether one of the 128 forwarding slots is free, and
    [exchange tcp query] what the upstream returns, if anything. *)
Definition forwardQuery (request : Msg) (q : Question) : Msg :=
  let query := set_CheckingDisabled (CheckingDisabled request) (SetQuestion (q_Name q) (q_Qtype q)) in
  match Edns request with
  | Some opt => SetEdns0 maxUDPPayload (o_Do opt) query
  | None => query
  end.

Definition forward (slot : bool) (exchange : bool -> Msg -> option Msg) (request failure : Msg) (q : Question)
    : Msg :=
  if negb slot then set_Rcode RcodeServerFailure failure
  else
    let query := forwardQuery request q in
    let answer :=
      match exchange false query with
      | Some a => if Truncated a then exchange true query else Some a
      | None => None
      end in
    match answer with
    | None => set_Rcode RcodeServerFailure failure
    | Some answer =>
        if negb (answers query answer) then set_Rcode RcodeServerFailure failure
        else set_forwarded (Id request) answer
    end.

(** ** Requests *)

(** [write]: a UDP response is truncated to what the requester accepts. *)
Definition writeSize (request : Msg) : Z :=
  match Edns request with
  | Some opt => Z.min (Z.max (o_UDPSize opt) MinMsgSize) maxUDPPayload
  | None => MinMsgSize
  end.

Definition write (tcp : bool) (request response : Msg) : Msg :=
  if tcp then response else Truncate (writeSize request) response.

(** The default case of [serveDNS]. *)
Definition serveQuestion (slot : bool) (exchange : bool -> Msg -> option Msg)
    (request response : Msg) (question : Question) : St world Msg :=
  let name := CanonicalName (q_Name question) in
  if negb (IsDomainName name) then st_ret (set_Rcode RcodeFormatError response)
  else if IsSubDomain (n_Domain (config s)) name
  then answerLocal response name (q_Qtype question) (n_Domain (config s)) AddrNone
  else
    let '(zone, ip, local) := reverseAuthority name in
    if local then answerLocal response name (q_Qtype question) zone ip
    else match lookupExternalAddress name with
    | Some (address, zone) => st_ret (answerOverride response name (q_Qtype question) zone address)
    | None =>
        if negb (beq (n_Upstream (config s)) []) && RecursionDesired request
        then st_ret (forward slot exchange request response question)
        else st_ret (set_Rcode RcodeRefused response)
    end.

(** [serveDNS]: the message written, if any. *)
Definition serveDNS (tcp slot : bool) (exchange : bool -> Msg -> option Msg) (request : Msg)
    : St world (option Msg) :=
  if Response request then st_ret None
  else
    let response := set_RecursionAvailable (negb (beq (n_Upstream (config s)) [])) (SetReply request) in
    let '(response, badVersion) :=
      match Edns request with
      | Some opt => (SetEdns0 maxUDPPayload false response, negb (o_Version opt =? 0))
      | None => (response, false)
      end in
    if badVersion then st_ret (Some (write tcp request (set_Rcode RcodeBadVers response)))
    else
      response <--
        (if negb (Opcode request =? OpcodeQuery) then st_ret (set_Rcode RcodeNotImplemented response)
         else match Questions request with
         | [question] =>
             if negb (q_Qclass question =? ClassINET) || Tsig request
             then st_ret (set_Rcode RcodeRefused response)
             else if (q_Qtype question =? TypeAXFR) || (q_Qtype question =? TypeIXFR)
             then st_ret (set_Rcode RcodeRefused response)
             else serveQuestion slot exchange request response question
         | _ => st_ret (set_Rcode RcodeFormatError response)
         end) ;;
      st_ret (Some (write tcp request response)).

End server.
