(* ===== verification/DnsReverse.v ===== *)
(** * Package internal/dnsserver: reverse zones

    What [reverseAuthority] decides: the zone it claims for a name under
    in-addr.arpa lies wholly inside the subnet and contains the name, and every
    address of the subnet is claimed. *)

From stdpp Require Import gmap list strings.
From Stdlib Require Import ZArith Lia.
From S2P Require Import Prelude GoStrings Names GoNet GoAddr Lease Registry Dns.

(** ** Reference definitions *)

(** The reverse zone of a sequence of leading octets, and the PTR name of an
    address. *)
Definition zoneName (octets : list Z) : bytes :=
  Join (map FormatUint (rev octets)) [DOT] ++ [DOT] ++ suffix.
Definition ptrName (v : Z) : bytes := zoneName (be_encode 4 v).

(** [octets] are the leading octets of [v]. *)
Definition leads (octets : list Z) (v : Z) : Prop :=
  v / 256 ^ (4 - len octets) = be_decode octets.

(** A zone the subnet owns entirely, aligned on an octet. *)
Definition owned (p : Prefix) (octets : list Z) : Prop :=
  0 < len octets <= 4 /\ Forall (fun o => 0 <= o < 256) octets /\ p_bits p <= 8 * len octets /\
  forall v, 0 <= v < 2 ^ 32 -> leads octets v -> Contains p (Addr4 v) = true.

(** A server for a /25. *)
Definition reverse_demo : DnsServer :=
  mkDnsServer (mkDnsConfig (str ":53") (str "home.arpa.") (Addr4 (10 * 2 ^ 24 + 1))
    (mkPrefix (Addr4 (10 * 2 ^ 24)) 25) ∅ [] (300 * second))
    (str "ns.home.arpa.") (str "gateway.home.arpa.") ∅ 300.

(** ** Prefixes and octets *)

Lemma pow256 n : 0 <= n -> 256 ^ n = 2 ^ (8 * n).
Proof. intros Hn. change 256 with (2 ^ 8). by rewrite <- Z.pow_mul_r by lia. Qed.

(** Addresses that agree on enough leading octets agree on the prefix. *)
Lemma leads_prefix octets v w bits :
  leads octets v -> leads octets w -> 0 <= bits -> bits <= 8 * len octets -> len octets <= 4 ->
  v / 2 ^ (32 - bits) = w / 2 ^ (32 - bits).
Proof.
  unfold leads. intros Hv Hw H0 Hb Hl.
  assert (E : forall x, x / 2 ^ (32 - bits) = x / 256 ^ (4 - len octets) / 2 ^ (8 * len octets - bits)).
  { intros x. rewrite Z.div_div, pow256, <- Z.pow_add_r by lia. do 2 f_equal. lia. }
  by rewrite !E, Hv, Hw.
Qed.

Lemma be_decode_zeros s n : be_decode (s ++ replicate n 0) = be_decode s * 256 ^ Z.of_nat n.
Proof.
  induction n as [|n IH]; [simpl; rewrite app_nil_r; lia|].
  rewrite replicate_S_end, app_assoc, be_decode_app, IH, Nat2Z.inj_succ, Z.pow_succ_r by lia. lia.
Qed.

(** The address the loop tests, with its missing octets zero. *)
Definition padded (octets : list Z) : Z := be_decode (octets ++ replicate (4 - length octets) 0).

Lemma padded_leads octets : len octets <= 4 -> leads octets (padded octets).
Proof.
  unfold leads, padded, len. intros Hl. rewrite be_decode_zeros.
  replace (Z.of_nat (4 - length octets)) with (4 - Z.of_nat (length octets)) by lia.
  apply Z.div_mul. apply Z.pow_nonzero; lia.
Qed.

Lemma owned_intro a bits octets :
  0 <= bits <= 32 -> 0 < len octets <= 4 -> Forall (fun o => 0 <= o < 256) octets ->
  bits <= 8 * len octets -> Contains (mkPrefix (Addr4 a) bits) (Addr4 (padded octets)) = true ->
  owned (mkPrefix (Addr4 a) bits) octets.
Proof.
  intros Hb Hl Ho Hle Hc. split_and!; [lia|lia|done|done|]. intros v Hv Hlead.
  apply Contains4 in Hc; [|done]. apply Contains4; [done|]. rewrite <- Hc.
  apply (leads_prefix octets); [done|apply padded_leads; lia|lia|done|lia].
Qed.

(** ** The loop *)

Section loop.
Context (s : DnsServer) (a bits : Z).
Context (Hsub : n_Subnet (config s) = mkPrefix (Addr4 a) bits) (Hb : 0 <= bits <= 32).

(** The loop has read [octets]; the zone found so far, if any, is that of some of
    them. *)
Definition zone_of (octets : list Z) (zone : bytes) : Prop :=
  zone = [] \/ exists k, (0 < k <= length octets)%nat /\ zone = zoneName (take k octets) /\
    owned (n_Subnet (config s)) (take k octets).

Lemma Join_snoc_nonempty ws sep : Join ws [sep] ++ [DOT] ++ suffix <> [].
Proof. intros E. apply (f_equal length) in E. rewrite !length_app in E. simpl in E. lia. Qed.

Lemma zoneName_nonempty octets : zoneName octets <> [].
Proof. apply Join_snoc_nonempty. Qed.

Lemma zone_of_snoc octets zone n :
  (length octets < 4)%nat -> Forall (fun o => 0 <= o < 256) octets -> 0 <= n < 256 -> zone_of octets zone ->
  zone_of (octets ++ [n])
    (if beq zone [] && (p_bits (n_Subnet (config s)) <=? (len octets + 1) * 8)
        && Contains (n_Subnet (config s)) (Addr4 (padded (octets ++ [n])))
     then Join (FormatUint n :: map FormatUint (rev octets)) [DOT] ++ [DOT] ++ suffix else zone).
Proof.
  intros Hlen Ho Hn Hz. destruct (beq zone [] && _ && _) eqn:Eg.
  - apply andb_true_iff in Eg as [[_ Eg2]%andb_true_iff Eg3]. apply Z.leb_le in Eg2. right.
    exists (length (octets ++ [n])). rewrite firstn_all. split; [rewrite length_app; simpl; lia|].
    split; [unfold zoneName; by rewrite rev_app_distr|].
    rewrite Hsub in *. cbn [p_bits] in Eg2.
    apply owned_intro; [done| | |rewrite len_app; unfold len in *; simpl; lia|done].
    + unfold len. rewrite length_app. simpl. lia.
    + apply Forall_app. split; [done|]. by constructor.
  - destruct Hz as [->|(k & Hk & -> & Hw)]; [by left|]. right. exists k.
    rewrite take_app_le by lia. split; [rewrite length_app; lia|done].
Qed.

(** The result: the zone belongs to the octets read, which end the name's label
    list; a full address is the one its four octets spell. *)
Lemma reverseOctets_spec fuel rest octets zone z ip b :
  Forall (fun o => 0 <= o < 256) octets -> (fuel + length octets = 4)%nat ->
  zone_of octets zone ->
  reverseOctets s fuel (len octets) rest (map FormatUint (rev octets)) octets zone = (z, ip, b) ->
  b = negb (beq z []) /\
  exists more rest', rest = map FormatUint more ++ rest' /\ zone_of (octets ++ more) z /\
    (ip = AddrNone \/ (rest' = [] /\ length (octets ++ more) = 4%nat /\ ip = Addr4 (be_decode (octets ++ more)) /\
      Forall (fun o => 0 <= o < 256) (octets ++ more))).
Proof.
  revert rest octets zone. induction fuel as [|k IH]; intros rest octets zone Ho Hf Hz; cbn [reverseOctets].
  { intros E. simplify_eq. split; [done|]. exists [], rest. rewrite (app_nil_r octets). auto. }
  destruct rest as [|label rest].
  { intros E. simplify_eq. split; [done|]. exists [], []. rewrite (app_nil_r octets). auto. }
  destruct (ParseUint label 8) as [n|] eqn:Ep.
  2:{ intros E. simplify_eq. split; [done|]. exists [], (label :: rest). rewrite (app_nil_r octets). auto. }
  destruct (beq (FormatUint n) label) eqn:El; cbn [negb].
  2:{ intros E. simplify_eq. split; [done|]. exists [], (label :: rest). rewrite (app_nil_r octets). auto. }
  apply beq_true in El. subst label. apply ParseUint_range in Ep as Hn. cbv zeta.
  pose proof (zone_of_snoc octets zone n ltac:(lia) Ho Hn Hz) as Hz'. fold (padded (octets ++ [n])).
  set (zone' := if beq zone [] && _ && _ then _ else zone) in *.
  assert (Ho' : Forall (fun o => 0 <= o < 256) (octets ++ [n])) by (apply Forall_app; split; [done|by constructor]).
  destruct ((len octets =? 3) && (len rest =? 0)) eqn:E3.
  - apply andb_true_iff in E3 as [E3%Z.eqb_eq Er%Z.eqb_eq]. apply len_zero_nil in Er as ->.
    intros E. simplify_eq. split; [done|]. exists [n], []. split_and!; [done|done|]. right.
    assert (Hl : length (octets ++ [n]) = 4%nat) by (rewrite length_app; unfold len in E3; simpl; lia).
    split_and!; [done|done| |done]. unfold padded. rewrite Hl. simpl. by rewrite app_nil_r.
  - replace (len octets + 1) with (len (octets ++ [n])) by (rewrite len_app; done).
    replace (FormatUint n :: map FormatUint (rev octets)) with (map FormatUint (rev (octets ++ [n])))
      by by rewrite rev_app_distr.
    intros E. apply IH in E as (Hb' & more & rest' & -> & Hz2 & Hip); [|done|rewrite length_app; simpl; lia|done].
    split; [done|]. exists (n :: more), rest'. rewrite <- app_assoc in Hz2, Hip. auto.
Qed.

(** Reading the four octets of an address of the subnet claims it. *)
Lemma reverseOctets_complete fuel more octets zone :
  (fuel + length octets = 4)%nat -> length more = fuel -> Forall (fun o => 0 <= o < 256) (octets ++ more) ->
  zone_of octets zone -> more <> [] ->
  Contains (n_Subnet (config s)) (Addr4 (be_decode (octets ++ more))) = true ->
  exists z, reverseOctets s fuel (len octets) (map FormatUint more) (map FormatUint (rev octets)) octets zone
    = (z, Addr4 (be_decode (octets ++ more)), true).
Proof.
  revert more octets zone. induction fuel as [|k IH]; intros more octets zone Hf Hm Ho Hz Hne Hc; [destruct more; done|].
  destruct more as [|n more]; [done|]. cbn [map reverseOctets].
  apply Forall_app in Ho as Ho'. destruct Ho' as [Ho1 [Hn Ho2]%Forall_cons].
  rewrite ParseUint_FormatUint by lia. rewrite beq_refl. cbn [negb]. cbv zeta.
  pose proof (zone_of_snoc octets zone n ltac:(lia) Ho1 Hn Hz) as Hz'. fold (padded (octets ++ [n])).
  set (zone' := if beq zone [] && _ && _ then _ else zone) in *.
  destruct more as [|n2 more].
  - simpl in Hm. simplify_eq. assert (E3 : len octets = 3) by (unfold len; lia).
    rewrite E3. cbn [Z.eqb Pos.eqb andb]. change (len (map FormatUint []) =? 0) with true. cbn [andb].
    assert (Hp : padded (octets ++ [n]) = be_decode (octets ++ [n])).
    { unfold padded. rewrite length_app. simpl. replace (4 - (length octets + 1))%nat with 0%nat by lia.
      simpl. by rewrite app_nil_r. }
    rewrite Hp. exists zone'. f_equal. apply negb_true_iff, beq_false. subst zone'.
    destruct (beq zone []) eqn:Ez; [|by apply beq_false in Ez].
    rewrite Hp, Hc, Hsub, E3. cbn [p_bits]. rewrite (proj2 (Z.leb_le bits _)) by lia.
    apply Join_snoc_nonempty.
  - replace ((len octets =? 3) && _) with false
      by (symmetry; apply andb_false_iff; right; apply Z.eqb_neq; cbn [map]; rewrite len_cons; pose proof (len_nonneg (map FormatUint more)); lia).
    replace (len octets + 1) with (len (octets ++ [n])) by (rewrite len_app; done).
    replace (FormatUint n :: map FormatUint (rev octets)) with (map FormatUint (rev (octets ++ [n])))
      by by rewrite rev_app_distr.
    destruct (IH (n2 :: more) (octets ++ [n]) zone') as [z Ez]; try done.
    + rewrite length_app. simpl. lia.
    + simpl in *. lia.
    + by rewrite <- app_assoc.
    + by rewrite <- app_assoc.
    + exists z. rewrite <- app_assoc in Ez. exact Ez.
Qed.

End loop.

(** ** Properties *)

(** When the server claims a reverse name, the zone it claims is aligned on an
    octet, contains the name, and covers only addresses of the subnet; and if it
    takes the name for that of an address, the name is the address's PTR name and
    the address is in the subnet.  A neighbouring subnet's names are never
    claimed. *)
Theorem reverseAuthority_sound s a bits name zone ip :
  n_Subnet (config s) = mkPrefix (Addr4 a) bits -> 0 <= bits <= 32 ->
  reverseAuthority s name = (zone, ip, true) ->
  (exists octets pre, owned (n_Subnet (config s)) octets /\ zone = zoneName octets /\
     name = Join (pre ++ map FormatUint (rev octets)) [DOT] ++ [DOT] ++ suffix) /\
  (ip = AddrNone \/ exists v, 0 <= v < 2 ^ 32 /\ ip = Addr4 v /\ name = ptrName v /\
     Contains (n_Subnet (config s)) ip = true).
Proof.
  intros Hsub Hb. unfold reverseAuthority. destruct (HasSuffix name ([DOT] ++ suffix)) eqn:Es; cbn [negb]; [|done].
  apply HasSuffix_spec in Es as [stem ->]. rewrite TrimSuffix_app. intros E.
  change 0 with (len (@nil Z)) in E. change (@nil bytes) with (map FormatUint (rev [])) in E.
  apply (reverseOctets_spec s a bits Hsub Hb) in E as (Hz & more & rest & Er & Hzone & Hip);
    [|constructor|done|by left].
  symmetry in Hz. apply negb_true_iff, beq_false in Hz. destruct Hzone as [|(k & Hk & -> & Hown)]; [done|].
  cbn [app] in *.
  assert (Hl : Split stem DOT = rev rest ++ map FormatUint (rev more)).
  { rewrite <- (rev_involutive (Split stem DOT)), Er, rev_app_distr, map_rev. done. }
  assert (Hname : stem = Join (rev rest ++ map FormatUint (rev more)) [DOT]) by by rewrite <- Hl, Join_Split.
  split.
  - exists (take k more), (rev rest ++ map FormatUint (rev (drop k more))). split; [done|]. split; [done|].
    rewrite Hname, <- app_assoc, <- map_app, <- rev_app_distr, take_drop. done.
  - destruct Hip as [->|(-> & Hl4 & -> & Ho)]; [by left|right].
    assert (Hr : 0 <= be_decode more < 2 ^ 32).
    { pose proof (be_decode_bounds more Ho) as Hd. unfold len in Hd. rewrite Hl4 in Hd. exact Hd. }
    exists (be_decode more). split; [done|]. split; [done|].
    assert (Hq : be_encode 4 (be_decode more) = more) by (rewrite <- Hl4; by apply be_encode_decode).
    unfold ptrName. rewrite Hq. split; [by rewrite Hname|].
    destruct Hown as (_ & _ & _ & Hc). apply Hc; [done|]. unfold leads.
    replace (4 - len (take k more)) with (len (drop k more))
      by (unfold len; rewrite length_take, length_drop, Hl4; lia).
    rewrite <- (take_drop k more) at 1. apply be_decode_lead, Forall_drop, Ho.
Qed.

Lemma reverseAuthority_sound_witness :
  reverseAuthority reverse_demo (str "77.0.0.10.in-addr.arpa.")
    = (str "77.0.0.10.in-addr.arpa.", Addr4 (10 * 2 ^ 24 + 77), true) /\
  Contains (n_Subnet (config reverse_demo)) (Addr4 (10 * 2 ^ 24 + 77)) = true /\
  reverseAuthority reverse_demo (str "200.0.0.10.in-addr.arpa.") = ([], Addr4 (10 * 2 ^ 24 + 200), false).
Proof.
  assert (E : reverseAuthority reverse_demo (str "77.0.0.10.in-addr.arpa.")
    = (str "77.0.0.10.in-addr.arpa.", Addr4 (10 * 2 ^ 24 + 77), true)) by (vm_compute; reflexivity).
  split; [exact E|]. split; [|vm_compute; reflexivity].
  destruct (reverseAuthority_sound reverse_demo (10 * 2 ^ 24) 25 (str "77.0.0.10.in-addr.arpa.")
    (str "77.0.0.10.in-addr.arpa.") (Addr4 (10 * 2 ^ 24 + 77)) eq_refl ltac:(lia) E) as [_ [H|(v & _ & _ & _ & H)]];
    [discriminate H|exact H].
Defined.

(** Every address of the subnet is claimed under its PTR name, as that very
    address. *)
Theorem reverseAuthority_complete s a bits v :
  n_Subnet (config s) = mkPrefix (Addr4 a) bits -> 0 <= bits <= 32 -> 0 <= v < 2 ^ 32 ->
  Contains (n_Subnet (config s)) (Addr4 v) = true ->
  exists zone, reverseAuthority s (ptrName v) = (zone, Addr4 v, true).
Proof.
  intros Hsub Hb Hv Hc. assert (Hd : be_decode (be_encode 4 v) = v).
  { rewrite be_decode_encode. by apply Z.mod_small. }
  unfold reverseAuthority, ptrName, zoneName. rewrite HasSuffix_app, TrimSuffix_app. cbn [negb].
  rewrite Split_Join.
  2:{ rewrite map_rev. intros E%(f_equal length). rewrite length_rev, length_map, length_be_encode in E. done. }
  2:{ apply Forall_forall. intros w Hw. apply list_elem_of_fmap in Hw as (n & -> & Hn).
      apply list_elem_of_In, in_rev, list_elem_of_In in Hn.
      pose proof (proj1 (Forall_forall _ _) (be_encode_wf 4 v) n Hn) as Hr. simpl in Hr.
      intros Hdot. pose proof (proj1 (Forall_forall _ _) (FormatUint_digits n ltac:(lia)) _ Hdot) as Hx.
      simpl in Hx. unfold DOT in Hx. lia. }
  rewrite map_rev, rev_involutive.
  destruct (reverseOctets_complete s a bits Hsub Hb 4 (be_encode 4 v) [] []) as [z Hz].
  - done.
  - apply length_be_encode.
  - apply be_encode_wf.
  - by left.
  - intros E%(f_equal length). rewrite length_be_encode in E. done.
  - cbn [app]. by rewrite Hd.
  - exists z. cbn [app] in Hz. rewrite Hd in Hz. exact Hz.
Qed.

Lemma reverseAuthority_complete_witness :
  exists zone, reverseAuthority reverse_demo (ptrName (10 * 2 ^ 24 + 5)) = (zone, Addr4 (10 * 2 ^ 24 + 5), true).
Proof.
  apply (reverseAuthority_complete reverse_demo (10 * 2 ^ 24) 25); [reflexivity|lia|lia|vm_compute; reflexivity].
Defined.
