(* ===== verification/DnsProps.v ===== *)
(** * Package internal/dnsserver: answers

    Lookups in the local zone, wildcard synthesis, lifetimes, agreement of
    forward and reverse answers, and what is and is not forwarded.  The client's
    theorems are proved against the [Registry] interface. *)

From stdpp Require Import gmap list strings.
From Stdlib Require Import ZArith Lia.
From S2P Require Import Prelude GoStrings Names GoNet GoAddr Lease LeaseFacts Registry Dns DnsReverse.

(** ** Names as labels *)

(** A label in presentation form: every dot and backslash in it is escaped. *)
Fixpoint escaped (l : bytes) : bool :=
  match l with
  | [] => true
  | 92 :: l' => match l' with [] => false | _ :: l'' => escaped l'' end
  | c :: l' => negb (c =? DOT) && escaped l'
  end.
Definition is_label (l : bytes) : Prop := l <> [] /\ escaped l = true.

Definition unlabels (ls : list bytes) : bytes := flat_map (fun l => l ++ [DOT]) ls.

(** What the server relies on of the library: where the second label of a name
    starts, and that a reply starts without records. *)
Class DnsLibLaws `{DnsLib} : Prop := {
  NextLabel_spec l ls : is_label l ->
    NextLabel (l ++ [DOT] ++ unlabels ls) = ((length l + 1)%nat, bool_decide (ls = []));
  SetReply_spec m : Answer (SetReply m) = [] /\ Ns (SetReply m) = [] /\ Rcode (SetReply m) = RcodeSuccess
}.

(** The proper ancestors of [pre ++ zone] down to [zone], nearest first. *)
Fixpoint ancestors (pre zone : list bytes) : list bytes :=
  match pre with
  | [] => []
  | _ :: pre' => unlabels (pre' ++ zone) :: ancestors pre' zone
  end.

Section reference.
Context (s : DnsServer) {R : Type} `{Registry R}.

(** The first name of a list that exists, checked in order. *)
Fixpoint firstExisting (names : list bytes) : St (world (R:=R)) (option bytes) :=
  match names with
  | [] => st_ret None
  | n :: names => exists_ <-- hasName s n ;; if exists_ then st_ret (Some n) else firstExisting names
  end.

(** The answer a wildcard directly below [encloser] gives. *)
Definition wildcardAnswer (encloser : bytes) : Addr * Z * bool :=
  match n_ARecords (config s) !! (str "*." ++ encloser) with
  | Some address => (address, ttl s, true)
  | None => (AddrNone, ttl s, false)
  end.

End reference.

(** The lifetime a record carries. *)
Definition rr_ttl (rr : RR) : Z :=
  match rr with
  | RR_A h _ | RR_NS h _ | RR_PTR h _ | RR_SOA h _ _ _ _ _ _ _ | RROther h => h_Ttl h
  end.

(** ** A concrete library *)

(** Skip to the byte after the first unescaped dot. *)
Fixpoint demo_next (n : bytes) : nat :=
  match n with
  | [] => 0
  | 92 :: n' => match n' with [] => 1 | _ :: n'' => 2 + demo_next n'' end
  | c :: n' => if c =? DOT then 1 else S (demo_next n')
  end.

Definition demo_reply (m : Msg) : Msg :=
  mkMsg (Id m) true (Opcode m) false false (RecursionDesired m) false false (CheckingDisabled m)
    RcodeSuccess (Questions m) [] [] [] None false.

#[local] Instance demo_dns : DnsLib := {
  Fqdn n := if HasSuffix n [DOT] then n else n ++ [DOT];
  CanonicalName n := ToLower (if HasSuffix n [DOT] then n else n ++ [DOT]);
  IsDomainName n := validLabels (TrimSuffix n [DOT]);
  IsSubDomain parent child := beq parent child || HasSuffix child ([DOT] ++ parent);
  NextLabel n := (demo_next n, (demo_next n =? length n)%nat);
  SetReply := demo_reply;
  SetQuestion n t := mkMsg 7 false 0 false false true false false false 0 [mkQuestion n t ClassINET] [] [] [] None false;
  SetEdns0 size do m := m;
  Truncate size m := m
}.

Definition demo_conf : DnsConfig :=
  mkDnsConfig (str ":53") (str "Home.arpa") (Addr4 (10 * 2 ^ 24 + 1)) (mkPrefix (Addr4 (10 * 2 ^ 24)) 24)
    {[ str "*.apps" := Addr4 (10 * 2 ^ 24 + 2); str "*" := Addr4 (10 * 2 ^ 24 + 3) ]} (str "1.1.1.1:53") (300 * second).

Definition demo_server : DnsServer :=
  match New_dns demo_conf with
  | Ok s => s
  | Err _ => mkDnsServer demo_conf [] [] ∅ 0
  end.

(** One lease, of 10.0.0.10 to "box", and a clock that ticks every second. *)
Definition demo_lease : Lease :=
  mkLease (str "id:01") (Addr4 (10 * 2 ^ 24 + 10)) (str "box.home.arpa.") (100 * second).
Definition demo_leases : Config :=
  mkConfig (Addr4 (10 * 2 ^ 24 + 10)) (Addr4 (10 * 2 ^ 24 + 20)) (str "home.arpa") (100 * second) minute minute [] [].
Definition demo_world : world (R:=Manager) :=
  mkWorld (mkManager demo_leases (mkState {[ str "id:01" := demo_lease ]} ∅ ∅)
             {[ str "ns.home.arpa."; str "gateway.home.arpa." ]}) (fun n => Z.of_nat n * second) 0.

(** ** Labels *)

Lemma unlabels_cons l ls : unlabels (l :: ls) = l ++ [DOT] ++ unlabels ls.
Proof. unfold unlabels. simpl. by rewrite <- app_assoc. Qed.

Lemma unlabels_length l ls : (length (unlabels ls) < length (unlabels (l :: ls)))%nat.
Proof. rewrite unlabels_cons, !length_app. simpl. lia. Qed.

Lemma unlabels_app_length pre ls : pre <> [] -> (length (unlabels ls) < length (unlabels (pre ++ ls)))%nat.
Proof.
  intros Hp. induction pre as [|l pre IH]; [done|]. cbn [app].
  pose proof (unlabels_length l (pre ++ ls)). destruct pre as [|l2 pre]; [done|]. specialize (IH ltac:(done)). lia.
Qed.

Lemma drop_label `{DnsLibLaws} l ls :
  is_label l -> drop (NextLabel (unlabels (l :: ls))).1 (unlabels (l :: ls)) = unlabels ls.
Proof.
  intros Hl. rewrite unlabels_cons, NextLabel_spec by done. cbn [fst].
  replace (l ++ [DOT] ++ unlabels ls) with ((l ++ [DOT]) ++ unlabels ls) by by rewrite <- app_assoc.
  apply drop_app_length'. by rewrite length_app.
Qed.

(** ** Wildcards *)

Section wildcards.
Context `{DnsLibLaws} (s : DnsServer) {R : Type} `{Registry R}.
Context (zone : list bytes) (Hzone : n_Domain (config s) = unlabels zone).

Lemma firstExisting_zone pre (w : world (R:=R)) :
  unlabels zone ∈ staticNames s -> pre <> [] ->
  exists a w', firstExisting s (ancestors pre zone) w = (Some a, w').
Proof.
  intros Hin. revert w. induction pre as [|l pre IH]; intros w Hp; [done|].
  cbn [ancestors firstExisting]. unfold st_bind, hasName at 1.
  destruct (bool_decide (unlabels (pre ++ zone) ∈ staticNames s)) eqn:Eb; [unfold st_ret; eauto|].
  destruct pre as [|l2 pre]; [apply bool_decide_eq_false in Eb; done|].
  destruct (HasName_ _ w) as [[] w1]; [unfold st_ret; eauto|]. by apply IH.
Qed.

Lemma closestEncloser_scan fuel pre (w : world (R:=R)) :
  Forall is_label pre -> (length (unlabels (pre ++ zone)) <= fuel)%nat -> pre <> [] ->
  unlabels zone ∈ staticNames s ->
  closestEncloser s fuel (unlabels (pre ++ zone)) w
  = (x <-- firstExisting s (ancestors pre zone) ;;
     st_ret (match x with Some a => wildcardAnswer s a | None => (AddrNone, 0, false) end)) w.
Proof.
  intros Hl Hf Hp Hin. revert fuel w Hf. induction Hl as [|l pre Hl Hls IH]; intros fuel w Hf; [done|].
  pose proof (unlabels_app_length (l :: pre) zone ltac:(done)) as Hlen.
  destruct fuel as [|k]; [lia|]. cbn [closestEncloser]. rewrite Hzone.
  rewrite (proj2 (beq_false _ _)) by (intros E; rewrite E in Hlen; lia).
  cbn [app]. rewrite drop_label by done. cbn [ancestors firstExisting]. unfold st_bind at 1 2 3.
  destruct (hasName s (unlabels (pre ++ zone)) w) as [[] w1] eqn:Eh.
  - unfold st_ret, wildcardAnswer. by destruct (n_ARecords (config s) !! _).
  - destruct pre as [|l2 pre].
    { unfold hasName in Eh. cbn [app] in Eh. by rewrite bool_decide_eq_true_2 in Eh. }
    apply IH; [done|]. pose proof (unlabels_length l ((l2 :: pre) ++ zone)). cbn [app] in *. lia.
Qed.

End wildcards.

(** ** The registry through the clock *)

Definition monotone (c : nat -> time) : Prop := forall i j, (i <= j)%nat -> c i <= c j.

Section registry.
Context `{DnsLib} (s : DnsServer) {R : Type} (domain : bytes) `{RegistryLaws R domain}.
Implicit Types w : world (R:=R).

Lemma LookupName_run w n :
  LookupName_ n w = ((rLookupName (reg w) (clock w (tick w)) n).1,
    mkWorld (rLookupName (reg w) (clock w (tick w)) n).2 (clock w) (S (tick w))).
Proof. unfold LookupName_, st_bind, Now. cbn. by destruct (rLookupName _ _ _). Qed.

Lemma LookupIP_run w ip :
  LookupIP_ ip w = ((rLookupIP (reg w) (clock w (tick w)) ip).1,
    mkWorld (rLookupIP (reg w) (clock w (tick w)) ip).2 (clock w) (S (tick w))).
Proof. unfold LookupIP_, st_bind, Now. cbn. by destruct (rLookupIP _ _ _). Qed.

Lemma leaseTTL_bounds e w :
  0 <= ttl s < 2 ^ 32 ->
  0 <= (leaseTTL s e w).1 <= ttl s /\
  ((leaseTTL s e w).1 = 0 \/ (leaseTTL s e w).1 * second <= ExpiresAt e - clock w (tick w)).
Proof.
  intros Ht. unfold leaseTTL, st_bind, Now, st_ret. cbn [fst].
  set (d := ExpiresAt e - clock w (tick w)). destruct (Z.leb_spec d 0) as [|Hd]; [cbn [fst]; lia|].
  assert (Hs : 0 < second) by done.
  assert (Hq : 0 <= d / second) by (apply Z.div_pos; lia).
  cbn [fst]. unfold u32. rewrite Z.mod_small by lia. split; [lia|]. right.
  pose proof (Z.mul_div_le d second ltac:(lia)).
  assert (Z.min (d / second) (ttl s) * second <= d / second * second) by (apply Z.mul_le_mono_nonneg_r; lia). lia.
Qed.

Lemma liveEntry_Some o e w w' :
  liveEntry o w = (Some e, w') -> o = Some e /\ reg w' = reg w /\ clock w' = clock w /\ tick w' = S (tick w) /\
    clock w (tick w) < ExpiresAt e.
Proof.
  destruct o as [e'|]; [|done]. cbn [liveEntry]. unfold st_bind, Now, st_ret.
  destruct (Z.ltb_spec (clock w (tick w)) (ExpiresAt e')); intros E; by simplify_eq.
Qed.

Lemma liveEntry_live e w :
  clock w (tick w) < ExpiresAt e -> liveEntry (Some e) w = (Some e, mkWorld (reg w) (clock w) (S (tick w))).
Proof. intros Ht. unfold liveEntry, st_bind, Now, st_ret. by apply Z.ltb_lt in Ht as ->. Qed.

(** Where a wildcard answer comes from. *)
Lemma closestEncloser_source fuel name w addr t found w' :
  closestEncloser s fuel name w = ((addr, t, found), w') -> addr <> AddrNone ->
  t = ttl s /\ exists a, n_ARecords (config s) !! (str "*." ++ a) = Some addr.
Proof.
  revert name w. induction fuel as [|k IH]; intros name w; cbn [closestEncloser].
  { unfold st_ret. intros E ?. by simplify_eq. }
  destruct (beq _ _); [unfold st_ret; intros E; by simplify_eq|]. unfold st_bind.
  destruct (hasName s _ w) as [[] w1]; [|apply IH].
  destruct (n_ARecords (config s) !! _) as [ad|] eqn:Ea; unfold st_ret; intros E Hne; simplify_eq. eauto.
Qed.

(** Every address the local zone answers with is one of the server's own, a
    configured record, a configured wildcard, or a live lease of that name. *)
Definition address_source (w : world (R:=R)) (name : bytes) (addr : Addr) (t : Z) : Prop :=
  (addr = n_ServerIP (config s) /\ t = ttl s /\ (name = nsName s \/ name = gatewayName s)) \/
  (t = ttl s /\ n_ARecords (config s) !! name = Some addr) \/
  (t = ttl s /\ exists a, n_ARecords (config s) !! (str "*." ++ a) = Some addr) \/
  (n_ARecords (config s) !! name = None /\
   exists e now, clock w (tick w) <= now /\ r_live (reg w) (clock w (tick w)) e /\ now < ExpiresAt e /\
     IP e = addr /\ Hostname e = NormalizeHostname name domain /\ 0 <= t <= ttl s /\ t * second <= ExpiresAt e - now).

Lemma lookupLocalAddress_source name w addr t found w' :
  r_ok (reg w) -> monotone (clock w) -> 0 <= ttl s < 2 ^ 32 ->
  lookupLocalAddress s name w = ((addr, t, found), w') -> addr <> AddrNone ->
  address_source w name addr t.
Proof.
  intros Hr Hmono Htt. unfold lookupLocalAddress, address_source.
  destruct (beq name (nsName s) || beq name (gatewayName s)) eqn:En.
  { unfold st_ret. intros E _. simplify_eq. left. apply orb_true_iff in En as [?%beq_true|?%beq_true]; auto. }
  destruct (n_ARecords (config s) !! name) as [ad|] eqn:Ea.
  { unfold st_ret. intros E _. simplify_eq. by right; left. }
  destruct (beq name (n_Domain (config s))); [unfold st_ret; intros E ?; by simplify_eq|].
  unfold st_bind at 1. rewrite LookupName_run. set (w1 := mkWorld _ _ _).
  unfold st_bind at 1. destruct (liveEntry _ w1) as [[e|] w2] eqn:Ee.
  - unfold st_bind. destruct (leaseTTL s e w2) as [t0 w3] eqn:Et. unfold st_ret. intros E _. simplify_eq.
    apply liveEntry_Some in Ee as (Ef & Er & Ec & Ek & Hlive). right. right. right. split; [done|].
    pose proof (rLookupName_spec (domain:=domain) (reg w) (clock w (tick w)) name Hr) as Hs. rewrite Ef in Hs.
    destruct Hs as (Hl & Hn & Hne). pose proof (leaseTTL_bounds e w2 Htt) as [Hb1 Hb2]. rewrite Et in Hb1, Hb2.
    cbn [fst] in *. exists e, (clock w (tick w1)). subst w1. cbn [tick clock] in *.
    assert (clock w (tick w) <= clock w (S (tick w))) by (apply Hmono; lia).
    assert (clock w (S (tick w)) <= clock w2 (tick w2)) by (rewrite Ec, Ek; apply Hmono; lia).
    split_and!; try done; try lia. all: destruct Hb2 as [->|Hb2]; lia.
  - unfold st_bind. destruct (hasName s name w2) as [[] w3]; [unfold st_ret; intros E ?; by simplify_eq|].
    intros E Hne. apply closestEncloser_source in E as [-> Hx]; [|done]. by right; right; left.
Qed.

End registry.

(** ** One lease, both ways *)

Section both_ways.
Context `{DnsLib} (s : DnsServer) {R : Type} (domain : bytes) `{RegistryLaws R domain}.
Implicit Types w : world (R:=R).

Lemma host_not_apex name : canonicalUnder domain name -> name <> domain ++ [DOT].
Proof.
  intros (host & -> & _ & Hne) E. apply (f_equal length) in E. rewrite !length_app in E.
  destruct host; [done|]. simpl in E. lia.
Qed.

Context (e : Lease) (w : world (R:=R)).
Context (Hok : r_ok (reg w)) (Hmono : monotone (clock w)) (Hlive : r_live (reg w) (clock w (tick w)) e).
Context (Hname : Hostname e <> []) (Hin_time : clock w (S (tick w)) < ExpiresAt e).

Lemma lookup_forward :
  n_Domain (config s) = domain ++ [DOT] -> n_ARecords (config s) !! Hostname e = None ->
  nsName s ∈ r_reserved (reg w) -> gatewayName s ∈ r_reserved (reg w) ->
  exists t w', lookupLocalAddress s (Hostname e) w = ((IP e, t, true), w').
Proof.
  intros Hd Ha Hns Hgw. destruct (r_wellformed _ _ _ Hok Hlive) as (_ & [?|Hc] & Hres); [done|].
  unfold lookupLocalAddress.
  rewrite (proj2 (beq_false (Hostname e) (nsName s))), (proj2 (beq_false (Hostname e) (gatewayName s)))
    by (intros E; rewrite E in Hres; done).
  cbn [orb]. rewrite Ha, Hd, (proj2 (beq_false _ _) (host_not_apex _ Hc)).
  unfold st_bind at 1. rewrite LookupName_run.
  pose proof (rLookupName_spec (domain:=domain) (reg w) (clock w (tick w)) (Hostname e) Hok) as Hs.
  rewrite (canonical_fixed _ _ (r_domain (R:=R)) Hc) in Hs.
  destruct (rLookupName (reg w) (clock w (tick w)) (Hostname e)) as [[l|] r']; cbn [fst snd] in *.
  - destruct Hs as (Hl & Hn & _). assert (l = e) as -> by (eapply (r_names (reg w)); [done|exact Hl|done|done|congruence]).
    unfold st_bind at 1. rewrite liveEntry_live by done. unfold st_bind.
    destruct (leaseTTL s e _) as [t w3]. unfold st_ret. eauto.
  - by specialize (Hs e Hlive Hname).
Qed.

Lemma lookup_reverse response name zone :
  zone <> n_Domain (config s) -> IP e <> n_ServerIP (config s) ->
  exists t w', answerName s response name TypePTR zone (IP e) w
    = ((add_Answer (RR_PTR (header name TypePTR t) (Hostname e)) response, true), w').
Proof.
  intros Hz Hip. destruct (r_wellformed _ _ _ Hok Hlive) as ((v & Hv) & _).
  unfold answerName. rewrite (proj2 (beq_false _ _) Hz), (proj2 (addr_eqb_false _ _) Hip).
  assert (Hiv : IsValid (IP e) = true) by by rewrite Hv. rewrite Hiv.
  unfold st_bind at 1. rewrite LookupIP_run.
  pose proof (rLookupIP_spec (domain:=domain) (reg w) (clock w (tick w)) (IP e) Hok) as Hs.
  assert (Hu : Unmap (IP e) = IP e) by by rewrite Hv. rewrite Hu in Hs.
  destruct (rLookupIP (reg w) (clock w (tick w)) (IP e)) as [[l|] r']; cbn [fst snd] in *.
  - destruct Hs as (Hl & Hn). assert (l = e) as -> by (eapply (r_addresses (reg w)); done).
    rewrite (proj2 (beq_false _ _) Hname).
    unfold st_bind at 1. rewrite liveEntry_live by done. change (isKind TypePTR TypePTR) with true.
    unfold st_bind. destruct (leaseTTL s e _) as [t w3]. unfold st_ret. eauto.
  - by specialize (Hs e Hlive).
Qed.

End both_ways.

(** Assembling an answer around the records of a name. *)
Lemma answerLocal_run `{DnsLib} s {R} `{Registry R} response name kind zone ip (w w' : world (R:=R)) rr :
  Answer response = [] -> kind <> TypeSOA -> kind <> TypeNS ->
  answerName s (set_Authoritative true response) name kind zone ip w
    = ((add_Answer rr (set_Authoritative true response), true), w') ->
  answerLocal s response name kind zone ip w = (add_Answer rr (set_Authoritative true response), w').
Proof.
  intros Ha Hk1 Hk2 E. unfold answerLocal, answerApex. apply Z.eqb_neq in Hk1, Hk2. rewrite Hk1, Hk2.
  assert (Eif : forall (b : bool) (x : Msg), (if b then x else x) = x) by by intros [].
  rewrite Eif. unfold st_bind. rewrite E. unfold st_ret. destruct response. simpl in Ha. by subst.
Qed.

(** ** The demonstration server *)

Lemma demo_next_app l ls : escaped l = true -> demo_next (l ++ [DOT] ++ unlabels ls) = (length l + 1)%nat.
Proof.
  remember (length l) as n eqn:En. revert l En. induction (lt_wf n) as [n _ IH]. intros l -> He.
  destruct l as [|c l]; [done|]. destruct (decide (c = 92)) as [->|Hc].
  - destruct l as [|x l]; [done|]. cbn [app demo_next length]. cbn [escaped] in He.
    change (x :: l ++ DOT :: unlabels ls) with ((x :: l) ++ DOT :: unlabels ls).
    rewrite (IH (length l)); [lia|simpl; lia|done|done].
  - assert (E1 : escaped (c :: l) = negb (c =? DOT) && escaped l).
    { clear -Hc. destruct c as [|p|p]; try done. repeat (destruct p as [p|p|]; try done). }
    assert (E2 : forall r, demo_next (c :: r) = if c =? DOT then 1%nat else S (demo_next r)).
    { clear -Hc. intros r. destruct c as [|p|p]; try done. repeat (destruct p as [p|p|]; try done). }
    rewrite E1 in He. apply andb_true_iff in He as [Hd He]. apply negb_true_iff in Hd.
    cbn [app length]. rewrite E2, Hd. rewrite (IH (length l)); [done|simpl; lia|done|done].
Qed.

#[local] Instance demo_dns_laws : DnsLibLaws.
Proof.
  split; [|done]. intros l ls [Hne He]. cbn [NextLabel demo_dns]. rewrite demo_next_app by done. f_equal.
  rewrite !length_app. cbn [length]. apply eq_bool_prop_intro.
  destruct (Nat.eqb_spec (length l + 1) (length l + (1 + length (unlabels ls)))) as [E|E];
    destruct (bool_decide_reflect (ls = [])) as [Hl|Hl]; try done.
  - destruct ls as [|x ls]; [done|]. pose proof (unlabels_length x ls). lia.
  - subst ls. simpl in E. lia.
Qed.

Lemma demo_domain : validDNSName (str "home.arpa") = true.
Proof. vm_compute. reflexivity. Qed.

Lemma demo_registry_ok : m_ok (str "home.arpa") (reg demo_world).
Proof.
  split; [|reflexivity]. split.
  - split; [exists (10 * 2 ^ 24 + 10), (10 * 2 ^ 24 + 20); repeat split; lia|exact demo_domain|done|].
    split_and!; [apply (bool_decide_eq_false_1 (_ ∈ _))|apply (bool_decide_eq_true_1 (_ ∈ _))..];
      vm_compute; reflexivity.
  - cbn [mstate reg demo_world].
    assert (Hl : forall id l, leases (mkState {[ str "id:01" := demo_lease ]} ∅ ∅) !! id = Some l ->
      id = str "id:01" /\ l = demo_lease).
    { intros id l E. cbn [leases] in E. apply lookup_singleton_Some in E as [<- <-]. done. }
    assert (Hh : forall id ip, holds (mkState {[ str "id:01" := demo_lease ]} ∅ ∅) id ip -> id = str "id:01").
    { intros id ip [(l & E & _)|(o & E & _)]; [by apply Hl in E as [-> _]|done]. }
    split; try done.
    + intros id l [-> ->]%Hl. split; [|apply (bool_decide_eq_false_1 (_ ∈ _)); vm_compute; reflexivity].
      split_and!; [done|vm_compute; done|vm_compute; done|done|]. right. exists (str "box").
      vm_compute. done.
    + intros id1 id2 ip ->%Hh ->%Hh. done.
    + intros id1 id2 l1 l2 [-> _]%Hl [-> _]%Hl _ _. done.
Qed.

(** ** Negative answers and forwarding *)

Lemma lookup_found_apex `{DnsLib} s {R} `{Registry R} (w : world (R:=R)) :
  (lookupLocalAddress s (n_Domain (config s)) w).1.2 = true.
Proof.
  unfold lookupLocalAddress. destruct (beq _ _ || beq _ _); [done|].
  destruct (n_ARecords (config s) !! _); [done|]. by rewrite beq_refl.
Qed.

Lemma lookup_not_found `{DnsLib} s {R} `{Registry R} name (w w' : world (R:=R)) addr t :
  lookupLocalAddress s name w = ((addr, t, false), w') -> addr = AddrNone.
Proof.
  unfold lookupLocalAddress. destruct (beq _ _ || beq _ _); [done|].
  destruct (n_ARecords (config s) !! _); [done|]. destruct (beq name _); [done|].
  unfold st_bind at 1. destruct (LookupName_ name w) as [o w1]. unfold st_bind at 1.
  destruct (liveEntry o w1) as [[e|] w2].
  { unfold st_bind. by destruct (leaseTTL s e w2). }
  unfold st_bind. destruct (hasName s name w2) as [[] w3]; [done|]. generalize (length name). intros fuel.
  revert name w3. induction fuel as [|k IH]; intros name w3; cbn [closestEncloser]; [intros E; by inversion E|].
  destruct (beq name _); [intros E; by inversion E|]. unfold st_bind.
  destruct (hasName s _ w3) as [[] w4]; [|apply IH]. destruct (n_ARecords (config s) !! _); intros E; by inversion E.
Qed.

(** What the records of a name add to a message: nothing, or one record, and the
    latter only when the name exists. *)
Lemma answerName_adds `{DnsLib} s {R} `{Registry R} response name kind zone ip (w : world (R:=R)) m b w' :
  answerName s response name kind zone ip w = ((m, b), w') ->
  (m = response \/ exists rr, m = add_Answer rr response /\ b = true) /\ (name = zone -> b = true).
Proof.
  unfold answerName. destruct (beq zone (n_Domain (config s))) eqn:Ez.
  - apply beq_true in Ez. subst zone. unfold st_bind. pose proof (lookup_found_apex s w) as Hx.
    destruct (lookupLocalAddress s name w) as [[[addr t] found] w1] eqn:E. unfold st_ret. intros Eq. simplify_eq. split.
    + destruct b; [|apply lookup_not_found in E as ->; by left]. destruct (IsValid addr && _); eauto.
    + intros ->. by rewrite E in Hx.
  - destruct (IsValid ip); [|unfold st_ret; intros Eq; simplify_eq; split; [by left|intros ->; apply beq_refl]].
    destruct (addr_eqb ip _).
    { unfold st_ret. intros Eq. simplify_eq. split; [|done]. destruct (isKind kind TypePTR); eauto. }
    unfold st_bind at 1. destruct (LookupIP_ ip w) as [o w1]. unfold st_bind at 1.
    destruct (liveEntry _ w1) as [[e|] w2].
    + destruct (isKind kind TypePTR); [|unfold st_ret; intros Eq; simplify_eq; split; [by left|done]].
      unfold st_bind. destruct (leaseTTL s e w2). unfold st_ret. intros Eq. simplify_eq. split; [|done]. eauto.
    + unfold st_ret. intros Eq. simplify_eq. split; [by left|intros ->; apply beq_refl].
Qed.

(** The apex records are added only to the apex itself. *)
Lemma answerApex_adds s response name kind zone :
  answerApex s response name kind zone = response \/
  (name = zone /\ Authoritative (answerApex s response name kind zone) = Authoritative response /\
   Rcode (answerApex s response name kind zone) = Rcode response /\
   Ns (answerApex s response name kind zone) = Ns response).
Proof.
  unfold answerApex. destruct (beq name zone) eqn:Eb; cbn [negb]; [|by left]. apply beq_true in Eb. right.
  destruct (kind =? TypeSOA), (kind =? TypeNS); destruct response; done.
Qed.

(** ** Properties *)

(** C37: Wildcard synthesis happens only at the closest existing ancestor.  For a
    name below the zone, the search over its ancestors terminates, and its answer
    is that of the wildcard directly below the nearest ancestor that exists; a
    nearer ancestor without a wildcard blocks every broader one. *)
Theorem wildcard_at_closest_encloser `{DnsLibLaws} (s : DnsServer) {R} `{Registry R} zone pre (w : world (R:=R)) :
  n_Domain (config s) = unlabels zone -> unlabels zone ∈ staticNames s ->
  Forall is_label pre -> pre <> [] ->
  exists a w', firstExisting s (ancestors pre zone) w = (Some a, w') /\
    closestEncloser s (length (unlabels (pre ++ zone))) (unlabels (pre ++ zone)) w = (wildcardAnswer s a, w').
Proof.
  intros Hz Hin Hl Hp. destruct (firstExisting_zone s zone pre w Hin Hp) as (a & w' & E).
  exists a, w'. split; [done|]. rewrite (closestEncloser_scan s zone Hz _ pre w) by done.
  unfold st_bind. by rewrite E.
Qed.

Lemma wildcard_at_closest_encloser_witness :
  (closestEncloser demo_server 24 (str "deep.new.apps.home.arpa.") demo_world).1
    = (Addr4 (10 * 2 ^ 24 + 2), 300, true) /\
  exists a w', firstExisting demo_server (ancestors [str "deep"; str "new"; str "apps"] [str "home"; str "arpa"])
    demo_world = (Some a, w').
Proof.
  split; [vm_compute; reflexivity|].
  destruct (wildcard_at_closest_encloser demo_server [str "home"; str "arpa"] [str "deep"; str "new"; str "apps"]
    demo_world) as (a & w' & E & _).
  - vm_compute. reflexivity.
  - apply (bool_decide_eq_true_1 (_ ∈ _)). vm_compute. reflexivity.
  - repeat (constructor; [split; [vm_compute; discriminate|vm_compute; reflexivity]|]). constructor.
  - discriminate.
  - exists a, w'. exact E.
Defined.

(** Every address the local zone answers with is the server's own (for its two
    reserved names), a configured record of that name, a configured wildcard, or
    the live lease that carries the name; its lifetime never exceeds the
    configured one, and for a lease never exceeds what is left of the lease at a
    clock reading made while answering. *)
Theorem local_address_sources `{DnsLib} s {R} domain `{RegistryLaws R domain} name (w w' : world (R:=R)) addr t found :
  r_ok (reg w) -> monotone (clock w) -> 0 <= ttl s < 2 ^ 32 ->
  lookupLocalAddress s name w = ((addr, t, found), w') -> addr <> AddrNone ->
  (addr = n_ServerIP (config s) /\ t = ttl s /\ (name = nsName s \/ name = gatewayName s)) \/
  (t = ttl s /\ n_ARecords (config s) !! name = Some addr) \/
  (t = ttl s /\ exists a, n_ARecords (config s) !! (str "*." ++ a) = Some addr) \/
  (n_ARecords (config s) !! name = None /\
   exists e now, clock w (tick w) <= now /\ r_live (reg w) (clock w (tick w)) e /\ now < ExpiresAt e /\
     IP e = addr /\ Hostname e = NormalizeHostname name domain /\ 0 <= t <= ttl s /\ t * second <= ExpiresAt e - now).
Proof. apply lookupLocalAddress_source. Qed.

Lemma local_address_sources_witness :
  exists t w', lookupLocalAddress demo_server (str "box.home.arpa.") demo_world
    = ((Addr4 (10 * 2 ^ 24 + 10), t, true), w') /\ 0 <= t <= ttl demo_server.
Proof.
  destruct (lookupLocalAddress demo_server (str "box.home.arpa.") demo_world) as [[[addr t] found] w'] eqn:E.
  pose proof (f_equal fst E) as Ev. vm_compute in Ev. injection Ev as Ea Et Ef.
  exists t, w'. split.
  - rewrite <- Ea, <- Ef. reflexivity.
  - pose proof (manager_laws (str "home.arpa") demo_domain) as Hlaws.
    destruct (@local_address_sources _ demo_server Manager (str "home.arpa") _ (manager_laws (str "home.arpa") demo_domain)
      (str "box.home.arpa.") demo_world w' addr t found) as [(_ & -> & _)|[(-> & _)|[(-> & _)|(_ & e & now & _ & _ & _ & _ & _ & H & _)]]].
    + exact demo_registry_ok.
    + intros i j Hij. cbn [clock demo_world]. apply Z.mul_le_mono_nonneg_r; [vm_compute; discriminate|lia].
    + vm_compute. split; [discriminate|reflexivity].
    + exact E.
    + rewrite <- Ea. discriminate.
    + vm_compute; split; discriminate.
    + vm_compute; split; discriminate.
    + vm_compute; split; discriminate.
    + exact H.
Defined.

(** A live, named lease resolves both ways.  Asked for its name, the server
    answers with its address (unless a configured record takes precedence);
    asked for the reverse name of its address, it answers with its name, and with
    nothing else. *)
Theorem lease_resolves_both_ways `{DnsLib} s {R} domain `{RegistryLaws R domain} (w : world (R:=R)) e response name zone :
  r_ok (reg w) -> r_live (reg w) (clock w (tick w)) e -> Hostname e <> [] ->
  clock w (S (tick w)) < ExpiresAt e ->
  n_Domain (config s) = domain ++ [DOT] -> n_ARecords (config s) !! Hostname e = None ->
  nsName s ∈ r_reserved (reg w) -> gatewayName s ∈ r_reserved (reg w) ->
  zone <> n_Domain (config s) -> IP e <> n_ServerIP (config s) -> Answer response = [] ->
  (exists t, Answer (answerLocal s response (Hostname e) TypeA (n_Domain (config s)) AddrNone w).1
     = [addressRecord (Hostname e) (IP e) t]) /\
  (exists t, Answer (answerLocal s response name TypePTR zone (IP e) w).1
     = [RR_PTR (header name TypePTR t) (Hostname e)]).
Proof.
  intros Hok Hlive Hn Ht Hd Ha Hns Hgw Hz Hip Hresp.
  assert (Hadd : forall rr, Answer (add_Answer rr (set_Authoritative true response)) = [rr]).
  { intros rr. destruct response. simpl in *. by subst. }
  split.
  - destruct (lookup_forward s domain e w Hok Hlive Hn Ht Hd Ha Hns Hgw) as (t & w' & E). exists t.
    rewrite (answerLocal_run s response (Hostname e) TypeA _ AddrNone w w' (addressRecord (Hostname e) (IP e) t));
      [apply Hadd|done|done|done|].
    unfold answerName. rewrite beq_refl. unfold st_bind. rewrite E. unfold st_ret.
    destruct (r_wellformed _ _ _ Hok Hlive) as ((v & Hv) & _).
    assert (Hiv : IsValid (IP e) = true) by by rewrite Hv. by rewrite Hiv.
  - destruct (lookup_reverse s domain e w Hok Hlive Hn Ht (set_Authoritative true response) name zone Hz Hip) as (t & w' & E).
    exists t. rewrite (answerLocal_run s response name TypePTR zone (IP e) w w' (RR_PTR (header name TypePTR t) (Hostname e)));
      [apply Hadd|done|done|done|exact E].
Qed.

Lemma lease_resolves_both_ways_witness :
  exists t, Answer (answerLocal demo_server (demo_reply (SetQuestion [] 0)) (ptrName (10 * 2 ^ 24 + 10)) TypePTR
    (str "0.0.10.in-addr.arpa.") (IP demo_lease) demo_world).1
    = [RR_PTR (header (ptrName (10 * 2 ^ 24 + 10)) TypePTR t) (str "box.home.arpa.")].
Proof.
  apply (@lease_resolves_both_ways _ demo_server Manager (str "home.arpa") _ (manager_laws (str "home.arpa") demo_domain)
    demo_world demo_lease (demo_reply (SetQuestion [] 0)) (ptrName (10 * 2 ^ 24 + 10)) (str "0.0.10.in-addr.arpa.")).
  - exact demo_registry_ok.
  - exists (str "id:01"). split; [reflexivity|vm_compute; reflexivity].
  - vm_compute. discriminate.
  - vm_compute. reflexivity.
  - vm_compute. reflexivity.
  - vm_compute. reflexivity.
  - apply (bool_decide_eq_true_1 (_ ∈ _)). vm_compute. reflexivity.
  - apply (bool_decide_eq_true_1 (_ ∈ _)). vm_compute. reflexivity.
  - vm_compute. discriminate.
  - vm_compute. discriminate.
  - reflexivity.
Defined.

(** Local answers are authoritative; an answer without records carries
    exactly one SOA of the zone with zero lifetimes, so that no resolver keeps it
    across a new allocation; and "no such name" is never said of the zone itself
    nor together with a record. *)
Theorem local_answer_negative `{DnsLib} s {R} `{Registry R} response name kind zone ip (w : world (R:=R)) :
  Answer response = [] -> Ns response = [] -> Rcode response = RcodeSuccess ->
  let m := (answerLocal s response name kind zone ip w).1 in
  Authoritative m = true /\
  (Answer m = [] -> Ns m = [soa s zone 0 0]) /\ (Answer m <> [] -> Ns m = []) /\
  (Rcode m = RcodeSuccess \/ (Rcode m = RcodeNameError /\ Answer m = [] /\ name <> zone)).
Proof.
  intros Ha Hn Hr. unfold answerLocal, st_bind.
  destruct (answerName s _ name kind zone ip w) as [[m b] w'] eqn:E.
  apply answerName_adds in E as [Hm Hb]. cbn [fst st_ret].
  pose proof (answerApex_adds s (set_Authoritative true response) name kind zone) as Hx.
  set (base := answerApex s _ name kind zone) in *.
  assert (Hbase : Authoritative base = true /\ Rcode base = RcodeSuccess /\ Ns base = [] /\ (name <> zone -> Answer base = [])).
  { destruct Hx as [Hx|(Hz & H1 & H2 & H3)]; [rewrite Hx; destruct response; simpl in *; by subst|].
    rewrite H1, H2, H3. destruct response; simpl in *; by subst. }
  clearbody base. destruct Hbase as (HA & HR & HN & HAns).
  destruct Hm as [->|(rr & -> & ->)].
  - destruct b.
    + destruct base as [? ? ? ? ? ? ? ? ? ? ? [|] ? ? ? ?]; simpl in *; subst; split_and!; auto; intros; done.
    + assert (Hne : name <> zone) by (intros Hz; by specialize (Hb Hz)). specialize (HAns Hne).
      destruct base; simpl in *; subst. simpl. split_and!; auto; intros; done.
  - destruct base as [? ? ? ? ? ? ? ? ? ? ? ans ? ? ? ?]; simpl in *; subst.
    destruct (ans ++ [rr]) eqn:Eapp; [by apply app_eq_nil in Eapp as [_ ?]|]. simpl. split_and!; auto; intros; done.
Qed.

Lemma local_answer_negative_witness :
  Ns (answerLocal demo_server (demo_reply (SetQuestion [] 0)) (str "4.0.0.10.in-addr.arpa.") TypePTR
        (str "0.0.10.in-addr.arpa.") (Addr4 (10 * 2 ^ 24 + 4)) demo_world).1
    = [soa demo_server (str "0.0.10.in-addr.arpa.") 0 0].
Proof.
  apply (local_answer_negative demo_server (demo_reply (SetQuestion [] 0)) (str "4.0.0.10.in-addr.arpa.") TypePTR
    (str "0.0.10.in-addr.arpa.") (Addr4 (10 * 2 ^ 24 + 4)) demo_world); vm_compute; reflexivity.
Defined.

(** C16: Names the server is responsible for are never sent upstream: below the
    zone, in a claimed reverse zone, or matched by a configured record, the
    response does not depend on the upstream or on the forwarding slots; neither
    does the response to a refused or malformed request. *)
Theorem local_names_never_forwarded `{DnsLib} s {R} `{Registry R} tcp slot1 slot2 ex1 ex2 request (w : world (R:=R)) :
  (forall q, Questions request = [q] ->
     IsDomainName (CanonicalName (q_Name q)) = false \/
     IsSubDomain (n_Domain (config s)) (CanonicalName (q_Name q)) = true \/
     (reverseAuthority s (CanonicalName (q_Name q))).2 = true \/
     lookupExternalAddress s (CanonicalName (q_Name q)) <> None \/
     n_Upstream (config s) = [] \/ RecursionDesired request = false) ->
  serveDNS s tcp slot1 ex1 request w = serveDNS s tcp slot2 ex2 request w.
Proof.
  intros Hq. unfold serveDNS. destruct (Response request); [done|].
  set (pair := match Edns request with Some _ => _ | None => _ end). destruct pair as [response bad].
  destruct bad; [done|]. destruct (negb (Opcode request =? OpcodeQuery)); [done|].
  destruct (Questions request) as [|q [|]] eqn:Eq; [done| |done].
  destruct (negb _ || Tsig request); [done|]. destruct ((q_Qtype q =? TypeAXFR) || _); [done|].
  assert (Hs : serveQuestion s slot1 ex1 request response q = serveQuestion s slot2 ex2 request response q (R:=R));
    [|by rewrite Hs].
  unfold serveQuestion. specialize (Hq q eq_refl).
  destruct (IsDomainName _) eqn:E1; cbn [negb]; [|done].
  destruct (IsSubDomain _ _) eqn:E2; [done|].
  destruct (reverseAuthority s _) as [[z ip] []] eqn:E3; [done|].
  destruct (lookupExternalAddress s _) as [[a z']|] eqn:E4; [done|].
  destruct Hq as [?|[?|[?|[?|[->| ->]]]]]; try done. by rewrite andb_false_r.
Qed.

Lemma local_names_never_forwarded_witness :
  serveDNS demo_server true true (fun _ m => Some m) (SetQuestion (str "Box.home.arpa") TypeA) demo_world
  = serveDNS demo_server true false (fun _ _ => None) (SetQuestion (str "Box.home.arpa") TypeA) demo_world.
Proof.
  apply local_names_never_forwarded. intros q Hq. injection Hq as <-. right. left. vm_compute. reflexivity.
Defined.

(** Whatever an upstream sends back, the client receives either a server
    failure, or an upstream answer to the very question asked (type, class and
    name up to case), carrying the client's own identifier, never marked
    authoritative or authenticated. *)
Theorem forward_answers_the_question `{DnsLib} slot exchange request failure q :
  let m := forward slot exchange request failure q in
  m = set_Rcode RcodeServerFailure failure \/
  exists a tcp qa qq more, slot = true /\ exchange tcp (forwardQuery request q) = Some a /\
    Questions a = [qa] /\ Questions (forwardQuery request q) = qq :: more /\
    EqualFold (q_Name qa) (q_Name qq) = true /\ q_Qtype qa = q_Qtype qq /\ q_Qclass qa = ClassINET /\
    Response m = true /\ Opcode m = OpcodeQuery /\ Id m = Id request /\
    Authoritative m = false /\ AuthenticatedData m = false /\ RecursionAvailable m = true /\
    Rcode m = Rcode a /\ Answer m = Answer a /\ Ns m = Ns a /\ Extra m = Extra a /\
    (tcp = true -> exists u, exchange false (forwardQuery request q) = Some u /\ Truncated u = true).
Proof.
  intros m. unfold m, forward. clear m. destruct slot; cbn [negb]; [|by left].
  set (query := forwardQuery request q).
  assert (Hgo : forall a tcp, exchange tcp query = Some a ->
    (tcp = true -> exists u, exchange false query = Some u /\ Truncated u = true) ->
    let m := (if negb (answers query a) then set_Rcode RcodeServerFailure failure else set_forwarded (Id request) a) in
    m = set_Rcode RcodeServerFailure failure \/
    exists a tcp qa qq more, true = true /\ exchange tcp query = Some a /\
      Questions a = [qa] /\ Questions query = qq :: more /\
      EqualFold (q_Name qa) (q_Name qq) = true /\ q_Qtype qa = q_Qtype qq /\ q_Qclass qa = ClassINET /\
      Response m = true /\ Opcode m = OpcodeQuery /\ Id m = Id request /\
      Authoritative m = false /\ AuthenticatedData m = false /\ RecursionAvailable m = true /\
      Rcode m = Rcode a /\ Answer m = Answer a /\ Ns m = Ns a /\ Extra m = Extra a /\
      (tcp = true -> exists u, exchange false query = Some u /\ Truncated u = true)).
  { intros a tcp Ea Ht. destruct (answers query a) eqn:Ew; cbn [negb]; [|by left]. right.
    unfold answers in Ew. destruct (Questions a) as [|qa [|]] eqn:Eqa; try done.
    destruct (Questions query) as [|qq more] eqn:Eqq; [done|]. bool_hyps.
    exists a, tcp, qa, qq, more. destruct a; simpl in *. auto 20. }
  destruct (exchange false query) as [u|] eqn:Eu; [|by left]. destruct (Truncated u) eqn:Et.
  - destruct (exchange true query) as [a|] eqn:Ea; [|by left]. apply (Hgo a true Ea). eauto.
  - apply (Hgo u false Eu). done.
Qed.
