(* ===== verification/DnsServe.v ===== *)
(** * Package internal/dnsserver: Run and serve

    Two servers of the DNS library, one for TCP and one for UDP, run in
    goroutines of their own.  The library is known here by what it documents:
    [ActivateAndServe] calls [NotifyStartedFunc] once it serves, or returns an
    error; every connection and datagram gets a goroutine, a job here, and
    [ActivateAndServe] waits for all of them before it returns.
    [ShutdownContext] of a server that has started ends its reads, so that its jobs
    end and [ActivateAndServe] returns; it waits for that or until its timeout has
    passed, and is lost on a server that has not started. *)

From stdpp Require Import list strings functions.
From Stdlib Require Import ZArith Lia.
From S2P Require Import Prelude GoStrings GoSync.

Inductive transport := TCP | UDP.

#[export] Instance transport_eq_dec : EqDecision transport.
Proof. solve_decision. Defined.

Definition transport_name (t : transport) : bytes := match t with TCP => str "TCP" | UDP => str "UDP" end.

(** A server and its channels: not started by [serve] yet, starting, serving,
    failing while its jobs go on, asked to shut down, asked too early, and returned,
    with [ready] closed or not and with its result in the channel or received. *)
Inductive dns_server :=
  SvIdle | SvStarting | SvServing | SvFailed | SvStopping | SvLost | SvReturned (ready received : bool).

Inductive dns_pc :=
| DnsStart
| DnsListenTCP
| DnsListenUDP
| DnsLaunch (t : transport)
| DnsAwait (t : transport)
| DnsSelect
| DnsCancel (r : exit)
| DnsShutdown (t : transport) (r : exit)
| DnsDrain (t : transport) (r : exit)
| DnsResult (t : transport) (r : exit)
| DnsCloseUDP (r : exit)
| DnsCloseTCP (r : exit)
| DnsReturned (r : exit).

Record dns_state := mkDns {
  dv_pc : dns_pc;
  dv_cancelled : bool;
  dv_listening : transport -> bool;
  dv_server : transport -> dns_server;
  dv_jobs : transport -> nat
}.

(** [DnsAccept] is a connection or datagram, [DnsLeave] the end of its job for
    reasons of its own, [DnsJob] its end because the server is shut down, and
    [DnsExpire] the timeout of ShutdownContext. *)
Inductive dns_label :=
| DnsGo | DnsReceive (t : transport) | DnsServer (t : transport) | DnsJob (t : transport) | DnsExpire
| DnsAccept (t : transport) | DnsLeave (t : transport) | DnsFault | DnsServerFault (t : transport).

Definition dns_go (s : dns_state) (pc : dns_pc) : option dns_state :=
  Some (mkDns pc (dv_cancelled s) (dv_listening s) (dv_server s) (dv_jobs s)).
Definition dns_listening (s : dns_state) (pc : dns_pc) (t : transport) (b : bool) : option dns_state :=
  Some (mkDns pc (dv_cancelled s) (<[t := b]> (dv_listening s)) (dv_server s) (dv_jobs s)).
Definition dns_server_to (s : dns_state) (pc : dns_pc) (t : transport) (v : dns_server) : option dns_state :=
  Some (mkDns pc (dv_cancelled s) (dv_listening s) (<[t := v]> (dv_server s)) (dv_jobs s)).
Definition dns_jobs (s : dns_state) (t : transport) (n : nat) : option dns_state :=
  Some (mkDns (dv_pc s) (dv_cancelled s) (dv_listening s) (dv_server s) (<[t := n]> (dv_jobs s))).

(** After server [t]: the other one, in the order of [servers]. *)
Definition after_launch (t : transport) : dns_pc := match t with TCP => DnsLaunch UDP | UDP => DnsSelect end.

(** The deferred loop shuts down the servers of [done], those that were
    launched. *)
Definition after_result (s : dns_state) (t : transport) (r : exit) : dns_pc :=
  match t, dv_server s UDP with
  | TCP, SvIdle => DnsCloseUDP r
  | TCP, _ => DnsShutdown UDP r
  | UDP, _ => DnsCloseUDP r
  end.

(** What [ShutdownContext] does to the server before it waits. *)
Definition shutdown (v : dns_server) : dns_server :=
  match v with SvServing | SvFailed => SvStopping | SvStarting => SvLost | v => v end.

(** The goroutine of [Run], which continues into [serve]. *)
Definition serve_dns (s : dns_state) : option dns_state :=
  match dv_pc s with
  | DnsStart => dns_go s (if dv_cancelled s then DnsReturned (Ok tt) else DnsListenTCP)
  | DnsListenTCP => dns_listening s DnsListenUDP TCP true
  | DnsListenUDP => dns_listening s (DnsLaunch TCP) UDP true
  | DnsLaunch t => dns_server_to s (DnsAwait t) t SvStarting
  | DnsAwait t =>
      match dv_server s t with
      | SvServing | SvFailed | SvReturned true _ => dns_go s (after_launch t)
      | _ => None
      end
  | DnsSelect => if dv_cancelled s then dns_go s (DnsCancel (Ok tt)) else None
  | DnsCancel r => Some (mkDns (DnsShutdown TCP r) true (dv_listening s) (dv_server s) (dv_jobs s))
  | DnsShutdown t r => dns_server_to s (DnsDrain t r) t (shutdown (dv_server s t))
  | DnsDrain t r => match dv_server s t with SvReturned _ _ => dns_go s (DnsResult t r) | _ => None end
  | DnsResult t r =>
      match dv_server s t with
      | SvReturned ready _ => dns_server_to s (after_result s t r) t (SvReturned ready true)
      | _ => None
      end
  | DnsCloseUDP r => dns_listening s (DnsCloseTCP r) UDP false
  | DnsCloseTCP r => dns_listening s (DnsReturned r) TCP false
  | DnsReturned _ => None
  end.

(** The branches of the selects that receive a result. *)
Definition receive_dns (t : transport) (s : dns_state) : option dns_state :=
  match dv_server s t with
  | SvReturned ready false =>
      match dv_pc s with
      | DnsAwait t' =>
          if bool_decide (t = t') then dns_server_to s (DnsCancel (Err (str "start DNS listener"))) t (SvReturned ready true) else None
      | DnsSelect => dns_server_to s (DnsCancel (Err (transport_name t ++ str " DNS server stopped"))) t (SvReturned ready true)
      | _ => None
      end
  | _ => None
  end.

(** The goroutine of a server: it starts, and returns when it has failed or was
    asked to and its jobs are done. *)
Definition server_dns (t : transport) (s : dns_state) : option dns_state :=
  match dv_server s t with
  | SvStarting => dns_server_to s (dv_pc s) t SvServing
  | SvFailed | SvStopping =>
      if (dv_jobs s t =? 0)%nat then dns_server_to s (dv_pc s) t (SvReturned true false) else None
  | _ => None
  end.

Definition Run_dns (l : dns_label) (s : dns_state) : option dns_state :=
  match l with
  | DnsGo => serve_dns s
  | DnsReceive t => receive_dns t s
  | DnsServer t => server_dns t s
  | DnsJob t =>
      match dv_server s t with
      | SvStopping => if (dv_jobs s t =? 0)%nat then None else dns_jobs s t (Nat.pred (dv_jobs s t))
      | _ => None
      end
  | DnsExpire => match dv_pc s with DnsDrain t r => dns_go s (DnsResult t r) | _ => None end
  | DnsAccept t =>
      match dv_server s t with
      | SvServing | SvStopping => dns_jobs s t (S (dv_jobs s t))
      | _ => None
      end
  | DnsLeave t => if (dv_jobs s t =? 0)%nat then None else dns_jobs s t (Nat.pred (dv_jobs s t))
  | DnsFault =>
      match dv_pc s with
      | DnsListenTCP => dns_go s (DnsReturned (Err (str "listen for TCP DNS")))
      | DnsListenUDP => dns_go s (DnsCloseTCP (Err (str "listen for UDP DNS")))
      | _ => None
      end
  | DnsServerFault t =>
      match dv_server s t with
      | SvStarting => dns_server_to s (dv_pc s) t (SvReturned false false)
      | SvServing => dns_server_to s (dv_pc s) t SvFailed
      | _ => None
      end
  end.

Definition dns_machine : machine := {|
  mc_state := dns_state;
  mc_label := dns_label;
  mc_init := mkDns DnsStart false (fun _ => false) (fun _ => SvIdle) (fun _ => 0%nat);
  mc_step := Run_dns;
  mc_cancel s := mkDns (dv_pc s) true (dv_listening s) (dv_server s) (dv_jobs s);
  mc_cancelled := dv_cancelled;
  mc_arrives l := match l with DnsAccept _ => true | _ => false end;
  mc_own l := match l with DnsGo | DnsReceive _ | DnsServer _ | DnsJob _ | DnsExpire => true | _ => false end;
  mc_fault l := match l with DnsFault | DnsServerFault _ => true | _ => false end;
  mc_returned s := match dv_pc s with DnsReturned r => Some r | _ => None end;
  mc_released s := negb (dv_listening s TCP) && negb (dv_listening s UDP) &&
                   match dv_server s TCP, dv_server s UDP with
                   | (SvIdle | SvReturned _ true), (SvIdle | SvReturned _ true) => true
                   | _, _ => false
                   end && (dv_jobs s TCP =? 0)%nat && (dv_jobs s UDP =? 0)%nat
|}.

(** ** Facts *)

(** How far a server can be when the goroutine of [Run] is at a place. *)
Definition upRunning (v : dns_server) : bool := match v with SvServing | SvFailed | SvReturned true false => true | _ => false end.
Definition settled (v : dns_server) : bool := match v with SvServing | SvFailed | SvReturned _ _ => true | _ => false end.
Definition stopping (v : dns_server) : bool := match v with SvStopping | SvReturned _ _ => true | _ => false end.
Definition ended (v : dns_server) : bool := match v with SvReturned _ true => true | _ => false end.
Definition idle (v : dns_server) : bool := match v with SvIdle => true | _ => false end.
Definition launched (v : dns_server) : bool :=
  upRunning v || match v with SvStarting | SvReturned false false => true | _ => false end.

Definition servers_ok (pc : dns_pc) (tcp udp : dns_server) : bool :=
  match pc with
  | DnsStart | DnsListenTCP | DnsListenUDP | DnsLaunch TCP => idle tcp && idle udp
  | DnsAwait TCP => launched tcp && idle udp
  | DnsLaunch UDP => upRunning tcp && idle udp
  | DnsAwait UDP => upRunning tcp && launched udp
  | DnsSelect => upRunning tcp && upRunning udp
  | DnsCancel _ | DnsShutdown TCP _ => settled tcp && (settled udp || idle udp)
  | DnsDrain TCP _ | DnsResult TCP _ => stopping tcp && (settled udp || idle udp)
  | DnsShutdown UDP _ => ended tcp && settled udp
  | DnsDrain UDP _ | DnsResult UDP _ => ended tcp && stopping udp
  | DnsCloseUDP _ => ended tcp && (ended udp || idle udp)
  | DnsCloseTCP _ | DnsReturned _ => (ended tcp || idle tcp) && (ended udp || idle udp)
  end.

(** A server that does not serve has no jobs. *)
Definition jobs_ok (s : dns_state) (t : transport) : bool :=
  match dv_server s t with SvServing | SvFailed | SvStopping => true | _ => (dv_jobs s t =? 0)%nat end.

Definition listeners_ok (s : dns_state) : Prop :=
  match dv_pc s with
  | DnsStart | DnsListenTCP | DnsReturned _ => dv_listening s TCP = false /\ dv_listening s UDP = false
  | DnsListenUDP | DnsCloseTCP _ => dv_listening s UDP = false
  | _ => True
  end.

Record dns_inv (s : dns_state) : Prop := {
  di_servers : servers_ok (dv_pc s) (dv_server s TCP) (dv_server s UDP) = true;
  di_listeners : listeners_ok s;
  di_jobs t : jobs_ok s t = true
}.

(** One case for each step that is enabled. *)
Ltac dns_cases E :=
  cbn [mc_step dns_machine] in E;
  match type of E with Run_dns ?l _ = _ => destruct l end; unfold Run_dns, serve_dns, receive_dns, server_dns in E;
  step_cases E; unfold dns_go, dns_listening, dns_server_to, dns_jobs in *;
  repeat match goal with H : Some _ = Some _ |- _ => injection H as H; subst end;
  bool_hyps; subst;
  repeat match goal with t : transport |- _ => destruct t end;
  cbn [dv_pc dv_cancelled dv_listening dv_server dv_jobs after_launch] in *;
  rewrite ?fn_lookup_insert, ?fn_lookup_insert_ne in * by done.

Ltac dns_places := repeat match goal with
  | H : dv_pc _ = _ |- _ => rewrite H in *; clear H
  | H : dv_server _ _ = _ |- _ => rewrite H in *; clear H
  end.
Ltac dns_servers := repeat match goal with
  | |- context [dv_server ?s ?t] => destruct (dv_server s t) as [| | | | | |[] []]
  | H : context [dv_server ?s ?t] |- _ => destruct (dv_server s t) as [| | | | | |[] []]
  end.

Ltac dns_flags := try done; repeat match goal with b : bool |- _ => destruct b end; try done.

Lemma dns_servers_step l s s' :
  servers_ok (dv_pc s) (dv_server s TCP) (dv_server s UDP) = true -> Run_dns l s = Some s' ->
  servers_ok (dv_pc s') (dv_server s' TCP) (dv_server s' UDP) = true.
Proof.
  intros Hs E. dns_cases E; dns_places; cbn [servers_ok] in *; try done; unfold after_result.
  all: try destruct (dv_pc _) as [| | |[]|[]| |?|[]|[]|[]|?|?|?]; cbn [servers_ok] in *; dns_servers; dns_flags.
Qed.

Lemma dns_listeners_step l s s' : listeners_ok s -> Run_dns l s = Some s' -> listeners_ok s'.
Proof.
  intros Hl E. unfold listeners_ok in *. dns_cases E; dns_places; try done; try tauto.
  all: unfold after_result; dns_servers; done.
Qed.

Lemma dns_jobs_step l s s' t :
  servers_ok (dv_pc s) (dv_server s TCP) (dv_server s UDP) = true -> (forall t, jobs_ok s t = true) ->
  Run_dns l s = Some s' -> jobs_ok s' t = true.
Proof.
  intros Hs Hj E. pose proof (Hj TCP) as H1. pose proof (Hj UDP) as H2. clear Hj. unfold jobs_ok in *.
  dns_cases E; dns_places; try done; cbn [servers_ok] in Hs.
  all: try (dns_servers; cbn [shutdown] in *; done).
  all: rewrite Heqb in *; match goal with |- context [dv_server ?s ?t] => by destruct (dv_server s t) end.
Qed.

Lemma dns_inv_step l s s' : dns_inv s -> Run_dns l s = Some s' -> dns_inv s'.
Proof.
  intros [H1 H2 H3] E. split; [by eapply dns_servers_step|by eapply dns_listeners_step|intros t; by eapply (dns_jobs_step l s)].
Qed.

Lemma dns_reachable s : reachable dns_machine s -> dns_inv s.
Proof. apply reachable_invariant; [by split|exact dns_inv_step|by intros ? []]. Qed.

Lemma dns_progress s :
  dns_inv s -> dv_cancelled s = true -> mc_returned dns_machine s = None ->
  exists l, mc_own dns_machine l = true /\ is_Some (Run_dns l s).
Proof.
  intros [Hs _ _] Hc Hr. cbn [mc_returned dns_machine] in Hr.
  assert (Hgo : is_Some (serve_dns s) -> exists l, mc_own dns_machine l = true /\ is_Some (Run_dns l s)) by by exists DnsGo.
  assert (Hsv : forall t, is_Some (server_dns t s) -> exists l, mc_own dns_machine l = true /\ is_Some (Run_dns l s))
    by (intros t; by exists (DnsServer t)).
  assert (Hrc : forall t, is_Some (receive_dns t s) -> exists l, mc_own dns_machine l = true /\ is_Some (Run_dns l s))
    by (intros t; by exists (DnsReceive t)).
  unfold serve_dns, server_dns, receive_dns in *.
  destruct (dv_pc s) as [| | |t|t| |r|t r|t r|t r|r|r|r] eqn:Ep; try discriminate Hr; rewrite ?Hc in *; try by apply Hgo.
  - destruct (dv_server s t) as [| | | | | |[] []] eqn:E; try by apply Hgo.
    all: try (apply (Hsv t); by rewrite E).
    all: try (apply (Hrc t); rewrite E; by rewrite bool_decide_true).
    all: destruct t; cbn [servers_ok] in Hs; rewrite E in Hs; cbn in Hs; rewrite ?andb_false_r in Hs; discriminate Hs.
  - exists DnsExpire. split; [done|]. cbn [Run_dns]. by rewrite Ep.
  - destruct (dv_server s t) as [| | | | | |b b'] eqn:E; try by apply Hgo.
    all: try (destruct t; cbn [servers_ok] in Hs; rewrite E in Hs; cbn in Hs; rewrite ?andb_false_r in Hs; discriminate Hs).
    destruct (dv_jobs s t =? 0)%nat eqn:Ej; [apply (Hsv t); by rewrite E, Ej|].
    exists (DnsJob t). split; [done|]. cbn [Run_dns]. by rewrite E, Ej.
Qed.

Definition dns_rank (pc : dns_pc) : nat :=
  match pc with
  | DnsStart => 28 | DnsListenTCP => 27 | DnsListenUDP => 26 | DnsLaunch TCP => 25 | DnsAwait TCP => 20
  | DnsLaunch UDP => 19 | DnsAwait UDP => 14 | DnsSelect => 13 | DnsCancel _ => 12
  | DnsShutdown TCP _ => 11 | DnsDrain TCP _ => 10 | DnsResult TCP _ => 9
  | DnsShutdown UDP _ => 8 | DnsDrain UDP _ => 7 | DnsResult UDP _ => 6
  | DnsCloseUDP _ => 5 | DnsCloseTCP _ => 4 | DnsReturned _ => 0
  end.

Definition server_rank (v : dns_server) : nat :=
  match v with SvStarting => 4 | SvServing => 3 | SvFailed | SvStopping => 2 | SvIdle | SvLost | SvReturned _ _ => 0 end.

Definition dns_work (s : dns_state) : nat :=
  dns_rank (dv_pc s) + server_rank (dv_server s TCP) + server_rank (dv_server s UDP) + dv_jobs s TCP + dv_jobs s UDP.

Lemma dns_work_step l s s' : Run_dns l s = Some s' -> (dns_work s' < dns_work s + if mc_arrives dns_machine l then 2 else 0)%nat.
Proof.
  intros E. unfold dns_work. dns_cases E; cbn [mc_arrives dns_machine] in *;
    try match goal with H : (_ =? 0)%nat = false |- _ => apply Nat.eqb_neq in H end;
    dns_places; cbn [dns_rank server_rank]; try lia.
  all: unfold after_result; repeat match goal with |- context [dv_server ?s ?t] => destruct (dv_server s t) end; cbn; lia.
Qed.

#[export, refine] Instance dns_stoppable : Stoppable dns_machine := {
  st_work := dns_work : mc_state dns_machine -> nat;
  st_load := 2
}.
Proof.
  - by intros [].
  - intros l s s' _. apply dns_work_step.
  - done.
  - done.
  - intros l s s' E Hc. cbn [mc_cancelled dns_machine] in *. by dns_cases E.
  - intros s Hs. apply dns_progress. by apply dns_reachable.
  - intros l s s' r E Hr. cbn [mc_returned dns_machine] in *. dns_cases E; try done;
      by match goal with H : dv_pc _ = _ |- _ => rewrite H in Hr end.
  - done.
  - intros s r Hs Hr. apply dns_reachable in Hs as [Hs Hl Hj]. unfold listeners_ok in Hl. cbn [mc_returned mc_released dns_machine] in *.
    pose proof (Hj TCP) as H1. pose proof (Hj UDP) as H2. unfold jobs_ok in *.
    destruct (dv_pc s); try discriminate Hr. destruct Hl as [-> ->]. cbn [servers_ok] in Hs.
    by destruct (dv_server s TCP) as [| | | | | |? []], (dv_server s UDP) as [| | | | | |? []]; cbn in *; rewrite ?H1, ?H2.
Defined.

(** Without faults no server fails or returns before it is shut down. *)
Definition gone (v : dns_server) : bool := match v with SvFailed | SvReturned _ _ => true | _ => false end.

Definition dns_clean (s : dns_state) : Prop :=
  match dv_pc s with
  | DnsCancel r | DnsShutdown _ r | DnsDrain _ r | DnsResult _ r | DnsCloseUDP r | DnsCloseTCP r | DnsReturned r => r = Ok tt
  | _ => gone (dv_server s TCP) = false /\ gone (dv_server s UDP) = false
  end.

Lemma dns_clean_step l s s' :
  mc_fault dns_machine l = false -> dns_inv s -> dns_clean s -> Run_dns l s = Some s' -> dns_clean s'.
Proof.
  intros Hl [Hs _ _] Hc E. unfold dns_clean in *. dns_cases E; try discriminate Hl; try done; dns_places; try tauto.
  all: unfold after_result; try destruct (dv_pc _) as [| | |[]|[]| |?|[]|[]|[]|?|?|?]; cbn [servers_ok] in *; dns_servers; cbn in *;
    try done; try (intuition discriminate); dns_flags.
Qed.

#[export] Instance dns_clean_exit : Clean dns_machine.
Proof.
  split. intros s r Hs Hr. enough (Hc : dns_inv s /\ dns_clean s).
  { destruct Hc as [_ Hc]. unfold dns_clean in Hc. cbn in Hr. destruct (dv_pc s); congruence. }
  clear Hr. revert s Hs. apply reachable_by_invariant; [by split; [split|]| |intros s [[] ?]; by split; [split|]].
  intros l s s' Hl [Hi Hc] E. split; [by eapply dns_inv_step|by eapply dns_clean_step].
Qed.

(** ** Properties *)

(** C17: A shutdown is never lost: whenever [ShutdownContext] is called the server has
    started or has already returned, so that waiting for its result ends. *)
Theorem dns_shutdown_reaches_servers s t r :
  reachable dns_machine s -> dv_pc s = DnsShutdown t r ->
  settled (dv_server s t) = true /\ shutdown (dv_server s t) <> SvLost.
Proof.
  intros Hs Hp. destruct (dns_reachable s Hs) as [Hi _ _]. rewrite Hp in Hi. destruct t; cbn [servers_ok] in Hi; bool_hyps;
    (split; [done|]); match goal with |- context [dv_server ?s ?t] => by destruct (dv_server s t) end.
Qed.

(** TCP starts, UDP fails to start: both are shut down all the same. *)
Definition dns_schedule : list dns_label :=
  [DnsGo; DnsGo; DnsGo; DnsGo; DnsServer TCP; DnsGo; DnsGo; DnsServerFault UDP; DnsReceive UDP; DnsGo].

Lemma dns_shutdown_reaches_servers_witness :
  exists s, exec (M := dns_machine) dns_schedule (mc_init dns_machine) = Some s /\
    dv_pc s = DnsShutdown TCP (Err (str "start DNS listener")) /\ settled (dv_server s TCP) = true.
Proof.
  destruct (exec (M := dns_machine) dns_schedule (mc_init dns_machine)) as [s|] eqn:E;
    [|exfalso; vm_compute in E; discriminate E].
  assert (Hp : dv_pc s = DnsShutdown TCP (Err (str "start DNS listener"))) by (vm_compute in E; injection E as <-; reflexivity).
  exists s. split; [reflexivity|]. split; [exact Hp|].
  refine (proj1 (dns_shutdown_reaches_servers s TCP _ _ Hp)).
  exact (exec_reachable dns_machine dns_schedule _ s (ReachInit dns_machine _) E).
Defined.
