(* ===== verification/Ntp.v ===== *)
(** * Package internal/ntpserver

    The stateless NTP exchange: one 48-byte reply to each well-formed client
    request, from two readings of the host clock. *)

From stdpp Require Import list strings.
From Stdlib Require Import ZArith Lia.
From S2P Require Import Prelude GoStrings GoNet GoAddr Lease.

(** ** Protocol *)

Definition packetSize : nat := 48.

(** [time.Time.Unix] and [Nanosecond]. *)
Definition Unix (t : time) : Z := t / second.
Definition Nanosecond (t : time) : Z := t mod second.

(** Seconds from 1 January 1900 to the Unix epoch. *)
Definition epochOffset : Z := 2208988800.

Definition putTimestamp (t : time) : bytes :=
  be_encode 4 (u32 (Unix t + epochOffset)) ++
  be_encode 4 (u32 (u64 (Z.shiftl (Nanosecond t) 32) / 1000000000)).

Definition response (request : bytes) (received transmitted : time) : option bytes :=
  if negb (length request =? packetSize)%nat then None
  else
    let version := Z.land (Z.shiftr (at_ request 0) 3) 7 in
    if (negb (version =? 3) && negb (version =? 4)) || negb (Z.land (at_ request 0) 7 =? 3) then None
    else Some ([Z.lor (u8 (Z.shiftl version 3)) 4; 10; at_ request 2; 0xf6]
               ++ [0; 0; 0; 0]
               ++ be_encode 4 66
               ++ [127; 127; 1; 0]
               ++ putTimestamp received
               ++ slice 40 48 request
               ++ putTimestamp received
               ++ putTimestamp transmitted).

(** ** Server *)

(** The listener must be one unicast IPv4 address. *)
Definition unicast4 (a : Addr) : bool :=
  match a with Addr4 v => IsGlobalUnicast4 v || IsLoopback4 v | _ => false end.

Definition New_ntp (address : bytes) : bool :=
  match ParseAddrPort address with
  | Some (a, _) => unicast4 a
  | None => false
  end.

(** One turn of [Serve]: a datagram is read into 49 bytes, so that an oversized
    one is recognised; [None] sends nothing. *)
Definition serveDatagram (datagram : bytes) (peerPort : Z) (received transmitted : time) : option bytes :=
  match response (take (packetSize + 1) datagram) received transmitted with
  | None => None
  | Some reply => if peerPort =? 0 then None else Some reply
  end.

(** ** Facts *)

(** What a client computes from a timestamp: seconds since 1900 within the era,
    and nanoseconds. *)
Definition ts_seconds (ts : bytes) : Z := be_decode (take 4 ts).
Definition ts_nanoseconds (ts : bytes) : Z := be_decode (drop 4 ts) * 1000000000 / 2 ^ 32.

Definition ntp_demo : bytes := [0x23; 0; 6; 0xec] ++ replicate 36 0 ++ [1; 2; 3; 4; 5; 6; 7; 8].

Lemma length_putTimestamp t : length (putTimestamp t) = 8%nat.
Proof. unfold putTimestamp. by rewrite length_app, !length_be_encode. Qed.

Lemma Nanosecond_range t : 0 <= Nanosecond t < 1000000000.
Proof. apply Z.mod_pos_bound. done. Qed.

Lemma fraction_range t :
  u64 (Z.shiftl (Nanosecond t) 32) = Nanosecond t * 2 ^ 32 /\
  0 <= Nanosecond t * 2 ^ 32 / 1000000000 < 2 ^ 32.
Proof.
  pose proof (Nanosecond_range t) as Hn. rewrite Z.shiftl_mul_pow2 by lia. split.
  - apply Z.mod_small. lia.
  - split; [apply Z.div_pos; lia|]. apply Z.div_lt_upper_bound; lia.
Qed.

(** The reply to a request, field by field. *)
Lemma response_shape request received transmitted reply :
  response request received transmitted = Some reply ->
  length request = packetSize /\ length reply = packetSize /\
  Z.land (at_ reply 0) 7 = 4 /\ Z.land (Z.shiftr (at_ reply 0) 3) 7 = Z.land (Z.shiftr (at_ request 0) 3) 7 /\
  at_ reply 2 = at_ request 2 /\ slice 24 32 reply = slice 40 48 request /\
  slice 32 40 reply = putTimestamp received /\ slice 40 48 reply = putTimestamp transmitted.
Proof.
  unfold response. destruct (Nat.eqb_spec (length request) packetSize) as [Hl|]; cbn [negb]; [|done].
  set (v := Z.land _ 7). destruct ((negb (v =? 3) && negb (v =? 4)) || _) eqn:Eg; [done|]. intros E.
  apply orb_false_iff in Eg as [Ev _]. apply andb_false_iff in Ev.
  assert (Hv : v = 3 \/ v = 4) by (destruct Ev as [?%negb_false_iff%Z.eqb_eq|?%negb_false_iff%Z.eqb_eq]; auto).
  assert (Hs : length (slice 40 48 request) = 8%nat).
  { unfold slice. rewrite length_take, length_drop, Hl. done. }
  pose proof (length_putTimestamp received) as Hr. pose proof (length_putTimestamp transmitted) as Ht.
  clearbody v. remember (slice 40 48 request) as origin. remember (putTimestamp received) as rec.
  remember (putTimestamp transmitted) as tra. clear Heqorigin Heqrec Heqtra.
  do 8 (destruct origin as [|? origin]; [done|]). destruct origin; [|done].
  do 8 (destruct rec as [|? rec]; [done|]). destruct rec; [|done].
  do 8 (destruct tra as [|? tra]; [done|]). destruct tra; [|done].
  injection E as <-. destruct Hv as [-> | ->]; vm_compute (be_encode 4 66); split_and!; try done.
Qed.

(** ** Properties *)

(** A reply is sent only to a 48-byte client request of version 3 or 4 from a
    nonzero port; it is again 48 bytes (nothing is amplified), in server mode and
    the client's version, echoes the client's transmit timestamp as its origin,
    and is itself never answered, so two servers cannot bounce packets. *)
Theorem ntp_reply_shape datagram port received transmitted reply :
  serveDatagram datagram port received transmitted = Some reply ->
  length datagram = packetSize /\ length reply = packetSize /\ port <> 0 /\
  Z.land (Z.shiftr (at_ reply 0) 3) 7 = Z.land (Z.shiftr (at_ datagram 0) 3) 7 /\
  slice 24 32 reply = slice 40 48 datagram /\ slice 32 40 reply = putTimestamp received /\
  slice 40 48 reply = putTimestamp transmitted /\
  forall port' r' t', serveDatagram reply port' r' t' = None.
Proof.
  unfold serveDatagram. destruct (response (take _ datagram) _ _) as [rep|] eqn:E; [|done].
  destruct (Z.eqb_spec port 0) as [|Hp]; [done|]. intros Eq. simplify_eq.
  apply response_shape in E as (Hl & Hr & Hm & Hv & _ & Ho & Hrec & Htra).
  rewrite length_take in Hl. assert (Hd : length datagram = packetSize) by (unfold packetSize in *; lia).
  rewrite take_ge in Hv, Ho by (unfold packetSize in *; lia). split_and!; try done.
  intros port' r' t'. rewrite take_ge by (unfold packetSize in *; lia).
  unfold response. rewrite Hr. cbn [Nat.eqb packetSize negb]. rewrite Hm. by rewrite orb_true_r.
Qed.

Lemma ntp_reply_shape_witness :
  exists reply, serveDatagram ntp_demo 123 0 second = Some reply /\ length reply = packetSize.
Proof.
  destruct (serveDatagram ntp_demo 123 0 second) as [reply|] eqn:E;
    [|exfalso; vm_compute in E; discriminate E].
  exists reply. split; [reflexivity|].
  exact (proj1 (proj2 (ntp_reply_shape ntp_demo 123 0 second reply E))).
Defined.

(** A timestamp is exact to the nanosecond: its seconds are those since 1900
    modulo the 2^32-second era, and its fraction is less than one nanosecond
    below the clock's and never above it. *)
Theorem timestamp_accuracy t :
  ts_seconds (putTimestamp t) = (Unix t + epochOffset) mod 2 ^ 32 /\
  Nanosecond t - 1 <= ts_nanoseconds (putTimestamp t) <= Nanosecond t.
Proof.
  unfold ts_seconds, ts_nanoseconds, putTimestamp.
  rewrite take_app_length', drop_app_length' by by rewrite length_be_encode.
  rewrite !be_decode_encode. destruct (fraction_range t) as [-> Hf]. change (256 ^ Z.of_nat 4) with (2 ^ 32).
  unfold u32. rewrite !Z.mod_mod by done. split; [done|]. rewrite (Z.mod_small _ (2 ^ 32)) by done.
  pose proof (Nanosecond_range t) as Hn. set (n := Nanosecond t) in *.
  pose proof (Z.mul_div_le (n * 2 ^ 32) 1000000000 ltac:(lia)) as H1.
  pose proof (Z.mul_succ_div_gt (n * 2 ^ 32) 1000000000 ltac:(lia)) as H2.
  set (q := n * 2 ^ 32 / 1000000000) in *. split.
  - apply Z.div_le_lower_bound; lia.
  - apply Z.div_le_upper_bound; lia.
Qed.
