(* ===== verification/NtpServe.v ===== *)
(** * Package internal/ntpserver: Run and Serve

    One goroutine reads datagrams and answers them in turn; a cancelled context
    closes the socket under it.  The labels say what the system calls return. *)

From stdpp Require Import list strings.
From Stdlib Require Import ZArith Lia.
From S2P Require Import Prelude GoStrings GoNet GoSync Lease Ntp.

(** The address of a socket, as [net.UDPAddr.IP], and its peer. *)
Abbreviation Peer := (Addr * Z)%type.

(** [local.IP.To4() == nil || local.IP.IsUnspecified()], refused by the servers
    that need one address. *)
Definition specificIPv4 (local : bytes) : bool :=
  match To4 local with
  | None => false
  | Some ip => negb (beq ip [0; 0; 0; 0])
  end.

(** Where the goroutine of [Run] is. *)
Inductive ntp_pc :=
| NtpResolve
| NtpListen
| NtpLocal (local : bytes)
| NtpRead
| NtpReadFailed
| NtpGot (datagram : bytes) (peer : Peer) (received : time)
| NtpDeadline (datagram : bytes) (peer : Peer) (received : time)
| NtpDeadlineFailed
| NtpRespond (datagram : bytes) (peer : Peer) (received : time)
| NtpWrite (reply : bytes) (peer : Peer)
| NtpStop (r : exit)
| NtpWait (r : exit)
| NtpClose (r : exit)
| NtpReturned (r : exit).

Record ntp_state := mkNtp { np_pc : ntp_pc; np_sock : owned; np_sent : list (bytes * Peer) }.

Inductive ntp_label :=
| NtpRecv (datagram : bytes) (peer : Peer) (received : time)
| NtpListened (local : bytes)
| NtpClock (transmitted : time)
| NtpGo
| NtpHook
| NtpFault.

Definition ntp_go (s : ntp_state) (pc : ntp_pc) : option ntp_state := Some (mkNtp pc (np_sock s) (np_sent s)).

(** One step of [Run], which continues into [Serve] once the socket is open. *)
Definition Run_ntp (l : ntp_label) (s : ntp_state) : option ntp_state :=
  let o := np_sock s in
  match l, np_pc s with
  | NtpGo, NtpResolve => ntp_go s NtpListen
  | NtpFault, NtpResolve => ntp_go s (NtpReturned (Err (str "resolve NTP listener")))
  | NtpListened local, NtpListen => Some (mkNtp (NtpLocal local) (own_opened o) (np_sent s))
  | NtpFault, NtpListen => ntp_go s (NtpReturned (Err (str "listen for NTP")))
  | NtpGo, NtpLocal local =>
      ntp_go s (if specificIPv4 local then NtpRead
                else NtpStop (Err (str "NTP listener must bind a specific IPv4 address")))
  | NtpRecv d peer t, NtpRead => if ow_open o then ntp_go s (NtpGot d peer t) else None
  | NtpFault, NtpRead => if ow_open o then ntp_go s NtpReadFailed else None
  | NtpGo, NtpRead => if ow_open o then None else ntp_go s NtpReadFailed
  | NtpGo, NtpReadFailed => ntp_go s (NtpStop (unlessCancelled o (str "read NTP request")))
  | NtpGo, NtpGot d peer t => ntp_go s (if ow_cancelled o then NtpStop (Ok tt) else NtpDeadline d peer t)
  | NtpGo, NtpDeadline d peer t => ntp_go s (if ow_open o then NtpRespond d peer t else NtpDeadlineFailed)
  | NtpFault, NtpDeadline _ _ _ => ntp_go s NtpDeadlineFailed
  | NtpGo, NtpDeadlineFailed => ntp_go s (NtpStop (unlessCancelled o (str "set NTP write deadline")))
  | NtpClock transmitted, NtpRespond d peer t =>
      match serveDatagram d peer.2 t transmitted with
      | None => ntp_go s NtpRead
      | Some reply => ntp_go s (NtpWrite reply peer)
      end
  | NtpGo, NtpWrite reply peer =>
      Some (mkNtp NtpRead o (if ow_open o then np_sent s ++ [(reply, peer)] else np_sent s))
  | NtpFault, NtpWrite _ _ => ntp_go s NtpRead
  | NtpGo, NtpStop r =>
      let '(stopped, o) := own_stop o in
      Some (mkNtp (if stopped then NtpClose r else NtpWait r) o (np_sent s))
  | NtpGo, NtpWait r => if own_waited o then ntp_go s (NtpClose r) else None
  | NtpGo, NtpClose r => Some (mkNtp (NtpReturned r) (own_close o) (np_sent s))
  | NtpHook, _ =>
      match own_hook o with
      | Some o => Some (mkNtp (np_pc s) o (np_sent s))
      | None => None
      end
  | _, _ => None
  end.

Definition ntp_machine : machine := {|
  mc_state := ntp_state;
  mc_label := ntp_label;
  mc_init := mkNtp NtpResolve own_init [];
  mc_step := Run_ntp;
  mc_cancel s := mkNtp (np_pc s) (own_cancel (np_sock s)) (np_sent s);
  mc_cancelled s := ow_cancelled (np_sock s);
  mc_arrives l := match l with NtpRecv _ _ _ => true | _ => false end;
  mc_own l := match l with NtpRecv _ _ _ | NtpFault => false | _ => true end;
  mc_fault l := match l with NtpFault => true | NtpListened local => negb (specificIPv4 local) | _ => false end;
  mc_returned s := match np_pc s with NtpReturned r => Some r | _ => None end;
  mc_released s := negb (ow_open (np_sock s))
|}.

(** ** Facts *)

Definition ntp_phase (pc : ntp_pc) : phase :=
  match pc with
  | NtpResolve | NtpListen => Before
  | NtpWait _ => Waiting
  | NtpClose _ => Closing
  | NtpReturned _ => Over
  | _ => Serving
  end.

Definition ntp_rank (pc : ntp_pc) : nat :=
  match pc with
  | NtpResolve => 15 | NtpListen => 14 | NtpLocal _ => 10
  | NtpGot _ _ _ => 9 | NtpDeadline _ _ _ => 8 | NtpRespond _ _ _ => 7 | NtpWrite _ _ => 6
  | NtpRead => 5 | NtpReadFailed | NtpDeadlineFailed => 4 | NtpStop _ => 3 | NtpWait _ => 2 | NtpClose _ => 1
  | NtpReturned _ => 0
  end.

(** Where the socket is, a reply about to be written or written answers a
    datagram, and a nil result has its reason. *)
Definition answered (w : bytes * Peer) : Prop :=
  exists datagram received transmitted, serveDatagram datagram w.2.2 received transmitted = Some w.1.

Definition ntp_inv (s : ntp_state) : Prop :=
  phase_hook (ntp_phase (np_pc s)) (np_sock s) = true /\ Forall answered (np_sent s) /\
  match np_pc s with
  | NtpWrite reply peer => answered (reply, peer)
  | NtpStop r | NtpWait r | NtpClose r | NtpReturned r => exit_reason (np_sock s) r
  | _ => True
  end.

Lemma ntp_inv_step l s s' : ntp_inv s -> Run_ntp l s = Some s' -> ntp_inv s'.
Proof.
  destruct s as [pc o sent]. intros (Hp & Hs & Hr). unfold Run_ntp, ntp_go, ntp_inv.
  cbn [np_pc np_sock np_sent] in *. intros E.
  destruct l, pc; try discriminate E; cbn [ntp_phase] in *; step_cases E; cbn [np_pc np_sock np_sent ntp_phase];
  (split; [|split]); eauto with own; try done.
  - by exists datagram, received, transmitted.
  - by apply Forall_app_2; [|constructor].
Qed.

Lemma ntp_inv_cancel s : ntp_inv s -> ntp_inv (mc_cancel ntp_machine s).
Proof.
  destruct s as [pc o sent]. intros (Hp & Hs & Hr).
  split; [by apply own_cancel_ok|]. split; [done|]. destruct pc; cbn in *; eauto with own.
Qed.

Lemma ntp_reachable s : reachable ntp_machine s -> ntp_inv s.
Proof.
  apply reachable_invariant; [done|exact ntp_inv_step|exact ntp_inv_cancel].
Qed.

Lemma ntp_progress s :
  ntp_inv s -> ow_cancelled (np_sock s) = true -> mc_returned ntp_machine s = None ->
  exists l, mc_own ntp_machine l = true /\ is_Some (Run_ntp l s).
Proof.
  destruct s as [pc o sent]. intros (Hp & _) Hc Hr. cbn [np_pc np_sock mc_returned ntp_machine ntp_phase] in *.
  assert (Hhook : is_Some (own_hook o) -> is_Some (Run_ntp NtpHook (mkNtp pc o sent))).
  { intros [o' Ho]. unfold Run_ntp. cbn [np_pc np_sock]. by rewrite Ho. }
  destruct pc; try discriminate Hr; try by (exists NtpGo).
  - by exists (NtpListened []).
  - destruct (ow_open o) eqn:Ho; [exists NtpHook; split; [done|]; by apply Hhook, own_open_hook|].
    exists NtpGo. split; [done|]. unfold Run_ntp. cbn [np_pc np_sock]. by rewrite Ho.
  - exists (NtpClock 0). split; [done|]. unfold Run_ntp. cbn [np_pc np_sock]. by destruct (serveDatagram _ _ _ _).
  - exists NtpGo. split; [done|]. unfold Run_ntp. cbn [np_pc np_sock]. by destruct (own_stop o).
  - destruct (own_waited o) eqn:Ho; [|exists NtpHook; split; [done|]; by apply Hhook, own_wait_hook].
    exists NtpGo. split; [done|]. unfold Run_ntp. cbn [np_pc np_sock]. by rewrite Ho.
Qed.

#[export, refine] Instance ntp_stoppable : Stoppable ntp_machine := {
  st_work := (fun s => ntp_rank (np_pc s) + hook_work (ow_hook (np_sock s)))%nat : mc_state ntp_machine -> nat;
  st_load := 5
}.
Proof.
  - by intros [].
  - intros l [pc o sent] s' _. cbn [mc_step ntp_machine]. unfold Run_ntp, ntp_go. cbn [np_pc np_sock np_sent]. intros E.
    destruct l, pc; try discriminate E; step_cases E; cbn [np_pc np_sock ntp_rank mc_arrives ntp_machine]; own_facts; lia.
  - done.
  - done.
  - intros l [pc o sent] s'. cbn [mc_step mc_cancelled ntp_machine]. unfold Run_ntp, ntp_go. cbn [np_pc np_sock np_sent].
    intros E Hc. destruct l, pc; try discriminate E; step_cases E; cbn [np_sock]; own_facts; congruence.
  - intros s Hs. apply ntp_progress. by apply ntp_reachable.
  - intros l [pc o sent] s' r. cbn [mc_step mc_returned ntp_machine]. unfold Run_ntp, ntp_go. cbn [np_pc np_sock np_sent].
    intros E Hr. destruct l, pc; try discriminate; by step_cases E.
  - done.
  - intros [pc o sent] r Hs Hr. apply ntp_reachable in Hs as (Hp & _). cbn in *. destruct pc; try discriminate Hr.
    by rewrite (own_over o Hp).
Defined.

(** Without faults every way out is the cancelled context. *)
Definition ntp_clean (s : ntp_state) : Prop :=
  match np_pc s with
  | NtpLocal local => specificIPv4 local = true
  | NtpReadFailed | NtpDeadlineFailed => ow_cancelled (np_sock s) = true
  | NtpStop r | NtpWait r | NtpClose r | NtpReturned r => r = Ok tt
  | _ => True
  end.

Lemma ntp_clean_step l s s' :
  mc_fault ntp_machine l = false -> ntp_inv s -> ntp_clean s -> Run_ntp l s = Some s' -> ntp_clean s'.
Proof.
  destruct s as [pc o sent]. cbn [mc_fault ntp_machine]. unfold Run_ntp, ntp_go, ntp_clean, unlessCancelled.
  intros Hl (Hp & _) Hc. cbn [np_pc np_sock np_sent ntp_phase] in *. intros E.
  destruct l, pc; try discriminate; step_cases E; cbn [np_pc np_sock ntp_phase] in *; own_facts; eauto with own.
  - by apply negb_false_iff.
  - congruence.
  - congruence.
  - congruence.
Qed.

#[export] Instance ntp_clean_exit : Clean ntp_machine.
Proof.
  split. intros s r Hs Hr. enough (Hc : ntp_inv s /\ ntp_clean s).
  { destruct s as [[] o sent], Hc as [_ Hc]; cbn in *; congruence. }
  clear Hr. revert s Hs. apply reachable_by_invariant; [done| |].
  - intros l s s' Hl [Hi Hc] E. split; [by eapply ntp_inv_step|by eapply ntp_clean_step].
  - intros s [Hi Hc]. split; [by apply ntp_inv_cancel|]. by destruct s as [[] o sent].
Qed.
