(* ===== verification/Tftp.v ===== *)
(** * Package internal/tftpserver

    Requests, the lock-step transfer, and the admission of transfers.  The
    network is a script of events a transfer observes: datagrams, timeouts and
    failures; what it sends is its output. *)

From stdpp Require Import gmap list strings.
From Stdlib Require Import ZArith Lia.
From S2P Require Import Prelude GoStrings GoNet GoAddr GoPath Lease Ntp.

(** ** Protocol *)

Definition opRead : Z := 1.
Definition opWrite : Z := 2.
Definition opData : Z := 3.
Definition opAck : Z := 4.
Definition opError : Z := 5.
Definition opOptionAck : Z := 6.
Definition maxRequestSize : Z := 512.
Definition defaultBlockSize : Z := 512.
Definition maxBlockSize : Z := 1468.
Definition defaultTimeout : duration := 3 * second.
Definition maxAttempts : nat := 5.
Definition maxTransfers : nat := 64.
Definition maxClientTransfers : nat := 4.

Record protocolError := mkProtocolError { code : Z; message : bytes }.

Record readRequest := mkReadRequest {
  filename : bytes;
  blockSize : Z;
  timeout : duration;
  options : list (bytes * bytes)
}.

(** [binary.BigEndian.Uint16] of a packet's first two bytes. *)
Definition opcode (packet : bytes) : Z := be_decode (take 2 packet).

(** The fields after the first two, as the loop pairs them. *)
Fixpoint pairs (fields : list bytes) : list (bytes * bytes) :=
  match fields with
  | k :: v :: rest => (k, v) :: pairs rest
  | _ => []
  end.

(** The loop over the options. *)
Fixpoint parseOptions (fields : list (bytes * bytes)) (seen : gset bytes) (r : readRequest)
    : result protocolError readRequest :=
  match fields with
  | [] => Ok r
  | (k, value) :: rest =>
      let key := ToLower k in
      if beq key [] || beq value [] || bool_decide (key ∈ seen)
      then Err (mkProtocolError 8 (str "invalid or duplicate option"))
      else
        let seen := {[key]} ∪ seen in
        if beq key (str "blksize") then
          match ParseUint value 16 with
          | Some n =>
              if (n <? 8) || (65464 <? n) then Err (mkProtocolError 8 (str "invalid blksize"))
              else
                let size := Z.min n maxBlockSize in
                parseOptions rest seen
                  (mkReadRequest (filename r) size (timeout r) (options r ++ [(key, FormatUint size)]))
          | None => Err (mkProtocolError 8 (str "invalid blksize"))
          end
        else if beq key (str "timeout") then
          match ParseUint value 8 with
          | Some n =>
              if n =? 0 then Err (mkProtocolError 8 (str "invalid timeout"))
              else parseOptions rest seen
                     (mkReadRequest (filename r) (blockSize r) (n * second) (options r ++ [(key, value)]))
          | None => Err (mkProtocolError 8 (str "invalid timeout"))
          end
        else if beq key (str "tsize") then
          match ParseUint value 64 with
          | Some n =>
              if negb (n =? 0) then Err (mkProtocolError 8 (str "read tsize must be zero"))
              else parseOptions rest seen
                     (mkReadRequest (filename r) (blockSize r) (timeout r) (options r ++ [(key, str "0")]))
          | None => Err (mkProtocolError 8 (str "read tsize must be zero"))
          end
        else parseOptions rest seen r
  end.

Definition parseRequest (packet : bytes) : result protocolError readRequest :=
  if (len packet <? 4) || (maxRequestSize <? len packet) || negb (at_ packet (length packet - 1) =? 0)
  then Err (mkProtocolError 4 (str "malformed request"))
  else if negb (opcode packet =? opRead) then Err (mkProtocolError 4 (str "expected read request"))
  else
    let fields := Split (slice 2 (length packet - 1) packet) 0 in
    match fields with
    | name :: mode :: rest =>
        if negb (len fields mod 2 =? 0) then Err (mkProtocolError 4 (str "malformed request fields"))
        else if negb (ValidPath name) || beq name (str ".") || ContainsByte name 92
        then Err (mkProtocolError 2 (str "filename must be a valid relative path"))
        else if negb (EqualFold mode (str "octet"))
        then Err (mkProtocolError 4 (str "only octet mode is supported"))
        else parseOptions (pairs rest) ∅ (mkReadRequest name defaultBlockSize defaultTimeout [])
    | _ => Err (mkProtocolError 4 (str "malformed request fields"))
    end.

(** [optionAck]: [None] is the nil packet. *)
Definition optionAck (r : readRequest) (size : Z) : option bytes :=
  match options r with
  | [] => None
  | os =>
      Some ([0; opOptionAck] ++
            flat_map (fun '(k, v) =>
              k ++ [0] ++ (if beq k (str "tsize") then FormatUint size else v) ++ [0]) os)
  end.

Definition errorPacket (code : Z) (message : bytes) : bytes :=
  be_encode 2 opError ++ be_encode 2 code ++ message ++ [0].

(** ** Transfers *)

Abbreviation AddrPort := (Addr * Z)%type.

(** What a transfer's socket observes; [EvStop] is a cancellation, the overall
    deadline or a failed write. *)
Inductive event :=
| EvPacket (sender : AddrPort) (data : bytes)
| EvTimeout
| EvReadError
| EvStop.

Inductive transfer_error := ErrTerminated | ErrAckTimeout | ErrIO | ErrStopped | ErrFileRead | ErrNoFile | ErrNotRegular.

(** A sent datagram. *)
Definition datagram : Type := AddrPort * bytes.

(** How an exchange ended: with what is left of the script, and what was sent.
    [Waiting] is an exchange whose script ran out. *)
Inductive outcome :=
| Acked (rest : list event)
| Failed (e : transfer_error)
| Waiting.

(** [exchange] once its packet is on the wire, with [attempts] retransmissions
    left: read until the acknowledgement, an error, or the timeout. *)
Fixpoint awaitAck (peer : AddrPort) (packet : bytes) (block : Z) (attempts : nat) (evs : list event)
    : outcome * list datagram :=
  match evs with
  | [] => (Waiting, [])
  | EvReadError :: _ => (Failed ErrIO, [])
  | EvStop :: _ => (Failed ErrStopped, [])
  | EvTimeout :: evs =>
      match attempts with
      | O => (Failed ErrAckTimeout, [])
      | S k => let '(o, sent) := awaitAck peer packet block k evs in (o, (peer, packet) :: sent)
      end
  | EvPacket sender data :: evs =>
      let data := take (Z.to_nat maxRequestSize + 1) data in
      if negb (bool_decide (sender = peer)) then
        let '(o, sent) := awaitAck peer packet block attempts evs in
        if (2 <=? len data) && negb (opcode data =? opError)
        then (o, (sender, errorPacket 5 (str "unknown transfer ID")) :: sent)
        else (o, sent)
      else if (4 <=? len data) && (opcode data =? opError) then (Failed ErrTerminated, [])
      else if (len data =? 4) && (opcode data =? opAck) && (be_decode (drop 2 data) =? block)
      then (Acked evs, [])
      else awaitAck peer packet block attempts evs
  end.

Definition exchange (peer : AddrPort) (packet : bytes) (block : Z) (evs : list event)
    : outcome * list datagram :=
  match evs with
  | EvStop :: _ => (Failed ErrStopped, [])
  | _ => let '(o, sent) := awaitAck peer packet block (maxAttempts - 1) evs in (o, (peer, packet) :: sent)
  end.

(** An open file: its announced size, its bytes, and whether reading past them
    fails rather than ends. *)
Record openFile := mkFile { f_regular : bool; f_size : Z; f_data : bytes; f_broken : bool }.

Definition dataPacket (block : Z) (payload : bytes) : bytes :=
  be_encode 2 opData ++ be_encode 2 block ++ payload.

(** [io.ReadFull] of the next block from the limited reader: the bytes read, or a
    read error. *)
Definition readBlock (f : openFile) (offset size : nat) : option bytes :=
  let avail := take size (take (Z.to_nat (f_size f) - offset) (drop offset (f_data f))) in
  if (length avail <? size)%nat && f_broken f && (offset + length avail <? Z.to_nat (f_size f))%nat then None
  else Some avail.

(** The loop over the blocks; each full block advances the offset, so the number
    of turns is bounded by the size. *)
Fixpoint sendBlocks (fuel : nat) (peer : AddrPort) (f : openFile) (size : nat) (offset : nat) (block : Z)
    (evs : list event) : result transfer_error unit * list datagram :=
  match fuel with
  | O => (Ok tt, [])
  | S k =>
      match evs with
      | EvStop :: _ => (Err ErrStopped, [])
      | _ =>
          match readBlock f offset size with
          | None => (Err ErrFileRead, [(peer, errorPacket 0 (str "file read failed"))])
          | Some payload =>
              match exchange peer (dataPacket block payload) block evs with
              | (Failed e, sent) => (Err e, sent)
              | (Waiting, sent) => (Err ErrStopped, sent)
              | (Acked evs, sent) =>
                  if (length payload <? size)%nat then (Ok tt, sent)
                  else
                    let '(r, more) := sendBlocks k peer f size (offset + size) (u16 (block + 1)) evs in
                    (r, sent ++ more)
              end
          end
      end
  end.

Definition blockFuel (f : openFile) (size : nat) : nat := S (length (f_data f) / size).

(** What opening the requested file gives. *)
Inductive opened := Opened (f : openFile) | NotExist | Unavailable.

Definition transfer (peer : AddrPort) (request : readRequest) (file : opened) (evs : list event)
    : result transfer_error unit * list datagram :=
  match file with
  | NotExist => (Err ErrNoFile, [(peer, errorPacket 1 (str "file unavailable"))])
  | Unavailable => (Err ErrNoFile, [(peer, errorPacket 2 (str "file unavailable"))])
  | Opened f =>
      if negb (f_regular f)
      then (Err ErrNotRegular, [(peer, errorPacket 2 (str "only regular files can be downloaded"))])
      else
        let size := Z.to_nat (blockSize request) in
        let blocks := sendBlocks (blockFuel f size) peer f size 0 1 in
        match optionAck request (f_size f) with
        | None => blocks evs
        | Some packet =>
            match exchange peer packet 0 evs with
            | (Failed e, sent) => (Err e, sent)
            | (Waiting, sent) => (Err ErrStopped, sent)
            | (Acked evs, sent) => let '(r, more) := blocks evs in (r, sent ++ more)
            end
        end
  end.

(** ** Admission *)

Record admission := mkAdmission { active : gset AddrPort; clients : gmap Addr nat }.

Definition clientCount (a : admission) (ip : Addr) : nat := default 0%nat (clients a !! ip).

Inductive verdict := Started | Duplicate | TooMany.

(** The critical section before a transfer starts. *)
Definition admitClient (peer : AddrPort) (a : admission) : verdict * admission :=
  if bool_decide (peer ∈ active a) then (Duplicate, a)
  else if (maxTransfers <=? size (active a))%nat || (maxClientTransfers <=? clientCount a peer.1)%nat
  then (TooMany, a)
  else (Started, mkAdmission ({[peer]} ∪ active a) (<[peer.1 := S (clientCount a peer.1)]> (clients a))).

(** The deferred critical section of a finished transfer. *)
Definition finish (peer : AddrPort) (a : admission) : admission :=
  let n := (clientCount a peer.1 - 1)%nat in
  mkAdmission (active a ∖ {[peer]})
    (if (n =? 0)%nat then delete peer.1 (clients a) else <[peer.1 := n]> (clients a)).

(** One datagram on the request port: the error sent back, or the transfer
    started. *)
Inductive reaction := Ignore | SendError (packet : bytes) | StartTransfer (r : readRequest).

Definition serveRequest (peer : AddrPort) (packet : bytes) (a : admission) : reaction * admission :=
  let packet := take (Z.to_nat maxRequestSize + 1) packet in
  if len packet <? 2 then (Ignore, a)
  else if opcode packet =? opError then (Ignore, a)
  else if opcode packet =? opWrite then (SendError (errorPacket 2 (str "TFTP is read-only")), a)
  else if negb (opcode packet =? opRead) then (SendError (errorPacket 4 (str "expected read request")), a)
  else match parseRequest packet with
       | Err p => (SendError (errorPacket (code p) (message p)), a)
       | Ok request =>
           match admitClient peer a with
           | (Duplicate, a) => (Ignore, a)
           | (TooMany, a) => (SendError (errorPacket 0 (str "too many active transfers; retry later")), a)
           | (Started, a) => (StartTransfer request, a)
           end
       end.

Definition New_tftp (address : bytes) : bool :=
  match ParseAddrPort address with
  | Some (a, _) => unicast4 a
  | None => false
  end.
