(* ===== verification/TftpProps.v ===== *)
(** * Package internal/tftpserver: properties

    Accepted requests are within bounds and cannot escape the file tree; a
    transfer sends the right blocks in order, a bounded number of times each, and
    delivers the file to a client that acknowledges; admission respects its
    limits. *)

From stdpp Require Import gmap list strings.
From Stdlib Require Import ZArith Lia.
From S2P Require Import Prelude GoStrings GoNet GoAddr GoPath Lease Ntp Tftp.

(** ** Reference definitions *)

(** The bytes of a file that are served, cut into blocks: full blocks and one
    shorter last block. *)
Definition contents (f : openFile) : bytes := take (Z.to_nat (f_size f)) (f_data f).

Fixpoint chunks (fuel size : nat) (data : bytes) : list bytes :=
  match fuel with
  | O => []
  | S k => take size data :: (if (length data <? size)%nat then [] else chunks k size (drop size data))
  end.

(** The DATA packets of consecutive blocks, numbered from [block] modulo 2^16. *)
Fixpoint dataPackets (block : Z) (payloads : list bytes) : list bytes :=
  match payloads with
  | [] => []
  | p :: ps => dataPacket block p :: dataPackets (u16 (block + 1)) ps
  end.

(** Acknowledgements of [n] consecutive blocks. *)
Definition ack (block : Z) : bytes := be_encode 2 opAck ++ be_encode 2 block.
Fixpoint acks (peer : AddrPort) (block : Z) (n : nat) : list event :=
  match n with
  | O => []
  | S k => EvPacket peer (ack block) :: acks peer (u16 (block + 1)) k
  end.

(** What is sent to one endpoint. *)
Definition to_peer (peer : AddrPort) (sent : list datagram) : list bytes :=
  map snd (filter (fun d => d.1 = peer) sent).

(** [packets] sent in order, each between one and five times, the last possibly
    not at all. *)
Inductive lockstep (packets : list bytes) : list bytes -> Prop :=
| lockstep_stop : lockstep packets []
| lockstep_last p ps n : packets = p :: ps -> (n <= maxAttempts)%nat -> lockstep packets (replicate n p)
| lockstep_next p ps n sent : packets = p :: ps -> (1 <= n <= maxAttempts)%nat -> lockstep ps sent ->
    lockstep packets (replicate n p ++ sent).

(** The transfers of one client. *)
Definition of_client (ip : Addr) (a : admission) : gset AddrPort :=
  filter (fun p => p.1 = ip) (active a).

Definition admission_wf (a : admission) : Prop :=
  (size (active a) <= maxTransfers)%nat /\
  forall ip, clientCount a ip = size (of_client ip a) /\ (clientCount a ip <= maxClientTransfers)%nat /\
    clients a !! ip <> Some 0%nat.

(** Admissions and completions of admitted transfers. *)
Inductive admission_step : admission -> admission -> Prop :=
| step_admit peer a : admission_step a (admitClient peer a).2
| step_finish peer a : peer ∈ active a -> admission_step a (finish peer a).

(** ** The demonstration transfer *)

Definition peer_demo : AddrPort := (Addr4 (10 * 2 ^ 24 + 9), 2000).
Definition file_demo : openFile := mkFile true 20 (map Z.of_nat (seq 0 20)) false.
Definition rrq_demo : bytes := [0; 1] ++ str "boot/ipxe.efi" ++ [0] ++ str "OCTET" ++ [0] ++ str "blksize" ++ [0] ++ str "8" ++ [0].

(** ** Helper lemmas: requests *)

(** What the option loop keeps true of a request. *)
Definition request_bounds (r : readRequest) : Prop :=
  8 <= blockSize r <= maxBlockSize /\ second <= timeout r <= 255 * second.

Lemma parseOptions_bounds fields seen r r' :
  request_bounds r -> parseOptions fields seen r = Ok r' -> request_bounds r' /\ filename r' = filename r.
Proof.
  revert seen r. induction fields as [|[k v] fields IH]; intros seen r Hr; cbn [parseOptions].
  { intros E. by simplify_eq. }
  destruct (beq (ToLower k) [] || _ || _); [done|].
  destruct (beq (ToLower k) (str "blksize")).
  { destruct (ParseUint v 16) as [n|]; [|done]. destruct ((n <? 8) || _) eqn:Eg; [done|]. bool_hyps.
    intros E. apply IH in E; [exact E|]. destruct Hr. split; [|done]. cbn [blockSize]. unfold maxBlockSize. lia. }
  destruct (beq (ToLower k) (str "timeout")).
  { destruct (ParseUint v 8) as [n|] eqn:Ep; [|done]. destruct (Z.eqb_spec n 0); [done|].
    intros E. apply IH in E; [exact E|]. destruct Hr. split; [done|]. cbn [timeout].
    apply ParseUint_range in Ep. unfold second. lia. }
  destruct (beq (ToLower k) (str "tsize")); [|by apply IH].
  destruct (ParseUint v 64) as [n|]; [|done]. destruct (negb (n =? 0)); [done|].
  intros E. apply IH in E; [exact E|done].
Qed.

(** ** Helper lemmas: exchanges *)

Lemma to_peer_app peer a b : to_peer peer (a ++ b) = to_peer peer a ++ to_peer peer b.
Proof. unfold to_peer. by rewrite filter_app, map_app. Qed.

Lemma to_peer_self peer packet sent : to_peer peer ((peer, packet) :: sent) = packet :: to_peer peer sent.
Proof. unfold to_peer. rewrite filter_cons_True by done. done. Qed.

Lemma to_peer_other peer sender packet sent :
  sender <> peer -> to_peer peer ((sender, packet) :: sent) = to_peer peer sent.
Proof. intros Hne. unfold to_peer. by rewrite filter_cons_False by done. Qed.

Lemma awaitAck_sends peer packet block attempts evs o sent :
  awaitAck peer packet block attempts evs = (o, sent) ->
  exists n, (n <= attempts)%nat /\ to_peer peer sent = replicate n packet.
Proof.
  revert attempts o sent. induction evs as [|ev evs IH]; intros attempts o sent; cbn [awaitAck].
  { intros E. simplify_eq. exists 0%nat. split; [lia|done]. }
  destruct ev as [sender data| | |]; try (intros E; simplify_eq; exists 0%nat; split; [lia|done]).
  - set (data' := take _ data). destruct (bool_decide_reflect (sender = peer)) as [->|Hne]; cbn [negb].
    + destruct ((4 <=? len data') && _); [intros E; simplify_eq; exists 0%nat; split; [lia|done]|].
      destruct ((len data' =? 4) && _ && _); [intros E; simplify_eq; exists 0%nat; split; [lia|done]|]. apply IH.
    + destruct (awaitAck peer packet block attempts evs) as [o1 sent1] eqn:Er.
      destruct (IH _ _ _ Er) as (n & Hn & Hs).
      destruct ((2 <=? len data') && _); intros E; simplify_eq; exists n; split; try done.
      by rewrite to_peer_other.
  - destruct attempts as [|k]; [intros E; simplify_eq; exists 0%nat; split; [lia|done]|].
    destruct (awaitAck peer packet block k evs) as [o1 sent1] eqn:Er. intros E. simplify_eq.
    destruct (IH _ _ _ Er) as (n & Hn & Hs). exists (S n). split; [lia|]. by rewrite to_peer_self, Hs.
Qed.

Lemma exchange_sends peer packet block evs o sent :
  exchange peer packet block evs = (o, sent) ->
  exists n, (n <= maxAttempts)%nat /\ to_peer peer sent = replicate n packet /\
    (forall rest, o = Acked rest -> (1 <= n)%nat).
Proof.
  intros E. assert (Hgo : (let '(o, sent) := awaitAck peer packet block (maxAttempts - 1) evs in
    (o, (peer, packet) :: sent)) = (o, sent) \/ (o = Failed ErrStopped /\ sent = [])).
  { destruct evs as [|[] evs]; auto. right. cbn in E. by simplify_eq. }
  destruct Hgo as [Hgo|[-> ->]]; [|exists 0%nat; split; [lia|done]].
  destruct (awaitAck _ _ _ _ _) as [o1 sent1] eqn:Ea. simplify_eq.
  destruct (awaitAck_sends _ _ _ _ _ _ _ Ea) as (n & Hn & Hs). exists (S n).
  rewrite to_peer_self, Hs. split; [unfold maxAttempts in *; lia|]. split; [done|]. lia.
Qed.

Lemma exchange_acked peer packet block evs :
  0 <= block < 2 ^ 16 ->
  exchange peer packet block (EvPacket peer (ack block) :: evs) = (Acked evs, [(peer, packet)]).
Proof.
  intros Hb. unfold exchange. cbn [awaitAck]. rewrite bool_decide_eq_true_2 by done. cbn [negb].
  set (data := take _ (ack block)).
  assert (Hd : data = be_encode 2 opAck ++ be_encode 2 block) by done.
  assert (Hop : opcode data = opAck).
  { unfold opcode. rewrite Hd, take_app_length' by by rewrite length_be_encode. by rewrite be_decode_encode. }
  assert (Hlen : len data = 4) by (unfold len; rewrite Hd, length_app, !length_be_encode; done).
  assert (Hbl : be_decode (drop 2 data) = block).
  { rewrite Hd, drop_app_length' by by rewrite length_be_encode. rewrite be_decode_encode. by apply Z.mod_small. }
  rewrite Hop, Hlen, Hbl, !Z.eqb_refl. change (opAck =? opError) with false. by rewrite andb_false_r.
Qed.

(** ** Helper lemmas: blocks *)

Lemma readBlock_data f offset size p :
  readBlock f offset size = Some p -> p = take size (drop offset (contents f)).
Proof.
  unfold readBlock, contents. cbv zeta. rewrite skipn_firstn_comm. destruct (_ && _ && _); [done|]. by intros [= <-].
Qed.

Lemma readBlock_whole f offset size :
  f_broken f = false -> readBlock f offset size = Some (take size (drop offset (contents f))).
Proof.
  intros Hb. unfold readBlock, contents. cbv zeta. by rewrite Hb, andb_false_r, skipn_firstn_comm.
Qed.

Lemma chunks_step k size data :
  (size <= length data)%nat -> chunks (S k) size data = take size data :: chunks k size (drop size data).
Proof. intros Hl. cbn [chunks]. destruct (Nat.ltb_spec (length data) size); [lia|done]. Qed.

(** Any script: the peer gets blocks in order, in lock step. *)
Lemma sendBlocks_lockstep fuel peer f size offset block evs r sent :
  (0 < size)%nat ->
  sendBlocks fuel peer f size offset block evs = (r, sent) ->
  exists sent' last, to_peer peer sent = sent' ++ last /\
    lockstep (dataPackets block (chunks fuel size (drop offset (contents f)))) sent' /\
    (last = [] \/ last = [errorPacket 0 (str "file read failed")]).
Proof.
  intros Hs. revert offset block evs r sent. induction fuel as [|k IH]; intros offset block evs r sent; cbn [sendBlocks].
  { intros E. simplify_eq. exists [], []. split_and!; [done|constructor|by left]. }
  set (run := match readBlock f offset size with Some _ => _ | None => _ end).
  intros E. assert (Hrun : run = (r, sent) \/ sent = []) by (destruct evs as [|[] evs]; auto; right; by simplify_eq).
  clear E. destruct Hrun as [Hrun| ->]; [|exists [], []; split_and!; [done|constructor|by left]]. subst run.
  destruct (readBlock f offset size) as [p|] eqn:Ep.
  2:{ simplify_eq. exists [], [errorPacket 0 (str "file read failed")]. rewrite to_peer_self.
      split_and!; [done|constructor|by right]. }
  apply readBlock_data in Ep. set (data := drop offset (contents f)) in *.
  destruct (exchange peer (dataPacket block p) block evs) as [o sent1] eqn:Ex.
  destruct (exchange_sends _ _ _ _ _ _ Ex) as (n & Hn & Hsent & Hack).
  assert (Hhead : exists ps, dataPackets block (chunks (S k) size data) = dataPacket block p :: ps)
    by (cbn [chunks dataPackets]; rewrite Ep; eauto).
  destruct Hhead as [ps Hhead].
  assert (Hone : forall x, x = sent1 -> exists sent' last, to_peer peer x = sent' ++ last /\
    lockstep (dataPackets block (chunks (S k) size data)) sent' /\
    (last = [] \/ last = [errorPacket 0 (str "file read failed")])).
  { intros x ->. exists (replicate n (dataPacket block p)), []. rewrite app_nil_r.
    split_and!; [done|by eapply lockstep_last|by left]. }
  destruct o as [evs'|e|]; [|simplify_eq; by apply Hone..].
  destruct (Nat.ltb_spec (length p) size) as [Hsh|Hfull]; [simplify_eq; by apply Hone|].
  destruct (sendBlocks k peer f size (offset + size) (u16 (block + 1)) evs') as [r' more] eqn:Em. simplify_eq.
  destruct (IH _ _ _ _ _ Em) as (sent' & last & E1 & E2 & E3).
  exists (replicate n (dataPacket block (take size data)) ++ sent'), last.
  rewrite to_peer_app, Hsent, E1, app_assoc. split; [done|]. split; [|done].
  rewrite length_take in Hfull. rewrite chunks_step by lia. cbn [dataPackets].
  eapply lockstep_next; [done|split; [by eapply Hack|done]|].
  subst data. by rewrite drop_drop.
Qed.

(** A client that acknowledges gets every block once. *)
Lemma sendBlocks_delivers fuel peer f size offset block rest :
  (0 < size)%nat -> f_broken f = false -> 0 <= block < 2 ^ 16 ->
  (length (drop offset (contents f)) < fuel * size)%nat ->
  sendBlocks fuel peer f size offset block
    (acks peer block (length (chunks fuel size (drop offset (contents f)))) ++ rest)
  = (Ok tt, map (fun p => (peer, p)) (dataPackets block (chunks fuel size (drop offset (contents f))))).
Proof.
  intros Hs Hb. revert offset block. induction fuel as [|k IH]; intros offset block Hbl Hf; [lia|].
  set (data := drop offset (contents f)) in *. cbn [chunks length acks app].
  cbn [sendBlocks]. rewrite readBlock_whole by done. fold data. rewrite exchange_acked by done.
  rewrite length_take. destruct (Nat.ltb_spec (length data) size) as [Hl|Hl].
  - destruct (Nat.ltb_spec (Nat.min size (length data)) size); [|lia]. reflexivity.
  - destruct (Nat.ltb_spec (Nat.min size (length data)) size); [lia|].
    assert (Hd : drop size data = drop (offset + size) (contents f)) by (subst data; by rewrite drop_drop).
    rewrite Hd. rewrite IH; [|apply Z.mod_pos_bound; done|rewrite <- Hd, length_drop; lia].
    reflexivity.
Qed.

Lemma chunks_concat fuel size data :
  (0 < size)%nat -> (length data < fuel * size)%nat ->
  concat (chunks fuel size data) = data /\
  exists init last, chunks fuel size data = init ++ [last] /\ (length last < size)%nat /\
    Forall (fun c => length c = size) init.
Proof.
  intros Hs. revert data. induction fuel as [|k IH]; intros data Hf; [lia|]. cbn [chunks].
  destruct (Nat.ltb_spec (length data) size) as [Hl|Hl].
  - rewrite take_ge by lia. split; [apply app_nil_r|]. exists [], data. auto.
  - destruct (IH (drop size data)) as [Hc (init & last & E & Hlast & Hi)]; [rewrite length_drop; lia|].
    rewrite E in Hc |- *. split; [cbn [concat]; rewrite Hc; apply take_drop|].
    exists (take size data :: init), last. split_and!; [done|done|]. constructor; [rewrite length_take; lia|done].
Qed.

Lemma contents_length f : (length (contents f) <= length (f_data f))%nat.
Proof. unfold contents. rewrite length_take. lia. Qed.

Lemma blockFuel_enough f size :
  (0 < size)%nat -> (length (contents f) < blockFuel f size * size)%nat.
Proof.
  intros Hs. pose proof (contents_length f). unfold blockFuel.
  pose proof (Nat.mul_succ_div_gt (length (f_data f)) size ltac:(lia)). lia.
Qed.

(** ** Helper lemmas: admission *)

Lemma of_client_add peer a cs ip :
  peer ∉ active a ->
  size (of_client ip (mkAdmission ({[peer]} ∪ active a) cs))
  = (size (of_client ip a) + if decide (peer.1 = ip) then 1 else 0)%nat.
Proof.
  intros Hp. unfold of_client. cbn [active].
  rewrite filter_union_L, (filter_singleton_L (C:=gset AddrPort) (fun p : AddrPort => p.1 = ip)).
  destruct (decide (peer.1 = ip)) as [E|E].
  - rewrite size_union, size_singleton; [lia|].
    intros x Hx%elem_of_singleton Hy. subst x. apply elem_of_filter in Hy as [_ Hy]. done.
  - rewrite (left_id_L ∅ (∪)). lia.
  - apply _.
Qed.

Lemma of_client_remove peer a cs ip :
  peer ∈ active a ->
  size (of_client ip (mkAdmission (active a ∖ {[peer]}) cs))
  = (size (of_client ip a) - if decide (peer.1 = ip) then 1 else 0)%nat.
Proof.
  intros Hp. assert (Hsplit : active a = {[peer]} ∪ active a ∖ {[peer]}).
  { apply union_difference_L. set_solver. }
  assert (Hn : peer ∉ active (mkAdmission (active a ∖ {[peer]}) cs)) by (cbn [active]; set_solver).
  pose proof (of_client_add peer (mkAdmission (active a ∖ {[peer]}) cs) cs ip Hn) as H.
  cbn [active] in H. rewrite <- Hsplit in H.
  assert (E : of_client ip (mkAdmission (active a) cs) = of_client ip a) by done.
  rewrite E in H. lia.
Qed.

Lemma clientCount_insert a s ip n ip' :
  clientCount (mkAdmission s (<[ip := n]> (clients a))) ip' = if decide (ip = ip') then n else clientCount a ip'.
Proof.
  unfold clientCount. cbn [clients]. destruct (decide (ip = ip')) as [<-|Hne];
    [by rewrite lookup_insert_eq|by rewrite lookup_insert_ne].
Qed.

Lemma admit_wf peer a : admission_wf a -> admission_wf (admitClient peer a).2.
Proof.
  intros [Hsize Hc]. unfold admitClient. destruct (bool_decide_reflect (peer ∈ active a)) as [|Hp]; [done|].
  destruct ((_ <=? _)%nat || _) eqn:Eg; [done|]. apply orb_false_iff in Eg as [Eg1%Nat.leb_gt Eg2%Nat.leb_gt].
  cbn [snd]. split.
  - cbn [active]. rewrite size_union, size_singleton by set_solver. lia.
  - intros ip. destruct (Hc ip) as (H1 & H2 & H3). rewrite clientCount_insert, of_client_add by done.
    destruct (decide (peer.1 = ip)) as [<-|Hne]; split_and!; try lia.
    + cbn [clients]. by rewrite lookup_insert_eq.
    + cbn [clients]. by rewrite lookup_insert_ne.
Qed.

Lemma finish_wf peer a : admission_wf a -> peer ∈ active a -> admission_wf (finish peer a).
Proof.
  intros [Hsize Hc] Hp. unfold finish. split.
  - cbn [active]. rewrite size_difference, size_singleton by set_solver. lia.
  - intros ip. destruct (Hc ip) as (H1 & H2 & H3). rewrite of_client_remove by done.
    destruct (Nat.eqb_spec (clientCount a peer.1 - 1) 0) as [En|En].
    + destruct (decide (peer.1 = ip)) as [<-|Hne].
      * unfold clientCount at 1 2. cbn [clients]. rewrite lookup_delete_eq. cbn [default]. split_and!; [lia|lia|done].
      * unfold clientCount at 1 2. cbn [clients]. rewrite lookup_delete_ne by done.
        fold (clientCount a ip). split_and!; [lia|lia|done].
    + rewrite clientCount_insert. destruct (decide (peer.1 = ip)) as [<-|Hne]; split_and!; try lia.
      * cbn [clients]. rewrite lookup_insert_eq. congruence.
      * cbn [clients]. by rewrite lookup_insert_ne.
Qed.

Lemma admission_wf_empty : admission_wf (mkAdmission ∅ ∅).
Proof.
  split; [vm_compute; lia|]. intros ip. unfold clientCount, of_client. cbn [active clients].
  rewrite lookup_empty, filter_empty_L, size_empty. cbn [default]. split_and!; [done|vm_compute; lia|done].
  Unshelve. all: apply _.
Qed.

(** ** Properties *)

(** C33: A client that acknowledges what it receives gets the whole file: the
    negotiated options if any, then its bytes in consecutive blocks, each of the
    agreed size but the last, which is shorter and ends the transfer. *)
Theorem transfer_delivers peer request f rest :
  0 < blockSize request -> f_regular f = true -> f_broken f = false ->
  let size := Z.to_nat (blockSize request) in
  let blocks := chunks (blockFuel f size) size (contents f) in
  let data := map (fun p => (peer, p)) (dataPackets 1 blocks) in
  transfer peer request (Opened f)
    ((match optionAck request (f_size f) with Some _ => [EvPacket peer (ack 0)] | None => [] end)
     ++ acks peer 1 (length blocks) ++ rest)
  = (Ok tt, (match optionAck request (f_size f) with Some packet => [(peer, packet)] | None => [] end) ++ data) /\
  concat blocks = contents f /\
  exists init last, blocks = init ++ [last] /\ (length last < size)%nat /\ Forall (fun c => length c = size) init.
Proof.
  intros Hb Hr Hbr size blocks data. assert (Hs : (0 < size)%nat) by (unfold size; lia).
  pose proof (blockFuel_enough f size Hs) as Hf.
  pose proof (chunks_concat (blockFuel f size) size (contents f) Hs Hf) as [Hc Hl].
  split; [|split; [exact Hc|exact Hl]]. unfold transfer. rewrite Hr. cbn [negb]. fold size.
  pose proof (sendBlocks_delivers (blockFuel f size) peer f size 0 1 rest Hs Hbr ltac:(lia)) as Hd.
  rewrite drop_0 in Hd. specialize (Hd Hf). fold blocks in Hd.
  destruct (optionAck request (f_size f)) as [packet|]; cbn [app].
  - rewrite exchange_acked by lia. rewrite Hd. done.
  - exact Hd.
Qed.

Lemma transfer_delivers_witness :
  let request := mkReadRequest (str "x") 8 second [] in
  concat (chunks (blockFuel file_demo 8) 8 (contents file_demo)) = map Z.of_nat (seq 0 20) /\
  (transfer peer_demo request (Opened file_demo) (acks peer_demo 1 3 ++ [])).1 = Ok tt.
Proof.
  pose proof (transfer_delivers peer_demo (mkReadRequest (str "x") 8 second []) file_demo []
    ltac:(done) ltac:(reflexivity) ltac:(reflexivity)) as (H1 & H2 & _).
  split; [exact H2|]. exact (f_equal fst H1).
Defined.

(** Whatever arrives, a transfer sends its peer the file's blocks in order,
    going on only after an acknowledgement, and each packet at most five times:
    duplicate or stale acknowledgements never cause a retransmission.  Only a
    file error may end the sequence with an error packet. *)
Theorem transfer_lockstep fuel peer f size evs r sent :
  (0 < size)%nat -> sendBlocks fuel peer f size 0 1 evs = (r, sent) ->
  exists sent' last, to_peer peer sent = sent' ++ last /\
    lockstep (dataPackets 1 (chunks fuel size (contents f))) sent' /\
    (last = [] \/ last = [errorPacket 0 (str "file read failed")]).
Proof. intros Hs E. apply sendBlocks_lockstep in E; [|done]. by rewrite drop_0 in E. Qed.

Lemma transfer_lockstep_witness :
  exists sent' last,
    to_peer peer_demo (sendBlocks 3 peer_demo file_demo 8 0 1
      [EvTimeout; EvPacket peer_demo (ack 1); EvPacket peer_demo (ack 1)]).2 = sent' ++ last /\
    lockstep (dataPackets 1 (chunks 3 8 (contents file_demo))) sent'.
Proof.
  destruct (sendBlocks 3 peer_demo file_demo 8 0 1 [EvTimeout; EvPacket peer_demo (ack 1); EvPacket peer_demo (ack 1)])
    as [r sent] eqn:E.
  destruct (transfer_lockstep 3 peer_demo file_demo 8 _ r sent ltac:(lia) E) as (sent' & last & H1 & H2 & _).
  exists sent', last. split; [exact H1|exact H2].
Defined.

(** Admission keeps its limits over any sequence of admissions and
    completions: at most 64 transfers, at most four per client, and the count kept
    for each client is exactly the number of its active transfers, with no entry
    kept for a client that has none. *)
Theorem admission_limits a :
  rtc admission_step (mkAdmission ∅ ∅) a ->
  (size (active a) <= maxTransfers)%nat /\
  forall ip, clientCount a ip = size (of_client ip a) /\ (clientCount a ip <= maxClientTransfers)%nat /\
    clients a !! ip <> Some 0%nat.
Proof.
  intros Hs. assert (Hgo : forall x y, rtc admission_step x y -> admission_wf x -> admission_wf y).
  { induction 1 as [|x y z H _ IH]; [done|]. intros Hx. apply IH.
    destruct H; [by apply admit_wf|by apply finish_wf]. }
  exact (Hgo _ _ Hs admission_wf_empty).
Qed.

Lemma admission_limits_witness :
  clientCount (admitClient peer_demo (mkAdmission ∅ ∅)).2 peer_demo.1 = 1%nat /\
  (clientCount (admitClient peer_demo (mkAdmission ∅ ∅)).2 peer_demo.1 <= maxClientTransfers)%nat.
Proof.
  split; [vm_compute; reflexivity|].
  apply (admission_limits (admitClient peer_demo (mkAdmission ∅ ∅)).2). apply rtc_once, step_admit.
Defined.

(** An accepted request names a file by a relative path without empty, "." or
    ".." elements and without backslashes, asks for blocks between 8 and 1468
    bytes, and waits between one and 255 seconds. *)
Theorem parseRequest_safe packet r :
  parseRequest packet = Ok r ->
  8 <= blockSize r <= maxBlockSize /\ second <= timeout r <= 255 * second /\
  92 ∉ filename r /\
  forall elem, elem ∈ Split (filename r) 47 -> elem <> [] /\ elem <> str "." /\ elem <> str "..".
Proof.
  unfold parseRequest. destruct (_ || _ || _); [done|]. destruct (negb _); [done|]. cbv zeta.
  destruct (Split _ 0) as [|name [|mode rest]]; try done.
  destruct (negb (_ mod 2 =? 0)); [done|].
  destruct (negb (ValidPath name) || beq name (str ".") || ContainsByte name 92) eqn:En; [done|].
  destruct (negb (EqualFold _ _)); [done|]. intros E.
  apply parseOptions_bounds in E as [[Hb Ht] Hf]; [|split; cbn; unfold defaultBlockSize, maxBlockSize, defaultTimeout, second; lia].
  cbn [filename] in Hf. rewrite Hf. split; [done|]. split; [done|].
  apply orb_false_iff in En as [[Hv%negb_false_iff Hd]%orb_false_iff Hbs]. split.
  - intros Hin. apply ContainsByte_spec in Hin. congruence.
  - unfold ValidPath in Hv. apply andb_true_iff in Hv as [_ Hv]. change dot with (str ".") in Hv. rewrite Hd in Hv. cbn [orb] in Hv.
    rewrite forallb_forall in Hv. intros elem Hin. apply list_elem_of_In, Hv in Hin.
    apply negb_true_iff, orb_false_iff in Hin as [[?%beq_false ?%beq_false]%orb_false_iff ?%beq_false]. done.
Qed.

Lemma parseRequest_safe_witness :
  exists r, parseRequest rrq_demo = Ok r /\ filename r = str "boot/ipxe.efi" /\ 8 <= blockSize r <= maxBlockSize.
Proof.
  destruct (parseRequest rrq_demo) as [r|] eqn:E; [|exfalso; vm_compute in E; discriminate E].
  exists r. split; [reflexivity|]. split.
  - vm_compute in E. injection E as <-. vm_compute. reflexivity.
  - exact (proj1 (parseRequest_safe rrq_demo r E)).
Defined.
