(* ===== verification/TftpServe.v ===== *)
(** * Package internal/tftpserver: Run and Serve

    One goroutine reads requests; each transfer it starts is a worker with a
    socket and a context of its own, which ends with the server's context or with
    the time limit of a transfer. *)

From stdpp Require Import gmap list strings.
From Stdlib Require Import ZArith Lia.
From S2P Require Import Prelude GoStrings GoNet GoSync NtpServe Tftp TftpProps.

Inductive tftp_pc :=
| TftpResolve
| TftpListen
| TftpLocal (local : bytes)
| TftpRead
| TftpReadFailed
| TftpGot (packet : bytes) (peer : AddrPort)
| TftpSend (packet : bytes) (peer : AddrPort)
| TftpCancel (r : exit)
| TftpStop (r : exit)
| TftpWait (r : exit)
| TftpWorkers (r : exit)
| TftpClose (r : exit)
| TftpReturned (r : exit).

(** A worker: [transfer] opens its socket, exchanges packets, and closes it; the
    deferred critical section ends it. *)
Inductive transfer_pc := TrListen | TrExchange | TrStop | TrWait | TrClose | TrFinish.

Record transfer_state := mkTransfer { tr_pc : transfer_pc; tr_sock : owned }.

Record tftp_state := mkTftp {
  tv_pc : tftp_pc;
  tv_sock : owned;
  tv_admission : admission;
  tv_workers : gmap AddrPort transfer_state;
  tv_sent : list datagram
}.

Inductive tftp_label :=
| TftpRecv (packet : bytes) (peer : AddrPort)
| TftpTimeout (peer : AddrPort)
| TftpEnd (peer : AddrPort)
| TftpListened (local : bytes)
| TftpGo
| TftpHook
| TftpWorker (peer : AddrPort)
| TftpWorkerHook (peer : AddrPort)
| TftpFault
| TftpWorkerFault (peer : AddrPort).

Definition tftp_go (s : tftp_state) (pc : tftp_pc) : option tftp_state :=
  Some (mkTftp pc (tv_sock s) (tv_admission s) (tv_workers s) (tv_sent s)).
Definition tftp_own (s : tftp_state) (pc : tftp_pc) (o : owned) : option tftp_state :=
  Some (mkTftp pc o (tv_admission s) (tv_workers s) (tv_sent s)).
Definition tftp_worker (s : tftp_state) (peer : AddrPort) (pc : transfer_pc) (o : owned) : option tftp_state :=
  Some (mkTftp (tv_pc s) (tv_sock s) (tv_admission s) (<[peer := mkTransfer pc o]> (tv_workers s)) (tv_sent s)).

(** Cancelling the context of [Serve] cancels those derived from it. *)
Definition cancel_transfer (t : transfer_state) : transfer_state := mkTransfer (tr_pc t) (own_cancel (tr_sock t)).
Definition tftp_cancel (s : tftp_state) : tftp_state :=
  mkTftp (tv_pc s) (own_cancel (tv_sock s)) (tv_admission s) (cancel_transfer <$> tv_workers s) (tv_sent s).

(** [sendError]: nothing is sent from a closed socket, and nobody is told. *)
Definition sendError (o : owned) (peer : AddrPort) (packet : bytes) (sent : list datagram) : list datagram :=
  if ow_open o then sent ++ [(peer, packet)] else sent.

(** The goroutine of [Run], which continues into [Serve]. *)
Definition Serve_tftp (s : tftp_state) : option tftp_state :=
  let o := tv_sock s in
  match tv_pc s with
  | TftpResolve => tftp_go s TftpListen
  | TftpLocal local =>
      tftp_go s (if specificIPv4 local then TftpRead
                 else TftpCancel (Err (str "TFTP listener must bind a specific IPv4 address")))
  | TftpRead => if ow_open o then None else tftp_go s TftpReadFailed
  | TftpReadFailed => tftp_go s (TftpCancel (unlessCancelled o (str "read TFTP request")))
  | TftpGot packet peer =>
      if ow_cancelled o then tftp_go s (TftpCancel (Ok tt))
      else match serveRequest peer packet (tv_admission s) with
           | (Ignore, a) => Some (mkTftp TftpRead o a (tv_workers s) (tv_sent s))
           | (SendError p, a) => Some (mkTftp (TftpSend p peer) o a (tv_workers s) (tv_sent s))
           | (StartTransfer _, a) =>
               Some (mkTftp TftpRead o a (<[peer := mkTransfer TrListen (mkOwned (ow_cancelled o) HNone false)]> (tv_workers s))
                       (tv_sent s))
           end
  | TftpSend packet peer =>
      Some (mkTftp TftpRead o (tv_admission s) (tv_workers s) (sendError o peer packet (tv_sent s)))
  | TftpCancel r =>
      let s := tftp_cancel s in Some (mkTftp (TftpStop r) (tv_sock s) (tv_admission s) (tv_workers s) (tv_sent s))
  | TftpStop r => let '(stopped, o) := own_stop o in tftp_own s (if stopped then TftpWorkers r else TftpWait r) o
  | TftpWait r => if own_waited o then tftp_go s (TftpWorkers r) else None
  | TftpWorkers r => if bool_decide (tv_workers s = ∅) then tftp_go s (TftpClose r) else None
  | TftpClose r => tftp_own s (TftpReturned r) (own_close o)
  | TftpListen | TftpReturned _ => None
  end.

(** A worker.  A transfer whose socket is closed ends with its next read or
    write. *)
Definition transfer_step (peer : AddrPort) (s : tftp_state) : option tftp_state :=
  match tv_workers s !! peer with
  | None => None
  | Some t =>
      let o := tr_sock t in
      match tr_pc t with
      | TrListen => tftp_worker s peer TrExchange (own_opened o)
      | TrExchange => if ow_open o then None else tftp_worker s peer TrStop o
      | TrStop => let '(stopped, o) := own_stop o in tftp_worker s peer (if stopped then TrClose else TrWait) o
      | TrWait => if own_waited o then tftp_worker s peer TrClose o else None
      | TrClose => tftp_worker s peer TrFinish (own_close o)
      | TrFinish =>
          Some (mkTftp (tv_pc s) (tv_sock s) (finish peer (tv_admission s)) (delete peer (tv_workers s)) (tv_sent s))
      end
  end.

Definition Run_tftp (l : tftp_label) (s : tftp_state) : option tftp_state :=
  match l with
  | TftpGo => Serve_tftp s
  | TftpListened local =>
      match tv_pc s with TftpListen => tftp_own s (TftpLocal local) (own_opened (tv_sock s)) | _ => None end
  | TftpRecv packet peer =>
      match tv_pc s with
      | TftpRead => if ow_open (tv_sock s) then tftp_go s (TftpGot packet peer) else None
      | _ => None
      end
  | TftpHook => match own_hook (tv_sock s) with Some o => tftp_own s (tv_pc s) o | None => None end
  | TftpWorker peer => transfer_step peer s
  | TftpWorkerHook peer =>
      match tv_workers s !! peer with
      | Some t => match own_hook (tr_sock t) with Some o => tftp_worker s peer (tr_pc t) o | None => None end
      | None => None
      end
  | TftpTimeout peer =>
      match tv_workers s !! peer with
      | Some t => tftp_worker s peer (tr_pc t) (own_cancel (tr_sock t))
      | None => None
      end
  | TftpEnd peer =>
      match tv_workers s !! peer with
      | Some (mkTransfer TrExchange o) => tftp_worker s peer TrStop o
      | _ => None
      end
  | TftpFault =>
      match tv_pc s with
      | TftpResolve => tftp_go s (TftpReturned (Err (str "resolve TFTP listener")))
      | TftpListen => tftp_go s (TftpReturned (Err (str "listen for TFTP")))
      | TftpRead => if ow_open (tv_sock s) then tftp_go s TftpReadFailed else None
      | TftpSend _ _ => tftp_go s TftpRead
      | _ => None
      end
  | TftpWorkerFault peer =>
      match tv_workers s !! peer with
      | Some (mkTransfer TrListen o) => tftp_worker s peer TrFinish o
      | _ => None
      end
  end.

Definition tftp_machine : machine := {|
  mc_state := tftp_state;
  mc_label := tftp_label;
  mc_init := mkTftp TftpResolve own_init (mkAdmission ∅ ∅) ∅ [];
  mc_step := Run_tftp;
  mc_cancel := tftp_cancel;
  mc_cancelled s := ow_cancelled (tv_sock s);
  mc_arrives l := match l with TftpRecv _ _ | TftpTimeout _ => true | _ => false end;
  mc_own l := match l with TftpListened _ | TftpGo | TftpHook | TftpWorker _ | TftpWorkerHook _ => true | _ => false end;
  mc_fault l := match l with TftpFault => true | TftpListened local => negb (specificIPv4 local) | _ => false end;
  mc_returned s := match tv_pc s with TftpReturned r => Some r | _ => None end;
  mc_released s := negb (ow_open (tv_sock s)) && bool_decide (tv_workers s = ∅) && bool_decide (active (tv_admission s) = ∅)
|}.

(** ** Facts *)

Definition tftp_phase (pc : tftp_pc) : phase :=
  match pc with
  | TftpResolve | TftpListen => Before
  | TftpWait _ => GoSync.Waiting
  | TftpWorkers _ | TftpClose _ => Closing
  | TftpReturned _ => Over
  | _ => Serving
  end.

Definition transfer_phase (pc : transfer_pc) : phase :=
  match pc with
  | TrListen => Before
  | TrExchange | TrStop => Serving
  | TrWait => GoSync.Waiting
  | TrClose => Closing
  | TrFinish => Over
  end.

(** One case for each step that is enabled. *)
Ltac tftp_cases E :=
  cbn [mc_step tftp_machine] in E;
  match type of E with Run_tftp ?l _ = _ => destruct l end; unfold Run_tftp, Serve_tftp, transfer_step in E;
  step_cases E; unfold tftp_go, tftp_own, tftp_worker, tftp_cancel in *;
  repeat match goal with H : Some _ = Some _ |- _ => injection H as H; subst end;
  cbn [tv_pc tv_sock tv_admission tv_workers tv_sent tr_pc tr_sock] in *.

(** Every transfer of the admission has its worker; each worker is as far as its
    socket; and what is cancelled is cancelled below. *)
Record tftp_inv (s : tftp_state) : Prop := {
  tf_phase : phase_hook (tftp_phase (tv_pc s)) (tv_sock s) = true;
  tf_workers peer t : tv_workers s !! peer = Some t ->
    phase_hook (transfer_phase (tr_pc t)) (tr_sock t) = true /\
    (ow_cancelled (tv_sock s) = true -> ow_cancelled (tr_sock t) = true);
  tf_active peer : peer ∈ active (tv_admission s) <-> is_Some (tv_workers s !! peer);
  tf_admission : admission_wf (tv_admission s);
  tf_idle : match tv_pc s with
            | TftpResolve | TftpListen | TftpClose _ | TftpReturned _ => tv_workers s = ∅
            | _ => True
            end;
  tf_exit : match tv_pc s with
            | TftpCancel r | TftpReturned r => exit_reason (tv_sock s) r
            | TftpStop r | TftpWait r | TftpWorkers r | TftpClose r => ow_cancelled (tv_sock s) = true
            | _ => True
            end
}.

Lemma serveRequest_admission peer packet a r a' :
  serveRequest peer packet a = (r, a') -> admission_wf a ->
  admission_wf a' /\
  match r with
  | StartTransfer _ => peer ∉ active a /\ active a' = {[peer]} ∪ active a
  | _ => a' = a
  end.
Proof.
  intros E Hw. pose proof (admit_wf peer a Hw) as Ha. unfold serveRequest in E. cbv zeta in E.
  repeat match type of E with context [if ?b then _ else _] => destruct b; [by simplify_eq|] end.
  destruct (parseRequest _) as [q|p]; [|by simplify_eq]. unfold admitClient in *.
  destruct (bool_decide_reflect (peer ∈ active a)); [by simplify_eq|].
  destruct (_ || _); simplify_eq; [by split|]. split; [done|]. by split.
Qed.

Lemma finish_active peer a : active (finish peer a) = active a ∖ {[peer]}.
Proof. done. Qed.

Lemma tftp_main_step l s s' :
  tftp_inv s -> Run_tftp l s = Some s' ->
  phase_hook (tftp_phase (tv_pc s')) (tv_sock s') = true /\
  match tv_pc s' with
  | TftpCancel r | TftpReturned r => exit_reason (tv_sock s') r
  | TftpStop r | TftpWait r | TftpWorkers r | TftpClose r => ow_cancelled (tv_sock s') = true
  | _ => True
  end.
Proof.
  intros [Hp _ _ _ _ He] E. tftp_cases E; cbn [tftp_phase] in *; (split; [eauto with own|eauto with own]); own_facts; try congruence; try done.
  destruct (tv_pc s); try done; try congruence; destruct r; cbn in *; congruence.
Qed.

Lemma tftp_worker_step l s s' peer t :
  tftp_inv s -> Run_tftp l s = Some s' -> tv_workers s' !! peer = Some t ->
  phase_hook (transfer_phase (tr_pc t)) (tr_sock t) = true /\
  (ow_cancelled (tv_sock s') = true -> ow_cancelled (tr_sock t) = true).
Proof.
  intros [_ Hw _ _ Hi _] E. tftp_cases E; rewrite ?lookup_insert_Some, ?lookup_delete_Some, ?lookup_fmap_Some; intros Ht; try by eauto.
  all: try (destruct Ht as [[<- <-]|[_ Ht]]; [|by eauto]); cbn [tr_pc tr_sock transfer_phase].
  all: try (match goal with H : tv_workers _ !! _ = Some ?t0 |- _ => destruct (Hw _ _ H) as [Hp Hc] end;
    try match goal with H : tr_pc _ = _ |- _ => rewrite H in Hp end; cbn [tr_pc tr_sock transfer_phase] in *;
    split; [by eauto with own|own_facts; intros; try done; try (rewrite ?Heqo0; by auto); by intuition congruence]).
  - rewrite Heqb. destruct Ht as [[<- <-]|[_ Ht]]; [done|by eauto].
  - destruct Ht as (t0 & <- & Ht). destruct (Hw _ _ Ht) as [Hp Hc]. split; [by apply own_cancel_ok|done].
  - destruct (Hw _ _ Ht) as [? Hc]. own_facts. split; [done|]. intros. apply Hc. congruence.
  - destruct (Hw _ _ Ht) as [? Hc]. own_facts. split; [done|]. intros. apply Hc. congruence.
  - destruct (Hw _ _ Ht) as [? Hc]. own_facts. split; [done|]. intros. apply Hc. congruence.
  - destruct Ht as [_ Ht]. by eauto.
Qed.

Lemma tftp_admission_step l s s' :
  tftp_inv s -> Run_tftp l s = Some s' ->
  (forall peer, peer ∈ active (tv_admission s') <-> is_Some (tv_workers s' !! peer)) /\ admission_wf (tv_admission s').
Proof.
  intros [_ _ Ha Hwf _ _] E. tftp_cases E; try done;
    try (match goal with H : serveRequest _ _ _ = _ |- _ => destruct (serveRequest_admission _ _ _ _ _ H Hwf) as [Hx Hy] end).
  all: try subst; try done.
  all: try (split; [|done]; intros q; rewrite (Ha q); destruct (decide (peer = q)) as [<-|Hne];
    [rewrite lookup_insert_eq; split; [done|]; intros _; by rewrite Heqo|by rewrite lookup_insert_ne]).
  - split; [|done]. intros q. destruct Hy as [_ ->]. rewrite elem_of_union, elem_of_singleton, Ha.
    destruct (decide (peer = q)) as [<-|Hne]; [rewrite lookup_insert_eq; naive_solver|rewrite lookup_insert_ne by done; naive_solver].
  - split; [|done]. intros q. by rewrite lookup_fmap, fmap_is_Some.
  - split; [|apply finish_wf; [done|]; apply Ha; by rewrite Heqo]. intros q.
    rewrite finish_active, elem_of_difference, elem_of_singleton, Ha.
    destruct (decide (peer = q)) as [<-|Hne]; [rewrite lookup_delete_eq; naive_solver|rewrite lookup_delete_ne by done; naive_solver].
Qed.

Lemma tftp_idle_step l s s' :
  tftp_inv s -> Run_tftp l s = Some s' ->
  match tv_pc s' with
  | TftpResolve | TftpListen | TftpClose _ | TftpReturned _ => tv_workers s' = ∅
  | _ => True
  end.
Proof.
  intros [_ _ _ _ Hi _] E. tftp_cases E; try done; try by bool_hyps.
  all: destruct (tv_pc s); try done; by rewrite Hi in *.
Qed.

Lemma tftp_inv_step l s s' : tftp_inv s -> Run_tftp l s = Some s' -> tftp_inv s'.
Proof.
  intros Hi E. destruct (tftp_main_step l s s' Hi E). destruct (tftp_admission_step l s s' Hi E).
  split; try done; [intros peer t; by eapply tftp_worker_step|by eapply tftp_idle_step].
Qed.

Lemma tftp_inv_init : tftp_inv (mc_init tftp_machine).
Proof.
  split; try done; [intros peer; cbn; rewrite lookup_empty|exact admission_wf_empty].
  split; [set_solver|]. by intros [].
Qed.

Lemma tftp_inv_cancel s : tftp_inv s -> tftp_inv (tftp_cancel s).
Proof.
  intros [H1 H2 H3 H4 H5 H6]. split; cbn [tv_pc tv_sock tv_admission tv_workers tftp_cancel].
  - by apply own_cancel_ok.
  - intros peer t (t0 & <- & Ht)%lookup_fmap_Some. destruct (H2 _ _ Ht). split; [by apply own_cancel_ok|done].
  - intros peer. by rewrite lookup_fmap, fmap_is_Some.
  - done.
  - destruct (tv_pc s); try done; by rewrite H5.
  - destruct (tv_pc s); try done; by apply exit_reason_cancelled.
Qed.

Lemma tftp_reachable s : reachable tftp_machine s -> tftp_inv s.
Proof. apply reachable_invariant; [exact tftp_inv_init|exact tftp_inv_step|exact tftp_inv_cancel]. Qed.

Lemma transfer_steps s peer t :
  tftp_inv s -> ow_cancelled (tv_sock s) = true -> tv_workers s !! peer = Some t ->
  exists l, mc_own tftp_machine l = true /\ is_Some (Run_tftp l s).
Proof.
  intros Hi Hc Ht. destruct (tf_workers s Hi peer t Ht) as [Hp Hx]. specialize (Hx Hc). destruct t as [pc o]. cbn [tr_pc tr_sock] in *.
  assert (Hgo : is_Some (transfer_step peer s) -> exists l, mc_own tftp_machine l = true /\ is_Some (Run_tftp l s))
    by by exists (TftpWorker peer).
  assert (Hhook : is_Some (own_hook o) -> exists l, mc_own tftp_machine l = true /\ is_Some (Run_tftp l s)).
  { intros [o' Ho]. exists (TftpWorkerHook peer). split; [done|]. cbn [Run_tftp]. rewrite Ht. cbn [tr_sock]. by rewrite Ho. }
  unfold transfer_step in Hgo. rewrite Ht in Hgo. cbn [tr_pc tr_sock] in Hgo.
  destruct pc; try (apply Hgo; done).
  - destruct (ow_open o) eqn:Ho; [by apply Hhook, own_open_hook|by apply Hgo].
  - apply Hgo. by destruct (own_stop o).
  - destruct (own_waited o) eqn:Ho; [by apply Hgo|by apply Hhook, own_wait_hook].
Qed.

Lemma tftp_progress s :
  tftp_inv s -> ow_cancelled (tv_sock s) = true -> mc_returned tftp_machine s = None ->
  exists l, mc_own tftp_machine l = true /\ is_Some (Run_tftp l s).
Proof.
  intros Hi Hc Hr. pose proof (tf_phase s Hi) as Hp. cbn [mc_returned tftp_machine] in Hr.
  assert (Hgo : is_Some (Serve_tftp s) -> exists l, mc_own tftp_machine l = true /\ is_Some (Run_tftp l s)) by by exists TftpGo.
  assert (Hhook : is_Some (own_hook (tv_sock s)) -> exists l, mc_own tftp_machine l = true /\ is_Some (Run_tftp l s)).
  { intros [o' Ho]. exists TftpHook. split; [done|]. cbn [Run_tftp]. by rewrite Ho. }
  unfold Serve_tftp in Hgo. destruct (tv_pc s) eqn:Em; try discriminate Hr; cbn [tftp_phase] in Hp; try (apply Hgo; done).
  - exists (TftpListened []). split; [done|]. cbn [Run_tftp]. by rewrite Em.
  - destruct (ow_open (tv_sock s)) eqn:Ho; [by apply Hhook, own_open_hook|by apply Hgo].
  - apply Hgo. by rewrite Hc.
  - apply Hgo. by destruct (own_stop (tv_sock s)).
  - destruct (own_waited (tv_sock s)) eqn:Ho; [by apply Hgo|by apply Hhook, own_wait_hook].
  - destruct (map_choose_or_empty (tv_workers s)) as [(peer & t & Ht)|Hw]; [by eapply transfer_steps|].
    apply Hgo. by rewrite bool_decide_true.
Qed.

Definition tftp_rank (pc : tftp_pc) : nat :=
  match pc with
  | TftpResolve => 31 | TftpListen => 30 | TftpLocal _ => 12 | TftpGot _ _ => 30 | TftpSend _ _ => 9
  | TftpRead => 8 | TftpReadFailed => 7 | TftpCancel _ => 6 | TftpStop _ => 5 | TftpWait _ => 4 | TftpWorkers _ => 3
  | TftpClose _ => 2 | TftpReturned _ => 0
  end.

Definition transfer_rank (pc : transfer_pc) : nat :=
  match pc with TrListen => 12 | TrExchange => 5 | TrStop => 4 | TrWait => 3 | TrClose => 2 | TrFinish => 1 end.

Definition transfer_work (t : transfer_state) : nat := transfer_rank (tr_pc t) + hook_work (ow_hook (tr_sock t)).

Definition tftp_work (s : tftp_state) : nat :=
  tftp_rank (tv_pc s) + hook_work (ow_hook (tv_sock s)) + msum transfer_work (tv_workers s).

Lemma tftp_cancel_work s : msum transfer_work (cancel_transfer <$> tv_workers s) = msum transfer_work (tv_workers s).
Proof. apply msum_fmap. by intros [pc o]. Qed.

Lemma tftp_work_step l s s' :
  tftp_inv s -> Run_tftp l s = Some s' ->
  (tftp_work s' < tftp_work s + if mc_arrives tftp_machine l then 23 else 0)%nat.
Proof.
  intros Hi E. unfold tftp_work.
  tftp_cases E; cbn [mc_arrives tftp_machine]; rewrite ?tftp_cancel_work; own_facts;
    repeat match goal with
    | H : tv_workers _ !! _ = Some _ |- context [msum _ (<[?c := ?w]> (tv_workers _))] =>
        pose proof (msum_insert transfer_work _ c _ w H); clear H
    | H : tv_workers _ !! _ = Some _ |- context [msum _ (delete ?c (tv_workers _))] =>
        pose proof (msum_delete transfer_work _ c _ H); clear H
    end; unfold transfer_work in *; cbn [tr_pc tr_sock own_opened own_close own_cancel ow_hook hook_work transfer_rank tftp_rank] in *;
    repeat match goal with H : tr_pc _ = _ |- _ => rewrite H in *; clear H end; cbn [transfer_rank] in *; try lia.
  match goal with |- context [msum ?f (<[?c := ?w]> ?m)] => pose proof (msum_insert_le f m c w) as Hw end.
  cbn [tr_pc tr_sock ow_hook hook_work transfer_rank] in Hw. lia.
Qed.

Lemma tftp_released s r : tftp_inv s -> mc_returned tftp_machine s = Some r -> mc_released tftp_machine s = true.
Proof.
  intros [Hp _ Ha _ Hi _] Hr. cbn [mc_returned mc_released tftp_machine] in *.
  destruct (tv_pc s); try discriminate Hr. rewrite (own_over _ Hp), Hi.
  assert (He : active (tv_admission s) = ∅); [|by rewrite He]. apply set_eq. intros peer. rewrite Ha, Hi, lookup_empty.
  split; [by intros []|set_solver].
Qed.

#[export, refine] Instance tftp_stoppable : Stoppable tftp_machine := {
  st_work := tftp_work : mc_state tftp_machine -> nat;
  st_load := 23
}.
Proof.
  - by intros [].
  - intros l s s' Hs. apply tftp_work_step. by apply tftp_reachable.
  - intros s. unfold tftp_work. cbn [mc_cancel tftp_machine tftp_cancel tv_pc tv_sock tv_workers]. by rewrite tftp_cancel_work.
  - done.
  - intros l s s' E Hc. cbn [mc_cancelled tftp_machine] in *. tftp_cases E; own_facts; congruence.
  - intros s Hs. apply tftp_progress. by apply tftp_reachable.
  - intros l s s' r E Hr. cbn [mc_returned tftp_machine] in *. by tftp_cases E.
  - done.
  - intros s r Hs. apply tftp_released. by apply tftp_reachable.
Defined.

(** Without faults every way out is the cancelled context. *)
Definition tftp_clean (s : tftp_state) : Prop :=
  match tv_pc s with
  | TftpLocal local => specificIPv4 local = true
  | TftpReadFailed => ow_cancelled (tv_sock s) = true
  | TftpCancel r | TftpStop r | TftpWait r | TftpWorkers r | TftpClose r | TftpReturned r => r = Ok tt
  | _ => True
  end.

Lemma tftp_clean_step l s s' :
  mc_fault tftp_machine l = false -> tftp_inv s -> tftp_clean s -> Run_tftp l s = Some s' -> tftp_clean s'.
Proof.
  intros Hl Hi Hc E. pose proof (tf_phase s Hi) as Hp. unfold tftp_clean in *.
  tftp_cases E; try discriminate Hl; cbn [tftp_phase mc_fault tftp_machine] in *; try done; eauto with own.
  - by apply negb_false_iff.
  - unfold unlessCancelled. by rewrite Hc.
  - own_facts. destruct (tv_pc s); congruence.
Qed.

#[export] Instance tftp_clean_exit : Clean tftp_machine.
Proof.
  split. intros s r Hs Hr. enough (Hc : tftp_inv s /\ tftp_clean s).
  { destruct Hc as [_ Hc]. unfold tftp_clean in Hc. cbn in Hr. destruct (tv_pc s); congruence. }
  clear Hr. revert s Hs. apply reachable_by_invariant; [split; [exact tftp_inv_init|done]| |].
  - intros l s s' Hl [Hi Hc] E. split; [by eapply tftp_inv_step|by eapply tftp_clean_step].
  - intros s [Hi Hc]. split; [by apply tftp_inv_cancel|]. unfold tftp_clean in *. cbn. by destruct (tv_pc s).
Qed.

(** ** Properties *)

(** C34: However requests arrive, transfers end and time out: there is exactly one
    worker for each active peer, at most 64 of them and at most four for a client,
    and none is left when [Run] has returned. *)
Theorem tftp_transfers_bounded s :
  reachable tftp_machine s ->
  (forall peer, peer ∈ active (tv_admission s) <-> is_Some (tv_workers s !! peer)) /\
  (size (dom (tv_workers s)) <= maxTransfers)%nat /\
  (forall ip, (size (of_client ip (tv_admission s)) <= maxClientTransfers)%nat) /\
  (mc_returned tftp_machine s <> None -> tv_workers s = ∅ /\ ow_open (tv_sock s) = false).
Proof.
  intros Hs. pose proof (tftp_reachable s Hs) as Hi. split; [apply Hi|].
  destruct (tf_admission s Hi) as [Hsz Hcl]. split; [|split].
  - replace (dom (tv_workers s)) with (active (tv_admission s)); [done|]. apply set_eq. intros peer.
    by rewrite (tf_active s Hi), elem_of_dom.
  - intros ip. destruct (Hcl ip) as (<- & ? & _). done.
  - intros Hr. destruct (mc_returned tftp_machine s) as [r|] eqn:Er; [|done].
    pose proof (tftp_released s r Hi Er) as Hx. cbn [mc_released tftp_machine] in Hx. by bool_hyps.
Qed.

Definition tftp_schedule : list tftp_label :=
  [TftpGo; TftpListened [10; 0; 0; 1]; TftpGo; TftpRecv rrq_demo peer_demo; TftpGo; TftpWorker peer_demo].

Lemma tftp_transfers_bounded_witness :
  exists s, exec (M := tftp_machine) tftp_schedule (mc_init tftp_machine) = Some s /\ peer_demo ∈ active (tv_admission s).
Proof.
  destruct (exec (M := tftp_machine) tftp_schedule (mc_init tftp_machine)) as [s|] eqn:E;
    [|exfalso; vm_compute in E; discriminate E].
  exists s. split; [reflexivity|]. apply (tftp_transfers_bounded s).
  - exact (exec_reachable tftp_machine tftp_schedule _ s (ReachInit tftp_machine _) E).
  - vm_compute in E. injection E as <-. eexists. reflexivity.
Defined.
