(* ===== verification/Ldap.v ===== *)
(** * Package internal/ldapserver

    The read-only directory: BER framing and validation, three-valued filters,
    searches, binds and the per-connection state machine.  Distinguished names
    and the BER decoder belong to the go-ldap and asn1-ber libraries and bcrypt
    to golang.org/x/crypto: they are the class [LdapLib]; a decoded packet is the
    record of the fields the server reads. *)

From stdpp Require Import gmap list strings sorting.
From Stdlib Require Import ZArith Lia.
From S2P Require Import Prelude GoStrings GoHash GoNet GoAddr.

(** ** Packets *)

Definition ClassUniversal : Z := 0.
Definition ClassApplication : Z := 64.
Definition ClassContext : Z := 128.
Definition TypePrimitive : Z := 0.
Definition TypeConstructed : Z := 32.
Definition TagBoolean : Z := 1.
Definition TagInteger : Z := 2.
Definition TagOctetString : Z := 4.
Definition TagNULL : Z := 5.
Definition TagEnumerated : Z := 10.
Definition TagSequence : Z := 16.

(** The decoded value of a primitive packet. *)
Inductive value := VNone | VInt (v : Z) | VBool (b : bool).

Inductive Packet := mkPacket {
  ClassType : Z;
  TagType : Z;
  Tag : Z;
  Data : bytes;
  Value : value;
  Children : list Packet
}.

Definition FilterAnd : Z := 0.
Definition FilterOr : Z := 1.
Definition FilterNot : Z := 2.
Definition FilterEqualityMatch : Z := 3.
Definition FilterSubstrings : Z := 4.
Definition FilterPresent : Z := 7.

Definition ApplicationBindRequest : Z := 0.
Definition ApplicationUnbindRequest : Z := 2.
Definition ApplicationSearchRequest : Z := 3.
Definition ApplicationSearchResultDone : Z := 5.
Definition ApplicationModifyRequest : Z := 6.
Definition ApplicationAddRequest : Z := 8.
Definition ApplicationDelRequest : Z := 10.
Definition ApplicationModifyDNRequest : Z := 12.
Definition ApplicationCompareRequest : Z := 14.
Definition ApplicationAbandonRequest : Z := 16.
Definition ApplicationExtendedRequest : Z := 23.

Definition ResultSuccess : Z := 0.
Definition ResultProtocolError : Z := 2.
Definition ResultTimeLimitExceeded : Z := 3.
Definition ResultSizeLimitExceeded : Z := 4.
Definition ResultAuthMethodNotSupported : Z := 7.
Definition ResultAdminLimitExceeded : Z := 11.
Definition ResultUnavailableCriticalExtension : Z := 12.
Definition ResultInappropriateMatching : Z := 18.
Definition ResultNoSuchObject : Z := 32.
Definition ResultInvalidDNSyntax : Z := 34.
Definition ResultInvalidCredentials : Z := 49.
Definition ResultInsufficientAccessRights : Z := 50.
Definition ResultBusy : Z := 51.
Definition ResultUnavailable : Z := 52.
Definition ResultUnwillingToPerform : Z := 53.

(** What the server asks of its libraries. *)
Class LdapLib := {
  DN : Type;
  ParseDN : bytes -> option DN;
  DN_EqualFold : DN -> DN -> bool;
  AncestorOfFold : DN -> DN -> bool;
  RDN_attributes : DN -> list (bytes * bytes);
  RDN_count : DN -> Z;
  EscapeDN : bytes -> bytes;
  DecodePacket : bytes -> option Packet;
  CompareHashAndPassword : bytes -> bytes -> bool
}.

Definition isPacket (p : Packet) (class kind tag : Z) : bool :=
  (ClassType p =? class) && (TagType p =? kind) && (Tag p =? tag).

Definition octetString (p : Packet) : bool := isPacket p ClassUniversal TypePrimitive TagOctetString.

Definition integer (p : Packet) (tag : Z) : option Z :=
  if negb (isPacket p ClassUniversal TypePrimitive tag) then None
  else match Value p with VInt v => Some v | _ => None end.

(** [p.Value.(bool)], false when it is not one. *)
Definition boolValue (p : Packet) : bool := match Value p with VBool b => b | _ => false end.

(** ** Framing *)

Definition maxMessageSize : Z := 64 * 1024.
Definition maxBERDepth : Z := 32.
Definition maxBERNodes : Z := 4096.

Inductive read_error := ErrEOF | ErrMalformed.

(** The length octets of a header, once its second byte is known: the number of
    further bytes and the length they spell. *)
Definition longForm (second : Z) : bool := negb (Z.land second 128 =? 0).
Definition longCount (second : Z) : Z := Z.land second 127.

(** [validateBER] over [data]: the node count it leaves, or [None] for its error.
    Every call is on strictly less data than its caller, so the length of the
    data is enough fuel. *)
Fixpoint validateBER (fuel : nat) (data : bytes) (depth nodes : Z) : option Z :=
  match fuel with
  | O => None
  | S k =>
      if maxBERDepth <=? depth then None
      else match data with
      | [] => Some nodes
      | _ =>
          let nodes := nodes + 1 in
          if (maxBERNodes <? nodes) || (len data <? 2) || (Z.land (at_ data 0) 31 =? 31) then None
          else
            let tag := at_ data 0 in
            let length := at_ data 1 in
            let n := longCount length in
            if longForm length && ((n =? 0) || (4 <? n) || (len data <? 2 + n)) then None
            else
              let header := if longForm length then 2 + n else 2 in
              let length := if longForm length then be_decode (slice 2 (Z.to_nat header) data) else length in
              if (length <? 0) || (len data - header <? length) then None
              else
                let content := slice (Z.to_nat header) (Z.to_nat (header + length)) data in
                let rest := drop (Z.to_nat (header + length)) data in
                let inner :=
                  if negb (Z.land tag 32 =? 0) then validateBER k content (depth + 1) nodes
                  else if Z.land tag 192 =? 0 then
                    let t := Z.land tag 31 in
                    if t =? TagBoolean then (if negb (length =? 1) then None else Some nodes)
                    else if (t =? TagInteger) || (t =? TagEnumerated)
                    then (if (length <? 1) || (4 <? length) then None else Some nodes)
                    else if (t =? TagOctetString) || (t =? TagNULL) then Some nodes
                    else None
                  else Some nodes in
                match inner with
                | None => None
                | Some nodes => validateBER k rest depth nodes
                end
      end
  end.

(** [readMessage] from a stream whose bytes are [stream]: the message and what is
    left of the stream. *)
Definition readMessage `{LdapLib} (stream : bytes) : result read_error (Packet * bytes) :=
  if len stream <? 2 then Err ErrEOF
  else if negb (at_ stream 0 =? 48) then Err ErrMalformed
  else
    let second := at_ stream 1 in
    let n := longCount second in
    if longForm second && ((n =? 0) || (4 <? n)) then Err ErrMalformed
    else
      let header := if longForm second then 2 + n else 2 in
      if len stream <? header then Err ErrEOF
      else
        let length := if longForm second then be_decode (slice 2 (Z.to_nat header) stream) else second in
        if (length <=? 0) || (maxMessageSize - header <? length) then Err ErrMalformed
        else if len stream <? header + length then Err ErrEOF
        else
          let data := take (Z.to_nat (header + length)) stream in
          match validateBER (S (List.length data)) data 0 0 with
          | None => Err ErrMalformed
          | Some _ =>
              match DecodePacket data with
              | None => Err ErrMalformed
              | Some p => Ok (p, drop (Z.to_nat (header + length)) stream)
              end
          end.

(** [requestEnvelope]: the message identifier and the operation. *)
Definition requestEnvelope (packet : Packet) : option (Z * Packet) :=
  if negb (isPacket packet ClassUniversal TypeConstructed TagSequence)
     || (len (Children packet) <? 2) || (3 <? len (Children packet)) then None
  else match Children packet with
       | idp :: op :: _ =>
           match integer idp TagInteger with
           | Some id =>
               if (id <=? 0) || (2147483647 <? id) || negb (ClassType op =? ClassApplication) then None
               else Some (id, op)
           | None => None
           end
       | _ => None
       end.

Definition ControlTypePaging : bytes := str "1.2.840.113556.1.4.319".

(** One control of [validateControls]; [None] continues with the next. *)
Definition validateControl (control : Packet) : option Z :=
  let cs := Children control in
  match cs with
  | oid :: _ =>
      if negb (isPacket control ClassUniversal TypeConstructed TagSequence)
         || (3 <? len cs) || negb (octetString oid) then Some ResultProtocolError
      else
        let '(critical, rest) :=
          match drop 1 cs with
          | b :: rest =>
              if isPacket b ClassUniversal TypePrimitive TagBoolean then (boolValue b, rest) else (false, b :: rest)
          | [] => (false, [])
          end in
        let bad :=
          match rest with
          | [] => false
          | v :: rest => negb (octetString v) || negb (len rest =? 0)
          end in
        if bad : bool then Some ResultProtocolError
        else if critical then Some ResultUnavailableCriticalExtension
        else if beq (Data oid) ControlTypePaging then Some ResultUnwillingToPerform
        else None
  | [] => Some ResultProtocolError
  end.

Fixpoint validateControlList (controls : list Packet) : Z :=
  match controls with
  | [] => ResultSuccess
  | c :: rest => match validateControl c with Some code => code | None => validateControlList rest end
  end.

Definition validateControls (packet : Packet) : Z :=
  match Children packet with
  | [_; _; controls] =>
      if negb (isPacket controls ClassContext TypeConstructed 0) || (len (Children controls) =? 0)
      then ResultProtocolError
      else validateControlList (Children controls)
  | _ => ResultSuccess
  end.

Definition responseType (tag : Z) : option Z :=
  if existsb (Z.eqb tag) [ApplicationBindRequest; ApplicationModifyRequest; ApplicationAddRequest;
       ApplicationDelRequest; ApplicationModifyDNRequest; ApplicationCompareRequest; ApplicationExtendedRequest]
  then Some (tag + 1)
  else if tag =? ApplicationSearchRequest then Some ApplicationSearchResultDone
  else None.

(** ** Entries *)

(** [strings.Index]: the position of the first occurrence. *)
Fixpoint Index (s sub : bytes) : option nat :=
  if HasPrefix s sub then Some 0%nat
  else match s with
       | [] => None
       | _ :: s' => option_map S (Index s' sub)
       end.

Section directory.
Context `{LdapLib}.

Record entry := mkEntry { dn : bytes; parsedDN : option DN; attrs : gmap bytes (list bytes) }.

Definition newEntry (dn : bytes) (attrs : gmap bytes (list bytes)) : entry :=
  mkEntry dn (ParseDN dn) attrs.

(** [values]: the values of the attribute with that name, up to case. *)
Definition values (e : entry) (name : bytes) : list bytes :=
  match find (fun a => EqualFold a.1 name) (map_to_list (attrs e)) with
  | Some a => a.2
  | None => []
  end.

(** ** Filters *)

Inductive tri := matchFalse | matchTrue | matchUndefined.

#[global] Instance tri_eq_dec : EqDecision tri.
Proof. solve_decision. Defined.

Definition truth (b : bool) : tri := if b then matchTrue else matchFalse.

Definition knownAttributes : list bytes :=
  map str ["objectclass"; "uid"; "cn"; "sn"; "ou"; "dc"; "o"; "mail"; "uidnumber"; "gidnumber";
           "homedirectory"; "loginshell"; "member"; "uniquemember"; "memberuid"; "memberof";
           "namingcontexts"; "supportedldapversion"; "vendorname"]%string.
Definition knownAttribute (name : bytes) : bool := existsb (beq name) knownAttributes.

Definition isDNAttribute (name : bytes) : bool :=
  existsb (beq name) (map str ["member"; "uniquemember"; "memberof"; "namingcontexts"]%string).
Definition isIntAttribute (name : bytes) : bool :=
  existsb (beq name) (map str ["uidnumber"; "gidnumber"]%string).

(** [strconv.ParseInt(s, 10, 64)] is [Atoi]. *)
Definition equalAttribute (name a b : bytes) : bool :=
  if isDNAttribute name then
    match ParseDN a, ParseDN b with Some x, Some y => DN_EqualFold x y | _, _ => false end
  else if isIntAttribute name then
    match Atoi a, Atoi b with Some x, Some y => x =? y | _, _ => false end
  else EqualFold a b.

(** The closures [compileFilter] builds, as data: a compiled filter and its
    evaluation on an entry. *)
Inductive filter_tree :=
| FPresent (name : bytes)
| FAnd (fs : list filter_tree)
| FOr (fs : list filter_tree)
| FNot (f : filter_tree)
| FEqual (name value : bytes) (valid : bool)
| FSubstrings (name : bytes) (parts : list (Z * bytes)).

(** The parts of a substring filter: tag and fragment, well placed. *)
Fixpoint substringParts (parts : list Packet) (first : bool) : option (list (Z * bytes)) :=
  match parts with
  | [] => Some []
  | p :: rest =>
      if negb (ClassType p =? ClassContext) || negb (TagType p =? TypePrimitive) || (2 <? Tag p)
         || ((Tag p =? 0) && negb first) || ((Tag p =? 2) && negb (len rest =? 0)) then None
      else match substringParts rest false with
           | Some ps => Some ((Tag p, Data p) :: ps)
           | None => None
           end
  end.

Definition compileSubstrings (packet : Packet) : option filter_tree :=
  match Children packet with
  | [attr; seq] =>
      if negb (octetString attr) || negb (isPacket seq ClassUniversal TypeConstructed TagSequence)
         || (len (Children seq) =? 0) then None
      else
        let name := ToLower (Data attr) in
        if beq name [] then None
        else match substringParts (Children seq) true with
             | Some parts => Some (FSubstrings name parts)
             | None => None
             end
  | _ => None
  end.

Fixpoint compileFilter (packet : Packet) : option filter_tree :=
  let compileAll := fix compileAll (ps : list Packet) : option (list filter_tree) :=
    match ps with
    | [] => Some []
    | p :: ps =>
        match compileFilter p with
        | Some f => match compileAll ps with Some fs => Some (f :: fs) | None => None end
        | None => None
        end
    end in
  if negb (ClassType packet =? ClassContext) then None
  else if Tag packet =? FilterPresent then
    if negb (TagType packet =? TypePrimitive) || (len (Data packet) =? 0) then None
    else Some (FPresent (ToLower (Data packet)))
  else if negb (TagType packet =? TypeConstructed) then None
  else if (Tag packet =? FilterAnd) || (Tag packet =? FilterOr) || (Tag packet =? FilterNot) then
    if (len (Children packet) =? 0) || ((Tag packet =? FilterNot) && negb (len (Children packet) =? 1))
    then None
    else match compileAll (Children packet) with
         | None => None
         | Some fs =>
             if Tag packet =? FilterNot then match fs with f :: _ => Some (FNot f) | [] => None end
             else if Tag packet =? FilterAnd then Some (FAnd fs) else Some (FOr fs)
         end
  else if Tag packet =? FilterEqualityMatch then
    match Children packet with
    | [attr; val] =>
        if negb (octetString attr) || negb (octetString val) then None
        else
          let name := ToLower (Data attr) in
          if beq name [] then None
          else
            let valid :=
              if isDNAttribute name then bool_decide (is_Some (ParseDN (Data val)))
              else if isIntAttribute name then bool_decide (is_Some (Atoi (Data val)))
              else knownAttribute name in
            Some (FEqual name (Data val) valid)
    | _ => None
    end
  else if Tag packet =? FilterSubstrings then compileSubstrings packet
  else None.

(** The loop over the parts of a substring filter. *)
Fixpoint matchParts (parts : list (Z * bytes)) (rest : bytes) : bool :=
  match parts with
  | [] => true
  | (tag, data) :: parts =>
      let fragment := ToLower data in
      if tag =? 0 then
        if HasPrefix rest fragment then matchParts parts (drop (length fragment) rest) else false
      else if tag =? 1 then
        match Index rest fragment with
        | Some i => matchParts parts (drop (i + length fragment) rest)
        | None => false
        end
      else if HasSuffix rest fragment then matchParts parts rest else false
  end.

(** Evaluation; [andLoop] and [orLoop] are the loop over the children, which
    returns at the first deciding value. *)
Fixpoint evalFilter (f : filter_tree) (e : entry) : tri :=
  let andLoop := fix andLoop (fs : list filter_tree) (undefined : bool) : tri :=
    match fs with
    | [] => if undefined then matchUndefined else matchTrue
    | f :: fs =>
        match evalFilter f e with
        | matchFalse => matchFalse
        | v => andLoop fs (undefined || bool_decide (v = matchUndefined))
        end
    end in
  let orLoop := fix orLoop (fs : list filter_tree) (undefined : bool) : tri :=
    match fs with
    | [] => if undefined then matchUndefined else matchFalse
    | f :: fs =>
        match evalFilter f e with
        | matchTrue => matchTrue
        | v => orLoop fs (undefined || bool_decide (v = matchUndefined))
        end
    end in
  match f with
  | FPresent name =>
      if negb (knownAttribute name) then matchUndefined else truth (negb (len (values e name) =? 0))
  | FAnd fs => andLoop fs false
  | FOr fs => orLoop fs false
  | FNot f =>
      match evalFilter f e with
      | matchUndefined => matchUndefined
      | v => truth (bool_decide (v = matchFalse))
      end
  | FEqual name value valid =>
      if negb valid then matchUndefined
      else truth (existsb (fun candidate => equalAttribute name candidate value) (values e name))
  | FSubstrings name parts =>
      if negb (knownAttribute name) then matchUndefined
      else if isDNAttribute name || isIntAttribute name then matchUndefined
      else truth (existsb (fun value => matchParts parts (ToLower value)) (values e name))
  end.

(** ** Results *)

(** What the server writes: a result, or a search entry with its attributes. *)
Inductive ldapWrite :=
| WResult (id tag code : Z) (message : bytes)
| WEntry (id : Z) (dn : bytes) (attributes : list (bytes * list bytes)).

Definition bytes_le (a b : bytes) : Prop := bytes_compare a b <> Gt.
#[global] Instance bytes_le_dec : RelDecision bytes_le.
Proof. intros a b. unfold bytes_le. destruct (bytes_compare a b); (by left) || (right; tauto). Defined.

Definition operationalAttribute (name : bytes) : bool :=
  existsb (beq (ToLower name)) (map str ["namingcontexts"; "supportedldapversion"; "vendorname"]%string).

Definition selectAttribute (name : bytes) (requested : list bytes) : bool :=
  let operational := operationalAttribute name in
  if len requested =? 0 then negb operational
  else existsb (fun attr => EqualFold name attr || (beq attr (str "*") && negb operational)
                            || (beq attr (str "+") && operational)) requested.

(** [entry.packet]: the selected attributes in name order. *)
Definition entryPacket (id : Z) (e : entry) (attributes : list bytes) (typesOnly : bool) : ldapWrite :=
  let names := merge_sort bytes_le
                 (List.filter (fun name => selectAttribute name attributes) (map fst (map_to_list (attrs e)))) in
  WEntry id (dn e)
    (map (fun name => (name, if typesOnly then [] else default [] (attrs e !! name))) names).

(** ** The directory *)

Record LDAPUser := mkUser {
  u_Name : bytes; u_Mail : bytes; u_PassSHA256 : bytes; u_PassBcrypt : bytes; u_UIDNumber : Z;
  u_PrimaryGroup : Z; u_OtherGroups : list Z; u_Disabled : bool; u_CanSearch : bool }.
Record LDAPGroup := mkGroup { g_Name : bytes; g_GID : Z }.
Record LDAPConfig := mkLDAPConfig {
  Listen : bytes; TLSListen : bytes; BaseDN : bytes; Users : list LDAPUser; Groups : list LDAPGroup }.

Record account := mkAccount {
  a_dn : option DN; a_sha256 : bytes; a_bcrypt : bytes; a_disabled : bool; a_canSearch : bool }.

(** [hex.DecodeString]: the bytes decoded before the first error, if any. *)
Fixpoint HexDecode (s : bytes) : bytes :=
  match s with
  | a :: b :: s' =>
      match hex_value a, hex_value b with
      | Some x, Some y => (x * 16 + y) :: HexDecode s'
      | _, _ => []
      end
  | _ => []
  end.

Definition credentials (user : LDAPUser) (d : option DN) : account :=
  mkAccount d (HexDecode (u_PassSHA256 user)) (u_PassBcrypt user) (u_Disabled user) (u_CanSearch user).

Definition words (ws : list string) : list bytes := map str ws.

Definition addAttr (name : bytes) (vs : list bytes) (a : gmap bytes (list bytes)) : gmap bytes (list bytes) :=
  <[name := default [] (a !! name) ++ vs]> a.

(** The base entry: its class and the attributes of its first RDN. *)
Definition baseEntry (baseDN : bytes) : entry :=
  let rdns := match ParseDN baseDN with Some d => RDN_attributes d | None => [] end in
  let class :=
    if existsb (fun a => EqualFold a.1 (str "dc")) rdns
    then words ["top"; "domain"; "extensibleObject"]%string
    else words ["top"; "organizationalRole"; "extensibleObject"]%string in
  let rdnAttrs : gmap bytes (list bytes) :=
    fold_left (fun acc a => addAttr (ToLower a.1) [a.2] acc) rdns ∅ in
  let start : gmap bytes (list bytes) :=
    <[str "objectClass" := class]> (<[str "cn" := words ["Directory"]%string]> ∅) in
  newEntry baseDN
    (map_fold (fun name vs acc =>
       if beq name (str "objectclass") then addAttr (str "objectClass") vs acc else <[name := vs]> acc)
       start rdnAttrs).

Definition groupEntry (baseDN : bytes) (group : LDAPGroup) : entry :=
  newEntry (str "cn=" ++ EscapeDN (g_Name group) ++ str ",ou=groups," ++ baseDN)
    (<[str "objectClass" := words ["top"; "posixGroup"; "extensibleObject"]%string]>
      (<[str "cn" := [g_Name group]]> (<[str "gidNumber" := [Itoa (g_GID group)]]> ∅))).

(** [slices.Compact] after [slices.Sort]. *)
Fixpoint Compact (l : list Z) : list Z :=
  match l with
  | a :: ((b :: _) as rest) => if a =? b then Compact rest else a :: Compact rest
  | _ => l
  end.

Definition userGIDs (user : LDAPUser) : list Z :=
  Compact (merge_sort Z.le (u_PrimaryGroup user :: u_OtherGroups user)).

Definition userEntry (baseDN : bytes) (user : LDAPUser) : entry :=
  let base : gmap bytes (list bytes) :=
    <[str "objectClass" := words ["top"; "person"; "organizationalPerson"; "inetOrgPerson"; "extensibleObject"]%string]>
     (<[str "uid" := [u_Name user]]> (<[str "cn" := [u_Name user]]> (<[str "sn" := [u_Name user]]>
      (<[str "gidNumber" := [Itoa (u_PrimaryGroup user)]]> ∅)))) in
  let a := if beq (u_Mail user) [] then base else <[str "mail" := [u_Mail user]]> base in
  let a := if 0 <? u_UIDNumber user then
             <[str "loginShell" := [str "/bin/sh"]]> (<[str "homeDirectory" := [str "/home/" ++ u_Name user]]>
              (<[str "uidNumber" := [Itoa (u_UIDNumber user)]]>
               (addAttr (str "objectClass") [str "posixAccount"] a)))
           else a in
  newEntry (str "uid=" ++ EscapeDN (u_Name user) ++ str ",ou=users," ++ baseDN) a.

(** The memberships of one user: the groups are shared records, updated as each
    membership is recorded on both sides.  [None] is the nil dereference of a
    group that is not configured. *)
Definition with_attrs (e : entry) (a : gmap bytes (list bytes)) : entry := mkEntry (dn e) (parsedDN e) a.

Fixpoint joinGroups (user : bytes) (gids : list Z) (e : entry) (groups : gmap Z entry)
    : option (entry * gmap Z entry) :=
  match gids with
  | [] => Some (e, groups)
  | gid :: gids =>
      match groups !! gid with
      | None => None
      | Some group =>
          let e' := with_attrs e (addAttr (str "memberOf") [dn group] (attrs e)) in
          let g' := with_attrs group
            (addAttr (str "memberUid") [user] (addAttr (str "uniqueMember") [dn e]
              (addAttr (str "member") [dn e] (attrs group)))) in
          joinGroups user gids e' (<[gid := g']> groups)
      end
  end.

Fixpoint addUsers (baseDN : bytes) (users : list LDAPUser) (groups : gmap Z entry)
    : option (list entry * list account * gmap Z entry) :=
  match users with
  | [] => Some ([], [], groups)
  | user :: rest =>
      match joinGroups (u_Name user) (userGIDs user) (userEntry baseDN user) groups with
      | None => None
      | Some (e, groups) =>
          match addUsers baseDN rest groups with
          | None => None
          | Some (es, accounts, groups) => Some (e :: es, credentials user (parsedDN e) :: accounts, groups)
          end
      end
  end.

Record LdapServer := mkLdapServer { s_BaseDN : bytes; entries : list entry; users : list account }.

(** [buildDirectory]. *)
Definition buildDirectory (cfg : LDAPConfig) : option LdapServer :=
  let unit name := newEntry (str "ou=" ++ name ++ str "," ++ BaseDN cfg)
    (<[str "objectClass" := words ["top"; "organizationalUnit"]%string]> (<[str "ou" := [name]]> ∅)) in
  let groups : gmap Z entry :=
    fold_left (fun acc group => <[g_GID group := groupEntry (BaseDN cfg) group]> acc) (Groups cfg) ∅ in
  match addUsers (BaseDN cfg) (Users cfg) groups with
  | None => None
  | Some (es, accounts, groups) =>
      Some (mkLdapServer (BaseDN cfg)
        ([baseEntry (BaseDN cfg); unit (str "users"); unit (str "groups")] ++ es ++
         omap (fun group => groups !! g_GID group) (Groups cfg)) accounts)
  end.

Definition rootDSE (s : LdapServer) : entry :=
  newEntry [] (<[str "objectClass" := [str "top"]]> (<[str "namingContexts" := [s_BaseDN s]]>
    (<[str "supportedLDAPVersion" := [str "3"]]> (<[str "vendorName" := [str "Infrastructure-in-a-Box"]]> ∅)))).

(** ** Searching *)

Definition maxSearchResults : Z := 1000.
Definition ScopeBaseObject : Z := 0.
Definition ScopeSingleLevel : Z := 1.
Definition ScopeWholeSubtree : Z := 2.

(** Method calls on the parsed name of an entry. *)
Definition entryIs (e : entry) (base : DN) : bool :=
  match parsedDN e with Some d => DN_EqualFold d base | None => false end.
Definition entryBelow (e : entry) (base : DN) : bool :=
  match parsedDN e with Some d => AncestorOfFold base d | None => false end.
Definition entryDepth (e : entry) : Z :=
  match parsedDN e with Some d => RDN_count d | None => 0 end.

Definition inScope (scope : Z) (base : DN) (e : entry) : bool :=
  if negb (scope =? ScopeBaseObject) && entryBelow e base
  then (scope =? ScopeWholeSubtree) || (entryDepth e =? RDN_count base + 1)
  else if scope =? ScopeSingleLevel then false
  else entryIs e base.

(** What the surroundings do while a search runs, by entry: whether the context
    is cancelled, the deadline has passed, or writing the entry fails; and whether
    writing the final result fails. *)
Record weather := mkWeather {
  cancelled : nat -> bool; late : nat -> bool; broken : nat -> bool; doneFails : bool }.

(** The result of handling one operation: what was written, and whether the
    connection survives. *)
Definition handled : Type := list ldapWrite * bool.

Definition done (wx : weather) (id code : Z) (message : bytes) : handled :=
  if doneFails wx then ([], false) else ([WResult id ApplicationSearchResultDone code message], true).

(** The loop over the entries; [i] numbers them for the surroundings. *)
Fixpoint searchLoop (wx : weather) (id scope : Z) (base : DN) (f : filter_tree) (attributes : list bytes)
    (typesOnly : bool) (limit count : Z) (i : nat) (es : list entry) : handled :=
  match es with
  | [] =>
      if late wx i then done wx id ResultTimeLimitExceeded (str "search time limit exceeded")
      else done wx id ResultSuccess []
  | e :: es =>
      if cancelled wx i then ([], false)
      else if late wx i then done wx id ResultTimeLimitExceeded (str "search time limit exceeded")
      else if negb (inScope scope base e) || negb (bool_decide (evalFilter f e = matchTrue))
      then searchLoop wx id scope base f attributes typesOnly limit count (S i) es
      else if count =? limit then done wx id ResultSizeLimitExceeded (str "search size limit exceeded")
      else if broken wx i then ([], false)
      else
        let '(ws, alive) := searchLoop wx id scope base f attributes typesOnly limit (count + 1) (S i) es in
        (entryPacket id e attributes typesOnly :: ws, alive)
  end.

(** The attribute selection; [None] is a malformed one. *)
Fixpoint selection (ps : list Packet) : option (list bytes) :=
  match ps with
  | [] => Some []
  | p :: ps => if negb (octetString p) then None
               else match selection ps with Some l => Some (Data p :: l) | None => None end
  end.

Definition malformed (wx : weather) (id : Z) : handled := done wx id ResultProtocolError (str "malformed search request").

Definition search (s : LdapServer) (wx : weather) (id : Z) (op : Packet) (canSearch : bool) : handled :=
  match Children op with
  | [a0; a1; a2; a3; a4; a5; a6; a7] =>
      if negb (TagType op =? TypeConstructed) || negb (octetString a0) then malformed wx id
      else match integer a1 TagEnumerated, integer a2 TagEnumerated, integer a3 TagInteger, integer a4 TagInteger with
      | Some scope, Some deref, Some size, Some seconds =>
          if (scope <? 0) || (2 <? scope) || (deref <? 0) || (3 <? deref) || (size <? 0) || (seconds <? 0)
             || negb (isPacket a5 ClassUniversal TypePrimitive TagBoolean)
             || negb (isPacket a7 ClassUniversal TypeConstructed TagSequence)
          then malformed wx id
          else match ParseDN (Data a0) with
          | None => done wx id ResultInvalidDNSyntax (str "invalid search base")
          | Some base =>
              let root := (RDN_count base =? 0) && (scope =? ScopeBaseObject) in
              if negb root && negb canSearch
              then done wx id ResultInsufficientAccessRights (str "directory search requires an authorized bind")
              else match compileFilter a6 with
              | None => done wx id ResultInappropriateMatching (str "unsupported or malformed filter")
              | Some f =>
                  match selection (Children a7) with
                  | None => done wx id ResultProtocolError (str "malformed attribute selection")
                  | Some attributes =>
                      let es := if root then [rootDSE s] else entries s in
                      if negb (existsb (fun e => entryIs e base) es)
                      then done wx id ResultNoSuchObject (str "search base does not exist")
                      else
                        let limit := if (0 <? size) && (size <? maxSearchResults) then size else maxSearchResults in
                        searchLoop wx id scope base f attributes (boolValue a5) limit 0 0 es
                  end
              end
          end
      | _, _, _, _ => malformed wx id
      end
  | _ => malformed wx id
  end.

(** ** Binding *)

(** What happens to a bind that gets as far as checking a password. *)
Inductive slot := SlotFree | SlotBusy | SlotCancelled.

(** The first enabled account with that name decides. *)
Definition validPassword (user : account) (password : bytes) : bool :=
  if negb (len (a_bcrypt user) =? 0)
  then (len password <=? 72) && CompareHashAndPassword (a_bcrypt user) password
  else beq (Sum256 password) (a_sha256 user).

Definition accountIs (user : account) (d : DN) : bool :=
  match a_dn user with Some u => DN_EqualFold u d | None => false end && negb (a_disabled user).

Definition bind (s : LdapServer) (sl : slot) (op : Packet) : Z * bool :=
  match Children op with
  | [vp; np; auth] =>
      if negb (TagType op =? TypeConstructed) then (ResultProtocolError, false)
      else if negb (match integer vp TagInteger with Some v => v =? 3 | None => false end)
              || negb (octetString np) then (ResultProtocolError, false)
      else if negb (ClassType auth =? ClassContext) || negb (TagType auth =? TypePrimitive) || negb (Tag auth =? 0)
      then (ResultAuthMethodNotSupported, false)
      else
        let name := Data np in
        let password := Data auth in
        if beq name [] && (len password =? 0) then (ResultSuccess, false)
        else if beq name [] || (len password =? 0) || (1024 <? len password)
        then (ResultInvalidCredentials, false)
        else match ParseDN name with
        | None => (ResultInvalidCredentials, false)
        | Some d =>
            match sl with
            | SlotCancelled => (ResultUnavailable, false)
            | SlotBusy => (ResultBusy, false)
            | SlotFree =>
                match find (fun user => accountIs user d) (users s) with
                | Some user =>
                    if validPassword user password then (ResultSuccess, a_canSearch user)
                    else (ResultInvalidCredentials, false)
                | None => (ResultInvalidCredentials, false)
                end
            end
        end
  | _ => (ResultProtocolError, false)
  end.

(** ** A connection *)

Definition maxConnections : Z := 64.
Definition maxBindAttempts : Z := 20.

Record connection := mkConnection { canSearch : bool; attempts : Z }.

(** One message of a connection and its surroundings: whether writing a result
    fails, what a search meets, and what a bind meets. *)
Record arrival := mkArrival { packet : Packet; writeFails : bool; wx : weather; sl : slot }.

(** One turn of [handleConnection]: what is written, and the connection
    afterwards, or [None] when it is closed. *)
Definition handleMessage (s : LdapServer) (c : connection) (a : arrival) : list ldapWrite * option connection :=
  let reply id tag code message next :=
    if writeFails a then ([], None) else ([WResult id tag code message], next) in
  match requestEnvelope (packet a) with
  | None => ([], None)
  | Some (id, op) =>
      if Tag op =? ApplicationUnbindRequest then ([], None)
      else if Tag op =? ApplicationAbandonRequest then ([], Some c)
      else match responseType (Tag op) with
      | None => ([], None)
      | Some responseTag =>
          let c := if Tag op =? ApplicationBindRequest then mkConnection false (attempts c) else c in
          let code := validateControls (packet a) in
          if negb (code =? ResultSuccess)
          then reply id responseTag code (str "unsupported or malformed controls") (Some c)
          else if Tag op =? ApplicationBindRequest then
            let c := mkConnection (canSearch c) (attempts c + 1) in
            if maxBindAttempts <? attempts c
            then reply id responseTag ResultAdminLimitExceeded (str "bind attempt limit exceeded") None
            else
              let '(code, allowed) := bind s (sl a) op in
              reply id responseTag code [] (Some (mkConnection allowed (attempts c)))
          else if Tag op =? ApplicationSearchRequest then
            let '(ws, alive) := search s (wx a) id op (canSearch c) in
            (ws, if alive then Some c else None)
          else reply id responseTag ResultUnwillingToPerform
                 (str "directory is read-only; operation is unsupported") (Some c)
      end
  end.

(** A connection over the messages that arrive on it: everything written. *)
Fixpoint handleConnection (s : LdapServer) (c : connection) (arrivals : list arrival) : list ldapWrite :=
  match arrivals with
  | [] => []
  | a :: arrivals =>
      match handleMessage s c a with
      | (ws, None) => ws
      | (ws, Some c) => ws ++ handleConnection s c arrivals
      end
  end.

End directory.
