(* ===== verification/LdapProps.v ===== *)
(** * Package internal/ldapserver: properties

    Filters follow three-valued logic and reveal nothing about attributes the
    directory does not publish; searches return exactly what is in scope and
    matches; entries are only sent after an authorised bind; accepted messages
    are bounded, properly nested BER; memberships agree on both sides. *)

From stdpp Require Import gmap list strings sorting.
From Stdlib Require Import ZArith Lia.
From S2P Require Import Prelude GoStrings GoHash GoNet GoAddr Ldap.

(** ** A concrete library and directory *)

(** Names as comma-separated components, compared without case. *)
#[local] Instance demo_ldap : LdapLib := {
  DN := list bytes;
  ParseDN s := Some (if beq s [] then [] else Split (ToLower s) 44);
  DN_EqualFold a b := bool_decide (a = b);
  AncestorOfFold a d := (length a <? length d)%nat && bool_decide (drop (length d - length a) d = a);
  RDN_attributes d := [];
  RDN_count d := len d;
  EscapeDN s := s;
  DecodePacket data := None;
  CompareHashAndPassword h p := false
}.

(** One user, "ann", who may search, with the SHA-256 of "pw". *)
Definition demo_cfg : LDAPConfig :=
  mkLDAPConfig (str "192.168.1.1:389") (str "192.168.1.1:636") (str "dc=lab")
    [mkUser (str "ann") [] (HexEncode (Sum256 (str "pw"))) [] 1000 7 [] false true]
    [mkGroup (str "staff") 7].
Definition demo_dir : LdapServer :=
  match buildDirectory demo_cfg with Some s => s | None => mkLdapServer [] [] [] end.

Definition octets (s : bytes) : Packet := mkPacket ClassUniversal TypePrimitive TagOctetString s VNone [].
Definition int_packet (tag v : Z) : Packet := mkPacket ClassUniversal TypePrimitive tag [] (VInt v) [].
Definition sequence (cs : list Packet) : Packet := mkPacket ClassUniversal TypeConstructed TagSequence [] VNone cs.
Definition application (tag : Z) (cs : list Packet) : Packet := mkPacket ClassApplication TypeConstructed tag [] VNone cs.
Definition bind_packet (password : bytes) : Packet :=
  sequence [int_packet TagInteger 1;
    application ApplicationBindRequest
      [int_packet TagInteger 3; octets (str "uid=ann,ou=users,dc=lab"); mkPacket ClassContext TypePrimitive 0 password VNone []]].
Definition search_packet : Packet :=
  sequence [int_packet TagInteger 2;
    application ApplicationSearchRequest
      [octets (str "dc=lab"); int_packet TagEnumerated 2; int_packet TagEnumerated 0; int_packet TagInteger 0;
       int_packet TagInteger 0; mkPacket ClassUniversal TypePrimitive TagBoolean [] (VBool false) [];
       mkPacket ClassContext TypePrimitive FilterPresent (str "objectClass") VNone []; sequence []]].
Definition demo_session (password : bytes) : list arrival :=
  let w := mkWeather (fun _ => false) (fun _ => false) (fun _ => false) false in
  [mkArrival (bind_packet password) false w SlotFree; mkArrival search_packet false w SlotFree].

(** ** Three-valued logic *)

(** Kleene's connectives. *)
Definition kand (a b : tri) : tri :=
  match a, b with
  | matchFalse, _ | _, matchFalse => matchFalse
  | matchUndefined, _ | _, matchUndefined => matchUndefined
  | matchTrue, matchTrue => matchTrue
  end.
Definition kor (a b : tri) : tri :=
  match a, b with
  | matchTrue, _ | _, matchTrue => matchTrue
  | matchUndefined, _ | _, matchUndefined => matchUndefined
  | matchFalse, matchFalse => matchFalse
  end.
Definition knot (a : tri) : tri :=
  match a with matchTrue => matchFalse | matchFalse => matchTrue | matchUndefined => matchUndefined end.

Section filters.
Context `{LdapLib}.

(** The reference semantics of a filter: leaves as evaluated, connectives as
    Kleene's. *)
Fixpoint filterSem (f : filter_tree) (e : entry) : tri :=
  match f with
  | FAnd fs => fold_right (fun f acc => kand (filterSem f e) acc) matchTrue fs
  | FOr fs => fold_right (fun f acc => kor (filterSem f e) acc) matchFalse fs
  | FNot f => knot (filterSem f e)
  | leaf => evalFilter leaf e
  end.

(** Induction on filters, with the hypothesis for every child. *)
Lemma filter_tree_ind' (P : filter_tree -> Prop) :
  (forall name, P (FPresent name)) -> (forall fs, Forall P fs -> P (FAnd fs)) ->
  (forall fs, Forall P fs -> P (FOr fs)) -> (forall f, P f -> P (FNot f)) ->
  (forall name v b, P (FEqual name v b)) -> (forall name ps, P (FSubstrings name ps)) ->
  forall f, P f.
Proof.
  intros Hp Ha Ho Hn He Hs. fix IH 1. intros [name|fs|fs|f|name v b|name ps].
  - apply Hp.
  - apply Ha. induction fs as [|f fs IHfs]; constructor; [apply IH|apply IHfs].
  - apply Ho. induction fs as [|f fs IHfs]; constructor; [apply IH|apply IHfs].
  - apply Hn, IH.
  - apply He.
  - apply Hs.
Qed.

(** Induction on packets, likewise. *)
Lemma Packet_ind' (P : Packet -> Prop) :
  (forall c k t d v cs, Forall P cs -> P (mkPacket c k t d v cs)) -> forall p, P p.
Proof.
  intros Hp. fix IH 1. intros [c k t d v cs]. apply Hp. induction cs as [|p cs IHcs]; constructor; [apply IH|apply IHcs].
Qed.

Lemma evalFilter_sem f e : evalFilter f e = filterSem f e.
Proof.
  induction f as [name|fs IH|fs IH|f IH|name v b|name ps] using filter_tree_ind'; try done.
  - cbn [filterSem].
    assert (Hgo : forall u, (fix andLoop (fs : list filter_tree) (undefined : bool) : tri :=
        match fs with
        | [] => if undefined then matchUndefined else matchTrue
        | f :: fs => match evalFilter f e with
                     | matchFalse => matchFalse
                     | v => andLoop fs (undefined || bool_decide (v = matchUndefined))
                     end
        end) fs u
      = kand (if u then matchUndefined else matchTrue)
          (fold_right (fun f acc => kand (filterSem f e) acc) matchTrue fs)).
    { induction IH as [|f fs Hf Hfs IHfs]; intros u; [by destruct u|]. cbn [fold_right]. rewrite <- Hf.
      destruct (evalFilter f e); [by destruct u, (fold_right _ _ fs)| |]; rewrite IHfs;
        destruct u, (fold_right _ _ fs); done. }
    etrans; [apply (Hgo false)|]. by destruct (fold_right _ _ fs).
  - cbn [filterSem].
    assert (Hgo : forall u, (fix orLoop (fs : list filter_tree) (undefined : bool) : tri :=
        match fs with
        | [] => if undefined then matchUndefined else matchFalse
        | f :: fs => match evalFilter f e with
                     | matchTrue => matchTrue
                     | v => orLoop fs (undefined || bool_decide (v = matchUndefined))
                     end
        end) fs u
      = kor (if u then matchUndefined else matchFalse)
          (fold_right (fun f acc => kor (filterSem f e) acc) matchFalse fs)).
    { induction IH as [|f fs Hf Hfs IHfs]; intros u; [by destruct u|]. cbn [fold_right]. rewrite <- Hf.
      destruct (evalFilter f e); [|by destruct u, (fold_right _ _ fs)|]; rewrite IHfs;
        destruct u, (fold_right _ _ fs); done. }
    etrans; [apply (Hgo false)|]. by destruct (fold_right _ _ fs).
  - cbn [filterSem evalFilter]. rewrite IH. by destruct (filterSem f e).
Qed.

(** ** What a filter can observe *)

(** Every comparison of a compiled filter that is not undefined is on a known
    attribute. *)
Fixpoint published (f : filter_tree) : bool :=
  match f with
  | FPresent _ | FSubstrings _ _ => true
  | FAnd fs | FOr fs => forallb published fs
  | FNot f => published f
  | FEqual name _ valid => negb valid || knownAttribute name
  end.

Lemma special_known name : isDNAttribute name || isIntAttribute name = true -> knownAttribute name = true.
Proof.
  unfold isDNAttribute, isIntAttribute, knownAttribute. rewrite orb_true_iff, !existsb_exists.
  intros [(x & Hx & Hn)|(x & Hx & Hn)]; exists x; (split; [|done]); cbn in Hx |- *; intuition.
Qed.

Lemma compileFilter_published p f : compileFilter p = Some f -> published f = true.
Proof.
  revert f. induction p as [c k t d v cs IH] using Packet_ind'. intros f. cbn [compileFilter ClassType TagType Tag Data Children].
  destruct (negb (c =? ClassContext)); [done|].
  destruct (t =? FilterPresent); [destruct (_ || _); [done|]; intros E; by simplify_eq|].
  destruct (negb (k =? TypeConstructed)); [done|].
  destruct ((t =? FilterAnd) || _ || _).
  { destruct (_ || _); [done|].
    set (compileAll := fix compileAll (ps : list Packet) : option (list filter_tree) := _).
    assert (Hall : forall fs, compileAll cs = Some fs -> forallb published fs = true).
    { clear -IH. induction IH as [|p cs Hp Hcs IHcs]; intros fs E.
      { injection E as <-. done. }
      assert (E' : match compileFilter p with
                   | Some f => match compileAll cs with Some fs => Some (f :: fs) | None => None end
                   | None => None
                   end = Some fs) by exact E.
      destruct (compileFilter p) as [g|]; [|done]. destruct (compileAll cs) as [gs|]; [|done]. simplify_eq.
      cbn [forallb]. by rewrite (Hp g eq_refl), (IHcs gs eq_refl). }
    destruct (compileAll cs) as [fs|] eqn:Efs; [|done]. specialize (Hall fs eq_refl).
    destruct (t =? FilterNot).
    - destruct fs as [|g fs]; [done|]. intros E. simplify_eq. cbn [forallb] in Hall. by apply andb_true_iff in Hall as [? _].
    - destruct (t =? FilterAnd); intros E; simplify_eq; exact Hall. }
  destruct (t =? FilterEqualityMatch).
  { destruct cs as [|a [|b [|]]]; try done. destruct (_ || _); [done|]. destruct (beq _ []); [done|].
    intros E. simplify_eq. cbn [published].
    destruct (isDNAttribute (ToLower (Data a)) || isIntAttribute (ToLower (Data a))) eqn:Es.
    - rewrite (special_known _ Es). apply orb_true_r.
    - apply orb_false_iff in Es as [-> ->]. by destruct (knownAttribute _). }
  destruct (t =? FilterSubstrings); [|done]. unfold compileSubstrings. cbn [Children].
  destruct cs as [|a [|b [|]]]; try done. destruct (_ || _ || _); [done|]. destruct (beq _ []); [done|].
  destruct (substringParts _ _); [|done]. intros E. by simplify_eq.
Qed.

Lemma evalFilter_agree f e e' :
  published f = true -> (forall name, knownAttribute name = true -> values e name = values e' name) ->
  evalFilter f e = evalFilter f e'.
Proof.
  intros Hp He. rewrite !evalFilter_sem. revert Hp.
  induction f as [name|fs IH|fs IH|f IH|name v b|name ps] using filter_tree_ind'; cbn [published filterSem]; intros Hp.
  - cbn [evalFilter]. destruct (knownAttribute name) eqn:Ek; [|done]. by rewrite (He _ Ek).
  - induction IH as [|f fs Hf Hfs IHfs]; [done|]. apply andb_true_iff in Hp as [Hp1 Hp2].
    cbn [fold_right]. by rewrite (Hf Hp1), (IHfs Hp2).
  - induction IH as [|f fs Hf Hfs IHfs]; [done|]. apply andb_true_iff in Hp as [Hp1 Hp2].
    cbn [fold_right]. by rewrite (Hf Hp1), (IHfs Hp2).
  - by rewrite IH.
  - cbn [evalFilter]. destruct b; [|done]. by rewrite (He name Hp).
  - cbn [evalFilter]. destruct (knownAttribute name) eqn:Ek; [|done]. by rewrite (He _ Ek).
Qed.

End filters.

(** ** What a search sends *)

Section searching.
Context `{LdapLib}.

Definition calm : weather := mkWeather (fun _ => false) (fun _ => false) (fun _ => false) false.

(** The entries a search is about. *)
Definition selected (scope : Z) (base : DN) (f : filter_tree) (es : list entry) : list entry :=
  filter (fun e => inScope scope base e = true /\ evalFilter f e = matchTrue) es.

Lemma searchLoop_calm id scope base f attributes typesOnly limit count i es :
  count <= limit ->
  let ms := selected scope base f es in
  searchLoop calm id scope base f attributes typesOnly limit count i es
  = (map (fun e => entryPacket id e attributes typesOnly) (take (Z.to_nat (limit - count)) ms)
     ++ [WResult id ApplicationSearchResultDone
           (if len ms <=? limit - count then ResultSuccess else ResultSizeLimitExceeded)
           (if len ms <=? limit - count then [] else str "search size limit exceeded")], true).
Proof.
  revert count i. induction es as [|e es IH]; intros count i Hc.
  { change (selected scope base f []) with (@nil entry). cbv zeta. rewrite take_nil.
    destruct (Z.leb_spec (len (@nil entry)) (limit - count)) as [|Hl]; [done|].
    unfold len in Hl. simpl in Hl. lia. }
  cbn [searchLoop calm cancelled late]. unfold selected.
  destruct (inScope scope base e) eqn:Ei; cbn [negb orb].
  2:{ rewrite filter_cons_False by (intros [? _]; congruence). apply IH. lia. }
  destruct (bool_decide_reflect (evalFilter f e = matchTrue)) as [Ef|Ef]; cbn [negb].
  2:{ rewrite filter_cons_False by (intros [_ ?]; congruence). apply IH. lia. }
  rewrite filter_cons_True by done. fold (selected scope base f es).
  pose proof (len_nonneg (selected scope base f es)) as Hlen.
  destruct (Z.eqb_spec count limit) as [->|Hne].
  - rewrite Z.sub_diag. cbn [Z.to_nat take map app]. rewrite len_cons.
    destruct (Z.leb_spec (1 + len (selected scope base f es)) 0); [lia|]. done.
  - specialize (IH (count + 1) (S i) ltac:(lia)). cbn [calm broken]. rewrite IH. f_equal.
    replace (Z.to_nat (limit - count)) with (S (Z.to_nat (limit - (count + 1)))) by lia. cbn [take map app].
    rewrite len_cons. do 4 f_equal.
    + destruct (Z.leb_spec (len (selected scope base f es)) (limit - (count + 1))),
        (Z.leb_spec (1 + len (selected scope base f es)) (limit - count)); try done; lia.
    + f_equal. destruct (Z.leb_spec (len (selected scope base f es)) (limit - (count + 1))),
        (Z.leb_spec (1 + len (selected scope base f es)) (limit - count)); try done; lia.
Qed.

(** In any surroundings, only entries of the list are sent. *)
Lemma done_no_entry wx0 id code m x d attrs : WEntry x d attrs ∉ (done wx0 id code m).1.
Proof.
  unfold done. destruct (doneFails wx0); cbn [fst]; [apply not_elem_of_nil|].
  intros Hin%list_elem_of_singleton. done.
Qed.

Lemma searchLoop_entries wx0 id scope base f attributes typesOnly limit count i es x d attrs :
  WEntry x d attrs ∈ (searchLoop wx0 id scope base f attributes typesOnly limit count i es).1 ->
  x = id /\ exists e, e ∈ es /\ d = dn e.
Proof.
  revert count i. induction es as [|e es IH]; intros count i; cbn [searchLoop].
  { destruct (late wx0 i); intros Hin; by apply done_no_entry in Hin. }
  assert (Hlift : (x = id /\ exists e', e' ∈ es /\ d = dn e') -> x = id /\ exists e', e' ∈ e :: es /\ d = dn e').
  { intros (Hx & e' & He & Hd). split; [done|]. exists e'. split; [by right|done]. }
  destruct (cancelled wx0 i); [intros Hin; by apply not_elem_of_nil in Hin|].
  destruct (late wx0 i); [intros Hin; by apply done_no_entry in Hin|].
  destruct (negb (inScope scope base e) || _); [intros Hin; by eapply Hlift, IH|].
  destruct (count =? limit); [intros Hin; by apply done_no_entry in Hin|].
  destruct (broken wx0 i); [intros Hin; by apply not_elem_of_nil in Hin|].
  specialize (IH (count + 1) (S i)).
  destruct (searchLoop wx0 id scope base f attributes typesOnly limit (count + 1) (S i) es) as [ws alive].
  cbn [fst] in *. intros [Heq|Hin]%elem_of_cons; [|by apply Hlift, IH].
  unfold entryPacket in Heq. simplify_eq. split; [done|]. exists e. by split; [left|].
Qed.

Lemma search_id s wx0 id op can x d attrs : WEntry x d attrs ∈ (search s wx0 id op can).1 -> x = id.
Proof.
  unfold search, malformed. destruct (Children op) as [|a0 [|a1 [|a2 [|a3 [|a4 [|a5 [|a6 [|a7 [|]]]]]]]]];
    try (intros Hin; by apply done_no_entry in Hin).
  destruct (_ || _); [intros Hin; by apply done_no_entry in Hin|].
  destruct (integer a1 TagEnumerated) as [z|], (integer a2 TagEnumerated), (integer a3 TagInteger), (integer a4 TagInteger);
    try (intros Hin; by apply done_no_entry in Hin).
  destruct (_ || _); [intros Hin; by apply done_no_entry in Hin|].
  destruct (ParseDN (Data a0)) as [base|]; [|intros Hin; by apply done_no_entry in Hin].
  set (root := (RDN_count base =? 0) && (z =? ScopeBaseObject)). destruct (negb root && negb can); [intros Hin; by apply done_no_entry in Hin|].
  destruct (compileFilter a6); [|intros Hin; by apply done_no_entry in Hin].
  destruct (selection _); [|intros Hin; by apply done_no_entry in Hin].
  destruct (negb (existsb _ _)); [intros Hin; by apply done_no_entry in Hin|].
  by intros [-> _]%searchLoop_entries.
Qed.

Lemma search_root_only s wx0 id op x d attrs :
  WEntry x d attrs ∈ (search s wx0 id op false).1 -> d = [].
Proof.
  unfold search, malformed. destruct (Children op) as [|a0 [|a1 [|a2 [|a3 [|a4 [|a5 [|a6 [|a7 [|]]]]]]]]];
    try (intros Hin; by apply done_no_entry in Hin).
  destruct (_ || _); [intros Hin; by apply done_no_entry in Hin|].
  destruct (integer a1 TagEnumerated) as [z|], (integer a2 TagEnumerated), (integer a3 TagInteger), (integer a4 TagInteger);
    try (intros Hin; by apply done_no_entry in Hin).
  destruct (_ || _); [intros Hin; by apply done_no_entry in Hin|].
  destruct (ParseDN (Data a0)) as [base|]; [|intros Hin; by apply done_no_entry in Hin].
  destruct ((RDN_count base =? 0) && (z =? ScopeBaseObject)); cbn [negb andb];
    [|intros Hin; by apply done_no_entry in Hin].
  destruct (compileFilter a6); [|intros Hin; by apply done_no_entry in Hin].
  destruct (selection _); [|intros Hin; by apply done_no_entry in Hin].
  destruct (negb (existsb _ _)); [intros Hin; by apply done_no_entry in Hin|].
  intros (_ & e & He & ->)%searchLoop_entries. apply list_elem_of_singleton in He as ->. done.
Qed.

(** ** One message *)

Definition is_bind (a : arrival) : Prop :=
  exists id op, requestEnvelope (packet a) = Some (id, op) /\ Tag op = ApplicationBindRequest.
Definition authorises (s : LdapServer) (a : arrival) : Prop :=
  exists id op, requestEnvelope (packet a) = Some (id, op) /\ Tag op = ApplicationBindRequest /\
    (bind s (sl a) op).2 = true.

(** The message is a search that, once authorised, is answered with the entry. *)
Definition finds_entry (s : LdapServer) (b : arrival) (x : Z) (d : bytes) (attrs : list (bytes * list bytes)) : Prop :=
  exists op, requestEnvelope (packet b) = Some (x, op) /\ Tag op = ApplicationSearchRequest /\
    WEntry x d attrs ∈ (search s (wx b) x op true).1.

Lemma handleMessage_spec s c a ws next :
  handleMessage s c a = (ws, next) ->
  (forall x d attrs, WEntry x d attrs ∈ ws -> d <> [] -> canSearch c = true /\ finds_entry s a x d attrs) /\
  (forall c', next = Some c' -> canSearch c' = true -> authorises s a \/ (~ is_bind a /\ canSearch c = true)).
Proof.
  unfold handleMessage. destruct (requestEnvelope (packet a)) as [[id op]|] eqn:Ee.
  2:{ intros E. simplify_eq. split; [intros x d attrs Hin; by apply not_elem_of_nil in Hin|done]. }
  assert (Hnb : Tag op <> ApplicationBindRequest -> ~ is_bind a).
  { intros Hn (id' & op' & E' & Ht). rewrite Ee in E'. by simplify_eq. }
  assert (Hnil : forall x d attrs, WEntry x d attrs ∈ (@nil ldapWrite) -> d <> [] -> canSearch c = true /\ finds_entry s a x d attrs)
    by (intros x d attrs Hin; by apply not_elem_of_nil in Hin).
  destruct (Z.eqb_spec (Tag op) ApplicationUnbindRequest); [intros E; by simplify_eq|].
  destruct (Z.eqb_spec (Tag op) ApplicationAbandonRequest) as [Ea|].
  { intros E. simplify_eq. split; [done|]. intros c' E' Hc. simplify_eq. right. split; [|done].
    apply Hnb. by rewrite Ea. }
  destruct (responseType (Tag op)) as [rt|]; [|intros E; by simplify_eq].
  destruct (Z.eqb_spec (Tag op) ApplicationBindRequest) as [Eb|Eb]; cbv zeta.
  - destruct (negb _).
    { destruct (writeFails a); intros E; simplify_eq; (split; [|try done; intros c' E' Hc; by simplify_eq]); try done.
      intros x d attrs Hin%list_elem_of_singleton. done. }
    cbn [canSearch attempts]. destruct (maxBindAttempts <? _).
    { destruct (writeFails a); intros E; simplify_eq; split; try done. intros x d attrs Hin%list_elem_of_singleton. done. }
    destruct (bind s (sl a) op) as [code allowed] eqn:Ebind.
    destruct (writeFails a); intros E; simplify_eq; split; try done.
    + intros x d attrs Hin%list_elem_of_singleton. done.
    + intros c' E' Hc. simplify_eq. cbn in Hc. subst. left. exists id, op. by rewrite Ebind.
  - specialize (Hnb Eb). destruct (negb _).
    { destruct (writeFails a); intros E; simplify_eq; (split; [|intros c' E' Hc; simplify_eq; auto]); try done.
      intros x d attrs Hin%list_elem_of_singleton. done. }
    destruct (Z.eqb_spec (Tag op) ApplicationSearchRequest) as [Et|_].
    + destruct (search s (wx a) id op (canSearch c)) as [ws' alive] eqn:Es. intros E. simplify_eq. split.
      * intros x d attrs Hin Hd. assert (x = id) as -> by (apply (search_id s (wx a) id op (canSearch c) x d attrs); by rewrite Es).
        destruct (canSearch c) eqn:Ec; [split; [done|]; exists op; by rewrite Es|].
        exfalso. apply Hd. eapply (search_root_only s (wx a) id op id). by rewrite Es.
      * intros c' E' Hc. destruct alive; simplify_eq. auto.
    + destruct (writeFails a); intros E; simplify_eq; (split; [|intros c' E' Hc; simplify_eq; auto]); try done.
      intros x d attrs Hin%list_elem_of_singleton. done.
Qed.

(** ** A whole connection *)

Lemma connection_entries s c arrivals x d attrs :
  WEntry x d attrs ∈ handleConnection s c arrivals -> d <> [] ->
  exists mid b after, finds_entry s b x d attrs /\ Forall (fun m => ~ is_bind m) mid /\
    (canSearch c = true /\ arrivals = mid ++ b :: after \/
     exists before a, authorises s a /\ arrivals = before ++ a :: mid ++ b :: after).
Proof.
  intros Hin Hd. revert c Hin. induction arrivals as [|a arrivals IH]; intros c; cbn [handleConnection].
  { intros Hin. by apply not_elem_of_nil in Hin. }
  destruct (handleMessage s c a) as [ws next] eqn:Em. destruct (handleMessage_spec _ _ _ _ _ Em) as [Hent Hnext].
  intros Hin. assert (Hin' : WEntry x d attrs ∈ ws \/ exists c', next = Some c' /\ WEntry x d attrs ∈ handleConnection s c' arrivals).
  { destruct next as [c'|]; [apply elem_of_app in Hin as [?|?]; [by left|right; by exists c']|by left]. }
  clear Hin. destruct Hin' as [Hw|(c' & Hn & Hin)].
  { destruct (Hent _ _ _ Hw Hd) as [Hc Hb]. exists [], a, arrivals. split; [done|]. split; [constructor|by left]. }
  destruct (IH _ Hin) as (mid & b & after & Hb & Hmid & [[Hc' ->]|(before & a' & Ha & ->)]).
  - destruct (Hnext c' Hn Hc') as [Ha|[Hnb Hc]].
    + exists mid, b, after. split; [done|]. split; [done|]. right. by exists [], a.
    + exists (a :: mid), b, after. split; [done|]. split; [by constructor|]. by left.
  - exists mid, b, after. split; [done|]. split; [done|]. right. by exists (a :: before), a'.
Qed.

(** The credentials of a simple bind: the account it names and its password. *)
Definition credentials_of (s : LdapServer) (op : Packet) (user : account) (password : bytes) : Prop :=
  exists vp np auth dname, Children op = [vp; np; auth] /\ integer vp TagInteger = Some 3 /\ octetString np = true /\
    isPacket auth ClassContext TypePrimitive 0 = true /\ ParseDN (Data np) = Some dname /\
    find (fun u => accountIs u dname) (users s) = Some user /\ Data auth = password.

(** A bind that authorises searches named an enabled account that may search,
    with its password. *)
Lemma bind_authorised s sl0 op :
  (bind s sl0 op).2 = true ->
  exists user password, credentials_of s op user password /\ a_disabled user = false /\
    a_canSearch user = true /\ password <> [] /\ validPassword user password = true.
Proof.
  unfold bind. destruct (Children op) as [|vp [|np [|auth [|]]]] eqn:Ec; try done.
  destruct (negb (TagType op =? _)); [done|]. destruct (_ || _) eqn:E1; [done|]. destruct (_ || _ || _) eqn:E2; [done|].
  destruct (beq (Data np) [] && _); [done|].
  destruct (beq (Data np) [] || (len (Data auth) =? 0) || _) eqn:Eg; [done|].
  apply orb_false_iff in Eg as [[_ Eg]%orb_false_iff _].
  destruct (ParseDN (Data np)) as [d|] eqn:Ed; [|done]. destruct sl0; try done.
  destruct (find _ _) as [user|] eqn:Ef; [|done].
  destruct (validPassword user (Data auth)) eqn:Ev; [|done]. intros Hc. exists user, (Data auth). split.
  - exists vp, np, auth, d. apply orb_false_iff in E1 as [E1%negb_false_iff E1'%negb_false_iff].
    bool_hyps. split; [done|]. split; [destruct (integer vp TagInteger); [|done]; f_equal; by apply Z.eqb_eq|].
    split; [done|]. split; [|done]. unfold isPacket. by rewrite !(proj2 (Z.eqb_eq _ _)).
  - apply find_some in Ef as [_ Ha]. unfold accountIs in Ha. apply andb_true_iff in Ha as [_ Hdis%negb_true_iff].
    split_and!; try done. intros E. by rewrite E in Eg.
Qed.

End searching.

(** ** BER *)

(** The header of an element: its tag byte, and the length of its content in the
    short form or in one to four further bytes. *)
Inductive ber_header (tag n : Z) : bytes -> Prop :=
| short_header : n < 128 -> ber_header tag n [tag; n]
| long_header k ls : 1 <= k <= 4 -> len ls = k -> be_decode ls = n -> ber_header tag n (tag :: (128 + k) :: ls).

(** The primitive universal types LDAP uses, with their content lengths. *)
Definition primitive_ok (tag n : Z) : Prop :=
  Z.land tag 192 = 0 ->
  (Z.land tag 31 = TagBoolean /\ n = 1) \/
  ((Z.land tag 31 = TagInteger \/ Z.land tag 31 = TagEnumerated) /\ 1 <= n <= 4) \/
  Z.land tag 31 = TagOctetString \/ Z.land tag 31 = TagNULL.

(** [data] is a sequence of properly nested elements, [count] of them in all, at
    nesting depth [depth]. *)
Inductive nested : Z -> bytes -> Z -> Prop :=
| nested_nil depth : depth < maxBERDepth -> nested depth [] 0
| nested_primitive depth tag header content rest count :
    depth < maxBERDepth -> ber_header tag (len content) header -> Z.land tag 31 <> 31 ->
    Z.land tag 32 = 0 -> primitive_ok tag (len content) -> nested depth rest count ->
    nested depth (header ++ content ++ rest) (1 + count)
| nested_constructed depth tag header content rest inner count :
    depth < maxBERDepth -> ber_header tag (len content) header -> Z.land tag 31 <> 31 ->
    Z.land tag 32 <> 0 -> nested (depth + 1) content inner -> nested depth rest count ->
    nested depth (header ++ content ++ rest) (1 + inner + count).

Lemma ber_header_len tag n header : ber_header tag n header -> 2 <= len header.
Proof. destruct 1 as [|k ls Hk Hl _]; rewrite !len_cons; [unfold len; simpl; lia|lia]. Qed.

(** How the validator reads a header. *)
Definition header_size (data : bytes) : Z :=
  if longForm (at_ data 1) then 2 + longCount (at_ data 1) else 2.
Definition content_size (data : bytes) : Z :=
  if longForm (at_ data 1) then be_decode (slice 2 (Z.to_nat (header_size data)) data) else at_ data 1.
Definition header_ok (data : bytes) : bool :=
  negb ((len data <? 2) || (Z.land (at_ data 0) 31 =? 31))
  && negb (longForm (at_ data 1) && ((longCount (at_ data 1) =? 0) || (4 <? longCount (at_ data 1))
           || (len data <? 2 + longCount (at_ data 1))))
  && negb ((content_size data <? 0) || (len data - header_size data <? content_size data)).

Definition primitive_okb (tag n : Z) : bool :=
  if Z.land tag 192 =? 0 then
    let t := Z.land tag 31 in
    if t =? TagBoolean then n =? 1
    else if (t =? TagInteger) || (t =? TagEnumerated) then negb ((n <? 1) || (4 <? n))
    else (t =? TagOctetString) || (t =? TagNULL)
  else true.

Lemma primitive_okb_spec tag n : primitive_okb tag n = true <-> primitive_ok tag n.
Proof.
  unfold primitive_okb, primitive_ok. destruct (Z.eqb_spec (Z.land tag 192) 0) as [E|E]; [|naive_solver].
  cbv zeta. set (t := Z.land tag 31).
  destruct (Z.eqb_spec t TagBoolean) as [->|H1].
  { rewrite Z.eqb_eq. split; [auto|]. intros Hp. destruct (Hp E) as [[_ ?]|[[[|] _]|[|]]]; done. }
  destruct (Z.eqb_spec t TagInteger) as [->|H2].
  { cbn [orb]. rewrite negb_true_iff, orb_false_iff, Z.ltb_ge, Z.ltb_ge. split; [intros; right; left; auto|].
    intros Hp. destruct (Hp E) as [[? _]|[[_ ?]|[|]]]; done. }
  destruct (Z.eqb_spec t TagEnumerated) as [->|H3].
  { cbn [orb]. rewrite negb_true_iff, orb_false_iff, Z.ltb_ge, Z.ltb_ge. split; [intros; right; left; auto|].
    intros Hp. destruct (Hp E) as [[? _]|[[_ ?]|[|]]]; done. }
  cbn [orb]. rewrite orb_true_iff, !Z.eqb_eq. split; [tauto|]. intros Hp. destruct (Hp E) as [[? _]|[[[|] _]|[|]]]; tauto.
Qed.

(** One element of the validator, in terms of the two readings above. *)
Lemma validateBER_step k data depth nodes :
  data <> [] -> depth < maxBERDepth ->
  validateBER (S k) data depth nodes =
  if (maxBERNodes <? nodes + 1) || negb (header_ok data) then None
  else
    let size := header_size data + content_size data in
    let content := slice (Z.to_nat (header_size data)) (Z.to_nat size) data in
    match (if negb (Z.land (at_ data 0) 32 =? 0) then validateBER k content (depth + 1) (nodes + 1)
           else if primitive_okb (at_ data 0) (content_size data) then Some (nodes + 1) else None) with
    | None => None
    | Some nodes => validateBER k (drop (Z.to_nat size) data) depth nodes
    end.
Proof.
  intros Hne Hd. cbn [validateBER]. rewrite (proj2 (Z.leb_gt _ _) Hd). destruct data as [|b data]; [done|].
  set (all := b :: data). unfold header_ok, content_size, header_size, primitive_okb. cbv zeta.
  destruct (maxBERNodes <? nodes + 1); [done|]. cbn [orb].
  destruct ((len all <? 2) || (Z.land (at_ all 0) 31 =? 31)); [done|]. cbn [negb andb].
  destruct (longForm (at_ all 1)); cbn [andb].
  - destruct ((longCount (at_ all 1) =? 0) || _ || _); [done|]. cbn [negb andb].
    destruct (_ || (len all - (2 + longCount (at_ all 1)) <? _)); [done|]. cbn [negb].
    destruct (negb (Z.land (at_ all 0) 32 =? 0)); [done|]. destruct (Z.land (at_ all 0) 192 =? 0); [|done].
    destruct (_ =? TagBoolean); [by destruct (_ =? 1)|]. destruct (_ || _); [by destruct (_ || _)|].
    by destruct (_ || _).
  - cbn [negb andb]. destruct (_ || (len all - 2 <? _)); [done|]. cbn [negb].
    destruct (negb (Z.land (at_ all 0) 32 =? 0)); [done|]. destruct (Z.land (at_ all 0) 192 =? 0); [|done].
    destruct (_ =? TagBoolean); [by destruct (_ =? 1)|]. destruct (_ || _); [by destruct (_ || _)|].
    by destruct (_ || _).
Qed.

Lemma byte_forms b : 0 <= b < 256 -> longForm b = (128 <=? b) /\ longCount b = b mod 128.
Proof.
  intros Hb. unfold longForm, longCount. split.
  - assert (Hall : forallb (fun b => Bool.eqb (negb (Z.land b 128 =? 0)) (128 <=? b)) (seqZ 0 256) = true)
      by (vm_compute; reflexivity).
    rewrite forallb_forall in Hall. apply Bool.eqb_prop, Hall, list_elem_of_In, elem_of_seqZ. lia.
  - change 127 with (Z.ones 7). by rewrite Z.land_ones.
Qed.

Lemma slice_app3 (a b c : bytes) : slice (length a) (length a + length b) (a ++ b ++ c) = b.
Proof.
  unfold slice. rewrite drop_app_length. replace (length a + length b - length a)%nat with (length b) by lia.
  apply take_app_length.
Qed.

(** Reading a header that is there. *)
Lemma header_read tag header content rest :
  ber_header tag (len content) header -> 0 <= tag < 256 -> Z.land tag 31 <> 31 ->
  let data := header ++ content ++ rest in
  at_ data 0 = tag /\ header_size data = len header /\ content_size data = len content /\ header_ok data = true.
Proof.
  intros Hh Htag H31 data. pose proof (len_nonneg content) as Hc. pose proof (len_nonneg rest) as Hr.
  destruct Hh as [Hn|k ls Hk Hl Hdec].
  - assert (Ht : at_ data 0 = tag) by done. assert (Ha1 : at_ data 1 = len content) by done.
    destruct (byte_forms (len content) ltac:(lia)) as [Hf _]. rewrite (proj2 (Z.leb_gt _ _)) in Hf by lia.
    assert (Hhs : header_size data = 2) by (unfold header_size; by rewrite Ha1, Hf).
    assert (Hcs : content_size data = len content) by (unfold content_size; by rewrite Ha1, Hf).
    split_and!; try done. unfold header_ok. rewrite Hhs, Hcs, Ht, Ha1, Hf. cbn [andb negb].
    unfold data. rewrite !len_app. change (len [tag; len content]) with 2.
    destruct (Z.ltb_spec (2 + (len content + len rest)) 2), (Z.eqb_spec (Z.land tag 31) 31),
      (Z.ltb_spec (len content) 0), (Z.ltb_spec (2 + (len content + len rest) - 2) (len content)); try done; lia.
  - assert (Ht : at_ data 0 = tag) by done. assert (Ha1 : at_ data 1 = 128 + k) by done.
    destruct (byte_forms (128 + k) ltac:(lia)) as [Hf Hm]. rewrite (proj2 (Z.leb_le _ _)) in Hf by lia.
    replace ((128 + k) mod 128) with k in Hm by (rewrite Z.add_comm, <- (Z.mul_1_l 128) at 1; rewrite Z_mod_plus_full, Z.mod_small; lia).
    assert (Hhs : header_size data = 2 + k) by (unfold header_size; by rewrite Ha1, Hf, Hm).
    assert (Hsl : slice 2 (Z.to_nat (2 + k)) data = ls).
    { unfold data. cbn [app]. change (tag :: 128 + k :: ls ++ content ++ rest) with ([tag; 128 + k] ++ ls ++ content ++ rest).
      replace (Z.to_nat (2 + k)) with (length [tag; (128 + k)%Z] + length ls)%nat by (unfold len in Hl; simpl; lia).
      apply (slice_app3 [tag; 128 + k]). }
    assert (Hcs : content_size data = len content) by (unfold content_size; rewrite Hhs, Ha1, Hf, Hsl; done).
    split_and!; try done; [rewrite Hhs, !len_cons, Hl; lia|].
    unfold header_ok. rewrite Hhs, Hcs, Ht, Ha1, Hf, Hm. unfold data. cbn [app]. rewrite !len_cons, !len_app, Hl.
    destruct (Z.ltb_spec (1 + (1 + (k + (len content + len rest)))) 2), (Z.eqb_spec (Z.land tag 31) 31),
      (Z.eqb_spec k 0), (Z.ltb_spec 4 k), (Z.ltb_spec (1 + (1 + (k + (len content + len rest)))) (2 + k)),
      (Z.ltb_spec (len content) 0), (Z.ltb_spec (1 + (1 + (k + (len content + len rest))) - (2 + k)) (len content));
      try done; lia.
Qed.

(** A header the validator accepts is one. *)
Lemma header_split data :
  wf_bytes data -> header_ok data = true ->
  exists header content rest, data = header ++ content ++ rest /\
    ber_header (at_ data 0) (len content) header /\ len header = header_size data /\
    len content = content_size data /\ Z.land (at_ data 0) 31 <> 31 /\ 0 <= at_ data 0 < 256.
Proof.
  intros Hwf Hok. unfold header_ok in Hok. rewrite !andb_true_iff, !negb_true_iff, !orb_false_iff, !Z.ltb_ge, Z.eqb_neq in Hok.
  destruct Hok as [[[Hlen H31] Hlong] [Hc0 Hc1]].
  destruct data as [|tag [|second data]]; [unfold len in Hlen; simpl in Hlen; lia..|].
  apply Forall_cons in Hwf as [Htag Hwf]. apply Forall_cons in Hwf as [Hsec Hwf]. rewrite !len_cons in *.
  change (at_ (tag :: second :: data) 0) with tag in *.
  unfold content_size, header_size in *. change (at_ (tag :: second :: data) 1) with second in *.
  destruct (byte_forms second Hsec) as [Hf Hm]. pose proof (Z.mod_pos_bound second 128 ltac:(lia)) as Hmod.
  destruct (Z.leb_spec 128 second) as [Hbig|Hsmall]; rewrite Hf in *.
  - cbn [andb] in Hlong. rewrite !orb_false_iff, Z.eqb_neq, !Z.ltb_ge in Hlong. destruct Hlong as [[Hk0 Hk4] Hkl].
    set (k := longCount second) in *. assert (Hk : 1 <= k <= 4) by lia.
    assert (Hsec' : second = 128 + k).
    { rewrite Hm. pose proof (Z.div_mod second 128). assert (second / 128 = 1) by (symmetry; apply Z.div_unique with (second - 128); lia). lia. }
    assert (Hsl : slice 2 (Z.to_nat (2 + k)) (tag :: second :: data) = take (Z.to_nat k) data).
    { unfold slice. cbn [drop]. f_equal. lia. }
    rewrite Hsl in *. set (n := be_decode (take (Z.to_nat k) data)) in *.
    exists (tag :: second :: take (Z.to_nat k) data), (take (Z.to_nat n) (drop (Z.to_nat k) data)),
      (drop (Z.to_nat n) (drop (Z.to_nat k) data)).
    assert (Hlk : len (take (Z.to_nat k) data) = k) by (unfold len in *; rewrite length_take; lia).
    assert (Hln : len (take (Z.to_nat n) (drop (Z.to_nat k) data)) = n).
    { unfold len in *. rewrite length_take, length_drop. lia. }
    rewrite Hln, !len_cons, Hlk. split_and!; try done; try lia.
    + cbn [app]. by rewrite !take_drop.
    + rewrite Hsec'. by apply (long_header tag n k).
  - exists [tag; second], (take (Z.to_nat second) data), (drop (Z.to_nat second) data).
    assert (Hln : len (take (Z.to_nat second) data) = second) by (unfold len in *; rewrite length_take; lia).
    rewrite Hln. split_and!; try done; [cbn [app]; by rewrite take_drop|by apply short_header|lia|lia].
Qed.

(** Splitting the validator's data at an element. *)
Lemma element_split header content rest :
  let size := len header + len content in
  slice (Z.to_nat (len header)) (Z.to_nat size) (header ++ content ++ rest) = content /\
  drop (Z.to_nat size) (header ++ content ++ rest) = rest.
Proof.
  intros size. unfold size, len. replace (Z.to_nat (Z.of_nat (length header))) with (length header) by lia.
  replace (Z.to_nat (Z.of_nat (length header) + Z.of_nat (length content))) with (length header + length content)%nat by lia.
  split; [apply slice_app3|]. rewrite <- drop_drop, drop_app_length. apply drop_app_length.
Qed.

Lemma validateBER_sound fuel data depth nodes n :
  wf_bytes data -> nodes <= maxBERNodes -> validateBER fuel data depth nodes = Some n ->
  nodes <= n <= maxBERNodes /\ nested depth data (n - nodes).
Proof.
  revert data depth nodes n. induction fuel as [|k IH]; intros data depth nodes n Hwf Hn E; [done|].
  destruct (Z.lt_ge_cases depth maxBERDepth) as [Hd|Hd].
  2:{ cbn [validateBER] in E. by rewrite (proj2 (Z.leb_le _ _) Hd) in E. }
  destruct (decide (data = [])) as [->|Hne].
  { cbn [validateBER] in E. rewrite (proj2 (Z.leb_gt _ _) Hd) in E. simplify_eq. split; [lia|].
    rewrite Z.sub_diag. by constructor. }
  rewrite (validateBER_step k data depth nodes Hne Hd) in E.
  destruct (maxBERNodes <? nodes + 1) eqn:Emax; [done|]. apply Z.ltb_ge in Emax. cbn [orb] in E.
  destruct (header_ok data) eqn:Eok; [|done]. cbn [negb] in E. cbv zeta in E.
  destruct (header_split data Hwf Eok) as (header & content & rest & Edata & Hh & Hls & Hlc & H31 & Htag).
  rewrite <- Hls, <- Hlc in E. set (tag := at_ data 0) in *. clearbody tag. clear Eok Hls Hlc. subst data.
  destruct (element_split header content rest) as [Hs1 Hs2]. rewrite Hs1, Hs2 in E.
  apply Forall_app in Hwf as [_ [Hwc Hwr]%Forall_app].
  destruct (Z.eqb_spec (Z.land tag 32) 0) as [Hp|Hp]; cbn [negb] in E.
  - destruct (primitive_okb tag (len content)) eqn:Epr; [|done]. apply primitive_okb_spec in Epr.
    destruct (IH _ _ _ _ Hwr Emax E) as [Hb Hr]. split; [lia|].
    replace (n - nodes) with (1 + (n - (nodes + 1))) by lia. by eapply nested_primitive.
  - destruct (validateBER k content (depth + 1) (nodes + 1)) as [n1|] eqn:Ec; [|done].
    destruct (IH _ _ _ _ Hwc Emax Ec) as [Hb1 Hr1]. destruct (IH _ _ _ _ Hwr (proj2 Hb1) E) as [Hb2 Hr2].
    split; [lia|]. replace (n - nodes) with (1 + (n1 - (nodes + 1)) + (n - n1)) by lia.
    by eapply nested_constructed.
Qed.

Lemma nested_nonneg depth data count : nested depth data count -> 0 <= count.
Proof. induction 1; lia. Qed.

Lemma header_tag tag n header content rest :
  ber_header tag n header -> wf_bytes (header ++ content ++ rest) -> 0 <= tag < 256.
Proof. destruct 1; cbn [app]; by intros [? _]%Forall_cons. Qed.

(** The reading of an element that is there, as one step of the validator. *)
Lemma validateBER_element k tag header content rest depth nodes :
  depth < maxBERDepth -> ber_header tag (len content) header -> Z.land tag 31 <> 31 ->
  wf_bytes (header ++ content ++ rest) -> nodes + 1 <= maxBERNodes ->
  validateBER (S k) (header ++ content ++ rest) depth nodes =
  match (if negb (Z.land tag 32 =? 0) then validateBER k content (depth + 1) (nodes + 1)
         else if primitive_okb tag (len content) then Some (nodes + 1) else None) with
  | None => None
  | Some nodes => validateBER k rest depth nodes
  end.
Proof.
  intros Hd Hh H31 Hwf Hn.
  assert (Hne : header ++ content ++ rest <> []) by by destruct Hh.
  rewrite (validateBER_step k _ depth nodes Hne Hd).
  destruct (header_read tag header content rest Hh (header_tag _ _ _ _ _ Hh Hwf) H31) as (Ht & Hhs & Hcs & Hok).
  rewrite Ht, Hhs, Hcs, Hok. rewrite (proj2 (Z.ltb_ge _ _) Hn). cbn [orb negb]. cbv zeta.
  by destruct (element_split header content rest) as [-> ->].
Qed.

Lemma validateBER_complete depth data count :
  nested depth data count -> wf_bytes data ->
  forall fuel nodes, (length data < fuel)%nat -> nodes + count <= maxBERNodes ->
  validateBER fuel data depth nodes = Some (nodes + count).
Proof.
  induction 1 as [depth Hd|depth tag header content rest count Hd Hh H31 Hp Hpr Hr IH
                 |depth tag header content rest inner count Hd Hh H31 Hp Hc IHc Hr IHr]; intros Hwf fuel nodes Hf Hn.
  - destruct fuel; [simpl in Hf; lia|]. cbn [validateBER]. rewrite (proj2 (Z.leb_gt _ _) Hd). f_equal. lia.
  - destruct fuel as [|k]; [lia|]. apply nested_nonneg in Hr as Hcnt.
    rewrite (validateBER_element k tag) by (done || lia).
    rewrite (proj2 (Z.eqb_eq _ _) Hp), (proj2 (primitive_okb_spec _ _) Hpr). cbn [negb].
    apply Forall_app in Hwf as [_ [_ Hwr]%Forall_app]. pose proof (ber_header_len _ _ _ Hh) as Hhl.
    rewrite !length_app in Hf. unfold len in Hhl. rewrite (IH Hwr k (nodes + 1)) by lia. f_equal. lia.
  - destruct fuel as [|k]; [lia|]. apply nested_nonneg in Hr as Hcnt. apply nested_nonneg in Hc as Hinn.
    rewrite (validateBER_element k tag) by (done || lia). rewrite (proj2 (Z.eqb_neq _ _) Hp). cbn [negb].
    apply Forall_app in Hwf as [_ [Hwc Hwr]%Forall_app]. pose proof (ber_header_len _ _ _ Hh) as Hhl.
    rewrite !length_app in Hf. unfold len in Hhl.
    rewrite (IHc Hwc k (nodes + 1)) by lia. rewrite (IHr Hwr k) by lia. f_equal. lia.
Qed.

(** ** Properties *)

(** C36: A compiled filter evaluates by Kleene's three-valued logic, short cuts
    and all, and depends only on the published attributes of an entry: two
    entries that agree on those are indistinguishable to every filter, so no
    search can probe a password hash or any other unpublished attribute. *)
Theorem filters_see_only_published `{LdapLib} p f e e' :
  compileFilter p = Some f ->
  (forall name, knownAttribute name = true -> values e name = values e' name) ->
  evalFilter f e = filterSem f e /\ evalFilter f e = evalFilter f e'.
Proof.
  intros Hp He. split; [apply evalFilter_sem|]. apply evalFilter_agree; [by eapply compileFilter_published|done].
Qed.

Lemma filters_see_only_published_witness :
  exists f, compileFilter (mkPacket ClassContext TypeConstructed FilterNot [] VNone
      [mkPacket ClassContext TypeConstructed FilterEqualityMatch [] VNone [octets (str "userPassword"); octets (str "x")]]) = Some f /\
    evalFilter f (newEntry [] ∅) = evalFilter f (newEntry [] {[ str "userPassword" := [str "x"] ]}).
Proof.
  eexists. split; [vm_compute; reflexivity|].
  apply (filters_see_only_published (mkPacket ClassContext TypeConstructed FilterNot [] VNone
      [mkPacket ClassContext TypeConstructed FilterEqualityMatch [] VNone [octets (str "userPassword"); octets (str "x")]]));
    [vm_compute; reflexivity|].
  intros name Hk. unfold knownAttribute in Hk. apply existsb_exists in Hk as (x & Hx & Hn).
  apply beq_true in Hn. subst x. cbn in Hx.
  repeat (destruct Hx as [<-|Hx]; [vm_compute; reflexivity|]). destruct Hx.
Defined.

(** An undisturbed search returns exactly the entries of its list that are in
    scope and match its filter, in directory order, up to the limit, and reports
    an exceeded size limit exactly when there were more. *)
Theorem search_exact `{LdapLib} id scope base f attributes typesOnly limit es :
  0 <= limit ->
  let ms := filter (fun e => inScope scope base e = true /\ evalFilter f e = matchTrue) es in
  searchLoop calm id scope base f attributes typesOnly limit 0 0 es
  = (map (fun e => entryPacket id e attributes typesOnly) (take (Z.to_nat limit) ms)
     ++ [WResult id ApplicationSearchResultDone
           (if len ms <=? limit then ResultSuccess else ResultSizeLimitExceeded)
           (if len ms <=? limit then [] else str "search size limit exceeded")], true).
Proof.
  intros Hl ms. pose proof (searchLoop_calm id scope base f attributes typesOnly limit 0 0 es Hl) as Hs.
  cbv zeta in Hs. by rewrite Z.sub_0_r in Hs.
Qed.

Lemma search_exact_witness :
  (searchLoop calm 2 ScopeWholeSubtree [str "dc=lab"] (FPresent (str "uid")) [] false 1000 0 0 (entries demo_dir)).2 = true /\
  len (searchLoop calm 2 ScopeWholeSubtree [str "dc=lab"] (FPresent (str "uid")) [] false 1000 0 0 (entries demo_dir)).1 = 2.
Proof.
  split; [exact (f_equal snd (search_exact 2 ScopeWholeSubtree [str "dc=lab"] (FPresent (str "uid")) [] false 1000
    (entries demo_dir) ltac:(lia)))|vm_compute; reflexivity].
Defined.

(** C10: On a new connection, whatever is received, an entry other than the root
    DSE is sent only in answer to a search [b], which it carries the identifier of,
    after a bind [a] that authorised it: a simple bind of version 3 that named an
    enabled account allowed to search, the first enabled one of that name, with its
    non-empty password, and that was not followed by any other bind, even a
    malformed one. *)
Theorem entries_need_authorised_bind `{LdapLib} s arrivals x d attrs :
  WEntry x d attrs ∈ handleConnection s (mkConnection false 0) arrivals -> d <> [] ->
  exists before a mid b after, arrivals = before ++ a :: mid ++ b :: after /\
    (exists id op user password, requestEnvelope (packet a) = Some (id, op) /\ Tag op = ApplicationBindRequest /\
       credentials_of s op user password /\ a_disabled user = false /\ a_canSearch user = true /\
       password <> [] /\ validPassword user password = true) /\
    Forall (fun m => ~ is_bind m) mid /\
    (exists op, requestEnvelope (packet b) = Some (x, op) /\ Tag op = ApplicationSearchRequest /\
       WEntry x d attrs ∈ (search s (wx b) x op true).1).
Proof.
  intros Hin Hd. destruct (connection_entries _ _ _ _ _ _ Hin Hd) as (mid & b & after & Hb & Hm & [[? _]|(before & a & Ha & ->)]);
    [done|]. destruct Ha as (id & op & He & Ht & (user & password & Hu)%bind_authorised).
  exists before, a, mid, b, after. split; [done|]. split; [by exists id, op, user, password|by split].
Qed.

Lemma entries_need_authorised_bind_witness :
  (exists x d attrs, WEntry x d attrs ∈ handleConnection demo_dir (mkConnection false 0) (demo_session (str "pw")) /\
     exists before a mid b after, demo_session (str "pw") = before ++ a :: mid ++ b :: after /\
       exists id op user password, requestEnvelope (packet a) = Some (id, op) /\ credentials_of demo_dir op user password /\
         a_canSearch user = true) /\
  handleConnection demo_dir (mkConnection false 0) (demo_session (str "no"))
    = [WResult 1 1 ResultInvalidCredentials [];
       WResult 2 ApplicationSearchResultDone ResultInsufficientAccessRights (str "directory search requires an authorized bind")].
Proof.
  split; [|vm_compute; reflexivity].
  destruct (handleConnection demo_dir (mkConnection false 0) (demo_session (str "pw"))) as [|r [|[|x d attrs] ws]] eqn:E;
    try (exfalso; vm_compute in E; discriminate E).
  exists x, d, attrs. split; [right; left|].
  destruct (entries_need_authorised_bind demo_dir (demo_session (str "pw")) x d attrs)
    as (be & a & mid & b & af & Hs & (id & op & user & password & He & _ & Hc & _ & Ha & _) & _).
  - rewrite E. right. left.
  - vm_compute in E. injection E as _ _ <- _ _. discriminate.
  - exists be, a, mid, b, af. split; [exact Hs|]. exists id, op, user, password. exact (conj He (conj Hc Ha)).
Defined.

(** C35: The validator accepts exactly the byte strings that are sequences of
    properly nested, definite-length elements at most 32 levels deep and 4096 in
    number, with only the primitive types LDAP uses, and it always terminates. *)
Theorem validateBER_exact data n :
  wf_bytes data ->
  validateBER (S (length data)) data 0 0 = Some n <-> (nested 0 data n /\ n <= maxBERNodes).
Proof.
  intros Hwf. split.
  - intros E. apply validateBER_sound in E as [Hb Hn]; [|done|done]. rewrite Z.sub_0_r in Hn. split; [done|lia].
  - intros [Hn Hb]. rewrite (validateBER_complete 0 data n Hn Hwf) by lia. done.
Qed.

Lemma validateBER_exact_witness :
  nested 0 [48; 129; 5; 2; 1; 7; 66; 0] 3 /\ validateBER 5 [48; 2; 2; 1] 0 0 = None.
Proof.
  split; [|vm_compute; reflexivity].
  apply (validateBER_exact [48; 129; 5; 2; 1; 7; 66; 0] 3); [repeat constructor; lia|vm_compute; reflexivity].
Defined.
