(* ===== verification/LdapWire.v ===== *)
(** * Package internal/ldapserver: replies on the wire

    protocol.go and directory.go build a reply as a BER packet and write its bytes
    to the connection, over as many calls of Write as it takes.  The encoding of a
    packet is the library's: [PacketBytes], with [EncodeInteger] for the contents
    of an integer.  The calls of Write take their outcomes from a list, how many
    bytes the connection took and whether it failed; when the list ends, the write
    deadline passes. *)

From stdpp Require Import gmap list strings.
From Stdlib Require Import ZArith Lia.
From S2P Require Import Prelude GoStrings Ldap.

Inductive write_error := WriteFailed | ErrShortWrite.

(** What one call of Write does. *)
Record write_outcome := mkWrite { wo_n : nat; wo_failed : bool }.

Definition TagSet : Z := 17.
Definition ApplicationSearchResultEntry : Z := 4.
Definition ioTimeout : duration := 10 * 1000000000.

(** The loop of [writeMessageUntil]: its result, what was sent and the outcomes
    left. *)
Fixpoint writeLoop (outcomes : list write_outcome) (data : bytes) : result write_error unit * bytes * list write_outcome :=
  match data with
  | [] => (Ok tt, [], outcomes)
  | _ =>
      match outcomes with
      | [] => (Err WriteFailed, [], [])
      | o :: outcomes =>
          let sent := take (wo_n o) data in
          if wo_failed o then (Err WriteFailed, sent, outcomes)
          else if (wo_n o =? 0)%nat then (Err ErrShortWrite, sent, outcomes)
          else let '(r, more, outcomes) := writeLoop outcomes (drop (wo_n o) data) in (r, sent ++ more, outcomes)
      end
  end.

Section wire.
Context (EncodeInteger : Z -> bytes) (PacketBytes : Packet -> bytes).

(** ber.NewInteger, ber.NewString, ber.NewSequence and ber.Encode. *)
Definition integerPacket (tag v : Z) : Packet := mkPacket ClassUniversal TypePrimitive tag (EncodeInteger v) (VInt v) [].
Definition textPacket (value : bytes) : Packet := mkPacket ClassUniversal TypePrimitive TagOctetString value VNone [].
Definition sequencePacket (children : list Packet) : Packet :=
  mkPacket ClassUniversal TypeConstructed TagSequence [] VNone children.

(** The operation [writeResult] sends, and the one of [entry.packet]. *)
Definition resultPacket (tag code : Z) (message : bytes) : Packet :=
  mkPacket ClassApplication TypeConstructed tag [] VNone
    [integerPacket TagEnumerated code; textPacket []; textPacket message].

Definition attributePacket (a : bytes * list bytes) : Packet :=
  sequencePacket [textPacket a.1; mkPacket ClassUniversal TypeConstructed TagSet [] VNone (map textPacket a.2)].

Definition entryOp (dn : bytes) (attributes : list (bytes * list bytes)) : Packet :=
  mkPacket ClassApplication TypeConstructed ApplicationSearchResultEntry [] VNone
    [textPacket dn; sequencePacket (map attributePacket attributes)].

Definition messagePacket (id : Z) (op : Packet) : Packet := sequencePacket [integerPacket TagInteger id; op].

(** The deadline of a write: that of the search, or ten seconds if sooner. *)
Definition writeDeadline (now deadline : time) : time := Z.min deadline (now + ioTimeout).

(** The instant of a write, the deadline of its search, and whether the
    connection takes a deadline. *)
Record write_at := mkAt { wa_now : time; wa_deadline : time; SetWriteDeadline : time -> bool }.

Definition writeMessageUntil (x : write_at) (outcomes : list write_outcome) (id : Z) (op : Packet) (deadline : time)
    : result write_error unit * bytes * list write_outcome :=
  if SetWriteDeadline x (writeDeadline (wa_now x) deadline)
  then writeLoop outcomes (PacketBytes (messagePacket id op))
  else (Err WriteFailed, [], outcomes).

Definition writeMessage (x : write_at) (outcomes : list write_outcome) (id : Z) (op : Packet)
    : result write_error unit * bytes * list write_outcome :=
  writeMessageUntil x outcomes id op (wa_now x + ioTimeout).

Definition writeResult (x : write_at) (outcomes : list write_outcome) (id tag code : Z) (message : bytes)
    : result write_error unit * bytes * list write_outcome :=
  writeMessage x outcomes id (resultPacket tag code message).

(** The message of a reply of the connection's model. *)
Definition replyPacket (w : ldapWrite) : Packet :=
  match w with
  | WResult id tag code message => messagePacket id (resultPacket tag code message)
  | WEntry id dn attributes => messagePacket id (entryOp dn attributes)
  end.

Definition writeReply (x : write_at) (outcomes : list write_outcome) (w : ldapWrite)
    : result write_error unit * bytes * list write_outcome :=
  match w with
  | WResult id tag code message => writeResult x outcomes id tag code message
  | WEntry id dn attributes => writeMessageUntil x outcomes id (entryOp dn attributes) (wa_deadline x)
  end.

(** The replies of a connection; the handler returns at the first one that
    fails. *)
Fixpoint writeReplies (outcomes : list write_outcome) (ws : list (write_at * ldapWrite)) : nat * bytes :=
  match ws with
  | [] => (O, [])
  | (x, w) :: ws =>
      let '(r, sent, outcomes) := writeReply x outcomes w in
      match r with
      | Err _ => (O, sent)
      | Ok _ => let '(n, more) := writeReplies outcomes ws in (S n, sent ++ more)
      end
  end.

(** ** Lemmas *)

Lemma writeLoop_sent outcomes data :
  let '(r, sent, _) := writeLoop outcomes data in
  match r with Ok _ => sent = data | Err _ => sent `prefix_of` data end.
Proof.
  revert data. induction outcomes as [|o outcomes IH]; intros [|c data]; cbn [writeLoop]; try done; [by apply prefix_nil|].
  assert (Hp : take (wo_n o) (c :: data) `prefix_of` c :: data) by (exists (drop (wo_n o) (c :: data)); by rewrite take_drop).
  destruct (wo_failed o); [done|]. destruct (wo_n o =? 0)%nat; [done|].
  specialize (IH (drop (wo_n o) (c :: data))). destruct (writeLoop _ _) as [[[] more] rest].
  - rewrite IH. apply take_drop.
  - destruct IH as [k Hk]. exists k. rewrite <- app_assoc, <- Hk. by rewrite take_drop.
Qed.

(** As many calls that take a byte or more as there are bytes are enough. *)
Lemma writeLoop_ok outcomes data :
  (length data <= length outcomes)%nat -> Forall (fun o => wo_failed o = false /\ wo_n o <> O) outcomes ->
  (writeLoop outcomes data).1.1 = Ok tt.
Proof.
  revert data. induction outcomes as [|o outcomes IH]; intros [|c data] Hl Hf; cbn [writeLoop length] in *; try done; [lia|].
  apply Forall_cons in Hf as [[Hb Hn] Hf]. rewrite Hb, (proj2 (Nat.eqb_neq _ _) Hn).
  specialize (IH (drop (wo_n o) (c :: data))). destruct (writeLoop outcomes _) as [[r more] rest]. apply IH; [|done].
  rewrite length_drop. cbn [length]. lia.
Qed.

Lemma writeReply_packet x outcomes w :
  writeReply x outcomes w = (Err WriteFailed, [], outcomes) \/
  writeReply x outcomes w = writeLoop outcomes (PacketBytes (replyPacket w)).
Proof.
  destruct w; cbn [writeReply]; unfold writeResult, writeMessage, writeMessageUntil; destruct (SetWriteDeadline x _); auto.
Qed.

(** ** Theorem *)

(** What a client receives is the messages the handler has written, in their
    order and nothing between them: all replies before the one that failed, whole,
    then at most a part of that one.  Every message carries the identifier of the
    request, where a reader of envelopes finds it, and the operation that was
    built. *)
Theorem replies_arrive_whole outcomes ws n sent :
  writeReplies outcomes ws = (n, sent) ->
  (exists part, sent = concat (map (fun w => PacketBytes (replyPacket w.2)) (take n ws)) ++ part /\
     match ws !! n with Some w => part `prefix_of` PacketBytes (replyPacket w.2) | None => part = [] end) /\
  forall id op, ClassType op = ClassApplication -> 0 < id <= 2147483647 ->
    requestEnvelope (messagePacket id op) = Some (id, op).
Proof.
  intros E. split.
  - revert outcomes n sent E. induction ws as [|[x w] ws IH]; intros outcomes n sent; cbn [writeReplies].
    { intros [= <- <-]. by exists []. }
    pose proof (writeLoop_sent outcomes (PacketBytes (replyPacket w))) as Hs.
    destruct (writeReply_packet x outcomes w) as [->| ->]; [intros [= <- <-]; exists []; split; [done|by apply prefix_nil]|].
    destruct (writeLoop _ _) as [[[u|e] s] rest].
    + destruct (writeReplies rest ws) as [n' more] eqn:En. intros [= <- <-]. destruct (IH _ _ _ En) as (part & -> & Hp).
      exists part. cbn. by rewrite Hs, app_assoc.
    + intros [= <- <-]. by exists s.
  - intros id op Ho Hid. unfold requestEnvelope, messagePacket, sequencePacket, isPacket. cbn [ClassType TagType Tag Children Value].
    cbn. rewrite Ho. destruct (Z.leb_spec id 0), (Z.ltb_spec 2147483647 id); try lia. done.
Qed.

End wire.

(** A reply written in three calls, and one that is cut short. *)
Definition wire_outcomes : list write_outcome :=
  [mkWrite 1 false; mkWrite 1 false; mkWrite 1 false; mkWrite 2 true].
Definition wire_bytes (p : Packet) : bytes := [48; 1; len (Children p)].

Definition wire_replies : list (write_at * ldapWrite) :=
  [(mkAt 0 0 (fun _ => true), WResult 7 1 0 []); (mkAt 0 0 (fun _ => true), WResult 8 5 0 [])].

Lemma replies_arrive_whole_witness :
  exists part, [48; 1; 2; 48; 1] = concat (map (fun w => wire_bytes (replyPacket (fun _ => []) w.2)) (take 1 wire_replies)) ++ part /\
   part `prefix_of` wire_bytes (replyPacket (fun _ => []) (WResult 8 5 0 [])).
Proof.
  exact (proj1 (replies_arrive_whole (fun _ => []) wire_bytes wire_outcomes wire_replies 1 [48; 1; 2; 48; 1] eq_refl)).
Defined.
