(* ===== verification/LdapServe.v ===== *)
(** * Package internal/ldapserver: Run, listen and serve

    Two accept loops, one goroutine for each connection and one that closes
    everything once the context is cancelled share the set of connections under a
    mutex.  Every acquisition of the mutex, every test under it and every update
    is a step of its own, so the goroutines interleave as Go's scheduler may make
    them. *)

From stdpp Require Import gmap list strings functions.
From Stdlib Require Import ZArith Lia.
From S2P Require Import Prelude GoStrings GoSync Ldap.

Inductive endpoint := Plain | Secure.

#[export] Instance endpoint_eq_dec : EqDecision endpoint.
Proof. solve_decision. Defined.

Definition endpoint_name (e : endpoint) : bytes := match e with Plain => str "LDAP" | Secure => str "LDAPS" end.

(** An accept loop: blocked in [Accept], on its error path, or with a connection
    that it registers and hands to a worker, or refuses. *)
Inductive accept_pc :=
| AIdle
| AAccept
| AFailed
| ASend
| ALock (c : Z)
| ACheck (c : Z)
| AInsert (c : Z)
| AUnlock (c : Z)
| ASpawn (c : Z)
| ARefuse (c : Z)
| ADrop (c : Z)
| ADone.

(** The worker of a connection: [handleConnection] and its deferred cleanup. *)
Inductive worker_pc := WServing | WClose | WLock | WDelete | WUnlock.

(** The goroutine that waits for the context. *)
Inductive closer_pc := CIdle | CWait | CPlain | CSecure | CLock | CSweep (rest : list Z) | CUnlock | CStopped.

(** The goroutine of [Run]: [listen], the select of [serve] and its deferred
    function. *)
Inductive ldap_pc :=
| LdapListen
| LdapListenTLS
| LdapSelect
| LdapCancel (r : exit)
| LdapStopped (r : exit)
| LdapWorkers (r : exit)
| LdapReturned (r : exit).

Inductive goroutine := GLoop (e : endpoint) | GWorker (c : Z) | GCloser.

#[export] Instance goroutine_eq_dec : EqDecision goroutine.
Proof. solve_decision. Defined.

Record ldap_state := mkLdap {
  lv_main : ldap_pc;
  lv_cancelled : bool;
  lv_listening : endpoint -> bool;
  lv_loop : endpoint -> accept_pc;
  lv_closer : closer_pc;
  lv_mu : option goroutine;
  lv_connections : gset Z;
  lv_failures : list bytes;
  lv_workers : gmap Z worker_pc;
  lv_open : gset Z;
  lv_next : Z
}.

Definition ldap_init : ldap_state :=
  mkLdap LdapListen false (fun _ => false) (fun _ => AIdle) CIdle None ∅ [] ∅ ∅ 0.

(** Field updates. *)
Definition with_main (pc : ldap_pc) (s : ldap_state) : ldap_state :=
  mkLdap pc (lv_cancelled s) (lv_listening s) (lv_loop s) (lv_closer s) (lv_mu s) (lv_connections s) (lv_failures s)
    (lv_workers s) (lv_open s) (lv_next s).
Definition with_cancelled (s : ldap_state) : ldap_state :=
  mkLdap (lv_main s) true (lv_listening s) (lv_loop s) (lv_closer s) (lv_mu s) (lv_connections s) (lv_failures s)
    (lv_workers s) (lv_open s) (lv_next s).
Definition with_listening (e : endpoint) (b : bool) (s : ldap_state) : ldap_state :=
  mkLdap (lv_main s) (lv_cancelled s) (<[e:=b]> (lv_listening s)) (lv_loop s) (lv_closer s) (lv_mu s) (lv_connections s)
    (lv_failures s) (lv_workers s) (lv_open s) (lv_next s).
Definition with_loop (e : endpoint) (pc : accept_pc) (s : ldap_state) : ldap_state :=
  mkLdap (lv_main s) (lv_cancelled s) (lv_listening s) (<[e:=pc]> (lv_loop s)) (lv_closer s) (lv_mu s) (lv_connections s)
    (lv_failures s) (lv_workers s) (lv_open s) (lv_next s).
Definition with_closer (pc : closer_pc) (s : ldap_state) : ldap_state :=
  mkLdap (lv_main s) (lv_cancelled s) (lv_listening s) (lv_loop s) pc (lv_mu s) (lv_connections s) (lv_failures s)
    (lv_workers s) (lv_open s) (lv_next s).
Definition with_mu (mu : option goroutine) (s : ldap_state) : ldap_state :=
  mkLdap (lv_main s) (lv_cancelled s) (lv_listening s) (lv_loop s) (lv_closer s) mu (lv_connections s) (lv_failures s)
    (lv_workers s) (lv_open s) (lv_next s).
Definition with_connections (cs : gset Z) (s : ldap_state) : ldap_state :=
  mkLdap (lv_main s) (lv_cancelled s) (lv_listening s) (lv_loop s) (lv_closer s) (lv_mu s) cs (lv_failures s)
    (lv_workers s) (lv_open s) (lv_next s).
Definition with_workers (ws : gmap Z worker_pc) (s : ldap_state) : ldap_state :=
  mkLdap (lv_main s) (lv_cancelled s) (lv_listening s) (lv_loop s) (lv_closer s) (lv_mu s) (lv_connections s) (lv_failures s)
    ws (lv_open s) (lv_next s).

(** [conn.Close()]. *)
Definition closeConn (c : Z) (s : ldap_state) : ldap_state :=
  mkLdap (lv_main s) (lv_cancelled s) (lv_listening s) (lv_loop s) (lv_closer s) (lv_mu s) (lv_connections s) (lv_failures s)
    (lv_workers s) (lv_open s ∖ {[c]}) (lv_next s).

(** [mu.Lock()], which blocks while the mutex is held, and [mu.Unlock()]. *)
Definition lock (g : goroutine) (s : ldap_state) : option ldap_state :=
  match lv_mu s with None => Some (with_mu (Some g) s) | Some _ => None end.
Definition unlock (s : ldap_state) : ldap_state := with_mu None s.

(** A client connects: the connection is new. *)
Definition connect (e : endpoint) (s : ldap_state) : option ldap_state :=
  match lv_loop s e with
  | AAccept =>
      if lv_listening s e then
        Some (mkLdap (lv_main s) (lv_cancelled s) (lv_listening s) (<[e := ALock (lv_next s)]> (lv_loop s)) (lv_closer s)
                (lv_mu s) (lv_connections s) (lv_failures s) (lv_workers s) ({[lv_next s]} ∪ lv_open s) (lv_next s + 1))
      else None
  | _ => None
  end.

(** [failures <- err]: the channel holds two. *)
Definition sendFailure (e : endpoint) (s : ldap_state) : option ldap_state :=
  if (length (lv_failures s) <? 2)%nat then
    Some (mkLdap (lv_main s) (lv_cancelled s) (lv_listening s) (<[e := ADone]> (lv_loop s)) (lv_closer s) (lv_mu s)
            (lv_connections s) (lv_failures s ++ [str "accept " ++ endpoint_name e ++ str " connection"])
            (lv_workers s) (lv_open s) (lv_next s))
  else None.

(** One step of the accept loop of an endpoint. *)
Definition acceptLoop (e : endpoint) (s : ldap_state) : option ldap_state :=
  match lv_loop s e with
  | AIdle | ADone => None
  | AAccept => if lv_listening s e then None else Some (with_loop e AFailed s)
  | AFailed => Some (with_loop e (if lv_cancelled s then ADone else ASend) s)
  | ASend => sendFailure e s
  | ALock c => match lock (GLoop e) s with Some s => Some (with_loop e (ACheck c) s) | None => None end
  | ACheck c =>
      Some (with_loop e (if lv_cancelled s || (maxConnections <=? Z.of_nat (size (lv_connections s)))
                         then ARefuse c else AInsert c) s)
  | ARefuse c => Some (with_loop e (ADrop c) (unlock s))
  | ADrop c => Some (with_loop e AAccept (closeConn c s))
  | AInsert c => Some (with_loop e (AUnlock c) (with_connections ({[c]} ∪ lv_connections s) s))
  | AUnlock c => Some (with_loop e (ASpawn c) (unlock s))
  | ASpawn c => Some (with_loop e AAccept (with_workers (<[c := WServing]> (lv_workers s)) s))
  end.

(** One step of a worker.  The handler of a closed connection returns, since its
    next read or write fails. *)
Definition worker (c : Z) (s : ldap_state) : option ldap_state :=
  match lv_workers s !! c with
  | None => None
  | Some WServing =>
      if bool_decide (c ∈ lv_open s) then None else Some (with_workers (<[c := WClose]> (lv_workers s)) s)
  | Some WClose => Some (with_workers (<[c := WLock]> (lv_workers s)) (closeConn c s))
  | Some WLock =>
      match lock (GWorker c) s with
      | Some s => Some (with_workers (<[c := WDelete]> (lv_workers s)) s)
      | None => None
      end
  | Some WDelete =>
      Some (with_workers (<[c := WUnlock]> (lv_workers s)) (with_connections (lv_connections s ∖ {[c]}) s))
  | Some WUnlock => Some (with_workers (delete c (lv_workers s)) (unlock s))
  end.

(** The handler returns for a reason of its own: the client leaves, a deadline
    passes, a message is refused. *)
Definition hangup (c : Z) (s : ldap_state) : option ldap_state :=
  match lv_workers s !! c with
  | Some WServing => Some (with_workers (<[c := WClose]> (lv_workers s)) s)
  | _ => None
  end.

(** One step of the goroutine that closes the listeners and then, under the
    mutex, every registered connection. *)
Definition closer (s : ldap_state) : option ldap_state :=
  match lv_closer s with
  | CIdle | CStopped => None
  | CWait => if lv_cancelled s then Some (with_closer CPlain s) else None
  | CPlain => Some (with_closer CSecure (with_listening Plain false s))
  | CSecure => Some (with_closer CLock (with_listening Secure false s))
  | CLock =>
      match lock GCloser s with
      | Some s => Some (with_closer (CSweep (elements (lv_connections s))) s)
      | None => None
      end
  | CSweep (c :: rest) => Some (with_closer (CSweep rest) (closeConn c s))
  | CSweep [] => Some (with_closer CUnlock s)
  | CUnlock => Some (with_closer CStopped (unlock s))
  end.

(** [workers.Wait()] returns when both loops and every worker have. *)
Definition workersDone (s : ldap_state) : bool :=
  match lv_loop s Plain, lv_loop s Secure with
  | ADone, ADone => bool_decide (lv_workers s = ∅)
  | _, _ => false
  end.

(** [serve] starts its goroutines. *)
Definition startServe (s : ldap_state) : ldap_state :=
  mkLdap LdapSelect (lv_cancelled s) (fun _ => true) (fun _ => AAccept) CWait None ∅ [] ∅ ∅ 0.

Definition ldap_main (s : ldap_state) : option ldap_state :=
  match lv_main s with
  | LdapListen => Some (with_main LdapListenTLS (with_listening Plain true s))
  | LdapListenTLS => Some (startServe s)
  | LdapSelect => if lv_cancelled s then Some (with_main (LdapCancel (Ok tt)) s) else None
  | LdapCancel r => Some (with_main (LdapStopped r) (with_cancelled s))
  | LdapStopped r => match lv_closer s with CStopped => Some (with_main (LdapWorkers r) s) | _ => None end
  | LdapWorkers r => if workersDone s then Some (with_main (LdapReturned r) s) else None
  | LdapReturned _ => None
  end.

(** The other branch of the select. *)
Definition ldap_failed (s : ldap_state) : option ldap_state :=
  match lv_main s, lv_failures s with
  | LdapSelect, err :: rest =>
      Some (mkLdap (LdapCancel (Err err)) (lv_cancelled s) (lv_listening s) (lv_loop s) (lv_closer s) (lv_mu s)
              (lv_connections s) rest (lv_workers s) (lv_open s) (lv_next s))
  | _, _ => None
  end.

Definition ldap_listen_fault (s : ldap_state) : option ldap_state :=
  match lv_main s with
  | LdapListen => Some (with_main (LdapReturned (Err (str "listen for LDAP"))) s)
  | LdapListenTLS => Some (with_main (LdapReturned (Err (str "listen for LDAPS"))) (with_listening Plain false s))
  | _ => None
  end.

Definition accept_fault (e : endpoint) (s : ldap_state) : option ldap_state :=
  match lv_loop s e with
  | AAccept => if lv_listening s e then Some (with_loop e AFailed s) else None
  | _ => None
  end.

Inductive ldap_label :=
| LdapConnect (e : endpoint)
| LdapHangup (c : Z)
| LdapLoop (e : endpoint)
| LdapWorker (c : Z)
| LdapCloser
| LdapMain
| LdapFailure
| LdapListenFault
| LdapAcceptFault (e : endpoint).

Definition Run_ldap (l : ldap_label) (s : ldap_state) : option ldap_state :=
  match l with
  | LdapConnect e => connect e s
  | LdapHangup c => hangup c s
  | LdapLoop e => acceptLoop e s
  | LdapWorker c => worker c s
  | LdapCloser => closer s
  | LdapMain => ldap_main s
  | LdapFailure => ldap_failed s
  | LdapListenFault => ldap_listen_fault s
  | LdapAcceptFault e => accept_fault e s
  end.

Definition ldap_machine : machine := {|
  mc_state := ldap_state;
  mc_label := ldap_label;
  mc_init := ldap_init;
  mc_step := Run_ldap;
  mc_cancel := with_cancelled;
  mc_cancelled := lv_cancelled;
  mc_arrives l := match l with LdapConnect _ => true | _ => false end;
  mc_own l := match l with LdapLoop _ | LdapWorker _ | LdapCloser | LdapMain => true | _ => false end;
  mc_fault l := match l with LdapListenFault | LdapAcceptFault _ => true | _ => false end;
  mc_returned s := match lv_main s with LdapReturned r => Some r | _ => None end;
  mc_released s := negb (lv_listening s Plain) && negb (lv_listening s Secure) && bool_decide (lv_open s = ∅)
                   && bool_decide (lv_workers s = ∅)
|}.

(** ** Connections are new *)

(** One case for each step that is enabled; the state before it stays abstract. *)
Ltac ldap_cases E :=
  match type of E with Run_ldap ?l _ = _ => destruct l end; cbn [Run_ldap] in E;
  unfold connect, hangup, acceptLoop, sendFailure, worker, closer, ldap_main, ldap_failed, ldap_listen_fault, accept_fault,
    lock, unlock in E; step_cases E;
  unfold startServe, with_main, with_cancelled, with_listening, with_loop, with_closer, with_mu, with_connections, with_workers,
    closeConn in *;
  cbn [lv_main lv_cancelled lv_listening lv_loop lv_closer lv_mu lv_connections lv_failures lv_workers lv_open lv_next] in *.

(** Reading a loop or a worker after an update. *)
Ltac reads :=
  repeat match goal with
  | |- context [<[?e := _]> _ ?e'] => destruct (decide (e = e')) as [<-|];
      [rewrite !fn_lookup_insert in *|rewrite !fn_lookup_insert_ne in * by done]
  | |- context [<[?c := _]> _ !! ?c'] => destruct (decide (c = c')) as [<-|];
      [rewrite !lookup_insert_eq in *|rewrite !lookup_insert_ne in * by done]
  | |- context [delete ?c _ !! ?c'] => destruct (decide (c = c')) as [<-|];
      [rewrite !lookup_delete_eq in *|rewrite !lookup_delete_ne in * by done]
  end.

(** The connection a loop has in hand. *)
Definition loop_conn (pc : accept_pc) : option Z :=
  match pc with
  | ALock c | ACheck c | AInsert c | AUnlock c | ASpawn c | ARefuse c | ADrop c => Some c
  | _ => None
  end.

(** Connections are numbered in the order they arrive; one that a loop has in
    hand belongs to that loop alone. *)
Record fresh_inv (s : ldap_state) : Prop := {
  fr_loop e c : loop_conn (lv_loop s e) = Some c -> c < lv_next s;
  fr_new e c : loop_conn (lv_loop s e) = Some c -> lv_workers s !! c = None;
  fr_worker c w : lv_workers s !! c = Some w -> c < lv_next s;
  fr_open c : c ∈ lv_open s -> c < lv_next s;
  fr_alone e e' c : loop_conn (lv_loop s e) = Some c -> loop_conn (lv_loop s e') = Some c -> e = e'
}.

Lemma fresh_next s : fresh_inv s -> lv_workers s !! lv_next s = None /\ forall e, loop_conn (lv_loop s e) <> Some (lv_next s).
Proof.
  intros [H1 H2 H3 _ _]. split.
  - destruct (lv_workers s !! lv_next s) eqn:E; [|done]. apply H3 in E. lia.
  - intros e E. apply H1 in E. lia.
Qed.

(** The connection the acting loop has in hand. *)
Ltac in_hand :=
  try match goal with H : lv_loop _ ?e = _ |- _ =>
    let Hc := fresh "Hc" in pose proof (f_equal loop_conn H) as Hc; cbn [loop_conn] in Hc end.

Lemma fresh_step l s s' : fresh_inv s -> Run_ldap l s = Some s' -> fresh_inv s'.
Proof.
  intros Hf E. destruct (fresh_next s Hf) as [Hn1 Hn2]. destruct Hf as [H1 H2 H3 H4 H5].
  ldap_cases E; (split; [intros e'' c''|intros e'' c''|intros c'' w''|intros c''|intros e1 e2 c'']);
    cbn [lv_loop lv_workers lv_open lv_next]; try done; reads; cbn [loop_conn]; try by eauto.
  all: in_hand.
  all: rewrite ?elem_of_union, ?elem_of_difference, ?elem_of_singleton; intros; simplify_eq; try by eauto.
  all: try solve [exfalso; eapply Hn2; eauto].
  all: try match goal with H : loop_conn (lv_loop _ ?e) = Some ?c |- Some _ = None => specialize (H2 e c H); congruence end.
  - lia.
  - match goal with H : loop_conn _ = _ |- _ => apply H1 in H; lia end.
  - match goal with H : lv_workers _ !! _ = _ |- _ => apply H3 in H; lia end.
  - match goal with H : _ \/ _ |- _ => destruct H as [->|H%H4]; lia end.
  - exfalso. eauto.
  - naive_solver.
  - naive_solver.
  - naive_solver.
Qed.

(** ** The mutex *)

Definition loop_critical (pc : accept_pc) : bool :=
  match pc with ACheck _ | AInsert _ | AUnlock _ | ARefuse _ => true | _ => false end.
Definition worker_critical (w : worker_pc) : bool := match w with WDelete | WUnlock => true | _ => false end.
Definition closer_critical (pc : closer_pc) : bool := match pc with CSweep _ | CUnlock => true | _ => false end.

(** Whether a goroutine is between its [Lock] and its [Unlock]. *)
Definition critical (s : ldap_state) (g : goroutine) : bool :=
  match g with
  | GLoop e => loop_critical (lv_loop s e)
  | GWorker c => match lv_workers s !! c with Some w => worker_critical w | None => false end
  | GCloser => closer_critical (lv_closer s)
  end.

Definition mutex_inv (s : ldap_state) : Prop := forall g, critical s g = true <-> lv_mu s = Some g.

(** Which goroutine took the step, and whether it was inside. *)
Ltac acting Hm :=
  match goal with
  | H : lv_loop ?s ?e = _ |- _ => let Ha := fresh "Ha" in pose proof (Hm (GLoop e)) as Ha; cbn [critical] in Ha; rewrite H in Ha
  | H : lv_workers ?s !! ?c = _ |- _ => let Ha := fresh "Ha" in pose proof (Hm (GWorker c)) as Ha; cbn [critical] in Ha; rewrite H in Ha
  | H : lv_closer ?s = _ |- _ => let Ha := fresh "Ha" in pose proof (Hm GCloser) as Ha; cbn [critical] in Ha; rewrite H in Ha
  | _ => idtac
  end; cbn [loop_critical worker_critical closer_critical] in *.

Lemma mutex_step l s s' : fresh_inv s -> mutex_inv s -> Run_ldap l s = Some s' -> mutex_inv s'.
Proof.
  intros Hf Hm E. ldap_cases E; intros g; pose proof (Hm g) as Hg; try done; acting Hm; destruct g as [e'|c'|];
    cbn [critical lv_loop lv_workers lv_closer lv_mu] in *; reads; cbn [loop_critical worker_critical closer_critical];
    repeat case_match; try naive_solver congruence.
  by rewrite (fr_new s Hf e c) in * by (match goal with H : lv_loop s e = _ |- _ => by rewrite H end).
Qed.

(** ** The set of connections *)

(** It never holds more than the limit: a loop that is about to add a connection
    has seen room for it, and nobody else can have used that room meanwhile. *)
Definition limit_inv (s : ldap_state) : Prop :=
  Z.of_nat (size (lv_connections s)) <= maxConnections /\
  forall e c, lv_loop s e = AInsert c -> Z.of_nat (size (lv_connections s)) < maxConnections.

Lemma mutex_alone s g g' : mutex_inv s -> critical s g = true -> critical s g' = true -> g = g'.
Proof. intros Hm Hg%Hm Hg'%Hm. congruence. Qed.

Lemma limit_step l s s' : mutex_inv s -> limit_inv s -> Run_ldap l s = Some s' -> limit_inv s'.
Proof.
  intros Hm [Hl Hi] E. ldap_cases E; (split; cbn [lv_connections lv_loop]; [try done|intros e'' c''; try done; reads; try done; try by apply Hi]).
  - intros _. bool_hyps. lia.
  - assert (Hc : Z.of_nat (size (lv_connections s)) < maxConnections) by by eapply Hi.
    rewrite size_union_alt, size_singleton. pose proof (subseteq_size (lv_connections s ∖ {[c]}) (lv_connections s) ltac:(set_solver)). lia.
  - intros Hi'. exfalso. assert (Heq : GLoop e = GLoop e''); [|congruence].
    eapply mutex_alone; [done|cbn [critical]..]; [by rewrite Heqa|by rewrite Hi'].
  - pose proof (subseteq_size (lv_connections s ∖ {[c]}) (lv_connections s) ltac:(set_solver)). lia.
  - intros Hi'%Hi. pose proof (subseteq_size (lv_connections s ∖ {[c]}) (lv_connections s) ltac:(set_solver)). lia.
Qed.

(** The connection a loop has registered. *)
Definition loop_registered (pc : accept_pc) : option Z :=
  match pc with AUnlock c | ASpawn c => Some c | _ => None end.

Definition worker_registered (w : worker_pc) : bool := match w with WUnlock => false | _ => true end.
Definition worker_open (w : worker_pc) : bool := match w with WServing | WClose => true | _ => false end.

(** Exactly the connections between their registration and their removal are in
    the set, and a connection that is open has somebody to close it. *)
Definition worker_with (P : worker_pc -> bool) (s : ldap_state) (c : Z) : bool :=
  match lv_workers s !! c with Some w => P w | None => false end.

Record conn_inv (s : ldap_state) : Prop := {
  co_registered c : c ∈ lv_connections s <->
    loop_registered (lv_loop s Plain) = Some c \/ loop_registered (lv_loop s Secure) = Some c \/
    worker_with worker_registered s c = true;
  co_open c : c ∈ lv_open s ->
    loop_conn (lv_loop s Plain) = Some c \/ loop_conn (lv_loop s Secure) = Some c \/ worker_with worker_open s c = true
}.

Lemma registered_conn pc c : loop_registered pc = Some c -> loop_conn pc = Some c.
Proof. by destruct pc. Qed.

Lemma worker_not_in_hand s e c w : fresh_inv s -> lv_workers s !! c = Some w -> loop_conn (lv_loop s e) <> Some c.
Proof. intros Hf Hw Hc. by rewrite (fr_new s Hf e c Hc) in Hw. Qed.

Lemma conn_step l s s' : fresh_inv s -> conn_inv s -> Run_ldap l s = Some s' -> conn_inv s'.
Proof.
  intros Hf [Hr Ho] E. ldap_cases E; try done.
  all: split; intros c''; specialize (Hr c''); specialize (Ho c''); unfold worker_with in *;
    cbn [lv_connections lv_loop lv_workers lv_open] in *.
  all: try match goal with e : endpoint |- _ => destruct e end;
    rewrite ?elem_of_union, ?elem_of_difference, ?elem_of_singleton.
  all: rewrite ?fn_lookup_insert, ?fn_lookup_insert_ne, ?lookup_empty, ?elem_of_empty by done.
  all: try match goal with H : lv_loop _ _ = _ |- _ => rewrite H in Hr, Ho end; cbn [loop_registered loop_conn] in *; reads.
  all: try match goal with H : lv_workers _ !! _ = _ |- _ => rewrite H in * end; cbn [worker_registered worker_open].
  all: try solve [intuition congruence].
  pose proof (worker_not_in_hand s Plain c _ Hf Heqo). pose proof (worker_not_in_hand s Secure c _ Hf Heqo).
  split; [naive_solver|]. intros [Hc|[Hc|Hc]]; [apply registered_conn in Hc; congruence..|done].
Qed.

(** ** Shutting down *)

Definition plain_closed (pc : closer_pc) : bool := match pc with CIdle | CWait | CPlain => false | _ => true end.
Definition secure_closed (pc : closer_pc) : bool := match pc with CIdle | CWait | CPlain | CSecure => false | _ => true end.

(** The registered connections that may still be open while the set is swept
    and after that. *)
Definition unswept (pc : closer_pc) (c : Z) : Prop :=
  match pc with CSweep rest => c ∈ rest | CUnlock | CStopped => False | _ => True end.

(** Whether [serve] has started its goroutines. *)
Definition started (s : ldap_state) : bool := match lv_closer s with CIdle => false | _ => true end.

Definition main_started (pc : ldap_pc) : bool := match pc with LdapListen | LdapListenTLS => false | _ => true end.

Record stop_inv (s : ldap_state) : Prop := {
  sp_context : lv_closer s <> CIdle -> lv_closer s <> CWait -> lv_cancelled s = true;
  sp_plain : plain_closed (lv_closer s) = true -> lv_listening s Plain = false;
  sp_secure : secure_closed (lv_closer s) = true -> lv_listening s Secure = false;
  sp_start : main_started (lv_main s) = false -> lv_closer s = CIdle;
  sp_insert e c : lv_closer s = CStopped -> lv_loop s e <> AInsert c;
  sp_swept c : c ∈ lv_connections s -> c ∈ lv_open s -> unswept (lv_closer s) c
}.

(** No loop inserts while the sweeping goroutine holds the mutex. *)
Lemma no_insert s e c : mutex_inv s -> closer_critical (lv_closer s) = true -> lv_loop s e <> AInsert c.
Proof.
  intros Hm Hc He. assert (Heq : GCloser = GLoop e); [|done].
  eapply mutex_alone; [done|cbn [critical]..]; [done|by rewrite He].
Qed.

Lemma conn_below s c : fresh_inv s -> conn_inv s -> c ∈ lv_connections s -> c < lv_next s.
Proof.
  intros Hf Hc [Hr|[Hr|Hr]]%(co_registered s Hc); [by eapply fr_loop, registered_conn..|].
  unfold worker_with in Hr. destruct (lv_workers s !! c) eqn:E; [|done]. by eapply fr_worker.
Qed.

Lemma stop_step l s s' :
  fresh_inv s -> mutex_inv s -> conn_inv s -> stop_inv s -> Run_ldap l s = Some s' -> stop_inv s'.
Proof.
  intros Hf Hm Hc [H1 H2 H3 H4 H5 H6] E. pose proof (no_insert s) as Hn. pose proof (fun c => conn_below s c Hf Hc) as Hb.
  ldap_cases E; (split; [..|intros e'' c''|intros c'']); cbn [lv_closer lv_cancelled lv_listening lv_connections lv_open lv_loop lv_main] in *; try done.
  all: repeat match goal with H : lv_main _ = _ |- _ => rewrite H in *; cbn [main_started] in *
    | H : lv_closer _ = _ |- _ => rewrite H in *; cbn [plain_closed secure_closed unswept closer_critical] in * end; try by eauto.
  all: rewrite ?fn_lookup_insert, ?fn_lookup_insert_ne by done; try by eauto.
  all: reads; try by eauto.
  all: rewrite ?elem_of_union, ?elem_of_difference, ?elem_of_singleton; try by eauto.
  all: try (intros Hx%H4; discriminate Hx).
  - intros Hx [->|Ho]; [apply Hb in Hx; lia|by apply H6].
  - intros Hx. rewrite Hx in H1. bool_hyps. rewrite H1 in * by done. done.
  - intros Hx Ho. destruct (lv_closer s) eqn:Ec; cbn [unswept]; try done;
      exfalso; first [by apply (H5 e c)|by apply (Hn e c)].
  - intros Hx [Ho _]. by apply H6.
  - intros Hx [Ho _]. by apply H6.
  - intros [Hx _] Ho. by apply H6.
  - intros Hx Ho. cbn [unswept]. by apply elem_of_elements.
  - intros Hx Ho. specialize (H6 _ Hx Ho). set_solver.
  - intros Hx [Ho Hz]. specialize (H6 _ Hx Ho). cbn [unswept]. set_solver.
  - intros Hx Ho. by specialize (H6 _ Hx Ho).
  - by rewrite H4.
Qed.

Definition running (pc : accept_pc) : nat := match pc with ADone => 0 | _ => 1 end.

(** Nothing runs before [serve] starts; each loop reports at most one failure;
    and where the goroutine of [Run] stands, the others have got as far. *)
Record main_inv (s : ldap_state) : Prop := {
  mi_idle : started s = false ->
    lv_loop s Plain = AIdle /\ lv_loop s Secure = AIdle /\ lv_workers s = ∅ /\ lv_open s = ∅ /\ lv_listening s Secure = false;
  mi_plain : started s = false -> lv_listening s Plain = true -> lv_main s = LdapListenTLS;
  mi_loops e : started s = true -> lv_loop s e <> AIdle;
  mi_failures : started s = true ->
    (length (lv_failures s) + running (lv_loop s Plain) + running (lv_loop s Secure) <= 2)%nat;
  mi_main : match lv_main s with
    | LdapListen | LdapListenTLS => started s = false
    | LdapSelect => started s = true
    | LdapCancel r => started s = true /\ (r = Ok tt -> lv_cancelled s = true)
    | LdapStopped r => started s = true /\ lv_cancelled s = true
    | LdapWorkers r => lv_closer s = CStopped
    | LdapReturned r => (started s = false /\ lv_listening s Plain = false /\ r <> Ok tt) \/
        (lv_closer s = CStopped /\ lv_loop s Plain = ADone /\ lv_loop s Secure = ADone /\ lv_workers s = ∅)
    end
}.

Lemma workersDone_true s :
  workersDone s = true -> lv_loop s Plain = ADone /\ lv_loop s Secure = ADone /\ lv_workers s = ∅.
Proof. unfold workersDone. intros Hw. repeat case_match; try done. bool_hyps. done. Qed.

Lemma started_step l s s' : started s = true -> Run_ldap l s = Some s' -> started s' = true.
Proof.
  intros Hs E. unfold started in *. ldap_cases E; try done;
    by repeat match goal with H : lv_closer _ = _ |- _ => rewrite H in * end.
Qed.

Lemma main_step_idle l s s' : started s = false -> main_inv s -> Run_ldap l s = Some s' -> main_inv s'.
Proof.
  intros Hs [H1 H2 _ _ H5] E. destruct (H1 Hs) as (Hp & Hq & Hw & Ho & Hl).
  ldap_cases E; try match goal with e : endpoint |- _ => destruct e; congruence end; rewrite ?Hw in *; try done;
    try (unfold started in Hs; match goal with H : lv_closer _ = _ |- _ => by rewrite H in Hs end);
    try (exfalso; rewrite Hs in H5; intuition discriminate).
  - split; unfold started in *; cbn; rewrite ?Hs; done.
  - split; unfold started in *; cbn; rewrite ?Hs; try done; try (intros _ Hx; by specialize (H2 Hs Hx)).
    left. split; [done|]. split; [|done]. destruct (lv_listening s Plain) eqn:Hx; [|done]. by specialize (H2 Hs eq_refl).
  - split; unfold started in *; cbn; rewrite ?Hs; try done. by left.
Qed.

Lemma main_step l s s' : main_inv s -> Run_ldap l s = Some s' -> main_inv s'.
Proof.
  intros Hi E. destruct (started s) eqn:Hs; [|by eapply main_step_idle]. pose proof (started_step l s s' Hs E) as Hs'.
  destruct Hi as [_ _ H3 H4 H5]. specialize (H4 Hs). pose proof (fun e => H3 e Hs) as Hl. clear H3.
  split; try congruence; rewrite ?Hs'.
  - intros e'' _. ldap_cases E; reads; try done; by apply Hl.
  - intros _. ldap_cases E; try match goal with e : endpoint |- _ => destruct e end;
      rewrite ?fn_lookup_insert, ?fn_lookup_insert_ne by done; rewrite ?length_app in *; cbn [running length] in *;
      try match goal with H : lv_loop _ _ = _ |- _ => rewrite H in H4; cbn [running] in H4 end;
      try match goal with H : lv_failures _ = _ |- _ => rewrite H in H4; cbn [length] in H4 end; try lia.
  - rewrite Hs in H5. clear Hs'. ldap_cases E; try done;
      try match goal with H : workersDone _ = true |- _ => apply workersDone_true in H end;
      try (destruct (lv_main s); try done);
      try match goal with e : endpoint |- _ => destruct e end; try (intuition congruence).
    all: destruct H5 as [[? _]|(_ & _ & _ & Hw)]; [done|]; by rewrite Hw in *.
Qed.

(** ** The service *)

Record ldap_inv (s : ldap_state) : Prop := {
  li_fresh : fresh_inv s;
  li_mutex : mutex_inv s;
  li_limit : limit_inv s;
  li_conn : conn_inv s;
  li_stop : stop_inv s;
  li_main : main_inv s
}.

Lemma ldap_inv_init : ldap_inv ldap_init.
Proof.
  split; try by split.
  - intros []; by split.
  - split; [intros c|done]. cbn. unfold worker_with. cbn. split; [set_solver|naive_solver].
Qed.

Lemma ldap_inv_step l s s' : ldap_inv s -> Run_ldap l s = Some s' -> ldap_inv s'.
Proof.
  intros [H1 H2 H3 H4 H5 H6] E. split; [by eapply fresh_step|by eapply mutex_step|by eapply limit_step|
    by eapply conn_step|by eapply stop_step|by eapply main_step].
Qed.

Lemma ldap_inv_cancel s : ldap_inv s -> ldap_inv (with_cancelled s).
Proof.
  intros [[] H2 [] [] [] [H1 H3 H4 H5 H6]]. split; [by split|done|by split|by split|by split|]. split; try done. cbn.
  destruct (lv_main s); naive_solver.
Qed.

Lemma ldap_reachable s : reachable ldap_machine s -> ldap_inv s.
Proof. apply reachable_invariant; [exact ldap_inv_init|exact ldap_inv_step|exact ldap_inv_cancel]. Qed.

(** Whoever holds the mutex goes on to release it. *)
Lemma holder_steps s g :
  mutex_inv s -> lv_mu s = Some g -> exists l, mc_own ldap_machine l = true /\ is_Some (Run_ldap l s).
Proof.
  intros Hm Hg. apply Hm in Hg. destruct g as [e|c|]; cbn [critical] in Hg.
  - exists (LdapLoop e). split; [done|]. cbn [Run_ldap]. unfold acceptLoop. by destruct (lv_loop s e).
  - exists (LdapWorker c). split; [done|]. cbn [Run_ldap]. unfold worker. by destruct (lv_workers s !! c) as [[]|].
  - exists LdapCloser. split; [done|]. cbn [Run_ldap]. unfold closer. by destruct (lv_closer s) as [| | | | |[|]| |].
Qed.

Lemma lock_steps s l :
  mutex_inv s -> mc_own ldap_machine l = true -> (lv_mu s = None -> is_Some (Run_ldap l s)) ->
  exists l, mc_own ldap_machine l = true /\ is_Some (Run_ldap l s).
Proof.
  intros Hm Hl Hs. destruct (lv_mu s) as [h|] eqn:Hg; [by apply holder_steps with h|]. exists l. auto.
Qed.

Lemma closer_steps s :
  mutex_inv s -> lv_cancelled s = true -> started s = true -> lv_closer s <> CStopped ->
  exists l, mc_own ldap_machine l = true /\ is_Some (Run_ldap l s).
Proof.
  intros Hm Hc Hs Hn. apply (lock_steps s LdapCloser Hm eq_refl). intros Hmu. cbn [Run_ldap]. unfold started in Hs.
  unfold closer, lock. rewrite Hmu, Hc. by destruct (lv_closer s) as [| | | | |[|]| |].
Qed.

Lemma loop_steps s e :
  mutex_inv s -> main_inv s -> started s = true -> lv_listening s e = false -> lv_loop s e <> ADone ->
  exists l, mc_own ldap_machine l = true /\ is_Some (Run_ldap l s).
Proof.
  intros Hm Hi Hs Hl Hn. apply (lock_steps s (LdapLoop e) Hm eq_refl). intros Hmu. cbn [Run_ldap].
  pose proof (mi_loops s Hi e Hs) as Hne. pose proof (mi_failures s Hi Hs) as Hf.
  unfold acceptLoop, lock. rewrite Hmu, Hl. destruct (lv_loop s e) eqn:El; try done.
  unfold sendFailure. replace (length (lv_failures s) <? 2)%nat with true; [done|]. symmetry. apply Nat.ltb_lt.
  destruct e; rewrite El in Hf; cbn [running] in Hf; lia.
Qed.

Lemma worker_steps s c w :
  ldap_inv s -> lv_closer s = CStopped -> lv_workers s !! c = Some w ->
  exists l, mc_own ldap_machine l = true /\ is_Some (Run_ldap l s).
Proof.
  intros Hi Hc Hw. apply (lock_steps s (LdapWorker c) (li_mutex s Hi) eq_refl). intros Hmu. cbn [Run_ldap].
  unfold worker, lock. rewrite Hmu, Hw. destruct w; try done. rewrite bool_decide_false; [done|]. intros Ho.
  assert (Hx : unswept (lv_closer s) c); [|by rewrite Hc in Hx].
  apply (sp_swept s (li_stop s Hi)); [|done]. apply (co_registered s (li_conn s Hi)). right; right.
  unfold worker_with. by rewrite Hw.
Qed.

Lemma ldap_progress s :
  ldap_inv s -> lv_cancelled s = true -> mc_returned ldap_machine s = None ->
  exists l, mc_own ldap_machine l = true /\ is_Some (Run_ldap l s).
Proof.
  intros Hi Hc Hr. pose proof Hi as [_ Hm _ _ Hs Hn]. pose proof (mi_main s Hn) as Hp. cbn [mc_returned ldap_machine] in Hr.
  destruct (lv_main s) eqn:Em; try discriminate Hr;
    try (exists LdapMain; split; [done|]; cbn [Run_ldap]; unfold ldap_main; rewrite Em, ?Hc; done).
  - destruct (lv_closer s) eqn:Ec; try (apply closer_steps; [done|done|by apply Hp|by rewrite Ec]).
    exists LdapMain. split; [done|]. cbn [Run_ldap]. unfold ldap_main. by rewrite Em, Ec.
  - assert (Hst : started s = true) by (unfold started; by rewrite Hp).
    assert (Hd : forall e, lv_loop s e = ADone \/ lv_loop s e <> ADone) by (intros e; destruct (lv_loop s e); auto).
    destruct (Hd Plain) as [Hd1|Hd1].
    2:{ apply (loop_steps s Plain); try done. apply (sp_plain s Hs). by rewrite Hp. }
    destruct (Hd Secure) as [Hd2|Hd2].
    2:{ apply (loop_steps s Secure); try done. apply (sp_secure s Hs). by rewrite Hp. }
    destruct (map_choose_or_empty (lv_workers s)) as [(c & w & Hw)|Hw]; [by apply (worker_steps s c w)|].
    exists LdapMain. split; [done|]. cbn [Run_ldap]. unfold ldap_main, workersDone. rewrite Em, Hd1, Hd2.
    by rewrite bool_decide_true.
Qed.

Definition main_rank (pc : ldap_pc) : nat :=
  match pc with
  | LdapListen => 100 | LdapListenTLS => 99 | LdapSelect => 4 | LdapCancel _ => 3 | LdapStopped _ => 2 | LdapWorkers _ => 1
  | LdapReturned _ => 0
  end.

Definition loop_rank (pc : accept_pc) : nat :=
  match pc with
  | AIdle | ADone => 0 | ASend => 1 | AFailed => 2 | AAccept => 3
  | ALock _ => 20 | ACheck _ => 19 | AInsert _ | ARefuse _ => 18 | AUnlock _ | ADrop _ => 17 | ASpawn _ => 16
  end.

Definition worker_rank (w : worker_pc) : nat :=
  match w with WServing => 5 | WClose => 4 | WLock => 3 | WDelete => 2 | WUnlock => 1 end.

(** The sweep visits at most as many connections as the limit admits. *)
Definition closer_rank (pc : closer_pc) : nat :=
  match pc with
  | CIdle | CStopped => 0 | CUnlock => 1 | CSweep rest => 2 + length rest | CLock => 67 | CSecure => 68 | CPlain => 69 | CWait => 70
  end.

Definition ldap_work (s : ldap_state) : nat :=
  main_rank (lv_main s) + loop_rank (lv_loop s Plain) + loop_rank (lv_loop s Secure) + closer_rank (lv_closer s)
  + msum worker_rank (lv_workers s).

Lemma ldap_work_step l s s' :
  ldap_inv s -> Run_ldap l s = Some s' ->
  (ldap_work s' < ldap_work s + if mc_arrives ldap_machine l then 18 else 0)%nat.
Proof.
  intros Hi E. pose proof (li_limit s Hi) as [Hl _]. unfold ldap_work, maxConnections in *.
  ldap_cases E; cbn [mc_arrives ldap_machine]; try match goal with e : endpoint |- _ => destruct e end;
    rewrite ?fn_lookup_insert, ?fn_lookup_insert_ne by done;
    repeat match goal with
    | H : lv_loop _ _ = _ |- _ => rewrite H; clear H
    | H : lv_closer _ = _ |- _ => rewrite H; clear H
    | H : lv_main _ = _ |- _ => rewrite H; clear H
    | H : lv_workers _ !! _ = Some _ |- context [msum _ (<[?c := ?w]> _)] =>
        pose proof (msum_insert worker_rank _ c _ w H); cbn [worker_rank] in *; clear H
    | H : lv_workers _ !! _ = Some _ |- context [msum _ (delete ?c _)] =>
        pose proof (msum_delete worker_rank _ c _ H); cbn [worker_rank] in *; clear H
    end; cbn [loop_rank closer_rank main_rank length]; try lia.
  - pose proof (msum_insert_le worker_rank (lv_workers s) c WServing). cbn [worker_rank] in *. lia.
  - pose proof (msum_insert_le worker_rank (lv_workers s) c WServing). cbn [worker_rank] in *. lia.
  - change (length (elements (lv_connections s))) with (size (lv_connections s)). lia.
  - rewrite msum_empty. lia.
Qed.

Lemma ldap_released s r :
  conn_inv s -> stop_inv s -> main_inv s -> mc_returned ldap_machine s = Some r -> mc_released ldap_machine s = true.
Proof.
  intros Hc Hs Hi Hr. cbn [mc_returned mc_released ldap_machine] in *. pose proof (mi_main s Hi) as Hm.
  destruct (lv_main s); try discriminate Hr. destruct Hm as [(Hst & Hp & _)|(Hcl & Hd1 & Hd2 & Hw)].
  - destruct (mi_idle s Hi Hst) as (_ & _ & -> & -> & ->). by rewrite Hp.
  - rewrite (sp_plain s Hs), (sp_secure s Hs), Hw by by rewrite Hcl.
    assert (Ho : lv_open s = ∅); [|by rewrite Ho]. apply set_eq. intros c. split; [|set_solver].
    intros Ho%(co_open s Hc). unfold worker_with in Ho. rewrite Hd1, Hd2, Hw, lookup_empty in Ho. naive_solver.
Qed.

#[export, refine] Instance ldap_stoppable : Stoppable ldap_machine := {
  st_work := ldap_work : mc_state ldap_machine -> nat;
  st_load := 18
}.
Proof.
  - by intros [].
  - intros l s s' Hs. apply ldap_work_step. by apply ldap_reachable.
  - done.
  - done.
  - intros l s s' E Hc. cbn [mc_step mc_cancelled ldap_machine] in *. by ldap_cases E.
  - intros s Hs. apply ldap_progress. by apply ldap_reachable.
  - intros l s s' r E Hr. cbn [mc_step mc_returned ldap_machine] in *. ldap_cases E; try done;
      by match goal with H : lv_main _ = _ |- _ => rewrite H in Hr end.
  - done.
  - intros s r Hs Hr. apply ldap_reachable in Hs as [_ _ _ Hc Hs Hi]. cbn [mc_returned mc_released ldap_machine] in *.
    by apply ldap_released with r.
Defined.

(** Without faults [Accept] fails only after the listener was closed, which the
    context causes. *)
Record clean_inv (s : ldap_state) : Prop := {
  ci_plain : started s = true -> lv_listening s Plain = false -> lv_cancelled s = true;
  ci_secure : started s = true -> lv_listening s Secure = false -> lv_cancelled s = true;
  ci_failed e : lv_loop s e = AFailed -> lv_cancelled s = true;
  ci_send e : lv_loop s e <> ASend;
  ci_failures : lv_failures s = [];
  ci_exit : match lv_main s with
            | LdapCancel r | LdapStopped r | LdapWorkers r | LdapReturned r => r = Ok tt
            | _ => True
            end
}.

Lemma clean_step l s s' :
  mc_fault ldap_machine l = false -> ldap_inv s -> clean_inv s -> Run_ldap l s = Some s' -> clean_inv s'.
Proof.
  intros Hl Hi [H1 H2 H3 H4 H5 H6] E. pose proof (mi_idle s (li_main s Hi)) as Hid.
  pose proof (sp_context s (li_stop s Hi)) as Hcx. unfold started in *.
  ldap_cases E; try discriminate Hl; clear Hl;
    (split; [..|intros e''|intros e''| |]); cbn [lv_closer lv_cancelled lv_listening lv_loop lv_failures lv_main] in *; try done; try congruence.
  all: try by eauto.
  all: reads; try by eauto.
  - intros _. destruct (match lv_closer s with CIdle => false | _ => true end) eqn:Hs; [destruct e; auto|].
    destruct (Hid eq_refl) as (Hp & Hq & _). destruct e; congruence.
  - match goal with H : lv_loop s e = AFailed |- _ => apply H3 in H end. congruence.
Qed.

#[export] Instance ldap_clean : Clean ldap_machine.
Proof.
  split. intros s r Hs Hr. enough (Hc : ldap_inv s /\ clean_inv s).
  { destruct Hc as [_ [_ _ _ _ _ Hx]]. cbn [mc_returned ldap_machine] in Hr. destruct (lv_main s); congruence. }
  clear Hr. revert s Hs. apply reachable_by_invariant; [split; [exact ldap_inv_init|by split]| |].
  - intros l s s' Hl [Hi Hc] E. split; [by eapply ldap_inv_step|by eapply clean_step].
  - intros s [Hi []]. split; [by apply ldap_inv_cancel|by split].
Qed.

(** ** Properties *)

(** C12: However connections arrive at the two endpoints, at most 64 are served at a
    time, each of them registered, so that the goroutine that shuts the server
    down finds it. *)
Theorem ldap_connections_bounded s (served : gset Z) :
  reachable ldap_machine s -> (forall c, c ∈ served -> lv_workers s !! c = Some WServing) ->
  served ⊆ lv_connections s /\ Z.of_nat (size served) <= maxConnections.
Proof.
  intros Hs Hw. apply ldap_reachable in Hs as [_ _ [Hl _] Hc _ _].
  assert (Hsub : served ⊆ lv_connections s).
  { intros c Hx. apply (co_registered s Hc). right; right. unfold worker_with. by rewrite (Hw c Hx). }
  split; [done|]. pose proof (subseteq_size _ _ Hsub). lia.
Qed.

(** A client is accepted and served. *)
Definition ldap_schedule : list ldap_label :=
  [LdapMain; LdapMain; LdapConnect Secure; LdapLoop Secure; LdapLoop Secure; LdapLoop Secure; LdapLoop Secure; LdapLoop Secure].

Lemma ldap_connections_bounded_witness :
  exists s, exec (M := ldap_machine) ldap_schedule ldap_init = Some s /\ {[0]} ⊆ lv_connections s.
Proof.
  destruct (exec (M := ldap_machine) ldap_schedule ldap_init) as [s|] eqn:E; [|exfalso; vm_compute in E; discriminate E].
  exists s. split; [reflexivity|]. apply (ldap_connections_bounded s {[0]}).
  - exact (exec_reachable ldap_machine ldap_schedule ldap_init s (ReachInit ldap_machine _) E).
  - intros c ->%elem_of_singleton. vm_compute in E. injection E as <-. reflexivity.
Defined.



