(* ===== verification/GoBase64.v ===== *)
(** * Go's encoding/base64: RawURLEncoding, and its strict decoder

    The URL alphabet without padding, as ACME uses it for identifiers, tokens,
    thumbprints, CSRs and certificates. *)

From stdpp Require Import gmap list strings.
From Stdlib Require Import ZArith Lia.
From S2P Require Import Prelude GoStrings.

(** ** The alphabet *)

Definition b64_char (v : Z) : Z :=
  if v <? 26 then 65 + v else if v <? 52 then 71 + v else if v <? 62 then v - 4
  else if v =? 62 then 45 else 95.

Definition b64_value (c : Z) : option Z :=
  if inr c 65 90 then Some (c - 65) else if inr c 97 122 then Some (c - 71)
  else if inr c 48 57 then Some (c + 4) else if c =? 45 then Some 62
  else if c =? 95 then Some 63 else None.

(** ** RawURLEncoding *)

(** [EncodeToString]: three bytes become four characters. *)
Fixpoint EncodeToString (s : bytes) : bytes :=
  match s with
  | [] => []
  | [a] => [b64_char (a / 4); b64_char (a mod 4 * 16)]
  | [a; b] => [b64_char (a / 4); b64_char (a mod 4 * 16 + b / 16); b64_char (b mod 16 * 4)]
  | a :: b :: c :: rest =>
      b64_char (a / 4) :: b64_char (a mod 4 * 16 + b / 16)
      :: b64_char (b mod 16 * 4 + c / 64) :: b64_char (c mod 64) :: EncodeToString rest
  end.

(** The quanta of the strict decoder, over six-bit values: the bits a final
    short quantum does not use must be zero. *)
Fixpoint decodeQuanta (s : list Z) : option bytes :=
  match s with
  | [] => Some []
  | [_] => None
  | [w; x] => if x mod 16 =? 0 then Some [w * 4 + x / 16] else None
  | [w; x; y] => if y mod 4 =? 0 then Some [w * 4 + x / 16; x mod 16 * 16 + y / 4] else None
  | w :: x :: y :: z :: rest =>
      match decodeQuanta rest with
      | Some out => Some (w * 4 + x / 16 :: x mod 16 * 16 + y / 4 :: y mod 4 * 64 + z :: out)
      | None => None
      end
  end.

(** [Strict().DecodeString]: newlines are skipped wherever they stand, every
    other character must be of the alphabet. *)
Definition DecodeString (s : bytes) : option bytes :=
  match mapM b64_value (filter (fun c => c <> 10 /\ c <> 13) s) with
  | Some values => decodeQuanta values
  | None => None
  end.

(** ** Facts *)

Lemma inr_spec c lo hi : inr c lo hi = true <-> lo <= c <= hi.
Proof. unfold inr. rewrite andb_true_iff, !Z.leb_le. lia. Qed.

Lemma b64_value_char v : 0 <= v < 64 -> b64_value (b64_char v) = Some v.
Proof.
  intros Hv. assert (Hall : forallb (fun n => bool_decide (b64_value (b64_char (Z.of_nat n)) = Some (Z.of_nat n)))
    (seq 0 64) = true) by (vm_compute; reflexivity).
  rewrite forallb_forall in Hall. specialize (Hall (Z.to_nat v)). rewrite Z2Nat.id in Hall by lia.
  apply bool_decide_eq_true in Hall; [done|]. apply in_seq. lia.
Qed.

(** The characters of the alphabet. *)
Definition b64_alphabet (c : Z) : Prop :=
  65 <= c <= 90 \/ 97 <= c <= 122 \/ 48 <= c <= 57 \/ c = 45 \/ c = 95.

Lemma b64_char_alphabet v : 0 <= v < 64 -> b64_alphabet (b64_char v).
Proof.
  intros Hv. unfold b64_char, b64_alphabet.
  repeat match goal with
         | |- context [?a <? ?b] => destruct (Z.ltb_spec a b)
         | |- context [?a =? ?b] => destruct (Z.eqb_spec a b)
         end; lia.
Qed.

Lemma bytes_ind3 (P : bytes -> Prop) :
  P [] -> (forall a, P [a]) -> (forall a b, P [a; b]) ->
  (forall a b c s, P s -> P (a :: b :: c :: s)) -> forall s, P s.
Proof.
  intros H0 H1 H2 H3 s. assert (P s /\ (forall a, P (a :: s)) /\ (forall a b, P (a :: b :: s))) as [? _];
    [|done].
  induction s as [|c s (I0 & I1 & I2)]; [done|]. split_and!; [apply I1|intros; apply I2|intros; by apply H3].
Qed.

(** The six-bit values of a byte string. *)
Fixpoint sextets (s : bytes) : list Z :=
  match s with
  | [] => []
  | [a] => [a / 4; a mod 4 * 16]
  | [a; b] => [a / 4; a mod 4 * 16 + b / 16; b mod 16 * 4]
  | a :: b :: c :: rest =>
      a / 4 :: a mod 4 * 16 + b / 16 :: b mod 16 * 4 + c / 64 :: c mod 64 :: sextets rest
  end.

Lemma EncodeToString_sextets s : EncodeToString s = map b64_char (sextets s).
Proof. induction s using bytes_ind3; [done..|]. simpl. by rewrite IHs. Qed.

Lemma sextets_range s : wf_bytes s -> Forall (fun v => 0 <= v < 64) (sextets s).
Proof.
  induction s as [|a|a b|a b c s IH] using bytes_ind3; intros Hs;
    repeat (apply Forall_cons in Hs as [? Hs]); simpl; repeat constructor;
    try (by apply IH); Z.to_euclidean_division_equations; lia.
Qed.

Lemma decodeQuanta_sextets s : wf_bytes s -> decodeQuanta (sextets s) = Some s.
Proof.
  induction s as [|a|a b|a b c s IH] using bytes_ind3; intros Hs;
    repeat (apply Forall_cons in Hs as [? Hs]); simpl; [done|..].
  - replace (a mod 4 * 16 mod 16) with 0 by (Z.to_euclidean_division_equations; lia).
    simpl. do 2 f_equal. Z.to_euclidean_division_equations; lia.
  - replace (b mod 16 * 4 mod 4) with 0 by (Z.to_euclidean_division_equations; lia).
    simpl. f_equal. f_equal; [|f_equal]; Z.to_euclidean_division_equations; lia.
  - rewrite (IH Hs). f_equal. f_equal; [|f_equal; [|f_equal]]; Z.to_euclidean_division_equations; lia.
Qed.

Lemma sextets_mapM s : wf_bytes s -> mapM b64_value (EncodeToString s) = Some (sextets s).
Proof.
  intros Hs%sextets_range. rewrite EncodeToString_sextets.
  induction Hs as [|v vs Hv _ IH]; [done|]. simpl. by rewrite b64_value_char, IH.
Qed.

Lemma EncodeToString_alphabet s : wf_bytes s -> Forall b64_alphabet (EncodeToString s).
Proof.
  intros Hs%sextets_range. rewrite EncodeToString_sextets. apply Forall_map.
  eapply Forall_impl; [exact Hs|]. simpl. intros v Hv. by apply b64_char_alphabet.
Qed.

Lemma filter_keeps_all {A} (P : A -> Prop) `{!forall x, Decision (P x)} (l : list A) :
  Forall P l -> filter P l = l.
Proof. induction 1 as [|x l Hx _ IH]; [done|]. rewrite filter_cons_True by done. by rewrite IH. Qed.

(** What was encoded decodes to itself. *)
Lemma DecodeString_EncodeToString s : wf_bytes s -> DecodeString (EncodeToString s) = Some s.
Proof.
  intros Hs. unfold DecodeString.
  rewrite (filter_keeps_all _ (EncodeToString s)).
  - rewrite sextets_mapM by done. by apply decodeQuanta_sextets.
  - eapply Forall_impl; [by apply EncodeToString_alphabet|]. unfold b64_alphabet. simpl. lia.
Qed.

Lemma length_EncodeToString s : (length (EncodeToString s) = (length s * 4 + 2) / 3)%nat.
Proof.
  induction s as [|a|a b|a b c s IH] using bytes_ind3; [done..|].
  cbn [EncodeToString length]. rewrite IH.
  replace (S (S (S (length s))) * 4 + 2)%nat with (length s * 4 + 2 + 4 * 3)%nat by lia.
  rewrite Nat.div_add by lia. lia.
Qed.

Example b64_example : EncodeToString (str "light w") = str "bGlnaHQgdw".
Proof. vm_compute. reflexivity. Qed.

Example b64_strict : DecodeString (str "bGlnaHQgdx") = None.
Proof. vm_compute. reflexivity. Qed.
