(* ===== verification/GoKeys.v ===== *)
(** * Public keys

    The public keys of crypto/ecdsa, crypto/rsa and crypto/ed25519, as far as the
    program looks inside them, and the key policy the packages acmeauth and pki
    share. *)

From stdpp Require Import gmap list.
From Stdlib Require Import ZArith Lia.
From S2P Require Import Prelude GoStrings.

Inductive curve := P224 | P256 | P384 | P521 | OtherCurve.
#[export] Instance curve_eq_dec : EqDecision curve.
Proof. solve_decision. Defined.

(** Coordinates and the modulus may be nil pointers. *)
Record ecdsa_key := mkEcdsa { ec_Curve : curve; ec_X : option Z; ec_Y : option Z }.
Record rsa_key := mkRsa { rsa_N : option Z; rsa_E : Z }.

(** A [crypto.PublicKey]: a pointer that may be nil, a byte string, or a value of
    some other type. *)
Inductive public_key :=
| EcdsaKey (k : option ecdsa_key) | RsaKey (k : option rsa_key) | Ed25519Key (k : bytes) | UnknownKey.

(** [ecdsa.PublicKey.Bytes] succeeds: the coordinates are a point of the curve. *)
Class Curves := { onCurve : curve -> Z -> Z -> bool }.

(** [big.Int.BitLen] of a positive number. *)
Definition BitLen (n : Z) : Z := if n <=? 0 then 0 else Z.log2 n + 1.

Section keys.
Context `{Curves}.

Definition validEcdsa (k : option ecdsa_key) : bool :=
  match k with
  | None => false
  | Some k =>
      if negb (bool_decide (ec_Curve k = P256)) && negb (bool_decide (ec_Curve k = P384))
         && negb (bool_decide (ec_Curve k = P521)) then false
      else match ec_X k, ec_Y k with
           | Some x, Some y => onCurve (ec_Curve k) x y
           | _, _ => false
           end
  end.

Definition validRsa (k : option rsa_key) : bool :=
  match k with
  | None => false
  | Some k =>
      match rsa_N k with
      | None => false
      | Some n => (0 <? n) && (2048 <=? BitLen n) && (BitLen n <=? 8192) && Z.testbit n 0
                  && (3 <=? rsa_E k) && (rsa_E k <=? 2 ^ 31 - 1) && (Z.rem (rsa_E k) 2 =? 1)
      end
  end.

Definition validEd25519 (k : bytes) : bool := len k =? 32.

(** The type switch of [validPublicKey] and of [validateCSRKey]. *)
Definition supportedKey (k : public_key) : bool :=
  match k with
  | EcdsaKey k => validEcdsa k
  | RsaKey k => validRsa k
  | Ed25519Key k => validEd25519 k
  | UnknownKey => false
  end.

End keys.
