(* ===== verification/GoAsn1.v ===== *)
(** * encoding/asn1: raw values

    [asn1.Unmarshal] into an [asn1.RawValue]: the tag, the length in its shortest
    form, and the contents, of the DER value a byte string starts with. *)

From stdpp Require Import gmap list.
From Stdlib Require Import ZArith Lia.
From S2P Require Import Prelude GoStrings.

Record RawValue := mkRaw { rv_Class : Z; rv_Tag : Z; rv_IsCompound : bool; rv_Bytes : bytes }.

Definition ClassUniversal : Z := 0.
Definition ClassContextSpecific : Z := 2.
Definition TagSequence : Z := 16.

(** [parseBase128Int]: at most five octets, the first not 0x80. *)
Fixpoint parseBase128Int (shifted : nat) (acc : Z) (s : bytes) : option (Z * bytes) :=
  match s with
  | [] => None
  | b :: r =>
      if (5 <=? shifted)%nat || ((shifted =? 0)%nat && (b =? 128)) then None
      else
        let acc := acc * 128 + Z.land b 127 in
        if Z.land b 128 =? 0 then (if 2 ^ 31 - 1 <? acc then None else Some (acc, r))
        else parseBase128Int (S shifted) acc r
  end.

(** The octets of a long length. *)
Fixpoint longLength (n : nat) (length : Z) (s : bytes) : option (Z * bytes) :=
  match n with
  | O => if length <? 128 then None else Some (length, s)
  | S k =>
      match s with
      | [] => None
      | b :: r =>
          if 2 ^ 23 <=? length then None
          else
            let length := length * 256 + b in
            if length =? 0 then None else longLength k length r
      end
  end.

(** [parseTagAndLength]: class, compound, tag, length and the rest. *)
Definition parseTagAndLength (s : bytes) : option (Z * bool * Z * Z * bytes) :=
  match s with
  | [] => None
  | b :: r =>
      let class := Z.shiftr b 6 in
      let compound := negb (Z.land b 32 =? 0) in
      match (if Z.land b 31 =? 31
             then match parseBase128Int 0 0 r with
                  | Some (tag, r) => if tag <? 31 then None else Some (tag, r)
                  | None => None
                  end
             else Some (Z.land b 31, r)) with
      | None => None
      | Some (tag, r) =>
          match r with
          | [] => None
          | l :: r =>
              if Z.land l 128 =? 0 then Some (class, compound, tag, Z.land l 127, r)
              else if Z.land l 127 =? 0 then None
              else match longLength (Z.to_nat (Z.land l 127)) 0 r with
                   | Some (length, r) => Some (class, compound, tag, length, r)
                   | None => None
                   end
          end
      end
  end.

(** [asn1.Unmarshal(s, &raw)]: the value and the rest. *)
Definition asn1_Unmarshal (s : bytes) : option (RawValue * bytes) :=
  match parseTagAndLength s with
  | None => None
  | Some (class, compound, tag, length, r) =>
      if len r <? length then None
      else Some (mkRaw class tag compound (take (Z.to_nat length) r), drop (Z.to_nat length) r)
  end.

Lemma parseBase128Int_length k acc s tag r : parseBase128Int k acc s = Some (tag, r) -> (length r < length s)%nat.
Proof.
  revert k acc. induction s as [|b s IH]; intros k acc; cbn [parseBase128Int]; [done|].
  destruct (_ || _); [done|]. destruct (Z.land b 128 =? 0).
  - destruct (_ <? _); [done|]. intros [= <- <-]. simpl. lia.
  - intros E. apply IH in E. simpl. lia.
Qed.

Lemma longLength_length n l s x r : longLength n l s = Some (x, r) -> (length r <= length s)%nat.
Proof.
  revert l s. induction n as [|n IH]; intros l s; cbn [longLength].
  - destruct (_ <? _); [done|]. by intros [= <- <-].
  - destruct s as [|b s]; [done|]. destruct (_ <=? _); [done|]. destruct (_ =? 0); [done|].
    intros E. apply IH in E. simpl. lia.
Qed.

(** A value takes up at least two bytes. *)
Lemma asn1_Unmarshal_length s v r : asn1_Unmarshal s = Some (v, r) -> (length r < length s)%nat.
Proof.
  unfold asn1_Unmarshal. destruct (parseTagAndLength s) as [[[[[c b] t] n] k]|] eqn:E; [|done].
  assert (Hk : (length k < length s)%nat).
  { revert E. unfold parseTagAndLength. destruct s as [|x s]; [done|].
    destruct (if Z.land x 31 =? 31 then _ else _) as [[tag r1]|] eqn:Et; [|done].
    assert (H1 : (length r1 <= length s)%nat).
    { revert Et. destruct (_ =? 31); [|by intros [= <- <-]].
      destruct (parseBase128Int 0 0 s) as [[t' r']|] eqn:Eb; [|done]. destruct (_ <? 31); [done|].
      intros [= <- <-]. apply parseBase128Int_length in Eb. lia. }
    destruct r1 as [|l r1]; [done|]. destruct (Z.land l 128 =? 0); [intros [= <- <- <- <- <-]; simpl in *; lia|].
    destruct (Z.land l 127 =? 0); [done|]. destruct (longLength _ _ _) as [[n' r']|] eqn:El; [|done].
    intros [= <- <- <- <- <-]. apply longLength_length in El. simpl in *. lia. }
  destruct (_ <? _); [done|]. intros [= <- <-]. rewrite length_drop. lia.
Qed.
