(* ===== verification/GoTime.v ===== *)
(** * Go's time.ParseDuration

    Durations as the configuration writes them ("12h", "1m30s", "1.5h").  The
    fraction goes through float64 arithmetic, which [rnd] models on rationals:
    round to 53 significant bits, ties to even (the magnitudes that occur are far
    from the subnormal range). *)

From stdpp Require Import gmap list strings.
From Stdlib Require Import ZArith Lia.
From S2P Require Import Prelude GoStrings.

(** ** float64 on positive rationals *)

(** Division rounded to the nearest integer, ties to even. *)
Definition div_even (n d : Z) : Z :=
  let q := n / d in
  let r := 2 * (n mod d) in
  if (r <? d) || ((r =? d) && Z.even q) then q else q + 1.

(** A rational and the exponent of a unit in its last place, as a rational. *)
Definition scaled (n d e : Z) : Z * Z := if 0 <=? e then (n, d * 2 ^ e) else (n * 2 ^ (- e), d).

Definition rnd (x : Z * Z) : Z * Z :=
  let '(n, d) := x in
  if n =? 0 then (0, 1)
  else
    let e := Z.log2 n - Z.log2 d - 52 in
    let '(a, b) := scaled n d e in
    let e := if a / b <? 2 ^ 52 then e - 1 else e in
    let '(a, b) := scaled n d e in
    let m := div_even a b in
    if 0 <=? e then (m * 2 ^ e, 1) else (m, 2 ^ (- e)).

Definition fmul (x y : Z * Z) : Z * Z := rnd (x.1 * y.1, x.2 * y.2).

(** [uint64(float64(f) * (float64(unit) / scale))]. *)
Definition fraction (f unit scale : Z) : Z :=
  let '(n, d) := fmul (rnd (f, 1)) (rnd (unit, scale)) in n / d.

(** ** The syntax *)

Definition isDigit (c : Z) : bool := (48 <=? c) && (c <=? 57).

(** [leadingInt]: [None] is the overflow error. *)
Fixpoint leadingInt (s : bytes) (x : Z) : option (Z * bytes) :=
  match s with
  | c :: rest =>
      if negb (isDigit c) then Some (x, s)
      else if 2 ^ 63 / 10 <? x then None
      else let x := x * 10 + (c - 48) in
           if 2 ^ 63 <? x then None else leadingInt rest x
  | [] => Some (x, [])
  end.

(** [leadingFraction]: digits beyond the range are skipped. *)
Fixpoint leadingFraction (s : bytes) (x scale : Z) (overflow : bool) : Z * Z * bytes :=
  match s with
  | c :: rest =>
      if negb (isDigit c) then (x, scale, s)
      else if overflow then leadingFraction rest x scale true
      else if (2 ^ 63 - 1) / 10 <? x then leadingFraction rest x scale true
      else let y := x * 10 + (c - 48) in
           if 2 ^ 63 <? y then leadingFraction rest x scale true
           else leadingFraction rest y (scale * 10) false
  | [] => (x, scale, [])
  end.

(** The unit: everything up to the next digit or point. *)
Fixpoint unitName (s : bytes) : bytes * bytes :=
  match s with
  | c :: rest => if (c =? DOT) || isDigit c then ([], s) else let '(u, r) := unitName rest in (c :: u, r)
  | [] => ([], [])
  end.

Definition unitMap (u : bytes) : option Z :=
  if beq u (str "ns") then Some 1
  else if beq u (str "us") || beq u [194; 181; 115] || beq u [206; 188; 115] then Some 1000
  else if beq u (str "ms") then Some 1000000
  else if beq u (str "s") then Some 1000000000
  else if beq u (str "m") then Some 60000000000
  else if beq u (str "h") then Some 3600000000000
  else None.

(** One term of the sum: its nanoseconds and the rest. *)
Definition durationTerm (s : bytes) : option (Z * bytes) :=
  match s with
  | [] => None
  | c :: _ =>
      if negb ((c =? DOT) || isDigit c) then None
      else match leadingInt s 0 with
      | None => None
      | Some (v, r) =>
          let pre := negb (len s =? len r) in
          let '(f, scale, post, r) :=
            match r with
            | c :: r' => if c =? DOT then let '(f, scale, r'') := leadingFraction r' 0 1 false in
                                       (f, scale, negb (len r' =? len r''), r'')
                         else (0, 1, false, r)
            | [] => (0, 1, false, r)
            end in
          if negb pre && negb post then None
          else let '(u, r) := unitName r in
               if beq u [] then None
               else match unitMap u with
               | None => None
               | Some unit =>
                   if 2 ^ 63 / unit <? v then None
                   else let v := v * unit in
                        let v := if 0 <? f then v + fraction f unit scale else v in
                        if (0 <? f) && (2 ^ 63 <? v) then None else Some (v, r)
               end
      end
  end.

(** The loop of [ParseDuration]; every term consumes a byte, so the length of
    the text is enough fuel. *)
Fixpoint durationTerms (fuel : nat) (s : bytes) (d : Z) : option Z :=
  match s with
  | [] => Some d
  | _ => match fuel with
         | O => None
         | S k => match durationTerm s with
                  | None => None
                  | Some (v, r) => let d := d + v in if 2 ^ 63 <? d then None else durationTerms k r d
                  end
         end
  end.

Definition ParseDuration (s : bytes) : option Z :=
  let '(neg, s) := match s with
                   | c :: r => if (c =? 45) || (c =? 43) then (c =? 45, r) else (false, s)
                   | [] => (false, s)
                   end in
  if beq s (str "0") then Some 0
  else if beq s [] then None
  else match durationTerms (length s) s 0 with
       | None => None
       | Some d => if neg then Some (- d) else if 2 ^ 63 - 1 <? d then None else Some d
       end.

Example parse_12h : ParseDuration (str "12h") = Some 43200000000000.
Proof. vm_compute. reflexivity. Qed.
Example parse_mixed : ParseDuration (str "1h30m1.5s") = Some 5401500000000.
Proof. vm_compute. reflexivity. Qed.
Example parse_tenth : ParseDuration (str "-.1s") = Some (-100000000) /\ ParseDuration (str "1") = None.
Proof. vm_compute. done. Qed.

(** Every term consumes at least one byte: the fuel is enough. *)
Lemma leadingInt_length s x v r : leadingInt s x = Some (v, r) -> (length r <= length s)%nat.
Proof.
  revert x. induction s as [|c s IH]; intros x E; simpl in E; [by injection E as <- <-|].
  destruct (negb (isDigit c)); [by injection E as <- <-|].
  case_all E. apply IH in E. simpl. lia.
Qed.

Lemma leadingFraction_length s x sc o f sc' r : leadingFraction s x sc o = (f, sc', r) -> (length r <= length s)%nat.
Proof.
  revert x sc o. induction s as [|c s IH]; intros x sc o E; simpl in E; [by injection E as <- <- <-|].
  destruct (negb (isDigit c)); [by injection E as <- <- <-|].
  case_all E; apply IH in E; simpl; lia.
Qed.

Lemma unitName_length s u r : unitName s = (u, r) -> u <> [] -> (length r < length s)%nat.
Proof.
  revert u r. induction s as [|c s IH]; intros u r E Hu; simpl in E; [by injection E as <- <-|].
  destruct (_ || _); [by injection E as <- <-|]. destruct (unitName s) as [u' r'] eqn:E'.
  injection E as <- <-. destruct u' as [|x u']; [|specialize (IH _ _ eq_refl ltac:(done)); simpl; lia].
  destruct s as [|c' s]; simpl in E'; [injection E' as <-; simpl; lia|].
  destruct (_ || _); [injection E' as <-; simpl; lia|]. by destruct (unitName s).
Qed.

Lemma durationTerm_length s v r : durationTerm s = Some (v, r) -> (length r < length s)%nat.
Proof.
  destruct s as [|c s]; [done|]. unfold durationTerm. destruct (negb _); [done|].
  destruct (leadingInt (c :: s) 0) as [[v' r1]|] eqn:E1; [|done]. apply leadingInt_length in E1.
  intros E. cbv zeta in E.
  assert (Hr : exists f sc post r2, (match r1 with
            | c :: r' => if c =? DOT then let '(f, scale, r'') := leadingFraction r' 0 1 false in
                                       (f, scale, negb (len r' =? len r''), r'')
                         else (0, 1, false, r1)
            | [] => (0, 1, false, r1) end) = (f, sc, post, r2) /\ (length r2 <= length r1)%nat).
  { destruct r1 as [|c1 r1]; [by repeat eexists|]. destruct (c1 =? DOT); [|by repeat eexists].
    destruct (leadingFraction r1 0 1 false) as [[f sc] r2] eqn:E2. apply leadingFraction_length in E2.
    repeat eexists. simpl. lia. }
  destruct Hr as (f & sc & post & r2 & Er & Hl). rewrite Er in E.
  destruct (_ && negb post); [done|]. destruct (unitName r2) as [u r3] eqn:E3.
  destruct (beq u []) eqn:Eu; [done|]. apply beq_false in Eu. apply unitName_length in E3; [|done].
  destruct (unitMap u); [|done]. destruct (_ <? v'); [done|]. destruct (_ && _); [done|].
  injection E as _ <-. lia.
Qed.

(** The loop never runs out of fuel: more of it changes nothing. *)
Lemma durationTerms_fuel k s d : (length s <= k)%nat -> durationTerms k s d = durationTerms (length s) s d.
Proof.
  revert k d. induction s as [s IH] using (induction_ltof1 _ (@length Z)). unfold ltof in IH. intros k d Hk.
  destruct s as [|c s]; [by destruct k|]. destruct k as [|k]; [simpl in Hk; lia|].
  cbn [durationTerms length]. destruct (durationTerm (c :: s)) as [[v r]|] eqn:E; [|done].
  apply durationTerm_length in E as Hr. cbv zeta. destruct (_ <? _); [done|].
  simpl in Hk, Hr. rewrite (IH r) by (simpl; lia). symmetry. apply IH; simpl; lia.
Qed.
