(* ===== verification/AcmeState.v ===== *)
(** * Package internal/acmeserver: data model, limits and snapshots

    types.go, limits.go and store.go: the accounts, orders, authorizations and
    certificates a server keeps, the creation quotas of a DHCP lease, the
    pruning of every snapshot, the commit of a snapshot to the state file and
    its validation when it is read back.

    Statuses are strings, as in the code.  A Go map read at a missing key gives
    the zero value of its type, here the [zero] records.  go-jose keys and X.509
    certificates are the classes [Jose] and [X509]; the theorems hold for every
    instance. *)

From stdpp Require Import gmap list strings.
From Stdlib Require Import ZArith Lia.
From S2P Require Import Prelude GoStrings Names GoNet GoAddr Lease GoBase64.

(** ** Code outside the package *)

(** go-jose: public keys, their RFC 7638 thumbprints. *)
Class Jose := {
  Key : Type;
  zeroKey : Key;
  Thumbprint : Key -> option bytes;
  IsPublic : Key -> bool
}.

(** crypto/x509 and encoding/pem: what the server reads of a certificate and of
    a revocation list. *)
Record Leaf `{Jose} := mkLeaf {
  Raw : bytes;
  SerialNumber : Z;
  NotAfter : time;
  IsCA : bool;
  DNSNames : list bytes;
  otherNames : Z;            (** IP addresses, e-mail addresses and URIs *)
  PublicKey : Key
}.

Record RevocationList := mkCRL { Number : option Z; NextUpdate : time }.

Class X509 `{Jose} := {
  pemDecode : bytes -> option (bytes * bytes);
  ParseCertificate : bytes -> option Leaf;
  CheckLeafSignature : Leaf -> bool;           (** CheckSignatureFrom(s.root) *)
  ParseRevocationList : bytes -> option RevocationList;
  CheckCRLSignature : RevocationList -> bool
}.

(** math/big: [String] and [SetString(_, 10)]. *)
Definition BigString (n : Z) : bytes :=
  if n <? 0 then 45 :: decimal (S (Z.to_nat (Z.log2 (- n)))) (- n)
  else decimal (S (Z.to_nat (Z.log2 n))) n.

Definition BigSetString (s : bytes) : option Z :=
  let '(neg, digits) :=
    match s with
    | c :: rest => if c =? 45 then (true, rest) else if c =? 43 then (false, rest) else (false, s)
    | [] => (false, s)
    end in
  if negb (len digits =? 0) && forallb is_digit digits
  then Some (if neg then - digits_value digits else digits_value digits) else None.

(** ** types.go *)

Definition hour : duration := 3600 * 1000000000.
Definition maxAccounts : Z := 4096.
Definition maxAccountOrders : Z := 32.
Definition maxLeaseAccounts : Z := 8.
Definition maxLeaseOrders : Z := 32.
Definition accountIdleLifetime : duration := 30 * 24 * hour.
Definition accountRateWindow : duration := 24 * hour.
Definition orderRateWindow : duration := hour.
Definition maxRecords : Z := 10000.
Definition maxIdentifiers : Z := 16.
Definition orderLifetime : duration := 24 * hour.

Record problem := mkProblem {
  p_Type : string; Detail : string; p_Status : Z; Algorithms : list string
}.

Definition failure (status : Z) (kind detail : string) : problem :=
  mkProblem ("urn:ietf:params:acme:error:" +:+ kind) detail status
    (if bool_decide (kind = "badSignatureAlgorithm"%string)
     then ["ES256"; "ES384"; "ES512"; "RS256"; "RS384"; "RS512"; "PS256"; "PS384"; "PS512"; "EdDSA"]%string
     else []).

(** acmevalidate.Target. *)
Record Target := mkTarget { t_IP : Addr; t_ClientID : bytes }.
#[export] Instance Target_eq_dec : EqDecision Target.
Proof. solve_decision. Defined.
Definition zeroTarget : Target := mkTarget AddrNone [].

Record identifier := mkIdentifier { i_Type : string; i_Value : bytes }.

Record account `{Jose} := mkAccount {
  acc_ID : bytes; acc_Key : Key; acc_Thumbprint : bytes; acc_Status : string;
  acc_Contact : list bytes; LastActive : time; RecentOrders : list time
}.

Record order := mkOrder {
  ord_ID : bytes; ord_AccountID : bytes; ord_Status : string; ord_Expires : time;
  Identifiers : list identifier; AuthIDs : list bytes; CertificateID : bytes;
  CSR : bytes; ord_Error : option problem
}.

Record authorization := mkAuthorization {
  auth_ID : bytes; auth_AccountID : bytes; auth_OrderID : bytes; auth_Name : bytes;
  auth_Status : string; auth_Expires : time; Token : bytes; ChallengeStatus : string;
  Validated : option time; auth_Target : Target; auth_Error : option problem
}.

Record certificate := mkCertificate {
  cert_ID : bytes; cert_AccountID : bytes; cert_OrderID : bytes; PEM : bytes;
  Serial : bytes; cert_NotAfter : time; RevokedAt : option time; Reason : Z
}.

Record leaseLimit := mkLeaseLimit { ll_Accounts : list time; ll_Orders : list time }.

Record acme_state `{Jose} := mkAcmeState {
  LeaseLimits : gmap bytes leaseLimit;
  Version : Z;
  st_Domain : bytes;
  RootFingerprint : bytes;
  Accounts : gmap bytes account;
  Orders : gmap bytes order;
  Authorizations : gmap bytes authorization;
  Certificates : gmap bytes certificate;
  CRL : bytes;
  CRLNumber : Z;
  CRLNextUpdate : time
}.

Arguments mkLeaf {_}.
Arguments mkAccount {_}.
Arguments mkAcmeState {_}.

(** The zero values a missing map key reads as. *)
Definition zeroOrder : order := mkOrder [] [] "" zeroTime [] [] [] [] None.
Definition zeroAuthorization : authorization :=
  mkAuthorization [] [] [] [] "" zeroTime [] "" None zeroTarget None.
Definition zeroAccount `{Jose} : account := mkAccount [] zeroKey [] "" [] zeroTime [].
Definition zeroLimit : leaseLimit := mkLeaseLimit [] [].

(** Snapshots are values, so [clone] is the identity; these replace one map. *)
Section updates.
Context `{Jose}.
Definition set_Accounts (st : acme_state) (m : gmap bytes account) : acme_state :=
  mkAcmeState (LeaseLimits st) (Version st) (st_Domain st) (RootFingerprint st) m (Orders st)
    (Authorizations st) (Certificates st) (CRL st) (CRLNumber st) (CRLNextUpdate st).
Definition set_Orders (st : acme_state) (m : gmap bytes order) : acme_state :=
  mkAcmeState (LeaseLimits st) (Version st) (st_Domain st) (RootFingerprint st) (Accounts st) m
    (Authorizations st) (Certificates st) (CRL st) (CRLNumber st) (CRLNextUpdate st).
Definition set_Authorizations (st : acme_state) (m : gmap bytes authorization) : acme_state :=
  mkAcmeState (LeaseLimits st) (Version st) (st_Domain st) (RootFingerprint st) (Accounts st)
    (Orders st) m (Certificates st) (CRL st) (CRLNumber st) (CRLNextUpdate st).
Definition set_Certificates (st : acme_state) (m : gmap bytes certificate) : acme_state :=
  mkAcmeState (LeaseLimits st) (Version st) (st_Domain st) (RootFingerprint st) (Accounts st)
    (Orders st) (Authorizations st) m (CRL st) (CRLNumber st) (CRLNextUpdate st).
Definition set_LeaseLimits (st : acme_state) (m : gmap bytes leaseLimit) : acme_state :=
  mkAcmeState m (Version st) (st_Domain st) (RootFingerprint st) (Accounts st) (Orders st)
    (Authorizations st) (Certificates st) (CRL st) (CRLNumber st) (CRLNextUpdate st).
Definition set_CRL (st : acme_state) (der : bytes) (number : Z) (next : time) : acme_state :=
  mkAcmeState (LeaseLimits st) (Version st) (st_Domain st) (RootFingerprint st) (Accounts st)
    (Orders st) (Authorizations st) (Certificates st) der number next.
End updates.

(** Assignments to the fields of a copied record. *)
Definition ord_with (o : order) (status : string) (error : option problem) : order :=
  mkOrder (ord_ID o) (ord_AccountID o) status (ord_Expires o) (Identifiers o) (AuthIDs o)
    (CertificateID o) (CSR o) error.
Definition auth_with (a : authorization) (status challenge : string) (error : option problem)
    : authorization :=
  mkAuthorization (auth_ID a) (auth_AccountID a) (auth_OrderID a) (auth_Name a) status
    (auth_Expires a) (Token a) challenge (Validated a) (auth_Target a) error.

(** Equality of statuses, as a test. *)
Definition eqs (a b : string) : bool := bool_decide (a = b).

(** ** The server *)

(** The configuration New keeps; [ac_Root] is the fingerprint of the CA. *)
Record AcmeConfig := mkAcmeConfig { BaseURL : bytes; ac_Domain : bytes; ac_Root : bytes }.

(** The state file: [FState] holds whether the four collections are present
    (not null), the decoded snapshot and the modification time. *)
Inductive acme_file `{Jose} :=
| FMissing
| FUninspectable
| FIrregular
| FTooLarge
| FUnopenable
| FMalformed
| FTrailing
| FState (collections : bool) (st : acme_state) (modTime : time).

Arguments FMissing {_}.
Arguments FUninspectable {_}.
Arguments FIrregular {_}.
Arguments FTooLarge {_}.
Arguments FUnopenable {_}.
Arguments FMalformed {_}.
Arguments FTrailing {_}.
Arguments FState {_}.

Record AcmeServer `{Jose} := mkAcmeServer {
  activity : gmap bytes time;
  s_state : acme_state;
  validations : Z;
  stateFile : acme_file
}.

Arguments mkAcmeServer {_}.

(** The steps of [commit] that can fail. *)
Inductive commit_step :=
| CMarshal | CTooBig | CMkdirAll | CCreateTemp | CWrite | CSync | CClose | CRename
| COpenDir | CSyncDir.

(** The answers of the signing authority to SignCSR. *)
Inductive sign_result :=
| Signed (chain : bytes)
| InvalidCSR (detail : string)
| SignFailed.

(** x509.RevocationListEntry. *)
Record crl_entry := mkEntry { EntrySerial : Z; RevocationTime : time; ReasonCode : Z }.

(** What a critical section gets from outside: the clock, which it reads as one
    instant, the validator's lookups, random identifiers, the answers of the
    authority, and the step of [commit] that fails, if any. *)
Record env := mkEnv {
  e_now : time;
  e_lookup : bytes -> option Target;
  e_ids : nat -> option bytes;
  e_sign : bytes -> list bytes -> sign_result;
  e_crl : list crl_entry -> Z -> option bytes;
  e_io : option commit_step
}.

(** ** limits.go *)

Definition recentTimes (times : list time) (cutoff : time) : list time :=
  filter (fun stamp => cutoff < stamp) times.

Inductive creation_refusal :=
| NoSource
| QuotaReached (retry : duration)
| CapacityReached.

Definition limit_live (now : time) (limit : leaseLimit) : bool :=
  negb (len (recentTimes (ll_Accounts limit) (now - accountRateWindow)) =? 0)
  || negb (len (recentTimes (ll_Orders limit) (now - orderRateWindow)) =? 0).

Definition map_size {A} (m : gmap bytes A) : Z := Z.of_nat (size m).

(** [allowCreation]: [None] permits the creation. *)
Definition allowCreation `{Jose} (now : time) (st : acme_state) (source : bytes)
    (accountCreation : bool) : option creation_refusal :=
  if beq source [] then Some NoSource
  else
    let limit := default zeroLimit (LeaseLimits st !! source) in
    let '(times, maximum, window) :=
      if accountCreation then (ll_Accounts limit, maxLeaseAccounts, accountRateWindow)
      else (ll_Orders limit, maxLeaseOrders, orderRateWindow) in
    let recent := recentTimes times (now - window) in
    if maximum <=? len recent then Some (QuotaReached (at_ recent 0 + window - now))
    else if bool_decide (LeaseLimits st !! source = None) && (maxRecords <=? map_size (LeaseLimits st))
            && (maxRecords <=? map_size (filter (fun kv => limit_live now kv.2 = true) (LeaseLimits st)))
    then Some CapacityReached
    else None.

Definition recordCreation `{Jose} (now : time) (st : acme_state) (source : bytes)
    (accountCreation : bool) : acme_state :=
  let limit := default zeroLimit (LeaseLimits st !! source) in
  let limit :=
    if accountCreation
    then mkLeaseLimit (recentTimes (ll_Accounts limit) (now - accountRateWindow) ++ [now])
           (ll_Orders limit)
    else mkLeaseLimit (ll_Accounts limit)
           (recentTimes (ll_Orders limit) (now - orderRateWindow) ++ [now]) in
  set_LeaseLimits st (<[source := limit]> (LeaseLimits st)).

(** [rateLimited]: the Retry-After header, in whole seconds rounded up. *)
Definition retryAfter (retry : duration) : Z :=
  Z.max 1 (Z.quot (retry + 1000000000 - 1) 1000000000).

Definition touchAccount `{Jose} (now : time) (s : AcmeServer) (id : bytes) : AcmeServer :=
  mkAcmeServer (<[id := now]> (activity s)) (s_state s) (validations s) (stateFile s).

(** ** store.go: pruning *)

Definition order_live (now : time) (o : order) : bool :=
  negb (eqs (ord_Status o) "invalid") && (now <? ord_Expires o).

(** The account loop of [prune]: [None] deletes the account. *)
Definition prune_account `{Jose} (now : time) (acts : gmap bytes time) (referenced : gset bytes)
    (id : bytes) (a : account) : option account :=
  let active := default zeroTime (acts !! id) in
  let last := if LastActive a <? active then active else LastActive a in
  if negb (IsZero last) && negb (now <? last + accountIdleLifetime)
     && negb (bool_decide (id ∈ referenced))
  then None
  else Some (mkAccount (acc_ID a) (acc_Key a) (acc_Thumbprint a) (acc_Status a) (acc_Contact a) last
               (recentTimes (RecentOrders a) (now - orderLifetime))).

Definition prune_limit (now : time) (limit : leaseLimit) : option leaseLimit :=
  let l := mkLeaseLimit (recentTimes (ll_Accounts limit) (now - accountRateWindow))
             (recentTimes (ll_Orders limit) (now - orderRateWindow)) in
  if (len (ll_Accounts l) =? 0) && (len (ll_Orders l) =? 0) then None else Some l.

Definition orders_of (m : gmap bytes order) : list order := map snd (map_to_list m).

Definition prune `{Jose} (now : time) (acts : gmap bytes time) (st : acme_state) : acme_state :=
  let live := filter (fun kv => order_live now kv.2 = true) (Orders st) in
  let dead := orders_of (filter (fun kv => order_live now kv.2 = false) (Orders st)) in
  let referenced : gset bytes := list_to_set (map ord_AccountID (orders_of live)) in
  let deadAuths : gset bytes := list_to_set (concat (map AuthIDs dead)) in
  let deadCerts : gset bytes := list_to_set (map CertificateID dead) in
  mkAcmeState (omap (prune_limit now) (LeaseLimits st)) (Version st) (st_Domain st)
    (RootFingerprint st)
    (map_imap (prune_account now acts referenced) (Accounts st))
    live
    (filter (fun kv => kv.1 ∉ deadAuths) (Authorizations st))
    (filter (fun kv => kv.1 ∉ deadCerts) (Certificates st))
    (CRL st) (CRLNumber st) (CRLNextUpdate st).

(** ** store.go: committing *)

(** Whether a failing step of [commit] comes after the rename. *)
Definition after_rename (step : commit_step) : bool :=
  match step with COpenDir | CSyncDir => true | _ => false end.

(** [commit]: the failed step, if any, and the server.  Up to the rename a
    failure leaves memory and file alone; from the rename on both hold the
    pruned snapshot, whatever is reported. *)
Definition commit `{Jose} (e : env) (s : AcmeServer) (next : acme_state)
    : option commit_step * AcmeServer :=
  let next := prune (e_now e) (activity s) next in
  let renamed := mkAcmeServer ∅ next (validations s) (FState true next (e_now e)) in
  match e_io e with
  | Some step => (Some step, if after_rename step then renamed else s)
  | None => (None, renamed)
  end.

(** ** store.go: validation and restore *)

Definition id_rune (c : Z) : bool :=
  negb (((c <? 97) || (122 <? c)) && ((c <? 65) || (90 <? c)) && ((c <? 48) || (57 <? c))
        && negb (c =? 45) && negb (c =? 95)).

Definition validID (id : bytes) : bool :=
  if negb (len id =? 32) then false else forallb id_rune (runes id).

Definition allowedName (c : AcmeConfig) (name : bytes) : bool :=
  if existsb (fun r => 127 <? r) (runes name) then false
  else ContainsByte name DOT
       && beq name (TrimSuffix (NormalizeHostname name (ac_Domain c)) [DOT])
       && negb (beq name (str "gateway." ++ ac_Domain c))
       && negb (beq name (str "ns." ++ ac_Domain c)).

Definition sameCSR (a b : bytes) : bool := beq a b.

Definition validRevocationReason (reason : Z) : bool :=
  (0 <=? reason) && (reason <=? 6) || (reason =? 9) || (reason =? 10).

Definition parseLeaf `{X509} (chain : bytes) : option Leaf :=
  match pemDecode chain with
  | Some (ty, der) => if beq ty (str "CERTIFICATE") then ParseCertificate der else None
  | None => None
  end.

Inductive state_error :=
| BadConfiguration | BadCollections | BadQuota | BadAccount | BadOrder | BadAuthorization
| BadCertificate | BadCRL.

Section validate.
Context `{X509} (c : AcmeConfig).

Definition limit_ok (source : bytes) (limit : leaseLimit) : bool :=
  negb (beq source [] || (maxLeaseAccounts <? len (ll_Accounts limit))
        || (maxLeaseOrders <? len (ll_Orders limit))).

(** One turn of the account loop, the duplicate key test apart. *)
Definition account_ok (id : bytes) (a : account) : bool :=
  match Thumbprint (acc_Key a) with
  | None => false
  | Some thumb =>
      IsPublic (acc_Key a) && beq (acc_ID a) id && validID id && beq thumb (acc_Thumbprint a)
      && (len (RecentOrders a) <=? maxAccountOrders)
      && (eqs (acc_Status a) "valid" || eqs (acc_Status a) "deactivated")
  end.

(** One turn of the identifier loop of an order, the duplicate test apart. *)
Definition identifier_ok (st : acme_state) (id : bytes) (o : order) (name : identifier)
    (authID : bytes) : bool :=
  eqs (i_Type name) "dns" && allowedName c (i_Value name)
  && match Authorizations st !! authID with
     | None => false
     | Some a => beq (auth_OrderID a) id && beq (auth_AccountID a) (ord_AccountID o)
                 && beq (auth_Name a) (i_Value name)
     end.

Definition order_status_ok (status : string) : bool :=
  eqs status "pending" || eqs status "ready" || eqs status "valid" || eqs status "invalid".

Definition order_ok (st : acme_state) (id : bytes) (o : order) : bool :=
  beq id (ord_ID o) && validID id && negb (IsZero (ord_Expires o))
  && negb (len (Identifiers o) =? 0) && (len (Identifiers o) <=? maxIdentifiers)
  && (len (AuthIDs o) =? len (Identifiers o))
  && bool_decide (is_Some (Accounts st !! ord_AccountID o))
  && order_status_ok (ord_Status o)
  && bool_decide (NoDup (map i_Value (Identifiers o)))
  && forallb (fun p => identifier_ok st id o p.1 p.2) (zip (Identifiers o) (AuthIDs o))
  && (negb (eqs (ord_Status o) "valid")
      || match Certificates st !! CertificateID o with
         | None => false
         | Some k => beq (cert_OrderID k) id && negb (len (CSR o) =? 0)
         end).

(** The tests on the statuses of an authorization and on its proof. *)
Definition statuses_ok (a : authorization) : bool :=
  (eqs (auth_Status a) "pending" || eqs (auth_Status a) "valid" || eqs (auth_Status a) "invalid"
   || eqs (auth_Status a) "deactivated" || eqs (auth_Status a) "expired")
  && (eqs (ChallengeStatus a) "pending" || eqs (ChallengeStatus a) "processing"
      || eqs (ChallengeStatus a) "valid" || eqs (ChallengeStatus a) "invalid")
  && negb (eqs (auth_Status a) "valid"
           && (bool_decide (Validated a = None) || negb (Is4 (t_IP (auth_Target a)))
               || beq (t_ClientID (auth_Target a)) [] || negb (eqs (ChallengeStatus a) "valid"))).

Definition authorization_ok (st : acme_state) (id : bytes) (a : authorization) : bool :=
  beq id (auth_ID a) && validID id && validID (Token a) && negb (IsZero (auth_Expires a))
  && allowedName c (auth_Name a)
  && match Orders st !! auth_OrderID a with
     | None => false
     | Some o => beq (ord_AccountID o) (auth_AccountID a)
     end
  && statuses_ok a.

(** One turn of the certificate loop, the duplicate serial test apart. *)
Definition certificate_ok (st : acme_state) (id : bytes) (k : certificate) : bool :=
  match parseLeaf (PEM k) with
  | None => false
  | Some leaf =>
      beq id (cert_ID k) && validID id && beq (BigString (SerialNumber leaf)) (Serial k)
      && (NotAfter leaf =? cert_NotAfter k) && negb (IsCA leaf) && CheckLeafSignature leaf
      && match Orders st !! cert_OrderID k with
         | None => false
         | Some o => beq (ord_AccountID o) (cert_AccountID k) && beq (CertificateID o) id
                     && eqs (ord_Status o) "valid"
         end
      && negb (bool_decide (is_Some (RevokedAt k)) && negb (validRevocationReason (Reason k)))
  end.

Definition crl_ok (st : acme_state) : bool :=
  (len (CRL st) =? 0)
  || match ParseRevocationList (CRL st) with
     | None => false
     | Some l => bool_decide (Number l = Some (CRLNumber st))
                 && (NextUpdate l =? CRLNextUpdate st) && CheckCRLSignature l
     end.

Definition for_all {A} (f : bytes -> A -> bool) (m : gmap bytes A) : bool :=
  forallb (fun p => f p.1 p.2) (map_to_list m).

Definition validateState (collections : bool) (st : acme_state) : result state_error unit :=
  guard! (Version st =? 1) && beq (st_Domain st) (ac_Domain c) && beq (RootFingerprint st) (ac_Root c)
    else Err BadConfiguration;
  guard! collections && (map_size (Accounts st) <=? maxAccounts) && (map_size (Orders st) <=? maxRecords)
         && (map_size (Authorizations st) <=? maxRecords) && (map_size (Certificates st) <=? maxRecords)
    else Err BadCollections;
  guard! (map_size (LeaseLimits st) <=? maxRecords) && for_all limit_ok (LeaseLimits st) else Err BadQuota;
  guard! for_all account_ok (Accounts st)
         && bool_decide (NoDup (map (fun p => acc_Thumbprint p.2) (map_to_list (Accounts st))))
    else Err BadAccount;
  guard! for_all (order_ok st) (Orders st) else Err BadOrder;
  guard! for_all (authorization_ok st) (Authorizations st) else Err BadAuthorization;
  guard! for_all (certificate_ok st) (Certificates st)
         && bool_decide (NoDup (map (fun p => Serial p.2) (map_to_list (Certificates st))))
    else Err BadCertificate;
  guard! crl_ok st else Err BadCRL;
  Ok tt.

Inductive acme_restore_error :=
| ErrInspect | ErrRegular | ErrSize | ErrOpenState | ErrDecodeState | ErrTrailingState
| ErrValidate (e : state_error).

(** The first loop after validation: the order history of legacy accounts. *)
Definition legacy_order (now : time) (accounts : gmap bytes account) (o : order)
    : gmap bytes account :=
  let a := default zeroAccount (accounts !! ord_AccountID o) in
  if IsZero (LastActive a) && negb (eqs (ord_Status o) "valid") then
    let created := ord_Expires o - orderLifetime in
    if (now - orderLifetime <? created) && (len (RecentOrders a) <? maxAccountOrders) then
      <[ord_AccountID o := mkAccount (acc_ID a) (acc_Key a) (acc_Thumbprint a) (acc_Status a)
                             (acc_Contact a) (LastActive a) (RecentOrders a ++ [created])]> accounts
    else accounts
  else accounts.

Definition legacy_active (modTime : time) (a : account) : account :=
  if IsZero (LastActive a)
  then mkAccount (acc_ID a) (acc_Key a) (acc_Thumbprint a) (acc_Status a) (acc_Contact a) modTime
         (RecentOrders a)
  else a.

Definition interrupted (a : authorization) : authorization :=
  if eqs (ChallengeStatus a) "processing"
  then auth_with a (auth_Status a) "pending" (auth_Error a) else a.

(** The repairs [restore] makes to a valid snapshot. *)
Definition recovered (now modTime : time) (st : acme_state) : acme_state :=
  let accounts := fold_left (legacy_order now) (orders_of (Orders st)) (Accounts st) in
  set_Authorizations (set_Accounts st (legacy_active modTime <$> accounts))
    (interrupted <$> Authorizations st).

(** [restore]: [Ok None] keeps the fresh state. *)
Definition restore_acme (now : time) (f : acme_file) : result acme_restore_error (option acme_state) :=
  match f with
  | FMissing => Ok None
  | FUninspectable => Err ErrInspect
  | FIrregular => Err ErrRegular
  | FTooLarge => Err ErrSize
  | FUnopenable => Err ErrOpenState
  | FMalformed => Err ErrDecodeState
  | FTrailing => Err ErrTrailingState
  | FState collections st modTime =>
      match validateState collections st with
      | Err e => Err (ErrValidate e)
      | Ok _ => Ok (Some (recovered now modTime st))
      end
  end.
End validate.
