(* ===== verification/Acme.v ===== *)
(** * Package internal/acmeserver: the request handlers

    accounts.go, orders.go, revocation.go and the routing of server.go.  A
    handler is a function of its critical section's environment and of the
    server, giving the reply and the server after it.  [challenge] holds the
    lock twice, around an outbound validation: it is two functions with the
    pending validation between them.

    Payloads reach the handlers as bytes; encoding/json, net/url and net/mail
    are the class [Decoders], acmeauth's inner verification is [VerifyKeyChange]
    of the same class. *)

From stdpp Require Import gmap list strings sorting.
From Stdlib Require Import ZArith Lia.
From S2P Require Import Prelude GoStrings Names GoNet GoAddr Lease Registry GoBase64 AcmeState.

(** ** Requests and decoders *)

(** acmeauth.Request. *)
Record Request `{Jose} := mkRequest {
  Payload : bytes; req_Key : Key; KeyID : bytes; req_Thumbprint : bytes
}.
Arguments mkRequest {_}.

(** net/url.URL, as far as accountContacts and [New] read it. *)
Record URL := mkURL {
  Scheme : bytes; Opaque : bytes; RawQuery : bytes; ForceQuery : bool; Fragment : bytes;
  Host : bytes; has_User : bool; u_Path : bytes; u_RawPath : bytes
}.

(** A decoder gives the value it read and whether only white space follows. *)
Class Decoders `{Jose} := {
  json_account : bytes -> option (bytes * bytes * bool * bool);
  json_order : bytes -> option (list identifier * bytes * bytes * bool);
  json_status : bytes -> option (string * bool);
  json_object : bytes -> option (Z * bool);
  json_csr : bytes -> option (bytes * bool);
  json_keychange : bytes -> option (bytes * Key * bool);
  json_revoke : bytes -> option (bytes * Z * bool);
  json_strings : bytes -> option (list bytes);
  json_string : bytes -> option string;
  urlParse : bytes -> option URL;
  PathUnescape : bytes -> option bytes;
  ParseAddress : bytes -> option bytes;
  VerifyKeyChange : bytes -> bytes -> result (option problem) Request
}.

(** ** Replies *)

Record order_view := mkOrderView {
  ov_status : string; ov_expires : time; ov_identifiers : list identifier;
  ov_authorizations : list bytes; ov_finalize : bytes; ov_certificate : option bytes;
  ov_error : option problem
}.

Record challenge_view := mkChallengeView {
  cv_url : bytes; cv_status : string; cv_token : bytes; cv_validated : option time;
  cv_error : option problem
}.

Inductive acme_body :=
| BProblem (p : problem)
| BAccount (status : string) (contact : list bytes) (orders : bytes)
| BOrder (v : order_view)
| BAuthorization (status : string) (expires : time) (name : bytes) (challenge : challenge_view)
| BChallenge (v : challenge_view)
| BOrders (urls : list bytes)
| BDirectory
| BBytes (data : bytes)
| BEmpty.

Record acme_reply := mkReply {
  r_status : Z; r_location : option bytes; r_retry : option Z; r_body : acme_body
}.

Definition writeJSON (status : Z) (location : option bytes) (b : acme_body) : acme_reply :=
  mkReply status location None b.
Definition writeProblem (p : problem) : acme_reply := mkReply (p_Status p) None None (BProblem p).
Definition rateLimited (retry : duration) (detail : string) : acme_reply :=
  mkReply 429 None (Some (retryAfter retry)) (BProblem (failure 429 "rateLimited" detail)).
Definition internalError : acme_reply :=
  writeProblem (failure 500 "serverInternal" "the certificate authority could not complete the operation").

Definition refused (r : creation_refusal) : acme_reply :=
  match r with
  | NoSource => writeProblem (failure 403 "unauthorized" "creation requires a source DHCP lease")
  | QuotaReached retry => rateLimited retry "too many creations from this DHCP lease"
  | CapacityReached => rateLimited orderRateWindow "source lease quota capacity has been reached"
  end.

(** [decodePayload], given the decoder of the target type. *)
Definition decodePayload {A} (dec : bytes -> option (A * bool)) (data : bytes) : option A :=
  if len data =? 0 then None
  else match dec data with
       | None => None
       | Some (v, eof) =>
           if negb eof then None
           else if beq (TrimSpace data) (str "null") then None
           else Some v
       end.

Section handlers.
Context `{X509} `{!Decoders} (c : AcmeConfig).

Definition url (path : bytes) : bytes := BaseURL c ++ path.

Definition with_state (s : AcmeServer) (st : acme_state) : AcmeServer :=
  mkAcmeServer (activity s) st (validations s) (stateFile s).

(** [postAsGet]: the refusal of a POST-as-GET with a payload. *)
Definition postAsGet (signed : Request) : option acme_reply :=
  if len (Payload signed) =? 0 then None
  else Some (writeProblem (failure 400 "malformed" "POST-as-GET requires an empty payload")).

(** ** accounts.go *)

Definition accountView (a : account) : acme_body :=
  BAccount (acc_Status a) (acc_Contact a) (url (str "/orders/" ++ acc_ID a)).

Definition activeAccount (e : env) (s : AcmeServer) (signed : Request) (accountID : bytes)
    : result problem account * AcmeServer :=
  match Accounts (s_state s) !! accountID with
  | Some a =>
      if negb (eqs (acc_Status a) "valid") || negb (beq (acc_Thumbprint a) (req_Thumbprint signed))
         || negb (beq (KeyID signed) (url (str "/account/" ++ accountID)))
      then (Err (failure 403 "unauthorized" "account is not active or its key has changed"), s)
      else (Ok a, touchAccount (e_now e) s accountID)
  | None => (Err (failure 403 "unauthorized" "account is not active or its key has changed"), s)
  end.

(** The test of one contact value. *)
Definition contactValue (value : bytes) : option problem :=
  let invalid d := Some (failure 400 "invalidContact" d) in
  match urlParse value with
  | None => invalid "invalid contact URL"%string
  | Some u =>
      if (2048 <? len value) || negb (beq (TrimSpace value) value)
      then invalid "invalid contact URL"%string
      else if negb (EqualFold (Scheme u) (str "mailto"))
      then Some (failure 400 "unsupportedContact" "only mailto contact URLs are supported")
      else
        let headers := invalid "mailto contact must contain one email address and no headers"%string in
        match PathUnescape (Opaque u) with
        | None => headers
        | Some address =>
            if negb (beq (RawQuery u) []) || ForceQuery u || negb (beq (Fragment u) [])
               || negb (beq (Host u) []) || has_User u
               || existsb (fun b => bool_decide (b ∈ [13; 10; 60; 62])) address
               || negb (beq (TrimSpace address) address)
            then headers
            else match ParseAddress address with
                 | Some [] => None
                 | _ => invalid "mailto contact must contain one valid email address"%string
                 end
        end
  end.

Fixpoint contactValues (values : list bytes) : option problem :=
  match values with
  | [] => None
  | v :: rest => match contactValue v with Some p => Some p | None => contactValues rest end
  end.

Definition accountContacts (data : bytes) : result problem (list bytes) :=
  if len data =? 0 then Ok []
  else
    let bad := Err (failure 400 "invalidContact" "contact must be an array of at most 16 mailto URLs") in
    if beq (TrimSpace data) (str "null") then bad
    else match json_strings data with
         | None => bad
         | Some contact =>
             if 16 <? len contact then bad
             else match contactValues contact with Some p => Err p | None => Ok contact end
         end.

(** The first account with a thumbprint: thumbprints are unique, so the
    iteration order does not matter. *)
Definition findAccount (st : acme_state) (thumbprint : bytes) : option account :=
  head (filter (fun a => acc_Thumbprint a = thumbprint) (map snd (map_to_list (Accounts st)))).

Definition newAccount (e : env) (s : AcmeServer) (signed : Request) (source : bytes)
    : acme_reply * AcmeServer :=
  if negb (beq (KeyID signed) [])
  then (writeProblem (failure 400 "malformed" "new-account requires an embedded public JWK"), s)
  else match decodePayload json_account (Payload signed) with
  | None => (writeProblem (failure 400 "malformed" "invalid account request"), s)
  | Some (rawContact, _, onlyReturnExisting) =>
  match findAccount (s_state s) (req_Thumbprint signed) with
  | Some a =>
      (writeJSON 200 (Some (url (str "/account/" ++ acc_ID a))) (accountView a),
       touchAccount (e_now e) s (acc_ID a))
  | None =>
  if onlyReturnExisting : bool
  then (writeProblem (failure 400 "accountDoesNotExist" "no account is registered with this key"), s)
  else match accountContacts rawContact with
  | Err p => (writeProblem p, s)
  | Ok contact =>
  match allowCreation (e_now e) (s_state s) source true with
  | Some r => (refused r, s)
  | None =>
  let next := prune (e_now e) (activity s) (s_state s) in
  if maxAccounts <=? map_size (Accounts next)
  then (rateLimited accountIdleLifetime "the certificate authority has reached its account limit", s)
  else match e_ids e 0%nat with
  | None => (internalError, s)
  | Some id =>
  let a := mkAccount id (req_Key signed) (req_Thumbprint signed) "valid" contact (e_now e) [] in
  let next := recordCreation (e_now e) next source true in
  let next := set_Accounts next (<[id := a]> (Accounts next)) in
  match commit e s next with
  | (Some _, s) => (internalError, s)
  | (None, s) => (writeJSON 201 (Some (url (str "/account/" ++ id))) (accountView a), s)
  end end end end end end.

(** The deactivation loops of [account]. *)
Definition deactivate_order (id : bytes) (o : order) : order :=
  if beq (ord_AccountID o) id && (eqs (ord_Status o) "pending" || eqs (ord_Status o) "ready")
  then ord_with o "invalid" (Some (failure 403 "unauthorized" "account was deactivated")) else o.

Definition deactivate_authorization (id : bytes) (a : authorization) : authorization :=
  if beq (auth_AccountID a) id && eqs (auth_Status a) "pending"
  then auth_with a "deactivated" "invalid"
         (Some (failure 403 "unauthorized" "account was deactivated")) else a.

Definition account_handler (e : env) (s : AcmeServer) (signed : Request) (accountID id : bytes)
    : acme_reply * AcmeServer :=
  if negb (beq id accountID)
  then (writeProblem (failure 403 "unauthorized" "account belongs to another key"), s)
  else
  let input := if len (Payload signed) =? 0 then Some ([], [], false)
               else decodePayload json_account (Payload signed) in
  match input with
  | None => (writeProblem (failure 400 "malformed" "invalid account update"), s)
  | Some (rawContact, rawStatus, _) =>
  match accountContacts rawContact with
  | Err p => (writeProblem p, s)
  | Ok contact =>
  let status :=
    if len rawStatus =? 0 then Some ""%string
    else match json_string rawStatus with
         | None => None
         | Some v => if eqs v "valid" || eqs v "deactivated" then Some v else None
         end in
  match status with
  | None => (writeProblem (failure 400 "malformed" "account status must be valid or deactivated"), s)
  | Some status =>
  match activeAccount e s signed accountID with
  | (Err p, s) => (writeProblem p, s)
  | (Ok a, s) =>
  if negb (len rawContact =? 0) || negb (eqs status "") then
    let a := mkAccount (acc_ID a) (acc_Key a) (acc_Thumbprint a)
               (if eqs status "" then acc_Status a else status)
               (if len rawContact =? 0 then acc_Contact a else contact)
               (LastActive a) (RecentOrders a) in
    let next := set_Accounts (s_state s) (<[id := a]> (Accounts (s_state s))) in
    let next :=
      if eqs (acc_Status a) "deactivated"
      then set_Authorizations (set_Orders next (deactivate_order id <$> Orders next))
             (deactivate_authorization id <$> Authorizations next)
      else next in
    match commit e s next with
    | (Some _, s) => (internalError, s)
    | (None, s) => (writeJSON 200 None (accountView a), s)
    end
  else (writeJSON 200 None (accountView a), s)
  end end end end.

Definition accountOrders (e : env) (s : AcmeServer) (signed : Request) (accountID id : bytes)
    : acme_reply * AcmeServer :=
  match postAsGet signed with
  | Some r => (r, s)
  | None =>
  if negb (beq accountID id)
  then (writeProblem (failure 403 "unauthorized" "orders belong to another account"), s)
  else match activeAccount e s signed accountID with
  | (Err p, s) => (writeProblem p, s)
  | (Ok _, s) =>
      let urls := map (fun o => url (str "/order/" ++ ord_ID o))
        (filter (fun o => beq (ord_AccountID o) id && negb (eqs (ord_Status o) "invalid")
                          && (eqs (ord_Status o) "valid" || (e_now e <? ord_Expires o)) = true)
                (orders_of (Orders (s_state s)))) in
      (writeJSON 200 None (BOrders (merge_sort (fun a b => bytes_compare a b <> Gt) urls)), s)
  end end.

Definition keyChange (e : env) (s : AcmeServer) (signed : Request) (accountID : bytes)
    : acme_reply * AcmeServer :=
  match VerifyKeyChange (Payload signed) (url (str "/key-change")) with
  | Err (Some p) => (writeProblem p, s)
  | Err None => (internalError, s)
  | Ok inner =>
  let mismatch := (writeProblem (failure 400 "malformed"
    "key-change must identify the current account and old public key"), s) in
  match decodePayload json_keychange (Payload inner) with
  | None => mismatch
  | Some (acct, oldKey) =>
  if negb (beq acct (KeyID signed)) then mismatch
  else
  let oldThumbprint := Thumbprint oldKey in
  if negb (bool_decide (oldThumbprint = Some (req_Thumbprint signed)))
  then (writeProblem (failure 400 "malformed" "key-change oldKey does not match the account key"), s)
  else if bool_decide (Some (req_Thumbprint inner) = oldThumbprint)
  then (writeProblem (failure 400 "malformed" "key-change requires a different new key"), s)
  else match activeAccount e s signed accountID with
  | (Err p, s) => (writeProblem p, s)
  | (Ok a, s) =>
  match findAccount (s_state s) (req_Thumbprint inner) with
  | Some existing =>
      let p := failure 409 "malformed" "the new key is already associated with an account" in
      (mkReply 409 (Some (url (str "/account/" ++ acc_ID existing))) None (BProblem p), s)
  | None =>
      let a := mkAccount (acc_ID a) (req_Key inner) (req_Thumbprint inner) (acc_Status a)
                 (acc_Contact a) (LastActive a) (RecentOrders a) in
      let next := set_Accounts (s_state s) (<[accountID := a]> (Accounts (s_state s))) in
      match commit e s next with
      | (Some _, s) => (internalError, s)
      | (None, s) => (writeJSON 200 None (accountView a), s)
      end
  end end end end.

(** [lookupKey]: the account key a key identifier names. *)
Definition lookupKey (s : AcmeServer) (kid : bytes) : option Key :=
  let id := TrimPrefix kid (url (str "/account/")) in
  match Accounts (s_state s) !! id with
  | Some a => if beq kid (url (str "/account/" ++ id)) then Some (acc_Key a) else None
  | None => None
  end.

(** ** orders.go: orders and authorizations *)

(** The identifier loop of [newOrder]. *)
Fixpoint checkIdentifiers (lookup : bytes -> option Target) (seen : list bytes)
    (names : list identifier) : result problem (list identifier) :=
  match names with
  | [] => Ok []
  | name :: rest =>
      if existsb (fun r => 127 <? r) (runes (i_Value name))
      then Err (failure 400 "rejectedIdentifier" "DNS identifiers must use ASCII names")
      else
        let value := ToLower (TrimSuffix (i_Value name) [DOT]) in
        if negb (eqs (i_Type name) "dns") || negb (allowedName c value) || bool_decide (value ∈ seen)
        then Err (failure 400 "rejectedIdentifier"
                    "identifiers must be unique DHCP hostnames in the configured domain")
        else match lookup value with
             | None => Err (failure 400 "rejectedIdentifier"
                              "the requested hostname has no eligible active DHCP lease")
             | Some _ =>
                 rest <-! checkIdentifiers lookup (value :: seen) rest;
                 Ok (mkIdentifier (i_Type name) value :: rest)
             end
  end.

(** The authorization loop of [newOrder]: two random identifiers per name. *)
Fixpoint addAuthorizations (ids : nat -> option bytes) (k : nat) (accountID orderID : bytes)
    (expires : time) (names : list identifier) (auths : gmap bytes authorization)
    : option (list bytes * gmap bytes authorization) :=
  match names with
  | [] => Some ([], auths)
  | name :: rest =>
      match ids k, ids (S k) with
      | Some authID, Some token =>
          let a := mkAuthorization authID accountID orderID (i_Value name) "pending" expires token
                     "pending" None zeroTarget None in
          match addAuthorizations ids (S (S k)) accountID orderID expires rest (<[authID := a]> auths) with
          | Some (authIDs, auths) => Some (authID :: authIDs, auths)
          | None => None
          end
      | _, _ => None
      end
  end.

Definition orderView (e : env) (o : order) : acme_body :=
  let status := if (eqs (ord_Status o) "pending" || eqs (ord_Status o) "ready")
                   && negb (e_now e <? ord_Expires o) then "invalid"%string else ord_Status o in
  BOrder (mkOrderView status (ord_Expires o) (Identifiers o)
    (map (fun id => url (str "/authz/" ++ id)) (AuthIDs o)) (url (str "/finalize/" ++ ord_ID o))
    (if beq (CertificateID o) [] then None else Some (url (str "/certificate/" ++ CertificateID o)))
    (ord_Error o)).

Definition challengeView (a : authorization) : challenge_view :=
  mkChallengeView (url (str "/challenge/" ++ auth_ID a)) (ChallengeStatus a) (Token a) (Validated a)
    (auth_Error a).

Definition authorizationView (e : env) (a : authorization) : acme_body :=
  let status := if (eqs (auth_Status a) "pending" || eqs (auth_Status a) "valid")
                   && negb (e_now e <? auth_Expires a) then "expired"%string else auth_Status a in
  BAuthorization status (auth_Expires a) (auth_Name a) (challengeView a).

Definition outstanding (st : acme_state) (accountID : bytes) : Z :=
  len (filter (fun o => beq (ord_AccountID o) accountID
                        && (eqs (ord_Status o) "pending" || eqs (ord_Status o) "ready") = true)
              (orders_of (Orders st))).

(** The part of [newOrder] under the lock. *)
Definition createOrder (e : env) (s : AcmeServer) (signed : Request) (accountID source : bytes)
    (names : list identifier) : acme_reply * AcmeServer :=
  match activeAccount e s signed accountID with
  | (Err p, s) => (writeProblem p, s)
  | (Ok _, s) =>
  match allowCreation (e_now e) (s_state s) source false with
  | Some r => (refused r, s)
  | None =>
  let next := prune (e_now e) (activity s) (s_state s) in
  let a := default zeroAccount (Accounts next !! accountID) in
  if (maxAccountOrders <=? outstanding next accountID) || (maxAccountOrders <=? len (RecentOrders a))
     || (maxRecords <=? map_size (Orders next))
     || (maxRecords <? map_size (Authorizations next) + len names)
  then (rateLimited orderLifetime "too many recent or outstanding orders", s)
  else match e_ids e 0%nat with
  | None => (internalError, s)
  | Some id =>
  let expires := e_now e + orderLifetime in
  match addAuthorizations (e_ids e) 1 accountID id expires names (Authorizations next) with
  | None => (internalError, s)
  | Some (authIDs, auths) =>
      let o := mkOrder id accountID "pending" expires names authIDs [] [] None in
      let a := mkAccount (acc_ID a) (acc_Key a) (acc_Thumbprint a) (acc_Status a) (acc_Contact a)
                 (LastActive a) (RecentOrders a ++ [e_now e]) in
      let next := set_Orders (set_Authorizations next auths) (<[id := o]> (Orders next)) in
      let next := set_Accounts next (<[accountID := a]> (Accounts next)) in
      let next := recordCreation (e_now e) next source false in
      match commit e s next with
      | (Some _, s) => (internalError, s)
      | (None, s) => (writeJSON 201 (Some (url (str "/order/" ++ id))) (orderView e o), s)
      end
  end end end end.

(** [newOrder]; the identifier checks run before the lock is taken. *)
Definition newOrder (e : env) (s : AcmeServer) (signed : Request) (accountID source : bytes)
    : acme_reply * AcmeServer :=
  let count := failure 400 "malformed" "an order requires between 1 and 16 DNS identifiers" in
  match decodePayload json_order (Payload signed) with
  | None => (writeProblem count, s)
  | Some (names, notBefore, notAfter) =>
      if (len names =? 0) || (maxIdentifiers <? len names) then (writeProblem count, s)
      else if negb (beq notBefore []) || negb (beq notAfter [])
      then (writeProblem (failure 400 "rejectedIdentifier"
              "custom certificate validity periods are not supported"), s)
      else match checkIdentifiers (e_lookup e) [] names with
           | Err p => (writeProblem p, s)
           | Ok names => createOrder e s signed accountID source names
           end
  end.

Definition getOrder (e : env) (s : AcmeServer) (signed : Request) (accountID id : bytes)
    : acme_reply * AcmeServer :=
  match postAsGet signed with
  | Some r => (r, s)
  | None =>
  match activeAccount e s signed accountID with
  | (Err p, s) => (writeProblem p, s)
  | (Ok _, s) =>
      match Orders (s_state s) !! id with
      | Some o =>
          if beq (ord_AccountID o) accountID then (writeJSON 200 None (orderView e o), s)
          else (writeProblem (failure 404 "malformed" "order not found"), s)
      | None => (writeProblem (failure 404 "malformed" "order not found"), s)
      end
  end end.

Definition getAuthorization (e : env) (s : AcmeServer) (signed : Request) (accountID id : bytes)
    : acme_reply * AcmeServer :=
  match activeAccount e s signed accountID with
  | (Err p, s) => (writeProblem p, s)
  | (Ok _, s) =>
  match Authorizations (s_state s) !! id with
  | None => (writeProblem (failure 404 "malformed" "authorization not found"), s)
  | Some a =>
  if negb (beq (auth_AccountID a) accountID)
  then (writeProblem (failure 404 "malformed" "authorization not found"), s)
  else if len (Payload signed) =? 0 then (writeJSON 200 None (authorizationView e a), s)
  else
    let bad := (writeProblem (failure 400 "malformed" "only authorization deactivation is supported"), s) in
    match decodePayload json_status (Payload signed) with
    | None => bad
    | Some status =>
    if negb (eqs status "deactivated") then bad
    else
      let a := auth_with a "deactivated"
                 (if eqs (ChallengeStatus a) "processing" then "invalid"%string else ChallengeStatus a)
                 (auth_Error a) in
      let next := set_Authorizations (s_state s) (<[id := a]> (Authorizations (s_state s))) in
      let o := default zeroOrder (Orders next !! auth_OrderID a) in
      let next :=
        if eqs (ord_Status o) "pending" || eqs (ord_Status o) "ready"
        then set_Orders next (<[ord_ID o := ord_with o "invalid"
               (Some (failure 403 "unauthorized" "an authorization was deactivated"))]> (Orders next))
        else next in
      match commit e s next with
      | (Some _, s) => (internalError, s)
      | (None, s) => (writeJSON 200 None (authorizationView e a), s)
      end
    end
  end end.

(** ** orders.go: challenges *)

(** A validation under way: the request, its account and authorization, and the
    arguments of Validate. *)
Record inflight := mkInflight {
  f_signed : Request; f_account : bytes; f_id : bytes; f_name : bytes; f_token : bytes
}.

Definition keyAuthorization (f : inflight) : bytes :=
  f_token f ++ [DOT] ++ req_Thumbprint (f_signed f).

Definition retryInterruptedChallenge (s : AcmeServer) (id : bytes) : AcmeServer :=
  match Authorizations (s_state s) !! id with
  | Some a =>
      if eqs (auth_Status a) "pending" && eqs (ChallengeStatus a) "processing"
      then with_state s (set_Authorizations (s_state s)
             (<[id := auth_with a (auth_Status a) "pending" (auth_Error a)]> (Authorizations (s_state s))))
      else s
  | None => s
  end.

Definition maxValidations : Z := 32.

Definition set_validations (s : AcmeServer) (n : Z) : AcmeServer :=
  mkAcmeServer (activity s) (s_state s) n (stateFile s).

(** A challenge request is answered at once, or its validation starts. *)
Inductive started := Replied (r : acme_reply) | Validating (f : inflight).

(** [challenge] up to the outbound validation. *)
Definition challengeStart (e : env) (s : AcmeServer) (signed : Request) (accountID id : bytes)
    : started * AcmeServer :=
  let acknowledged :=
    if len (Payload signed) =? 0 then true
    else match decodePayload json_object (Payload signed) with
         | Some fields => fields =? 0
         | None => false
         end in
  if negb acknowledged
  then (Replied (writeProblem (failure 400 "malformed"
               "challenge acknowledgement must be an empty JSON object")), s)
  else match activeAccount e s signed accountID with
  | (Err p, s) => (Replied (writeProblem p), s)
  | (Ok _, s) =>
  match Authorizations (s_state s) !! id with
  | None => (Replied (writeProblem (failure 404 "malformed" "challenge not found")), s)
  | Some a =>
  if negb (beq (auth_AccountID a) accountID)
  then (Replied (writeProblem (failure 404 "malformed" "challenge not found")), s)
  else if (len (Payload signed) =? 0) || eqs (ChallengeStatus a) "processing" || eqs (auth_Status a) "valid"
  then (Replied (writeJSON 200 None (BChallenge (challengeView a))), s)
  else
  let o := default zeroOrder (Orders (s_state s) !! auth_OrderID a) in
  if negb (eqs (auth_Status a) "pending") || negb (eqs (ord_Status o) "pending")
     || negb (e_now e <? auth_Expires a)
  then (Replied (writeProblem (failure 400 "unauthorized" "authorization is no longer pending")), s)
  else if maxValidations <=? validations s
  then (Replied (mkReply 429 None (Some 5) (BProblem (failure 429 "rateLimited"
               "too many simultaneous challenge validations"))), s)
  else
    let s := set_validations s (validations s + 1) in
    let a := auth_with a (auth_Status a) "processing" (auth_Error a) in
    let next := set_Authorizations (s_state s) (<[id := a]> (Authorizations (s_state s))) in
    match commit e s next with
    | (Some _, s) =>
        let s := retryInterruptedChallenge s id in
        (Replied internalError, set_validations s (validations s - 1))
    | (None, s) => (Validating (mkInflight signed accountID id (auth_Name a) (Token a)), s)
    end
  end end.

(** The verdict of a finished validation on an authorization and its order. *)
Definition judge (now : time) (a : authorization) (o : order) (accountOk : bool)
    (outcome : option Target) : authorization * order :=
  let failed :=
    let p := failure 400 "unauthorized"
      "HTTP-01 validation failed; serve the key authorization at the challenge path on the leased host's port 80" in
    (auth_with a "invalid" "invalid" (Some p), ord_with o "invalid" (Some p)) in
  match outcome with
  | None => failed
  | Some target =>
      if negb accountOk || negb (now <? auth_Expires a) || negb (eqs (ord_Status o) "pending")
      then failed
      else (mkAuthorization (auth_ID a) (auth_AccountID a) (auth_OrderID a) (auth_Name a) "valid"
              (auth_Expires a) (Token a) "valid" (Some now) target (auth_Error a), o)
  end.

(** An order whose authorizations are all valid is ready. *)
Definition settle (auths : gmap bytes authorization) (o : order) : order :=
  if eqs (ord_Status o) "pending"
     && forallb (fun id => eqs (auth_Status (default zeroAuthorization (auths !! id))) "valid") (AuthIDs o)
  then ord_with o "ready" (ord_Error o) else o.

(** [challenge] after the outbound validation. *)
Definition challengeFinish (e : env) (s : AcmeServer) (f : inflight) (outcome : option Target)
    : acme_reply * AcmeServer :=
  let s := set_validations s (validations s - 1) in
  let id := f_id f in
  match Authorizations (s_state s) !! id with
  | None => (writeProblem (failure 404 "malformed" "authorization expired"), s)
  | Some a =>
  if negb (eqs (auth_Status a) "pending") || negb (eqs (ChallengeStatus a) "processing")
  then (writeJSON 200 None (BChallenge (challengeView a)), s)
  else
  let next := s_state s in
  let o := default zeroOrder (Orders next !! auth_OrderID a) in
  let '(active, s) := activeAccount e s (f_signed f) (f_account f) in
  let current := default zeroAccount (Accounts next !! f_account f) in
  if negb (is_ok active) && eqs (acc_Status current) "valid"
     && negb (beq (acc_Thumbprint current) (req_Thumbprint (f_signed f)))
     && (e_now e <? auth_Expires a) && eqs (ord_Status o) "pending"
  then
    let a := auth_with a (auth_Status a) "pending" (auth_Error a) in
    match commit e s (set_Authorizations next (<[id := a]> (Authorizations next))) with
    | (Some _, s) => (internalError, retryInterruptedChallenge s id)
    | (None, s) => (writeJSON 200 None (BChallenge (challengeView a)), s)
    end
  else
    let '(a, o) := judge (e_now e) a o (is_ok active) outcome in
    let auths := <[id := a]> (Authorizations next) in
    let o := settle auths o in
    let next := set_Orders (set_Authorizations next auths) (<[ord_ID o := o]> (Orders next)) in
    match commit e s next with
    | (Some _, s) => (internalError, retryInterruptedChallenge s id)
    | (None, s) => (writeJSON 200 None (BChallenge (challengeView a)), s)
    end
  end.

(** ** orders.go: issuance *)

(** The authorization loop of [finalize]: the names, or [None] when an
    authorization no longer holds. *)
Fixpoint authorizedNames (e : env) (st : acme_state) (authIDs : list bytes) : option (list bytes) :=
  match authIDs with
  | [] => Some []
  | authID :: rest =>
      let a := default zeroAuthorization (Authorizations st !! authID) in
      match e_lookup e (auth_Name a) with
      | None => None
      | Some target =>
          if negb (eqs (auth_Status a) "valid") || negb (e_now e <? auth_Expires a)
             || negb (bool_decide (target = auth_Target a))
          then None
          else match authorizedNames e st rest with
               | Some names => Some (auth_Name a :: names)
               | None => None
               end
      end
  end.

(** [finalize], with the arguments of SignCSR when it is called. *)
Definition finalize (e : env) (s : AcmeServer) (signed : Request) (accountID id : bytes)
    : acme_reply * AcmeServer * option (bytes * list bytes) :=
  match decodePayload json_csr (Payload signed) with
  | None => (writeProblem (failure 400 "badCSR" "a base64url-encoded CSR is required"), s, None)
  | Some encoded =>
  let badCSR := (writeProblem (failure 400 "badCSR"
    "CSR is empty, too large, or not valid base64url"), s, None) in
  match DecodeString encoded with
  | None => badCSR
  | Some csr =>
  if (len csr =? 0) || (48 * 1024 <? len csr) then badCSR
  else match activeAccount e s signed accountID with
  | (Err p, s) => (writeProblem p, s, None)
  | (Ok _, s) =>
  let st := s_state s in
  match Orders st !! id with
  | None => (writeProblem (failure 404 "malformed" "order not found"), s, None)
  | Some o =>
  if negb (beq (ord_AccountID o) accountID)
  then (writeProblem (failure 404 "malformed" "order not found"), s, None)
  else if eqs (ord_Status o) "valid" && sameCSR (CSR o) csr
  then (writeJSON 200 (Some (url (str "/order/" ++ id))) (orderView e o), s, None)
  else if negb (eqs (ord_Status o) "ready") || negb (e_now e <? ord_Expires o)
  then (writeProblem (failure 403 "orderNotReady" "order is not ready for certificate issuance"), s, None)
  else if maxRecords <=? map_size (Certificates st)
  then (writeProblem (failure 429 "rateLimited" "certificate storage capacity has been reached"), s, None)
  else match authorizedNames e st (AuthIDs o) with
  | None =>
      let p := failure 403 "unauthorized"
        "DHCP ownership changed or an authorization expired; create a new order" in
      let next := set_Orders st (<[id := ord_with o "invalid" (Some p)]> (Orders st)) in
      match commit e s next with
      | (Some _, s) => (internalError, s, None)
      | (None, s) => (writeProblem p, s, None)
      end
  | Some names =>
  let asked := Some (csr, names) in
  match e_sign e csr names with
  | InvalidCSR detail => (writeProblem (failure 400 "badCSR" detail), s, asked)
  | SignFailed => (internalError, s, asked)
  | Signed chain =>
  match parseLeaf chain with
  | None => (internalError, s, asked)
  | Some leaf =>
  match e_ids e 0%nat with
  | None => (internalError, s, asked)
  | Some certID =>
      let k := mkCertificate certID accountID id chain (BigString (SerialNumber leaf)) (NotAfter leaf)
                 None 0 in
      let o := mkOrder (ord_ID o) (ord_AccountID o) "valid" (NotAfter leaf) (Identifiers o) (AuthIDs o)
                 certID csr (ord_Error o) in
      let next := set_Orders (set_Certificates st (<[certID := k]> (Certificates st)))
                    (<[id := o]> (Orders st)) in
      match commit e s next with
      | (Some _, s) => (internalError, s, asked)
      | (None, s) => (writeJSON 200 (Some (url (str "/order/" ++ id))) (orderView e o), s, asked)
      end
  end end end end end end end end.

Definition getCertificate (e : env) (s : AcmeServer) (signed : Request) (accountID id : bytes)
    : acme_reply * AcmeServer :=
  match postAsGet signed with
  | Some r => (r, s)
  | None =>
  match activeAccount e s signed accountID with
  | (Err p, s) => (writeProblem p, s)
  | (Ok _, s) =>
      match Certificates (s_state s) !! id with
      | Some k =>
          if beq (cert_AccountID k) accountID then (mkReply 200 None None (BBytes (PEM k)), s)
          else (writeProblem (failure 404 "malformed" "certificate not found"), s)
      | None => (writeProblem (failure 404 "malformed" "certificate not found"), s)
      end
  end end.

(** ** revocation.go *)

(** One name of [authorizedForCertificate]. *)
Definition provesName (e : env) (st : acme_state) (accountID name : bytes) : bool :=
  match e_lookup e name with
  | None => false
  | Some target =>
      existsb (fun p : bytes * authorization => let a := p.2 in
        beq (auth_AccountID a) accountID && beq (auth_Name a) name && eqs (auth_Status a) "valid"
        && eqs (ChallengeStatus a) "valid"
        && match Validated a with Some v => v <=? e_now e | None => false end
        && (e_now e <? auth_Expires a) && bool_decide (auth_Target a = target))
        (map_to_list (Authorizations st))
  end.

Definition authorizedForCertificate (e : env) (st : acme_state) (accountID : bytes) (leaf : Leaf) : bool :=
  negb ((len (DNSNames leaf) =? 0) || negb (otherNames leaf =? 0))
  && forallb (provesName e st accountID) (DNSNames leaf).

Definition canRevoke (e : env) (s : AcmeServer) (signed : Request) (issued : certificate) (leaf : Leaf)
    : bool * AcmeServer :=
  if negb (beq (KeyID signed) []) then
    let accountID := TrimPrefix (KeyID signed) (url (str "/account/")) in
    match activeAccount e s signed accountID with
    | (Err _, s) => (false, s)
    | (Ok a, s) => (beq (acc_ID a) (cert_AccountID issued)
                    || authorizedForCertificate e (s_state s) (acc_ID a) leaf, s)
    end
  else (bool_decide (Thumbprint (PublicKey leaf) = Some (req_Thumbprint signed)), s).

(** The entries of [refreshCRL]: revoked certificates that have not expired;
    [None] for a serial that is not a positive number. *)
Fixpoint crlEntries (now : time) (certs : list certificate) : option (list crl_entry) :=
  match certs with
  | [] => Some []
  | k :: rest =>
      match RevokedAt k with
      | None => crlEntries now rest
      | Some at_time =>
          if negb (now <? cert_NotAfter k) then crlEntries now rest
          else match BigSetString (Serial k) with
               | None => None
               | Some serial =>
                   if serial <=? 0 then None
                   else match crlEntries now rest with
                        | Some entries => Some (mkEntry serial at_time (Reason k) :: entries)
                        | None => None
                        end
               end
      end
  end.

Definition entry_le (a b : crl_entry) : Prop := EntrySerial a <= EntrySerial b.
#[export] Instance entry_le_dec : RelDecision entry_le := fun a b => Z_le_dec _ _.

Definition refreshCRL (e : env) (next : acme_state) : option acme_state :=
  if (CRLNumber next <? 0) || (CRLNumber next =? 2 ^ 63 - 1) then None
  else match crlEntries (e_now e) (map snd (map_to_list (Certificates next))) with
  | None => None
  | Some entries =>
  let number := CRLNumber next + 1 in
  match e_crl e (merge_sort entry_le entries) number with
  | None => None
  | Some der =>
  match ParseRevocationList der with
  | None => None
  | Some l =>
      if negb (bool_decide (Number l = Some number)) || negb (e_now e <? NextUpdate l) then None
      else if negb (CheckCRLSignature l) then None
      else Some (set_CRL next der number (NextUpdate l))
  end end end.

(** The search of [revokeCertificate]: an unreadable stored certificate with
    the serial is an internal error. *)
Fixpoint findIssued (serial der : bytes) (certs : list certificate) : result unit (option certificate) :=
  match certs with
  | [] => Ok None
  | k :: rest =>
      if negb (beq (Serial k) serial) then findIssued serial der rest
      else match parseLeaf (PEM k) with
           | None => Err tt
           | Some stored => if beq (Raw stored) der then Ok (Some k) else findIssued serial der rest
           end
  end.

Definition revokeCertificate (e : env) (s : AcmeServer) (signed : Request) : acme_reply * AcmeServer :=
  match decodePayload json_revoke (Payload signed) with
  | None => (writeProblem (failure 400 "malformed" "invalid certificate revocation payload"), s)
  | Some (encoded, reason) =>
  if negb (validRevocationReason reason)
  then (writeProblem (failure 400 "badRevocationReason" "unsupported certificate revocation reason"), s)
  else
  let badDER := (writeProblem (failure 400 "malformed" "certificate must be unpadded base64url DER"), s) in
  match DecodeString encoded with
  | None => badDER
  | Some der =>
  if (len der =? 0) || negb (beq (EncodeToString der) encoded) then badDER
  else match ParseCertificate der with
  | None => (writeProblem (failure 400 "malformed" "invalid certificate DER"), s)
  | Some leaf =>
  let missing := (writeProblem (failure 400 "malformed"
    "certificate was not issued by this ACME service"), s) in
  match findIssued (BigString (SerialNumber leaf)) der (map snd (map_to_list (Certificates (s_state s)))) with
  | Err _ => (internalError, s)
  | Ok None => missing
  | Ok (Some issued) =>
  if beq (cert_ID issued) [] then missing
  else
  let '(permitted, s) := canRevoke e s signed issued leaf in
  if negb permitted
  then (writeProblem (failure 403 "unauthorized"
    "revocation requires the issuing account, certificate private key, or current authorizations for every certificate name"), s)
  else if bool_decide (is_Some (RevokedAt issued))
  then (writeProblem (failure 400 "alreadyRevoked" "certificate has already been revoked"), s)
  else
  let issued := mkCertificate (cert_ID issued) (cert_AccountID issued) (cert_OrderID issued) (PEM issued)
                  (Serial issued) (cert_NotAfter issued) (Some (e_now e)) reason in
  let next := set_Certificates (s_state s) (<[cert_ID issued := issued]> (Certificates (s_state s))) in
  match refreshCRL e next with
  | None => (internalError, s)
  | Some next =>
      match commit e s next with
      | (Some _, s) => (internalError, s)
      | (None, s) => (mkReply 200 None None BEmpty, s)
      end
  end end end end end.

(** [serveCRL]; [head] is a HEAD request. *)
Definition serveCRL (e : env) (s : AcmeServer) (head : bool) : acme_reply * AcmeServer :=
  let answer (s : AcmeServer) :=
    (mkReply 200 None None (if head then BEmpty else BBytes (CRL (s_state s))), s) in
  if (len (CRL (s_state s)) =? 0) || negb (e_now e + 60 * 1000000000 <? CRLNextUpdate (s_state s)) then
    match refreshCRL e (s_state s) with
    | None => (internalError, s)
    | Some next =>
        match commit e s next with
        | (Some _, s) => (internalError, s)
        | (None, s) => answer s
        end
    end
  else answer s.

(** ** server.go *)

(** [New] once the configuration has been accepted: restore, then commit. *)
Inductive acme_new_error := NewRestore (e : acme_restore_error) | NewCommit (step : commit_step).

Definition freshState : acme_state :=
  mkAcmeState ∅ 1 (ac_Domain c) (ac_Root c) ∅ ∅ ∅ ∅ [] 0 zeroTime.

Definition New_acme (e : env) (f : acme_file) : result acme_new_error AcmeServer :=
  match restore_acme c (e_now e) f with
  | Err err => Err (NewRestore err)
  | Ok loaded =>
      let s := mkAcmeServer ∅ (default freshState loaded) 0 f in
      match commit e s (s_state s) with
      | (Some step, _) => Err (NewCommit step)
      | (None, s) => Ok s
      end
  end.

(** [randomID] from 24 random bytes. *)
Definition randomID (data : bytes) : bytes := EncodeToString data.

(** [sourceLease]: the client of the live lease of the socket peer, read from
    the lease registry at [now]. *)
Definition sourceLease `{Registry R} (leases : R) (now : time) (remoteAddr : bytes)
    : result problem bytes :=
  let refuse := Err (failure 403 "unauthorized"
    "account and order creation requires an active source DHCP lease") in
  match ParseAddrPort remoteAddr with
  | None => refuse
  | Some (addr, _) =>
      let ip := Unmap addr in
      match (rLookupIP leases now ip).1 with
      | None => refuse
      | Some current =>
          if addr_eqb (IP current) ip && negb (beq (ClientID current) []) && (now <? ExpiresAt current)
          then Ok (ClientID current) else refuse
      end
  end.

(** What [ServeHTTP] reads of an HTTP request. *)
Record HttpRequest := mkHttp {
  Method : bytes; Path : bytes; RawPath : bytes; h_RawQuery : bytes
}.

(** What [ServeHTTP] does with a request: reply at once, or run a handler. *)
Inductive dispatch :=
| DReply (r : acme_reply)
| DCRL (head : bool)
| DNewAccount | DRevoke | DNewOrder (accountID : bytes) | DKeyChange (accountID : bytes)
| DAccount (accountID id : bytes) | DOrders (accountID id : bytes) | DOrder (accountID id : bytes)
| DAuthz (accountID id : bytes) | DChallenge (accountID id : bytes)
| DFinalize (accountID id : bytes) | DCertificate (accountID id : bytes).

Definition notFound : acme_reply := writeProblem (failure 404 "malformed" "unknown ACME resource").
Definition is_get (method : bytes) : bool := beq method (str "GET") || beq method (str "HEAD").

(** The switch at the end of [ServeHTTP]. *)
Definition accountRoute (path accountID : bytes) : dispatch :=
  let rest p := TrimPrefix path (str p) in
  if beq path (str "/new-order") then DNewOrder accountID
  else if beq path (str "/key-change") then DKeyChange accountID
  else if HasPrefix path (str "/account/") then DAccount accountID (rest "/account/"%string)
  else if HasPrefix path (str "/orders/") then DOrders accountID (rest "/orders/"%string)
  else if HasPrefix path (str "/order/") then DOrder accountID (rest "/order/"%string)
  else if HasPrefix path (str "/authz/") then DAuthz accountID (rest "/authz/"%string)
  else if HasPrefix path (str "/challenge/") then DChallenge accountID (rest "/challenge/"%string)
  else if HasPrefix path (str "/finalize/") then DFinalize accountID (rest "/finalize/"%string)
  else if HasPrefix path (str "/certificate/") then DCertificate accountID (rest "/certificate/"%string)
  else DReply notFound.

(** [ServeHTTP] up to the handler: [nonce] is whether a replay nonce could be
    made, [source] and [verified] the results of [sourceLease] and of
    acmeauth's [Verify], of which [None] is an error that is no ACME problem. *)
Definition ServeHTTP (s : AcmeServer) (h : HttpRequest) (nonce : bool) (source : result problem bytes)
    (verified : result (option problem) Request) : dispatch :=
  if negb nonce then DReply internalError
  else if negb (beq (h_RawQuery h) []) || negb (beq (RawPath h) []) || negb (HasPrefix (Path h) (str "/acme/"))
  then DReply notFound
  else
  let path := TrimPrefix (Path h) (str "/acme") in
  let head := beq (Method h) (str "HEAD") in
  if beq path (str "/directory") && is_get (Method h)
  then DReply (mkReply 200 None None (if head then BEmpty else BDirectory))
  else if beq path (str "/new-nonce") && is_get (Method h)
  then DReply (mkReply (if head then 200 else 204) None None BEmpty)
  else if beq path (str "/crl") && is_get (Method h) then DCRL head
  else if negb (beq (Method h) (str "POST"))
  then DReply (writeProblem (failure 405 "malformed" "this ACME resource requires a signed POST"))
  else
  let refusal := if beq path (str "/new-account") || beq path (str "/new-order")
                 then match source with Err p => Some p | Ok _ => None end else None in
  match refusal with
  | Some p => DReply (writeProblem p)
  | None =>
  match verified with
  | Err (Some p) => DReply (writeProblem p)
  | Err None => DReply internalError
  | Ok signed =>
  if beq path (str "/new-account") then DNewAccount
  else if beq path (str "/revoke-cert") then DRevoke
  else if beq (KeyID signed) []
  then DReply (writeProblem (failure 400 "malformed" "this request requires an account URL in kid"))
  else
  let accountID := TrimPrefix (KeyID signed) (url (str "/account/")) in
  let inactive := DReply (writeProblem (failure 403 "unauthorized"
    "account is not active or its key has changed")) in
  match Accounts (s_state s) !! accountID with
  | None => inactive
  | Some a =>
  if negb (eqs (acc_Status a) "valid") || negb (beq (acc_Thumbprint a) (req_Thumbprint signed))
  then inactive
  else if beq path (str "/directory") || beq path (str "/new-nonce")
  then match postAsGet signed with
       | Some r => DReply r
       | None => DReply (mkReply 200 None None
                           (if beq path (str "/directory") then BDirectory else BEmpty))
       end
  else accountRoute path accountID
  end end end.
End handlers.
