(* ===== verification/AcmeFacts.v ===== *)
(** * Package internal/acmeserver: the snapshot invariant

    What every snapshot the server holds satisfies: the tests of
    [validateState], and the links between records that pruning relies on.  The
    ways the handlers change a snapshot preserve it: updating records in place,
    adding an account, an order or a certificate, pruning, recovering after a
    restart. *)

From stdpp Require Import gmap list strings.
From Stdlib Require Import ZArith Lia.
From S2P Require Import Prelude GoStrings Names GoNet Lease AcmeState Acme.

(** ** Generic facts *)

Lemma eqs_true a b : eqs a b = true <-> a = b.
Proof. apply bool_decide_eq_true. Qed.

Lemma eqs_false a b : eqs a b = false <-> a <> b.
Proof. apply bool_decide_eq_false. Qed.

Lemma eqs_refl a : eqs a a = true.
Proof. by apply eqs_true. Qed.
#[export] Hint Resolve eqs_refl : go.

Lemma for_all_true {A} (f : bytes -> A -> bool) (m : gmap bytes A) :
  for_all f m = true <-> forall k x, m !! k = Some x -> f k x = true.
Proof.
  unfold for_all. rewrite forallb_forall. split.
  - intros Hf k x Hk. apply (Hf (k, x)). by apply list_elem_of_In, elem_of_map_to_list.
  - intros Hf [k x] Hin. apply Hf. by apply elem_of_map_to_list, list_elem_of_In.
Qed.

Lemma NoDup_map_to_list {A B : Type} (f : A -> B) (m : gmap bytes A) :
  (forall i j a b, m !! i = Some a -> m !! j = Some b -> f a = f b -> i = j) ->
  NoDup (map (fun p => f p.2) (map_to_list m)).
Proof.
  intros Hf. apply NoDup_fmap_2_strong; [|apply NoDup_map_to_list].
  intros [i a] [j b] Hi%elem_of_map_to_list Hj%elem_of_map_to_list E. simpl in E.
  assert (i = j) as -> by eauto. congruence.
Qed.

Lemma map_size_insert_fresh {A} (m : gmap bytes A) k x :
  m !! k = None -> map_size (<[k := x]> m) = map_size m + 1.
Proof. intros Hk. unfold map_size. rewrite map_size_insert_None by done. lia. Qed.

Lemma map_size_insert_le {A} (m : gmap bytes A) k x : map_size (<[k := x]> m) <= map_size m + 1.
Proof.
  unfold map_size. rewrite map_size_insert. destruct (m !! k); simpl; lia.
Qed.

Lemma map_size_dom {A B : Type} (m : gmap bytes A) (m' : gmap bytes B) :
  dom m ⊆ dom m' -> map_size m <= map_size m'.
Proof. intros Hd%subseteq_size. unfold map_size. rewrite <- !size_dom. lia. Qed.

Lemma map_size_filter {A} (P : bytes * A -> Prop) `{!forall x, Decision (P x)} (m : gmap bytes A) :
  map_size (filter P m) <= map_size m.
Proof. apply map_size_dom, subseteq_dom, map_filter_subseteq. Qed.

Lemma map_size_omap {A B : Type} (f : A -> option B) (m : gmap bytes A) : map_size (omap f m) <= map_size m.
Proof. apply map_size_dom, dom_omap_subseteq. Qed.

Lemma recentTimes_sublist ts cutoff : recentTimes ts cutoff `sublist_of` ts.
Proof. apply sublist_filter. Qed.

Lemma recentTimes_len ts cutoff : len (recentTimes ts cutoff) <= len ts.
Proof. unfold len. pose proof (sublist_length _ _ (recentTimes_sublist ts cutoff)). lia. Qed.

Lemma recentTimes_later ts a b : a <= b -> recentTimes (recentTimes ts a) b = recentTimes ts b.
Proof.
  intros Hab. unfold recentTimes. induction ts as [|x ts IH]; [done|].
  destruct (decide (a < x)) as [Ha|Ha].
  - rewrite (filter_cons_True _ x) by done.
    destruct (decide (b < x)) as [Hb|Hb].
    + rewrite !filter_cons_True by done. by rewrite IH.
    + rewrite !filter_cons_False by done. done.
  - rewrite (filter_cons_False _ x) by done. rewrite IH.
    rewrite filter_cons_False; [done|]. lia.
Qed.

Lemma orders_of_elem m o : o ∈ orders_of m <-> exists id, m !! id = Some o.
Proof.
  unfold orders_of. rewrite list_elem_of_fmap. split.
  - intros ([id o'] & -> & H%elem_of_map_to_list). eauto.
  - intros [id H]. exists (id, o). split; [done|]. by apply elem_of_map_to_list.
Qed.

Lemma Forall2_elem_r {A B : Type} (R : A -> B -> Prop) l k y :
  Forall2 R l k -> y ∈ k -> exists x, x ∈ l /\ R x y.
Proof.
  intros HR [i Hi]%list_elem_of_lookup. destruct (Forall2_lookup_r _ _ _ _ _ HR Hi) as (x & Hx & Hxy).
  exists x. split; [by eapply list_elem_of_lookup_2|done].
Qed.

Lemma Forall2_impl_elem {A B : Type} (R R' : A -> B -> Prop) l k :
  Forall2 R l k -> (forall x y, y ∈ k -> R x y -> R' x y) -> Forall2 R' l k.
Proof.
  induction 1 as [|x y l k Hxy _ IH]; intros HR; constructor.
  - apply HR; [apply list_elem_of_here|done].
  - apply IH. intros x' y' Hy. apply HR. by apply list_elem_of_further.
Qed.

(** ** The invariant *)

Section wf.
Context `{X509} (c : AcmeConfig).

Record order_wf (st : acme_state) (id : bytes) (o : order) : Prop := {
  ow_id : ord_ID o = id;
  ow_valid : validID id = true;
  ow_expires : IsZero (ord_Expires o) = false;
  ow_len : 1 <= len (Identifiers o) <= maxIdentifiers;
  ow_names : NoDup (map i_Value (Identifiers o));
  ow_types : Forall (fun n => i_Type n = "dns"%string /\ allowedName c (i_Value n) = true) (Identifiers o);
  ow_auths : Forall2 (fun n aid => exists a, Authorizations st !! aid = Some a /\ auth_OrderID a = id /\
    auth_AccountID a = ord_AccountID o /\ auth_Name a = i_Value n) (Identifiers o) (AuthIDs o);
  ow_account : is_Some (Accounts st !! ord_AccountID o);
  ow_status : order_status_ok (ord_Status o) = true;
  ow_cert : if eqs (ord_Status o) "valid"
            then exists k, Certificates st !! CertificateID o = Some k /\ cert_OrderID k = id /\ CSR o <> []
            else CertificateID o = [];
  ow_issued : ord_Status o = "valid"%string -> forall aid a, aid ∈ AuthIDs o ->
    Authorizations st !! aid = Some a -> auth_Status a <> "pending"%string
}.

Record auth_wf (st : acme_state) (id : bytes) (a : authorization) : Prop := {
  aw_id : auth_ID a = id;
  aw_valid : validID id = true;
  aw_token : validID (Token a) = true;
  aw_expires : IsZero (auth_Expires a) = false;
  aw_name : allowedName c (auth_Name a) = true;
  aw_order : exists o, Orders st !! auth_OrderID a = Some o /\ ord_AccountID o = auth_AccountID a /\
    id ∈ AuthIDs o;
  aw_statuses : statuses_ok a = true
}.

(** What a certificate record says of the certificate it holds. *)
Definition leaf_wf (k : certificate) : Prop :=
  exists leaf, parseLeaf (PEM k) = Some leaf /\ Serial k = BigString (SerialNumber leaf) /\
    cert_NotAfter k = NotAfter leaf /\ IsCA leaf = false /\ CheckLeafSignature leaf = true.

Record cert_wf (st : acme_state) (id : bytes) (k : certificate) : Prop := {
  cw_id : cert_ID k = id;
  cw_valid : validID id = true;
  cw_leaf : leaf_wf k;
  cw_order : exists o, Orders st !! cert_OrderID k = Some o /\ ord_AccountID o = cert_AccountID k /\
    CertificateID o = id /\ ord_Status o = "valid"%string;
  cw_reason : is_Some (RevokedAt k) -> validRevocationReason (Reason k) = true
}.

Definition account_wf (id : bytes) (a : account) : Prop :=
  account_ok id a = true /\ zeroTime < LastActive a.

Record acme_wf (st : acme_state) : Prop := {
  w_version : Version st = 1;
  w_domain : st_Domain st = ac_Domain c;
  w_root : RootFingerprint st = ac_Root c;
  w_nlimits : map_size (LeaseLimits st) <= maxRecords;
  w_naccounts : map_size (Accounts st) <= maxAccounts;
  w_norders : map_size (Orders st) <= maxRecords;
  w_nauths : map_size (Authorizations st) <= maxRecords;
  w_ncerts : map_size (Certificates st) <= maxRecords;
  w_limits : forall source l, LeaseLimits st !! source = Some l -> limit_ok source l = true;
  w_accounts : forall id a, Accounts st !! id = Some a -> account_wf id a;
  w_keys : forall i j a b, Accounts st !! i = Some a -> Accounts st !! j = Some b ->
    acc_Thumbprint a = acc_Thumbprint b -> i = j;
  w_orders : forall id o, Orders st !! id = Some o -> order_wf st id o;
  w_auths : forall id a, Authorizations st !! id = Some a -> auth_wf st id a;
  w_certs : forall id k, Certificates st !! id = Some k -> cert_wf st id k;
  w_serials : forall i j a b, Certificates st !! i = Some a -> Certificates st !! j = Some b ->
    Serial a = Serial b -> i = j;
  w_crl : crl_ok st = true
}.

(** ** The invariant passes validateState *)

Lemma order_wf_ok st id o : order_wf st id o -> order_ok c st id o = true.
Proof.
  intros [Hid Hv He Hl Hn Ht Ha Hacc Hs Hc _]. unfold order_ok.
  rewrite Hid, beq_refl, Hv, He, Hs.
  rewrite (bool_decide_eq_true_2 (is_Some _)), (bool_decide_eq_true_2 (NoDup _)) by done.
  assert (Hlen : len (AuthIDs o) = len (Identifiers o)) by (unfold len; by rewrite (Forall2_length _ _ _ Ha)).
  rewrite Hlen, Z.eqb_refl.
  destruct (Z.eqb_spec (len (Identifiers o)) 0); [lia|].
  destruct (Z.leb_spec (len (Identifiers o)) maxIdentifiers); [|lia]. cbn [negb andb].
  apply andb_true_iff. split.
  - apply forallb_forall. intros [nm aid] Hin%list_elem_of_In. simpl.
    clear -Ht Ha Hin.
    revert Ht Hin. induction Ha as [|m aid0 ns aids (a & E1 & E2 & E3 & E4) Ha IH]; intros Ht Hin.
    { simpl in Hin. by apply not_elem_of_nil in Hin. }
    apply Forall_cons in Ht as [[Hty Hal] Ht]. simpl in Hin. apply elem_of_cons in Hin as [E|Hin]; [|by apply IH].
    injection E as -> ->. unfold identifier_ok. rewrite Hty, Hal, E1, E2, E3, E4, !beq_refl. done.
  - destruct (eqs (ord_Status o) "valid") eqn:Es; [|done]. destruct Hc as (k & -> & -> & Hcsr).
    rewrite beq_refl. destruct (Z.eqb_spec (len (CSR o)) 0) as [E|]; [|done]. by apply len_zero_nil in E.
Qed.

Lemma auth_wf_ok st id a : auth_wf st id a -> authorization_ok c st id a = true.
Proof.
  intros [Hid Hv Ht He Hn (o & Ho & Ha & _) Hs]. unfold authorization_ok.
  by rewrite Hid, beq_refl, Hv, Ht, He, Hn, Ho, Ha, beq_refl, Hs.
Qed.

Lemma cert_wf_ok st id k : cert_wf st id k -> certificate_ok st id k = true.
Proof.
  intros [Hid Hv (leaf & Hp & Hs & Hn & Hca & Hsig) (o & Ho & Ha & Hc & Hst) Hr]. unfold certificate_ok.
  rewrite Hp, Hid, beq_refl, Hv, <- Hs, beq_refl, Hn, Z.eqb_refl, Hca, Hsig, Ho, Ha, beq_refl, Hc,
    beq_refl, Hst, eqs_refl. simpl.
  destruct (decide (is_Some (RevokedAt k))) as [Hrev|Hrev].
  - rewrite (Hr Hrev). by rewrite andb_false_r.
  - by rewrite bool_decide_eq_false_2.
Qed.

(** Every snapshot with the invariant is accepted at a restart. *)
Lemma acme_wf_validates st : acme_wf st -> validateState c true st = Ok tt.
Proof.
  intros W. unfold validateState.
  rewrite (w_version _ W), (w_domain _ W), (w_root _ W), !beq_refl. cbn [andb Z.eqb Pos.eqb].
  pose proof (w_naccounts _ W) as E1%Z.leb_le. pose proof (w_norders _ W) as E2%Z.leb_le.
  pose proof (w_nauths _ W) as E3%Z.leb_le. pose proof (w_ncerts _ W) as E4%Z.leb_le.
  pose proof (w_nlimits _ W) as E5%Z.leb_le. rewrite E1, E2, E3, E4, E5. cbn [andb].
  rewrite (proj2 (for_all_true limit_ok _) (w_limits _ W)).
  rewrite (proj2 (for_all_true account_ok _) (fun id a E => proj1 (w_accounts _ W id a E))).
  rewrite (proj2 (for_all_true (order_ok c st) _) (fun id o E => order_wf_ok _ _ _ (w_orders _ W id o E))).
  rewrite (proj2 (for_all_true (authorization_ok c st) _) (fun id o E => auth_wf_ok _ _ _ (w_auths _ W id o E))).
  rewrite (proj2 (for_all_true (certificate_ok st) _) (fun id o E => cert_wf_ok _ _ _ (w_certs _ W id o E))).
  rewrite (bool_decide_eq_true_2 _ (NoDup_map_to_list acc_Thumbprint _ (w_keys _ W))).
  rewrite (bool_decide_eq_true_2 _ (NoDup_map_to_list Serial _ (w_serials _ W))).
  by rewrite (w_crl _ W).
Qed.

(** ** Updates in place *)

(** Two maps with the same keys and related values. *)
Definition pointwise {A} (R : A -> A -> Prop) (m m' : gmap bytes A) : Prop :=
  forall id, option_Forall2 R (m !! id) (m' !! id).

Lemma pointwise_refl {A} (R : A -> A -> Prop) (m : gmap bytes A) : (forall x, R x x) -> pointwise R m m.
Proof. intros HR id. destruct (m !! id); constructor. apply HR. Qed.

Lemma pointwise_insert {A} (R : A -> A -> Prop) (m : gmap bytes A) k x y :
  (forall z, R z z) -> m !! k = Some x -> R x y -> pointwise R m (<[k := y]> m).
Proof.
  intros HR Hk Hxy id. destruct (decide (id = k)) as [->|Hne].
  - rewrite Hk, lookup_insert_eq. by constructor.
  - rewrite lookup_insert_ne by done. by apply pointwise_refl.
Qed.

Lemma pointwise_fmap {A} (R : A -> A -> Prop) (f : A -> A) (m : gmap bytes A) :
  (forall x, R x (f x)) -> pointwise R m (f <$> m).
Proof. intros Hf id. rewrite lookup_fmap. destruct (m !! id); constructor. apply Hf. Qed.

Lemma pointwise_trans {A} (R : A -> A -> Prop) (m1 m2 m3 : gmap bytes A) :
  (forall x y z, R x y -> R y z -> R x z) -> pointwise R m1 m2 -> pointwise R m2 m3 -> pointwise R m1 m3.
Proof.
  intros HR H12 H23 id. specialize (H12 id). specialize (H23 id).
  destruct H12; inversion H23; subst; constructor. eauto.
Qed.

Lemma pointwise_Some {A} (R : A -> A -> Prop) (m m' : gmap bytes A) id y :
  pointwise R m m' -> m' !! id = Some y -> exists x, m !! id = Some x /\ R x y.
Proof. intros Hp Hy. specialize (Hp id). rewrite Hy in Hp. inversion Hp; subst. eauto. Qed.

Lemma pointwise_Some_l {A} (R : A -> A -> Prop) (m m' : gmap bytes A) id x :
  pointwise R m m' -> m !! id = Some x -> exists y, m' !! id = Some y /\ R x y.
Proof. intros Hp Hy. specialize (Hp id). rewrite Hy in Hp. inversion Hp; subst. eauto. Qed.

Lemma pointwise_size {A} (R : A -> A -> Prop) (m m' : gmap bytes A) :
  pointwise R m m' -> map_size m' <= map_size m.
Proof.
  intros Hp. apply map_size_dom. intros id [y Hy]%elem_of_dom.
  apply elem_of_dom. destruct (pointwise_Some _ _ _ _ _ Hp Hy) as (x & Hx & _). eauto.
Qed.

(** The changes handlers make to one order, authorization or certificate. *)
Definition upd_order (o o' : order) : Prop :=
  ord_ID o' = ord_ID o /\ ord_AccountID o' = ord_AccountID o /\ Identifiers o' = Identifiers o /\
  AuthIDs o' = AuthIDs o /\ ord_Expires o' = ord_Expires o /\ CertificateID o' = CertificateID o /\
  CSR o' = CSR o /\ (order_status_ok (ord_Status o) = true -> order_status_ok (ord_Status o') = true) /\
  (ord_Status o' = "valid"%string <-> ord_Status o = "valid"%string).

Definition upd_auth (a a' : authorization) : Prop :=
  auth_ID a' = auth_ID a /\ auth_AccountID a' = auth_AccountID a /\ auth_OrderID a' = auth_OrderID a /\
  auth_Name a' = auth_Name a /\ auth_Expires a' = auth_Expires a /\ Token a' = Token a /\
  (statuses_ok a = true -> statuses_ok a' = true) /\
  (auth_Status a' = "pending"%string -> auth_Status a = "pending"%string).

Definition upd_cert (k k' : certificate) : Prop :=
  cert_ID k' = cert_ID k /\ cert_AccountID k' = cert_AccountID k /\ cert_OrderID k' = cert_OrderID k /\
  PEM k' = PEM k /\ Serial k' = Serial k /\ cert_NotAfter k' = cert_NotAfter k /\
  ((is_Some (RevokedAt k) -> validRevocationReason (Reason k) = true) ->
   is_Some (RevokedAt k') -> validRevocationReason (Reason k') = true).

Lemma upd_order_refl o : upd_order o o. Proof. by repeat split. Qed.
Lemma upd_auth_refl a : upd_auth a a. Proof. by repeat split. Qed.
Lemma upd_cert_refl k : upd_cert k k. Proof. repeat split; auto. Qed.
Hint Resolve upd_order_refl upd_auth_refl upd_cert_refl : go.

(** Orders, authorizations and certificates updated in place; accounts replaced
    by well-formed ones with the same identifiers. *)
Lemma wf_update st st' :
  acme_wf st ->
  Version st' = Version st -> st_Domain st' = st_Domain st -> RootFingerprint st' = RootFingerprint st ->
  LeaseLimits st' = LeaseLimits st -> crl_ok st' = true ->
  pointwise (fun _ _ => True) (Accounts st) (Accounts st') ->
  (forall id a, Accounts st' !! id = Some a -> account_wf id a) ->
  (forall i j a b, Accounts st' !! i = Some a -> Accounts st' !! j = Some b ->
     acc_Thumbprint a = acc_Thumbprint b -> i = j) ->
  pointwise upd_order (Orders st) (Orders st') ->
  pointwise upd_auth (Authorizations st) (Authorizations st') ->
  pointwise upd_cert (Certificates st) (Certificates st') ->
  acme_wf st'.
Proof.
  intros W Ev Ed Er El Hcrl Pa Ha Hk Po Pt Pc.
  pose proof (w_naccounts _ W). pose proof (w_norders _ W). pose proof (w_nauths _ W).
  pose proof (w_ncerts _ W). pose proof (pointwise_size _ _ _ Pa). pose proof (pointwise_size _ _ _ Po).
  pose proof (pointwise_size _ _ _ Pt). pose proof (pointwise_size _ _ _ Pc).
  split; rewrite ?Ev, ?Ed, ?Er, ?El; try apply W; try lia; try done.
  - intros id o' Ho'. destruct (pointwise_Some _ _ _ _ _ Po Ho') as (o & Ho & U).
    destruct U as (E1 & E2 & E3 & E4 & E5 & E6 & E7 & E8 & E9).
    destruct (w_orders _ W _ _ Ho) as [Hid Hv He Hl Hn Ht Hau Hacc Hs Hc Hi].
    split; rewrite ?E1, ?E2, ?E3, ?E4, ?E5; auto.
    + eapply Forall2_impl; [exact Hau|]. simpl. intros n aid (a & F1 & F2 & F3 & F4).
      destruct (pointwise_Some_l _ _ _ _ _ Pt F1) as (a' & G & U). exists a'.
      destruct U as (U1 & U2 & U3 & U4 & _). rewrite U2, U3, U4. done.
    + destruct Hacc as [a Hacc]. destruct (pointwise_Some_l _ _ _ _ _ Pa Hacc) as (a' & G & _). eauto.
    + rewrite E6, E7. destruct (eqs (ord_Status o') "valid") eqn:Es.
      * apply eqs_true, E9, eqs_true in Es. rewrite Es in Hc. destruct Hc as (k & F1 & F2 & F3).
        destruct (pointwise_Some_l _ _ _ _ _ Pc F1) as (k' & G & U). exists k'.
        destruct U as (_ & _ & U3 & _). by rewrite U3.
      * destruct (eqs (ord_Status o) "valid") eqn:Es'; [|done].
        apply eqs_true, E9, eqs_true in Es'. congruence.
    + intros Hv' aid a' Hin Ha'. destruct (pointwise_Some _ _ _ _ _ Pt Ha') as (a & Haa & U).
      destruct U as (_ & _ & _ & _ & _ & _ & _ & U8). intros Hp. eapply (Hi (proj1 E9 Hv')); eauto.
  - intros id a' Ha'. destruct (pointwise_Some _ _ _ _ _ Pt Ha') as (a & Hau & U).
    destruct U as (E1 & E2 & E3 & E4 & E5 & E6 & E7 & _).
    destruct (w_auths _ W _ _ Hau) as [Hid Hv Ht He Hn (o & Ho & F1 & F2) Hs].
    split; rewrite ?E1, ?E2, ?E3, ?E4, ?E5, ?E6; auto.
    destruct (pointwise_Some_l _ _ _ _ _ Po Ho) as (o' & G & U). exists o'.
    destruct U as (_ & U2 & _ & U4 & _). rewrite U2, U4. done.
  - intros id k' Hk'. destruct (pointwise_Some _ _ _ _ _ Pc Hk') as (k & Hko & U).
    destruct U as (E1 & E2 & E3 & E4 & E5 & E6 & E7).
    destruct (w_certs _ W _ _ Hko) as [Hid Hv Hleaf (o & Ho & F1 & F2 & F3) Hr].
    split; rewrite ?E1, ?E2, ?E3; auto.
    + unfold leaf_wf. by rewrite E4, E5, E6.
    + destruct (pointwise_Some_l _ _ _ _ _ Po Ho) as (o' & G & U). exists o'.
      destruct U as (_ & U2 & _ & _ & _ & U6 & _ & _ & U9). rewrite U2, U6. split_and!; [done..|by apply U9].
  - intros i j k1' k2' J1 J2 E. destruct (pointwise_Some _ _ _ _ _ Pc J1) as (k1 & G1 & U1).
    destruct (pointwise_Some _ _ _ _ _ Pc J2) as (k2 & G2 & U2).
    apply (w_serials _ W i j k1 k2); [done|done|]. destruct U1 as (_ & _ & _ & _ & <- & _).
    by destruct U2 as (_ & _ & _ & _ & <- & _).
Qed.
End wf.
#[export] Hint Resolve upd_order_refl upd_auth_refl upd_cert_refl : go.

(** ** Pruning *)

Section prune.
Context `{X509} (c : AcmeConfig) (now : time) (acts : gmap bytes time).

Lemma prune_orders st id o :
  Orders (prune now acts st) !! id = Some o <-> Orders st !! id = Some o /\ order_live now o = true.
Proof. unfold prune. cbn [Orders]. by rewrite map_lookup_filter_Some. Qed.

(** The orders a prune removes. *)
Definition dead (st : acme_state) (o : order) : Prop :=
  exists id, Orders st !! id = Some o /\ order_live now o = false.

Lemma dead_elem st o :
  o ∈ orders_of (filter (fun kv => order_live now kv.2 = false) (Orders st)) <-> dead st o.
Proof. rewrite orders_of_elem. unfold dead. by setoid_rewrite map_lookup_filter_Some. Qed.

Lemma prune_auths st id a :
  Authorizations (prune now acts st) !! id = Some a <->
  Authorizations st !! id = Some a /\ forall o, dead st o -> id ∉ AuthIDs o.
Proof.
  unfold prune. cbn [Authorizations]. rewrite map_lookup_filter_Some. cbn [fst].
  rewrite elem_of_list_to_set, list_elem_of_In, in_concat. apply and_iff_compat_l. split.
  - intros Hn o Ho%dead_elem Hin. apply Hn. exists (AuthIDs o). split; [|by apply list_elem_of_In].
    apply in_map. by apply list_elem_of_In.
  - intros Hn (l & (o & <- & Ho)%in_map_iff & Hin). apply (Hn o); [|by apply list_elem_of_In].
    by apply dead_elem, list_elem_of_In.
Qed.

Lemma prune_certs st id k :
  Certificates (prune now acts st) !! id = Some k <->
  Certificates st !! id = Some k /\ forall o, dead st o -> CertificateID o <> id.
Proof.
  unfold prune. cbn [Certificates]. rewrite map_lookup_filter_Some. cbn [fst].
  rewrite elem_of_list_to_set, list_elem_of_fmap. apply and_iff_compat_l. split.
  - intros Hn o Ho E. apply Hn. exists o. split; [done|]. by apply dead_elem.
  - intros Hn (o & -> & Ho%dead_elem). by apply (Hn o).
Qed.

(** The accounts of live orders, which pruning keeps. *)
Definition referenced (st : acme_state) : gset bytes :=
  list_to_set (map ord_AccountID (orders_of (filter (fun kv => order_live now kv.2 = true) (Orders st)))).

Lemma prune_accounts st id :
  Accounts (prune now acts st) !! id = Accounts st !! id ≫= prune_account now acts (referenced st) id.
Proof. unfold prune, referenced. cbn [Accounts]. apply map_lookup_imap. Qed.

Lemma referenced_live st id o :
  Orders st !! id = Some o -> order_live now o = true -> ord_AccountID o ∈ referenced st.
Proof.
  intros Ho Hl. apply elem_of_list_to_set, list_elem_of_fmap. exists o. split; [done|].
  apply orders_of_elem. exists id. by apply map_lookup_filter_Some.
Qed.

Lemma prune_account_Some r id a a' :
  prune_account now acts r id a = Some a' ->
  a' = mkAccount (acc_ID a) (acc_Key a) (acc_Thumbprint a) (acc_Status a) (acc_Contact a)
         (LastActive a') (recentTimes (RecentOrders a) (now - orderLifetime)) /\
  LastActive a <= LastActive a'.
Proof.
  unfold prune_account. destruct (_ && _ && _); [done|]. intros [= <-]. split; [done|].
  cbn [LastActive]. destruct (Z.ltb_spec (LastActive a) (default zeroTime (acts !! id))); lia.
Qed.

Lemma account_wf_prune r id a a' :
  prune_account now acts r id a = Some a' -> account_wf id a -> account_wf id a'.
Proof.
  intros [-> Hl]%prune_account_Some [Hok Ha]. split; [|simpl; simpl in Hl; lia].
  revert Hok. unfold account_ok. simpl. destruct (Thumbprint _); [|done].
  intros Hok. bool_hyps. pose proof (recentTimes_len (RecentOrders a) (now - orderLifetime)).
  repeat (apply andb_true_iff; split); auto using beq_refl; try (by apply Z.leb_le; lia).
Qed.

Lemma prune_accounts_Some st id a' :
  Accounts (prune now acts st) !! id = Some a' ->
  exists a, Accounts st !! id = Some a /\ prune_account now acts (referenced st) id a = Some a'.
Proof. rewrite prune_accounts. intros (a & Ha & Hp)%bind_Some. eauto. Qed.

(** No live order shares an authorization or a certificate with a dead one. *)
Lemma live_auth_kept st id o aid :
  acme_wf c st -> Orders st !! id = Some o -> order_live now o = true -> aid ∈ AuthIDs o ->
  forall o', dead st o' -> aid ∉ AuthIDs o'.
Proof.
  intros W Ho Hl Hin o' (id' & Ho' & Hd) Hin'.
  destruct (Forall2_elem_r _ _ _ _ (ow_auths _ _ _ _ (w_orders _ _ W _ _ Ho)) Hin) as (n & _ & a & Ha & E & _).
  destruct (Forall2_elem_r _ _ _ _ (ow_auths _ _ _ _ (w_orders _ _ W _ _ Ho')) Hin') as (n' & _ & a' & Ha' & E' & _).
  assert (id = id') as -> by congruence. congruence.
Qed.

Lemma live_cert_kept st id o k :
  acme_wf c st -> Orders st !! id = Some o -> order_live now o = true ->
  Certificates st !! CertificateID o = Some k -> cert_OrderID k = id ->
  forall o', dead st o' -> CertificateID o' <> CertificateID o.
Proof.
  intros W Ho Hl Hk Hid o' (id' & Ho' & Hd) E.
  pose proof (ow_cert _ _ _ _ (w_orders _ _ W _ _ Ho')) as Hc.
  destruct (eqs (ord_Status o') "valid").
  - destruct Hc as (k' & Hk' & Hid' & _). rewrite E in Hk'. congruence.
  - rewrite Hc in E. rewrite <- E in Hk. by pose proof (cw_valid _ _ _ (w_certs _ _ W _ _ Hk)).
Qed.

Lemma limit_prune source l l' :
  prune_limit now l = Some l' -> limit_ok source l = true -> limit_ok source l' = true.
Proof.
  unfold prune_limit. destruct (_ && _); [done|]. intros [= <-]. unfold limit_ok. simpl.
  pose proof (recentTimes_len (ll_Accounts l) (now - accountRateWindow)).
  pose proof (recentTimes_len (ll_Orders l) (now - orderRateWindow)).
  intros Hl. bool_hyps. apply negb_true_iff. rewrite !orb_false_iff, !Z.ltb_ge. split_and!; auto; lia.
Qed.

Lemma wf_prune_orders st id o :
  acme_wf c st -> Orders (prune now acts st) !! id = Some o -> order_wf c (prune now acts st) id o.
Proof.
  intros W [Ho Hl]%prune_orders. destruct (w_orders _ _ W _ _ Ho) as [Hid Hv He Hlen Hn Ht Hau Hacc Hs Hc Hi].
  split; auto.
  - eapply Forall2_impl_elem; [exact Hau|]. intros n aid Hin (a & Ha & E). exists a. split; [|done].
    apply prune_auths. split; [done|]. by eapply live_auth_kept.
  - destruct Hacc as [a Ha]. rewrite prune_accounts, Ha. simpl. unfold prune_account.
    rewrite (bool_decide_eq_true_2 _ (referenced_live _ _ _ Ho Hl)), andb_false_r. eauto.
  - destruct (eqs (ord_Status o) "valid"); [|done]. destruct Hc as (k & Hk & Hkid & Hcsr).
    exists k. split; [|done]. apply prune_certs. split; [done|]. intros o' Ho'.
    by eapply live_cert_kept.
  - intros Hval aid a Hin [Ha _]%prune_auths. by eapply Hi.
Qed.

(** Pruning preserves the invariant. *)
Lemma wf_prune st : acme_wf c st -> acme_wf c (prune now acts st).
Proof.
  intros W. pose proof (w_naccounts _ _ W). pose proof (w_norders _ _ W). pose proof (w_nauths _ _ W).
  pose proof (w_ncerts _ _ W). pose proof (w_nlimits _ _ W).
  split; try apply W.
  - unfold prune. cbn [LeaseLimits]. pose proof (map_size_omap (prune_limit now) (LeaseLimits st)). lia.
  - etrans; [|apply W]. apply map_size_dom. intros id [a Ha]%elem_of_dom. apply elem_of_dom.
    apply prune_accounts_Some in Ha as (a' & Ha & _). eauto.
  - etrans; [apply map_size_filter|done].
  - etrans; [apply map_size_filter|done].
  - etrans; [apply map_size_filter|done].
  - unfold prune. cbn [LeaseLimits]. intros source l (l0 & Hl0 & Hp)%lookup_omap_Some.
    eapply limit_prune; [done|]. by apply W.
  - intros id a' (a & Ha & Hp)%prune_accounts_Some. eapply account_wf_prune; [done|]. by apply W.
  - intros i j a' b' (a & Ha & Hpa)%prune_accounts_Some (b & Hb & Hpb)%prune_accounts_Some E.
    apply prune_account_Some in Hpa as [Ea%(f_equal acc_Thumbprint) _].
    apply prune_account_Some in Hpb as [Eb%(f_equal acc_Thumbprint) _].
    cbn [acc_Thumbprint] in Ea, Eb. apply (w_keys _ _ W i j a b); congruence.
  - intros id o. by apply wf_prune_orders.
  - intros id a [Ha Hd]%prune_auths. destruct (w_auths _ _ W _ _ Ha) as [Hid Hv Ht He Hn (o & Ho & E & Hin) Hs].
    split; auto. exists o. split; [|done]. apply prune_orders. split; [done|].
    destruct (order_live now o) eqn:El; [done|]. exfalso. apply (Hd o); [by exists (auth_OrderID a)|done].
  - intros id k [Hk Hd]%prune_certs. destruct (w_certs _ _ W _ _ Hk) as [Hid Hv Hle (o & Ho & E & Hc & Hs) Hr].
    split; auto. exists o. split; [|done]. apply prune_orders. split; [done|].
    destruct (order_live now o) eqn:El; [done|]. exfalso. apply (Hd o); [by exists (cert_OrderID k)|done].
  - intros i j a b [Ha _]%prune_certs [Hb _]%prune_certs. by apply (w_serials _ _ W).
Qed.
End prune.
