(* ===== verification/AcmeOps.v ===== *)
(** * Package internal/acmeserver: additions to a snapshot

    Creating an account, an order with its authorizations, or a certificate
    preserves the snapshot invariant, as do the quotas a creation records. *)

From stdpp Require Import gmap list strings.
From Stdlib Require Import ZArith Lia.
From S2P Require Import Prelude GoStrings Names GoNet Lease AcmeState Acme AcmeFacts.

(** ** Creation quotas *)

Section quotas.
Context (now : time).

Lemma pruned_limit (l : option leaseLimit) :
  let p := default zeroLimit (l ≫= prune_limit now) in
  ll_Accounts p = recentTimes (ll_Accounts (default zeroLimit l)) (now - accountRateWindow) /\
  ll_Orders p = recentTimes (ll_Orders (default zeroLimit l)) (now - orderRateWindow).
Proof.
  destruct l as [l|]; [|done]. simpl. unfold prune_limit.
  destruct (_ && _) eqn:E; [|done]. simpl. apply andb_true_iff in E as [E1%Z.eqb_eq E2%Z.eqb_eq].
  cbn [ll_Accounts ll_Orders] in E1, E2. apply len_zero_nil in E1, E2. by rewrite E1, E2.
Qed.

Lemma prune_limit_live l : is_Some (prune_limit now l) -> limit_live now l = true.
Proof.
  unfold prune_limit, limit_live. cbn [ll_Accounts ll_Orders].
  destruct (len (recentTimes (ll_Accounts l) _) =? 0); [|done].
  destruct (len (recentTimes (ll_Orders l) _) =? 0); [by intros [? ?]|done].
Qed.

(** The quota of a permitted creation, recorded in a pruned snapshot. *)
Lemma recorded_limit_ok `{X509} c acts st source kind :
  acme_wf c st -> allowCreation now st source kind = None ->
  forall s l, LeaseLimits (recordCreation now (prune now acts st) source kind) !! s = Some l ->
  limit_ok s l = true.
Proof.
  intros W Ha s l. unfold recordCreation. cbn [set_LeaseLimits LeaseLimits].
  destruct (decide (s = source)) as [->|Hne].
  2:{ rewrite lookup_insert_ne by done. apply (wf_prune c now acts st W). }
  rewrite lookup_insert_eq. intros [= <-].
  unfold prune. cbn [LeaseLimits]. rewrite lookup_omap.
  destruct (pruned_limit (LeaseLimits st !! source)) as [E1 E2].
  revert Ha. unfold allowCreation. destruct (beq source []) eqn:Es; [done|].
  set (l0 := default zeroLimit (LeaseLimits st !! source)) in *.
  assert (Hl0 : len (ll_Accounts l0) <= maxLeaseAccounts /\ len (ll_Orders l0) <= maxLeaseOrders).
  { subst l0. destruct (LeaseLimits st !! source) as [x|] eqn:El; [|split; by vm_compute].
    apply (w_limits _ _ W) in El. unfold limit_ok in El. bool_hyps. simpl. lia. }
  pose proof (recentTimes_len (ll_Accounts l0) (now - accountRateWindow)).
  pose proof (recentTimes_len (ll_Orders l0) (now - orderRateWindow)).
  destruct kind; unfold limit_ok; cbn [ll_Accounts ll_Orders];
    rewrite ?E1, ?E2, ?recentTimes_later, Es by lia; rewrite ?len_app; change (len [now]) with 1;
    case_match; [done| |done|]; bool_hyps; intros _; apply negb_true_iff;
    rewrite !orb_false_iff, !Z.ltb_ge; split_and!; auto; lia.
Qed.

Lemma recorded_limit_size `{X509} c acts st source kind :
  acme_wf c st -> allowCreation now st source kind = None ->
  map_size (LeaseLimits (recordCreation now (prune now acts st) source kind)) <= maxRecords.
Proof.
  intros W Ha. unfold recordCreation. cbn [set_LeaseLimits LeaseLimits].
  pose proof (map_size_omap (prune_limit now) (LeaseLimits st)).
  pose proof (map_size_insert_le (omap (prune_limit now) (LeaseLimits st)) source) as Hi.
  pose proof (w_nlimits _ _ W). unfold prune. cbn [LeaseLimits].
  destruct (LeaseLimits st !! source) as [l|] eqn:El.
  - etrans; [|exact (w_nlimits _ _ W)]. apply map_size_dom. intros s [x Hx]%elem_of_dom. apply elem_of_dom.
    destruct (decide (s = source)) as [->|Hne]; [eauto|].
    rewrite lookup_insert_ne in Hx by done. apply lookup_omap_Some in Hx as (y & Hp & Hy). by exists y.
  - etrans; [apply Hi|]. revert Ha. unfold allowCreation. destruct (beq source []); [done|].
    destruct (if kind then _ else _) as [[times maximum] window]. destruct (_ <=? _); [done|].
    rewrite bool_decide_eq_true_2 by done.
    destruct (Z.leb_spec maxRecords (map_size (LeaseLimits st))); [|lia].
    destruct (Z.leb_spec maxRecords (map_size (filter (fun kv => limit_live now kv.2 = true) (LeaseLimits st)))); [done|].
    intros _. enough (map_size (omap (prune_limit now) (LeaseLimits st)) <=
      map_size (filter (fun kv => limit_live now kv.2 = true) (LeaseLimits st))) by lia.
    apply map_size_dom. intros s [x (y & Hp & Hy)%lookup_omap_Some]%elem_of_dom. apply elem_of_dom.
    exists y. apply map_lookup_filter_Some. split; [done|]. apply prune_limit_live. eauto.
Qed.
End quotas.

(** ** Extending a snapshot *)

Section additions.
Context `{X509} `{!Decoders} (c : AcmeConfig).

Lemma order_wf_mono st st' id o :
  order_wf c st id o ->
  (is_Some (Accounts st !! ord_AccountID o) -> is_Some (Accounts st' !! ord_AccountID o)) ->
  (forall aid, aid ∈ AuthIDs o -> is_Some (Authorizations st !! aid) ->
     Authorizations st' !! aid = Authorizations st !! aid) ->
  (forall k, Certificates st !! CertificateID o = Some k -> cert_OrderID k = id ->
     Certificates st' !! CertificateID o = Some k) ->
  order_wf c st' id o.
Proof.
  intros [Hid Hv He Hl Hn Ht Hau Hacc Hs Hc Hi] Ma Mt Mc.
  assert (Mt' : forall aid, aid ∈ AuthIDs o -> Authorizations st' !! aid = Authorizations st !! aid).
  { intros aid Hin. apply Mt; [done|]. destruct (Forall2_elem_r _ _ _ _ Hau Hin) as (n & _ & a & Ha & _). eauto. }
  split; auto.
  - eapply Forall2_impl_elem; [exact Hau|]. intros n aid Hin (a & Ha & E). exists a. by rewrite Mt'.
  - destruct (eqs _ _); [|done]. destruct Hc as (k & Hk & E & Hcsr). exists k. split; [by apply Mc|done].
  - intros Hval aid a Hin. rewrite Mt' by done. by apply Hi.
Qed.

Lemma auth_wf_mono st st' id a :
  auth_wf c st id a ->
  (forall o, Orders st !! auth_OrderID a = Some o -> exists o', Orders st' !! auth_OrderID a = Some o' /\
     ord_AccountID o' = ord_AccountID o /\ AuthIDs o' = AuthIDs o) ->
  auth_wf c st' id a.
Proof.
  intros [Hid Hv Ht He Hn (o & Ho & E & Hin) Hs] M. split; auto.
  destruct (M o Ho) as (o' & Ho' & E1 & E2). exists o'. by rewrite E1, E2.
Qed.

Lemma cert_wf_mono st st' id k :
  cert_wf st id k ->
  (forall o, Orders st !! cert_OrderID k = Some o -> ord_Status o = "valid"%string ->
     Orders st' !! cert_OrderID k = Some o) ->
  cert_wf st' id k.
Proof.
  intros [Hid Hv Hl (o & Ho & E & Hc & Hs) Hr] M. split; auto. exists o. split; [by apply M|done].
Qed.

Lemma wf_set_LeaseLimits st m :
  acme_wf c st -> map_size m <= maxRecords -> (forall s l, m !! s = Some l -> limit_ok s l = true) ->
  acme_wf c (set_LeaseLimits st m).
Proof.
  intros W Hs Hl. split; try apply W; try done.
  - intros id o Ho. apply (order_wf_mono st); auto. by apply W.
  - intros id a Ha. apply (auth_wf_mono st); [by apply W|]. eauto.
  - intros id k Hk. apply (cert_wf_mono st); [by apply W|]. auto.
Qed.

(** A new account with a new key. *)
Lemma wf_add_account st id a :
  acme_wf c st -> Accounts st !! id = None -> map_size (Accounts st) < maxAccounts -> account_wf id a ->
  (forall j b, Accounts st !! j = Some b -> acc_Thumbprint b <> acc_Thumbprint a) ->
  acme_wf c (set_Accounts st (<[id := a]> (Accounts st))).
Proof.
  intros W Hn Hs Ha Hk. split; try apply W; cbn [set_Accounts Accounts].
  - rewrite map_size_insert_fresh by done. lia.
  - intros j b. destruct (decide (j = id)) as [->|Hne].
    + rewrite lookup_insert_eq. by intros [= <-].
    + rewrite lookup_insert_ne by done. apply W.
  - intros i j x y Hi Hj E.
    apply lookup_insert_Some in Hi as [[<- <-]|[Hni Hi]];
      apply lookup_insert_Some in Hj as [[<- <-]|[Hnj Hj]]; try done.
    + by apply Hk in Hj.
    + by apply Hk in Hi.
    + by eapply (w_keys _ _ W).
  - intros oid o Ho. apply (order_wf_mono st); auto; [by apply W|].
    intros [b Hb]. cbn [set_Accounts Accounts]. apply lookup_insert_is_Some.
    destruct (decide (id = ord_AccountID o)); [by left|right; split; [done|eauto]].
  - intros aid b Hb. apply (auth_wf_mono st); [by apply W|]. eauto.
  - intros kid k Hk'. apply (cert_wf_mono st); [by apply W|]. auto.
Qed.

(** ** New orders *)

(** The authorization a new order has for a name. *)
Definition newAuth (accountID orderID : bytes) (expires : time) (aid token : bytes) (n : identifier)
    : authorization :=
  mkAuthorization aid accountID orderID (i_Value n) "pending" expires token "pending" None zeroTarget None.

Lemma addAuthorizations_spec ids accountID orderID expires names :
  (forall k id, ids k = Some id -> validID id = true) ->
  (forall i j id, ids i = Some id -> ids j = Some id -> i = j) ->
  forall k auths aids auths',
  (forall j id, (k <= j)%nat -> ids j = Some id -> auths !! id = None) ->
  addAuthorizations ids k accountID orderID expires names auths = Some (aids, auths') ->
  Forall2 (fun n aid => exists token, validID aid = true /\ validID token = true /\
    auths' !! aid = Some (newAuth accountID orderID expires aid token n)) names aids /\
  (forall id, id ∉ aids -> auths' !! id = auths !! id) /\
  (forall id, id ∈ aids -> auths !! id = None /\ exists j, (k <= j)%nat /\ ids j = Some id) /\
  map_size auths' <= map_size auths + len names.
Proof.
  intros Hv Hinj. induction names as [|n names IH]; intros k auths aids auths' Hf.
  { intros [= <- <-]. split_and!; [constructor|done|by intros id ?%not_elem_of_nil|unfold len; simpl; lia]. }
  simpl. destruct (ids k) as [aid|] eqn:Ek; [|done]. destruct (ids (S k)) as [token|] eqn:Et; [|done].
  fold (newAuth accountID orderID expires aid token n).
  destruct (addAuthorizations _ _ _ _ _ _ _) as [[aids0 auths0]|] eqn:Er; [|done]. intros [= <- <-].
  assert (Hnone : auths !! aid = None) by (apply (Hf k); [lia|done]).
  apply IH in Er as (E1 & E2 & E3 & E4).
  2:{ intros j id Hj Ej. rewrite lookup_insert_ne; [apply (Hf j); [lia|done]|].
      intros ->. pose proof (Hinj _ _ _ Ek Ej). lia. }
  assert (Hnin : aid ∉ aids0).
  { intros (_ & j & Hj & Ej)%E3. pose proof (Hinj _ _ _ Ek Ej). lia. }
  split_and!.
  - constructor; [|done]. exists token. split_and!; [eauto..|]. by rewrite E2, lookup_insert_eq.
  - intros id Hid%not_elem_of_cons. destruct Hid. by rewrite E2, lookup_insert_ne by done.
  - intros id [->|Hin]%elem_of_cons; [split; [done|]; exists k; split; [lia|done]|].
    destruct (E3 _ Hin) as (Hl & j & Hj & Ej). split.
    + rewrite lookup_insert_ne in Hl; [done|]. intros ->. done.
    + exists j. split; [lia|done].
  - rewrite map_size_insert_fresh in E4 by done. rewrite len_cons. lia.
Qed.

(** A new order of an existing account, with its authorizations. *)
Lemma wf_add_order st id o auths' :
  acme_wf c st -> Orders st !! id = None -> map_size (Orders st) < maxRecords ->
  map_size auths' <= maxRecords ->
  ord_ID o = id -> validID id = true -> IsZero (ord_Expires o) = false ->
  1 <= len (Identifiers o) <= maxIdentifiers -> NoDup (map i_Value (Identifiers o)) ->
  Forall (fun n => i_Type n = "dns"%string /\ allowedName c (i_Value n) = true) (Identifiers o) ->
  Forall2 (fun n aid => exists token, validID aid = true /\ validID token = true /\
    auths' !! aid = Some (newAuth (ord_AccountID o) id (ord_Expires o) aid token n)) (Identifiers o) (AuthIDs o) ->
  (forall i, i ∉ AuthIDs o -> auths' !! i = Authorizations st !! i) ->
  (forall i, i ∈ AuthIDs o -> Authorizations st !! i = None) ->
  is_Some (Accounts st !! ord_AccountID o) -> ord_Status o = "pending"%string -> CertificateID o = [] ->
  acme_wf c (set_Orders (set_Authorizations st auths') (<[id := o]> (Orders st))).
Proof.
  intros W Hn Hs Hs' Hid Hv He Hl Hnd Hty Hau Hold Hnew Hacc Hst Hc. split; try apply W.
  - cbn [set_Orders Orders]. rewrite map_size_insert_fresh by done. lia.
  - done.
  - intros j x. cbn [set_Orders Orders]. destruct (decide (j = id)) as [->|Hne].
    + rewrite lookup_insert_eq. intros [= <-]. split; auto.
      * eapply Forall2_impl; [exact Hau|]. intros n aid (token & _ & _ & Ha). eexists. split; [exact Ha|done].
      * by rewrite Hst.
      * by rewrite Hst.
      * by rewrite Hst.
    + rewrite lookup_insert_ne by done. intros Hx. apply (order_wf_mono st); auto; [by apply W|].
      intros aid Hin [a Ha]. cbn [set_Orders set_Authorizations Authorizations]. rewrite Hold; [done|].
      intros Hin'. rewrite (Hnew _ Hin') in Ha. done.
  - intros aid a. cbn [set_Orders set_Authorizations Authorizations]. intros Ha.
    destruct (decide (aid ∈ AuthIDs o)) as [Hin|Hnin].
    + destruct (Forall2_elem_r _ _ _ _ Hau Hin) as (n & Hnin & token & Hv1 & Hv2 & Ha').
      rewrite Ha' in Ha. injection Ha as <-. rewrite Forall_forall in Hty. destruct (Hty _ Hnin).
      split; auto. exists o. cbn [set_Orders Orders newAuth auth_OrderID]. by rewrite lookup_insert_eq.
    + rewrite Hold in Ha by done. apply (auth_wf_mono st); [by apply W|].
      intros o' Ho'. exists o'. split; [|done]. cbn [set_Orders Orders].
      rewrite lookup_insert_ne; [done|]. intros E. rewrite <- E in *. congruence.
  - intros kid k Hk. apply (cert_wf_mono st); [by apply W|].
    intros o' Ho' _. cbn [set_Orders Orders]. rewrite lookup_insert_ne; [done|]. intros E. rewrite <- E in *. congruence.
Qed.

(** ** Issued certificates *)

(** An order that becomes valid with a new certificate. *)
Lemma wf_add_cert st id o o' kid k :
  acme_wf c st -> Orders st !! id = Some o -> ord_Status o <> "valid"%string ->
  Certificates st !! kid = None -> map_size (Certificates st) < maxRecords ->
  ord_ID o' = ord_ID o -> ord_AccountID o' = ord_AccountID o -> Identifiers o' = Identifiers o ->
  AuthIDs o' = AuthIDs o -> IsZero (ord_Expires o') = false -> ord_Status o' = "valid"%string ->
  CertificateID o' = kid -> CSR o' <> [] ->
  cert_ID k = kid -> validID kid = true -> cert_OrderID k = id -> cert_AccountID k = ord_AccountID o ->
  leaf_wf k -> RevokedAt k = None ->
  (forall j b, Certificates st !! j = Some b -> Serial b <> Serial k) ->
  (forall aid a, aid ∈ AuthIDs o -> Authorizations st !! aid = Some a -> auth_Status a <> "pending"%string) ->
  acme_wf c (set_Orders (set_Certificates st (<[kid := k]> (Certificates st))) (<[id := o']> (Orders st))).
Proof.
  intros W Ho Hst Hkn Hs E1 E2 E3 E4 He Hst' Hc' Hcsr Hkid Hv Hko Hka Hleaf Hrev Hser Hiss.
  split; try apply W.
  - cbn [set_Orders Orders]. etrans; [|exact (w_norders _ _ W)]. apply map_size_dom.
    rewrite dom_insert_lookup_L; [done|eauto].
  - cbn [set_Orders set_Certificates Certificates]. rewrite map_size_insert_fresh by done. lia.
  - intros j x. cbn [set_Orders Orders]. destruct (decide (j = id)) as [->|Hne].
    + rewrite lookup_insert_eq. intros [= <-]. destruct (w_orders _ _ W _ _ Ho) as [F1 F2 F3 F4 F5 F6 F7 F8 F9 F10 F11].
      split; rewrite ?E1, ?E2, ?E3, ?E4; auto.
      * by rewrite Hst'.
      * rewrite Hst'. cbn [eqs]. rewrite eqs_refl. exists k. rewrite Hc'.
        cbn [set_Orders set_Certificates Certificates]. by rewrite lookup_insert_eq.
    + rewrite lookup_insert_ne by done. intros Hx. apply (order_wf_mono st); auto; [by apply W|].
      intros k0 Hk0 _. cbn [set_Orders set_Certificates Certificates].
      rewrite lookup_insert_ne; [done|]. intros ->. congruence.
  - intros aid a Ha. apply (auth_wf_mono st); [by apply W|]. intros x Hx. cbn [set_Orders Orders].
    destruct (decide (id = auth_OrderID a)) as [->|Hne].
    + rewrite lookup_insert_eq. exists o'. assert (x = o) as -> by congruence. done.
    + rewrite lookup_insert_ne by done. eauto.
  - intros j x. cbn [set_Orders set_Certificates Certificates]. destruct (decide (j = kid)) as [->|Hne].
    + rewrite lookup_insert_eq. intros [= <-]. split; auto.
      * exists o'. cbn [set_Orders Orders]. rewrite Hko, lookup_insert_eq, E2, Hka. done.
      * rewrite Hrev. by intros [? ?].
    + rewrite lookup_insert_ne by done. intros Hx. apply (cert_wf_mono st); [by apply W|].
      intros x' Hx' Hval. cbn [set_Orders Orders]. rewrite lookup_insert_ne; [done|]. intros E. congruence.
  - intros i j x y Hi Hj E. cbn [set_Orders set_Certificates Certificates] in Hi, Hj.
    apply lookup_insert_Some in Hi as [[<- <-]|[Hni Hi]];
      apply lookup_insert_Some in Hj as [[<- <-]|[Hnj Hj]]; try done.
    + by apply Hser in Hj.
    + by apply Hser in Hi.
    + by eapply (w_serials _ _ W).
Qed.
End additions.
