(* ===== verification/AcmeSystem.v ===== *)
(** * Package internal/acmeserver: the server as a transition system

    The system is a server with its state file, the validations it has under
    way and a log of what happened outside: validations that succeeded,
    signatures asked of the authority, creations acknowledged.  A step is one
    critical section of a handler, the end of a validation, or a restart from
    the state file; steps of different requests interleave freely.

    [env_ok] and [req_ok] state what the code relies on of its surroundings:
    crypto/rand never repeats an identifier, the validator only returns IPv4
    targets with a client, the authority returns unexpired leaf certificates
    signed by its root with new serials, and acmeauth gives the thumbprint of
    the key that signed. *)

From stdpp Require Import gmap list strings relations.
From Stdlib Require Import ZArith Lia.
From S2P Require Import Prelude GoStrings Names GoNet Lease AcmeState Acme AcmeFacts AcmeOps.

(** ** Events *)

Inductive event :=
(** A validation succeeded: what the host answered with, the DHCP target that
    answered, and the thumbprint of the account's key at that moment. *)
| EvProved (accountID name token keyAuth : bytes) (target : Target) (holder : option bytes)
| EvSigned (accountID csr : bytes) (names : list bytes)
| EvCreated (source : bytes) (kind : bool) (at_time : time).

Section system.
Context `{X509} `{!Decoders} (c : AcmeConfig).

(** ** Requests *)

Inductive call :=
| CallNewAccount (signed : Request) (source : bytes)
| CallAccount (signed : Request) (accountID id : bytes)
| CallOrders (signed : Request) (accountID id : bytes)
| CallKeyChange (signed : Request) (accountID : bytes)
| CallNewOrder (signed : Request) (accountID source : bytes)
| CallOrder (signed : Request) (accountID id : bytes)
| CallAuthz (signed : Request) (accountID id : bytes)
| CallChallenge (signed : Request) (accountID id : bytes)
| CallFinalize (signed : Request) (accountID id : bytes)
| CallCertificate (signed : Request) (accountID id : bytes)
| CallRevoke (signed : Request)
| CallCRL (head : bool).

Definition call_signed (k : call) : option Request :=
  match k with
  | CallNewAccount r _ | CallAccount r _ _ | CallOrders r _ _ | CallKeyChange r _ | CallNewOrder r _ _
  | CallOrder r _ _ | CallAuthz r _ _ | CallChallenge r _ _ | CallFinalize r _ _
  | CallCertificate r _ _ | CallRevoke r => Some r
  | CallCRL _ => None
  end.

(** A creation the client sees succeed. *)
Definition created (r : acme_reply) (source : bytes) (kind : bool) (now : time) : list event :=
  if r_status r =? 201 then [EvCreated source kind now] else [].

Definition quiet (r : acme_reply * AcmeServer) : AcmeServer * option inflight * list event :=
  (r.2, None, []).

Definition run_call (e : env) (k : call) (s : AcmeServer) : AcmeServer * option inflight * list event :=
  match k with
  | CallNewAccount signed source =>
      let '(r, s) := newAccount c e s signed source in (s, None, created r source true (e_now e))
  | CallAccount signed a id => quiet (account_handler c e s signed a id)
  | CallOrders signed a id => quiet (accountOrders c e s signed a id)
  | CallKeyChange signed a => quiet (keyChange c e s signed a)
  | CallNewOrder signed a source =>
      let '(r, s) := newOrder c e s signed a source in (s, None, created r source false (e_now e))
  | CallOrder signed a id => quiet (getOrder c e s signed a id)
  | CallAuthz signed a id => quiet (getAuthorization c e s signed a id)
  | CallChallenge signed a id =>
      match challengeStart c e s signed a id with
      | (Replied _, s) => (s, None, [])
      | (Validating f, s) => (s, Some f, [])
      end
  | CallFinalize signed a id =>
      match finalize c e s signed a id with
      | (_, s, Some (csr, names)) => (s, None, [EvSigned a csr names])
      | (_, s, None) => (s, None, [])
      end
  | CallCertificate signed a id => quiet (getCertificate c e s signed a id)
  | CallRevoke signed => quiet (revokeCertificate c e s signed)
  | CallCRL head => quiet (serveCRL e s head)
  end.

(** ** The system *)

Record acme_sys := mkAcmeSys { srv : AcmeServer; pending : list inflight; log : list event }.

(** What acmeauth guarantees of a verified request. *)
Definition req_ok (r : Request) : Prop :=
  Thumbprint (req_Key r) = Some (req_Thumbprint r) /\ IsPublic (req_Key r) = true.

(** What a validator guarantees of a target. *)
Definition target_ok (t : Target) : Prop := Is4 (t_IP t) = true /\ t_ClientID t <> [].

Record env_ok (e : env) (y : acme_sys) : Prop := {
  eo_now : zeroTime < e_now e;
  eo_lookup : forall n t, e_lookup e n = Some t -> target_ok t;
  eo_ids_valid : forall k id, e_ids e k = Some id -> validID id = true;
  eo_ids_inj : forall i j id, e_ids e i = Some id -> e_ids e j = Some id -> i = j;
  eo_ids_fresh : forall k id, e_ids e k = Some id ->
    let st := s_state (srv y) in
    Accounts st !! id = None /\ Orders st !! id = None /\ Authorizations st !! id = None /\
    Certificates st !! id = None /\ Forall (fun f => f_id f <> id) (pending y);
  eo_sign : forall csr names chain leaf, e_sign e csr names = Signed chain -> parseLeaf chain = Some leaf ->
    IsCA leaf = false /\ CheckLeafSignature leaf = true /\ e_now e < NotAfter leaf /\
    forall j k, Certificates (s_state (srv y)) !! j = Some k -> Serial k <> BigString (SerialNumber leaf)
}.

(** The thumbprint of the key an account has now. *)
Definition holder (s : AcmeServer) (accountID : bytes) : option bytes :=
  acc_Thumbprint <$> Accounts (s_state s) !! accountID.

Definition proved (s : AcmeServer) (f : inflight) (outcome : option Target) : list event :=
  match outcome with
  | Some t => [EvProved (f_account f) (f_name f) (f_token f) (keyAuthorization f) t (holder s (f_account f))]
  | None => []
  end.

(** One step, with the time of the last one; the log is newest first. *)
Inductive acme_step : time * acme_sys -> time * acme_sys -> Prop :=
| acme_call t e k y s' started evs :
    t <= e_now e -> env_ok e y -> (forall r, call_signed k = Some r -> req_ok r) ->
    run_call e k (srv y) = (s', started, evs) ->
    acme_step (t, y) (e_now e, mkAcmeSys s' (option_list started ++ pending y) (evs ++ log y))
| acme_finish t e y l1 f l2 outcome :
    t <= e_now e -> env_ok e y -> (forall target, outcome = Some target -> target_ok target) ->
    pending y = l1 ++ f :: l2 ->
    acme_step (t, y) (e_now e, mkAcmeSys (challengeFinish c e (srv y) f outcome).2 (l1 ++ l2)
                                 (proved (srv y) f outcome ++ log y))
| acme_restart t e y s' :
    t <= e_now e -> zeroTime < e_now e -> New_acme c e (stateFile (srv y)) = Ok s' ->
    acme_step (t, y) (e_now e, mkAcmeSys s' [] (log y)).

Inductive acme_init : time * acme_sys -> Prop :=
| acme_new e s : zeroTime < e_now e -> New_acme c e FMissing = Ok s ->
    acme_init (e_now e, mkAcmeSys s [] []).

Definition acme_reach (ty : time * acme_sys) : Prop :=
  exists ty0, acme_init ty0 /\ rtc acme_step ty0 ty.
End system.

(** acmeauth verifies the inner request of a key change as it does the outer. *)
Class VerifiedInner `{X509} `{!Decoders} : Prop :=
  inner_ok : forall p u inner, VerifyKeyChange p u = Ok inner -> req_ok inner.
