(* ===== verification/AcmeSteps.v ===== *)
(** * Package internal/acmeserver: what one step does

    Every handler leaves the snapshot alone, or commits a new one that keeps the
    invariant and changes authorizations and quotas in the ways listed in
    [transition].  The theorems about reachable servers are proved from this. *)

From stdpp Require Import gmap list strings.
From Stdlib Require Import ZArith Lia.
From S2P Require Import Prelude GoStrings Names GoNet Lease GoBase64 AcmeState Acme AcmeFacts AcmeOps AcmeSystem.

(** ** Transitions *)

(** The fields of an authorization that never change. *)
Definition same_auth (a a' : authorization) : Prop :=
  auth_ID a' = auth_ID a /\ auth_AccountID a' = auth_AccountID a /\ auth_OrderID a' = auth_OrderID a /\
  auth_Name a' = auth_Name a /\ auth_Expires a' = auth_Expires a /\ Token a' = Token a.

(** A validation of this authorization is under way. *)
Definition busy (a : authorization) : Prop :=
  auth_Status a = "pending"%string /\ ChallengeStatus a = "processing"%string.

(** Creation times on record for a source lease. *)
Definition times_of `{Jose} (st : acme_state) (kind : bool) (source : bytes) : list time :=
  let l := default zeroLimit (LeaseLimits st !! source) in
  if kind then ll_Accounts l else ll_Orders l.

Definition window_of (kind : bool) : duration := if kind then accountRateWindow else orderRateWindow.

Section transitions.
Context `{X509} `{!Decoders} (c : AcmeConfig).

(** How one authorization changes: [starts] is the one whose validation begins,
    [proof] the one whose validation succeeded, with the target. *)
Definition auth_tr (starts : option bytes) (proof : option (bytes * Target)) (id : bytes)
    (a a' : authorization) : Prop :=
  same_auth a a' /\
  (auth_Status a' = "valid"%string ->
   auth_Status a = "valid"%string /\ auth_Target a' = auth_Target a \/ proof = Some (id, auth_Target a')) /\
  (busy a' -> busy a \/ starts = Some id).

Record transition (e : env) (st next : acme_state) (starts : option bytes)
    (proof : option (bytes * Target)) (rec : option (bytes * bool)) : Prop := {
  tr_wf : acme_wf c next;
  tr_auths : forall id a', Authorizations next !! id = Some a' ->
    (exists a, Authorizations st !! id = Some a /\ auth_tr starts proof id a a') \/
    ((exists k, e_ids e k = Some id) /\ auth_Status a' = "pending"%string /\ ChallengeStatus a' = "pending"%string);
  tr_limits : forall kind source cutoff, e_now e - window_of kind <= cutoff ->
    recentTimes (times_of next kind source) cutoff =
    recentTimes (times_of st kind source ++ (if decide (rec = Some (source, kind)) then [e_now e] else [])) cutoff
}.

Lemma auth_tr_refl starts proof id a : auth_tr starts proof id a a.
Proof. repeat split; auto. Qed.

Lemma auth_tr_unproved proof starts id a a' : auth_tr starts None id a a' -> auth_tr starts proof id a a'.
Proof. intros (Hs & Hv & Hb). split; [done|]. split; [|done]. intros Hx. left. by destruct (Hv Hx). Qed.

Lemma recentTimes_app a b t : recentTimes (a ++ b) t = recentTimes a t ++ recentTimes b t.
Proof. apply filter_app. Qed.

(** A snapshot that differs from the old one by updates in place. *)
Lemma transition_update e st next starts proof :
  acme_wf c next -> LeaseLimits next = LeaseLimits st ->
  (forall id a', Authorizations next !! id = Some a' ->
    exists a, Authorizations st !! id = Some a /\ auth_tr starts proof id a a') ->
  transition e st next starts proof None.
Proof.
  intros W El Ha. split; [done|eauto|]. intros kind source cutoff _. unfold times_of. rewrite El.
  rewrite decide_False by done. by rewrite app_nil_r.
Qed.

Lemma auths_same (st next : acme_state) starts proof :
  Authorizations next = Authorizations st ->
  forall id a', Authorizations next !! id = Some a' ->
  exists a, Authorizations st !! id = Some a /\ auth_tr starts proof id a a'.
Proof. intros -> id a Ha. exists a. split; [done|apply auth_tr_refl]. Qed.

Lemma auths_insert (st next : acme_state) starts proof k a a' :
  Authorizations next = <[k := a']> (Authorizations st) -> Authorizations st !! k = Some a ->
  auth_tr starts proof k a a' ->
  forall id b', Authorizations next !! id = Some b' ->
  exists b, Authorizations st !! id = Some b /\ auth_tr starts proof id b b'.
Proof.
  intros -> Hk Ht id b' [[<- <-]|[_ Hb]]%lookup_insert_Some; [eauto|].
  exists b'. split; [done|apply auth_tr_refl].
Qed.

Lemma times_of_prune now acts st kind source :
  times_of (prune now acts st) kind source = recentTimes (times_of st kind source) (now - window_of kind).
Proof.
  unfold times_of. unfold prune. cbn [LeaseLimits]. rewrite lookup_omap.
  destruct (pruned_limit now (LeaseLimits st !! source)) as [E1 E2]. by destruct kind.
Qed.

Lemma times_of_record now st source kind kind' source' :
  times_of (recordCreation now st source kind) kind' source' =
  if decide ((source, kind) = (source', kind'))
  then recentTimes (times_of st kind source) (now - window_of kind) ++ [now]
  else times_of st kind' source'.
Proof.
  unfold times_of, recordCreation. cbn [set_LeaseLimits LeaseLimits].
  destruct (decide (source' = source)) as [->|Hne].
  - rewrite lookup_insert_eq. destruct kind, kind'; repeat (rewrite decide_True by done);
      repeat (rewrite decide_False by congruence); done.
  - rewrite lookup_insert_ne by done. rewrite decide_False by congruence. done.
Qed.

(** The quotas after a recorded creation. *)
Lemma limits_recorded e acts st next source kind :
  LeaseLimits next = LeaseLimits (recordCreation (e_now e) (prune (e_now e) acts st) source kind) ->
  forall kind' source' cutoff, e_now e - window_of kind' <= cutoff ->
  recentTimes (times_of next kind' source') cutoff =
  recentTimes (times_of st kind' source' ++
    (if decide (Some (source, kind) = Some (source', kind')) then [e_now e] else [])) cutoff.
Proof.
  intros El kind' source' cutoff Hc.
  replace (times_of next kind' source')
    with (times_of (recordCreation (e_now e) (prune (e_now e) acts st) source kind) kind' source')
    by (unfold times_of; by rewrite El).
  rewrite times_of_record, !times_of_prune, recentTimes_app.
  destruct (decide ((source, kind) = (source', kind'))) as [[= -> ->]|Hne].
  - rewrite decide_True by done. by rewrite recentTimes_app, !recentTimes_later by lia.
  - rewrite decide_False by congruence. rewrite recentTimes_later, app_nil_r by lia. done.
Qed.

(** ** Effects *)

Definition retry_state (st : acme_state) (id : bytes) : acme_state :=
  match Authorizations st !! id with
  | Some a =>
      if eqs (auth_Status a) "pending" && eqs (ChallengeStatus a) "processing"
      then set_Authorizations st (<[id := auth_with a (auth_Status a) "pending" (auth_Error a)]> (Authorizations st))
      else st
  | None => st
  end.

Definition opt_retry (r : option bytes) (st : acme_state) : acme_state :=
  match r with Some id => retry_state st id | None => st end.

(** What a handler does to the server; [must] is the creation it reports. *)
Inductive acme_effect (e : env) (s : AcmeServer) (starts : option bytes) (proof : option (bytes * Target))
    (must : option (bytes * bool)) (d : Z) (s' : AcmeServer) : Prop :=
| eff_keep r :
    must = None -> s_state s' = opt_retry r (s_state s) -> stateFile s' = stateFile s ->
    validations s' = validations s + d -> acme_effect e s starts proof must d s'
| eff_commit r next acts rec starts0 :
    transition e (s_state s) next starts0 proof rec ->
    (forall i, starts0 = Some i -> starts = Some i \/ r = Some i) -> must = None \/ must = rec ->
    s_state s' = opt_retry r (prune (e_now e) acts next) ->
    stateFile s' = FState true (prune (e_now e) acts next) (e_now e) ->
    validations s' = validations s + d -> acme_effect e s starts proof must d s'.

Lemma effect_same e s starts proof s' :
  s_state s' = s_state s -> stateFile s' = stateFile s -> validations s' = validations s ->
  acme_effect e s starts proof None 0 s'.
Proof. intros E1 E2 E3. apply (eff_keep _ _ _ _ _ _ _ None); [done|done|done|lia]. Qed.

Lemma effect_refl e s starts proof : acme_effect e s starts proof None 0 s.
Proof. by apply effect_same. Qed.

Lemma commit_effect e s s1 next starts proof rec d err s' :
  s_state s1 = s_state s -> stateFile s1 = stateFile s -> validations s1 = validations s + d ->
  transition e (s_state s) next starts proof rec -> commit e s1 next = (err, s') ->
  acme_effect e s starts proof (match err with None => rec | Some _ => None end) d s'.
Proof.
  intros E1 E2 E3 T. unfold commit.
  destruct (e_io e) as [step|]; [destruct (after_rename step)|]; intros [= <- <-].
  - apply (eff_commit _ _ _ _ _ _ _ None next (activity s1) rec starts); auto.
  - apply (eff_keep _ _ _ _ _ _ _ None); auto.
  - apply (eff_commit _ _ _ _ _ _ _ None next (activity s1) rec starts); auto.
Qed.

(** The same after a failed commit whose challenge is put back. *)
Lemma commit_retry_effect e s s1 next starts proof rec d d' step s' id :
  s_state s1 = s_state s -> stateFile s1 = stateFile s -> validations s1 = validations s + d ->
  (forall i, starts = Some i -> i = id) ->
  transition e (s_state s) next starts proof rec -> commit e s1 next = (Some step, s') ->
  let s2 := retryInterruptedChallenge s' id in
  acme_effect e s None proof None d' (set_validations s2 (validations s2 - d + d')).
Proof.
  intros E1 E2 E3 Hst T Hc.
  assert (Hr : forall x, s_state (retryInterruptedChallenge x id) = retry_state (s_state x) id /\
    stateFile (retryInterruptedChallenge x id) = stateFile x /\
    validations (retryInterruptedChallenge x id) = validations x).
  { intros x. unfold retryInterruptedChallenge, retry_state. destruct (_ !! id); [|done]. by destruct (_ && _). }
  destruct (Hr s') as (R1 & R2 & R3). revert Hc. unfold commit. destruct (e_io e) as [st|]; [|done].
  intros [= -> <-]. cbv zeta. destruct (after_rename step).
  - apply (eff_commit _ _ _ _ _ _ _ (Some id) next (activity s1) rec starts); auto;
      [intros i ->; right; f_equal; symmetry; auto|].
    cbn [set_validations validations]. rewrite R3. simpl. lia.
  - apply (eff_keep _ _ _ _ _ _ _ (Some id)); cbn [set_validations s_state stateFile validations];
      rewrite ?R1, ?R2, ?R3, ?E1, ?E2; simpl; [done..|lia].
Qed.

(** ** The active account *)

Lemma activeAccount_keep e s signed id r s1 :
  activeAccount c e s signed id = (r, s1) ->
  s_state s1 = s_state s /\ stateFile s1 = stateFile s /\ validations s1 = validations s.
Proof.
  unfold activeAccount. destruct (_ !! id); [destruct (_ || _)|]; by intros [= <- <-].
Qed.

Lemma activeAccount_Ok e s signed id a s1 :
  activeAccount c e s signed id = (Ok a, s1) ->
  Accounts (s_state s) !! id = Some a /\ acc_Status a = "valid"%string /\
  acc_Thumbprint a = req_Thumbprint signed /\ KeyID signed = url c (str "/account/" ++ id) /\
  activity s1 !! id = Some (e_now e).
Proof.
  unfold activeAccount. destruct (_ !! id) as [b|]; [|done]. destruct (_ || _) eqn:E; [done|].
  intros [= <- <-]. bool_hyps. repeat match goal with H : negb _ = false |- _ => apply negb_false_iff in H end.
  split_and!; [done|by apply eqs_true|by apply beq_true|by apply beq_true|apply lookup_insert_eq].
Qed.

Lemma findAccount_None st thumb :
  findAccount st thumb = None -> forall id a, Accounts st !! id = Some a -> acc_Thumbprint a <> thumb.
Proof.
  unfold findAccount. intros Hf id a Ha E.
  assert (Hin : a ∈ filter (fun a => acc_Thumbprint a = thumb) (map snd (map_to_list (Accounts st)))).
  { apply list_elem_of_filter. split; [done|]. apply list_elem_of_fmap. exists (id, a).
    split; [done|]. by apply elem_of_map_to_list. }
  destruct (filter _ _); [by apply not_elem_of_nil in Hin|done].
Qed.
End transitions.
