(* ===== verification/AcmeHandlers.v ===== *)
(** * Package internal/acmeserver: the effect of each handler

    One lemma per handler: it has an [acme_effect], from a well-formed snapshot
    and an environment that keeps its promises. *)

From stdpp Require Import gmap list strings.
From Stdlib Require Import ZArith Lia.
From S2P Require Import Prelude GoStrings Names GoNet Lease GoBase64 AcmeState Acme AcmeFacts AcmeOps AcmeSystem AcmeSteps.

Section handlers.
Context `{X509} `{!Decoders} (c : AcmeConfig) (e : env) (y : acme_sys).
Let s := srv y.
Let st := s_state s.
Hypothesis W : acme_wf c st.
Hypothesis EO : env_ok e y.

(** The creation a reply acknowledges. *)
Definition acknowledged (r : acme_reply) (source : bytes) (kind : bool) : option (bytes * bool) :=
  if r_status r =? 201 then Some (source, kind) else None.

Lemma contactValue_status v p : contactValue v = Some p -> p_Status p = 400.
Proof. unfold contactValue. intros Hv. repeat (case_match; simplify_eq; try done). Qed.

Lemma accountContacts_status d p : accountContacts d = Err p -> p_Status p = 400.
Proof.
  unfold accountContacts. destruct (_ =? _); [done|]. destruct (beq _ _); [by intros [= <-]|].
  destruct (json_strings d) as [l|]; [|by intros [= <-]]. destruct (_ <? _); [by intros [= <-]|].
  destruct (contactValues l) as [q|] eqn:E; [|done]. intros [= ->].
  induction l as [|v l IH]; [done|]. simpl in E. destruct (contactValue v) eqn:Ev; [|by apply IH].
  injection E as ->. by apply contactValue_status in Ev.
Qed.

Lemma fresh_ids id k :
  e_ids e k = Some id ->
  validID id = true /\ Accounts st !! id = None /\ Orders st !! id = None /\
  Authorizations st !! id = None /\ Certificates st !! id = None.
Proof.
  intros Hk. pose proof (eo_ids_valid _ _ EO _ _ Hk). destruct (eo_ids_fresh _ _ EO _ _ Hk) as (F1 & F2 & F3 & F4 & _).
  done.
Qed.

Lemma new_account_wf id signed contact :
  validID id = true -> req_ok signed ->
  account_wf id (mkAccount id (req_Key signed) (req_Thumbprint signed) "valid" contact (e_now e) []).
Proof.
  intros Hv [Ht Hp]. split; [|exact (eo_now _ _ EO)].
  unfold account_ok. cbn [acc_Key acc_ID acc_Thumbprint acc_Status RecentOrders].
  by rewrite Ht, Hp, !beq_refl, Hv.
Qed.

(** The quotas recorded in a pruned snapshot whose other parts are [next]. *)
Lemma wf_record acts next source kind :
  acme_wf c next -> allowCreation (e_now e) st source kind = None ->
  LeaseLimits next = LeaseLimits (prune (e_now e) acts st) ->
  acme_wf c (recordCreation (e_now e) next source kind).
Proof.
  intros Wn Ha El.
  assert (E : recordCreation (e_now e) next source kind =
    set_LeaseLimits next (LeaseLimits (recordCreation (e_now e) (prune (e_now e) acts st) source kind))).
  { unfold recordCreation. by rewrite El. }
  rewrite E. apply wf_set_LeaseLimits; [done| |].
  - by eapply recorded_limit_size.
  - by eapply recorded_limit_ok.
Qed.

(** Authorizations of the pruned snapshot are those of the old one. *)
Lemma auths_pruned acts id a starts proof :
  Authorizations (prune (e_now e) acts st) !! id = Some a ->
  exists b, Authorizations st !! id = Some b /\ auth_tr starts proof id b a.
Proof. intros [Ha _]%prune_auths. exists a. split; [done|apply auth_tr_refl]. Qed.

Lemma newAccount_effect signed source r s' :
  req_ok signed -> newAccount c e s signed source = (r, s') ->
  acme_effect c e s None None (acknowledged r source true) 0 s'.
Proof.
  intros Hreq. unfold newAccount. fold st.
  destruct (beq (KeyID signed) []); cbn [negb]; [|intros [= <- <-]; apply effect_refl].
  destruct (decodePayload _ _) as [[[rawContact rawStatus] only]|]; [|intros [= <- <-]; apply effect_refl].
  destruct (findAccount _ _) as [a|] eqn:Ef.
  { intros [= <- <-]. by apply effect_same. }
  destruct only; [intros [= <- <-]; apply effect_refl|].
  destruct (accountContacts rawContact) as [contact|p] eqn:Ec.
  2:{ intros [= <- <-]. unfold acknowledged. simpl. rewrite (accountContacts_status _ _ Ec). apply effect_refl. }
  destruct (allowCreation _ _ _ _) as [x|] eqn:Ea.
  { intros [= <- <-]. destruct x; apply effect_refl. }
  destruct (Z.leb_spec maxAccounts (map_size (Accounts (prune (e_now e) (activity s) st)))) as [|Hlt];
    [intros [= <- <-]; apply effect_refl|].
  destruct (e_ids e 0%nat) as [id|] eqn:Eid; [|intros [= <- <-]; apply effect_refl].
  destruct (fresh_ids _ _ Eid) as (Hv & Hfa & _).
  match goal with |- context [commit e s ?n] => set (next := n) end.
  assert (T : transition c e st next None None (Some (source, true))).
  { split.
    - apply (wf_add_account c (recordCreation (e_now e) (prune (e_now e) (activity s) st) source true)).
      + by eapply (wf_record (activity s)); [apply wf_prune|done|].
      + change (Accounts (prune (e_now e) (activity s) st) !! id = None). by rewrite prune_accounts, Hfa.
      + done.
      + by apply new_account_wf.
      + intros j b (a & Hb & [E%(f_equal acc_Thumbprint) _]%prune_account_Some)%prune_accounts_Some.
        cbn [acc_Thumbprint] in *. rewrite E. by eapply findAccount_None.
    - intros i a Ha. left. by eapply (auths_pruned (activity s)).
    - eapply (limits_recorded e (activity s)). done. }
  destruct (commit e s next) as [[step|] s1] eqn:Ecm; intros [= <- <-];
    pose proof (commit_effect c e s s next _ _ _ 0 _ _ eq_refl eq_refl (eq_sym (Z.add_0_r _)) T Ecm) as Heff; exact Heff.
Qed.

(** Both outcomes of a commit that records no creation. *)
Ltac by_commit T :=
  match type of T with transition ?c ?e _ ?next _ _ None =>
    match goal with |- context [commit e ?s1 next] =>
      let Ec := fresh in
      destruct (commit e s1 next) as [[?step|] ?s2] eqn:Ec; cbn [fst snd];
      exact (commit_effect c e s s1 next _ _ None 0 _ _ ltac:(done) ltac:(done) ltac:(lia) T Ec)
    end
  end.

(** ** Updates of records in place *)

Lemma wf_set_account st0 id a a' :
  acme_wf c st0 -> Accounts st0 !! id = Some a -> account_wf id a' ->
  (acc_Thumbprint a' = acc_Thumbprint a \/
   forall j b, Accounts st0 !! j = Some b -> acc_Thumbprint b <> acc_Thumbprint a') ->
  acme_wf c (set_Accounts st0 (<[id := a']> (Accounts st0))).
Proof.
  intros W0 Ha Ha' Ht.
  apply (wf_update c st0); [done..|exact (w_crl _ _ W0)|by eapply pointwise_insert| | | | |];
    cbn [set_Accounts Accounts Orders Authorizations Certificates].
  - intros j b [[<- <-]|[_ Hb]]%lookup_insert_Some; [done|by apply W0].
  - intros i j x z Hi Hj E.
    apply lookup_insert_Some in Hi as [[<- <-]|[Hni Hi]];
      apply lookup_insert_Some in Hj as [[<- <-]|[Hnj Hj]]; try done.
    + destruct Ht as [Ht|Ht]; [apply (w_keys _ _ W0 id j a z); congruence|by apply Ht in Hj].
    + destruct Ht as [Ht|Ht]; [apply (w_keys _ _ W0 i id x a); congruence|by apply Ht in Hi].
    + by eapply (w_keys _ _ W0).
  - apply pointwise_refl, upd_order_refl.
  - apply pointwise_refl, upd_auth_refl.
  - apply pointwise_refl, upd_cert_refl.
Qed.

Lemma wf_edit st0 orders auths :
  acme_wf c st0 -> pointwise upd_order (Orders st0) orders -> pointwise upd_auth (Authorizations st0) auths ->
  acme_wf c (set_Authorizations (set_Orders st0 orders) auths).
Proof.
  intros W0 Po Pt. apply (wf_update c st0); try done; try apply W0.
  - apply pointwise_refl. done.
  - apply pointwise_refl, upd_cert_refl.
Qed.

Lemma deactivate_order_upd id o : upd_order o (deactivate_order id o).
Proof.
  unfold deactivate_order. destruct (_ && _) eqn:E; [|apply upd_order_refl].
  apply andb_true_iff in E as [_ E]. repeat split; auto; simpl; try done.
  intros Hv. rewrite Hv in E. done.
Qed.

Lemma deactivate_authorization_upd id a : upd_auth a (deactivate_authorization id a).
Proof.
  unfold deactivate_authorization. destruct (_ && _); [|apply upd_auth_refl]. by repeat split.
Qed.

Lemma deactivate_authorization_tr id k a : auth_tr None None k a (deactivate_authorization id a).
Proof.
  unfold deactivate_authorization. destruct (_ && _); [|apply auth_tr_refl]. split; [by repeat split|].
  split; [done|]. by intros [? _].
Qed.

Lemma account_with_wf id a status contact :
  account_wf id a -> status = "valid"%string \/ status = "deactivated"%string ->
  account_wf id (mkAccount (acc_ID a) (acc_Key a) (acc_Thumbprint a) status contact (LastActive a) (RecentOrders a)).
Proof.
  intros [Hok Hl] Hs. split; [|done]. revert Hok. unfold account_ok.
  cbn [acc_Key acc_ID acc_Thumbprint acc_Status RecentOrders]. destruct (Thumbprint _); [|done].
  intros Hok. apply andb_true_iff in Hok as [Hok _]. rewrite Hok. by destruct Hs as [-> | ->].
Qed.

Lemma account_effect signed accountID id :
  acme_effect c e s None None None 0 (account_handler c e s signed accountID id).2.
Proof.
  unfold account_handler. destruct (beq id accountID) eqn:Eid; cbn [negb]; [|apply effect_refl].
  apply beq_true in Eid as ->.
  destruct (if len (Payload signed) =? 0 then _ else _) as [[[rawContact rawStatus] ?]|]; [|apply effect_refl].
  destruct (accountContacts rawContact) as [contact|]; [|apply effect_refl].
  destruct (if len rawStatus =? 0 then _ else _) as [status|] eqn:Est; [|apply effect_refl].
  assert (Hst : status = ""%string \/ status = "valid"%string \/ status = "deactivated"%string).
  { destruct (len rawStatus =? 0); [left; congruence|right]. destruct (json_string rawStatus); [|done].
    destruct (_ || _) eqn:E; [|done]. injection Est as ->. apply orb_true_iff in E as [E%eqs_true|E%eqs_true]; auto. }
  destruct (activeAccount c e s signed accountID) as [[a|p] s1] eqn:Eact;
    destruct (activeAccount_keep _ _ _ _ _ _ _ Eact) as (K1 & K2 & K3); cbn [snd];
    [|by apply effect_same].
  destruct (activeAccount_Ok _ _ _ _ _ _ _ Eact) as (Ha & Hvalid & _).
  destruct (negb _ || negb _) eqn:Eu; cbn [snd]; [|by apply effect_same].
  rewrite K1. fold st.
  match goal with |- context [commit e s1 ?n] => set (next := n) end.
  assert (Wa : account_wf accountID (mkAccount (acc_ID a) (acc_Key a) (acc_Thumbprint a)
    (if eqs status "" then acc_Status a else status) (if len rawContact =? 0 then acc_Contact a else contact)
    (LastActive a) (RecentOrders a))).
  { apply account_with_wf; [by apply (w_accounts _ _ W)|]. destruct (eqs status "") eqn:Es; [by left|].
    destruct Hst as [->|?]; done. }
  assert (T : transition c e st next None None None).
  { subst next. set (a' := mkAccount _ _ _ _ _ _ _) in *.
    assert (W1 : acme_wf c (set_Accounts st (<[accountID := a']> (Accounts st)))).
    { eapply wf_set_account; [done|done|done|by left]. }
    destruct (eqs (acc_Status a') "deactivated").
    - apply transition_update; [|done|].
      + apply wf_edit; [done|apply pointwise_fmap, deactivate_order_upd|apply pointwise_fmap, deactivate_authorization_upd].
      + intros i x. cbn. rewrite lookup_fmap. intros (x0 & Hx0 & ->)%fmap_Some. exists x0.
        split; [done|apply deactivate_authorization_tr].
    - apply transition_update; [done|done|]. by apply auths_same. }
  by_commit T.
Qed.

Lemma keyChange_effect `{!VerifiedInner} signed accountID :
  acme_effect c e s None None None 0 (keyChange c e s signed accountID).2.
Proof.
  unfold keyChange. destruct (VerifyKeyChange _ _) as [inner|[p|]] eqn:Ev; [|apply effect_refl..].
  destruct (decodePayload _ _) as [[acct oldKey]|]; [|apply effect_refl].
  destruct (negb (beq acct _)); [apply effect_refl|]. destruct (negb (bool_decide _)); [apply effect_refl|].
  destruct (bool_decide _); [apply effect_refl|].
  destruct (activeAccount c e s signed accountID) as [[a|p] s1] eqn:Eact;
    destruct (activeAccount_keep _ _ _ _ _ _ _ Eact) as (K1 & K2 & K3); cbn [snd]; [|by apply effect_same].
  destruct (activeAccount_Ok _ _ _ _ _ _ _ Eact) as (Ha & Hvalid & _).
  destruct (findAccount (s_state s1) _) as [b|] eqn:Ef; cbn [snd]; [by apply effect_same|].
  rewrite K1 in Ef. rewrite K1. fold st. fold st in Ef, Ha.
  match goal with |- context [commit e s1 ?n] => set (next := n) end.
  assert (T : transition c e st next None None None).
  { apply transition_update; [|done|by apply auths_same]. eapply wf_set_account; [done|done| |].
    - destruct (w_accounts _ _ W _ _ Ha) as [Hok Hl]. split; [|done]. revert Hok. unfold account_ok.
      cbn [acc_Key acc_ID acc_Thumbprint acc_Status RecentOrders].
      destruct (inner_ok _ _ _ Ev) as [Ht Hp]. rewrite Ht, Hp, beq_refl. destruct (Thumbprint (acc_Key a)); [|done].
      intros Hok. bool_hyps. repeat (apply andb_true_iff; split); try done; by apply Z.leb_le.
    - right. intros j b Hb. by eapply findAccount_None. }
  by_commit T.
Qed.

(** ** Read-only handlers *)

Lemma accountOrders_effect signed accountID id :
  acme_effect c e s None None None 0 (accountOrders c e s signed accountID id).2.
Proof.
  unfold accountOrders. destruct (postAsGet _); [apply effect_refl|]. destruct (negb _); [apply effect_refl|].
  destruct (activeAccount c e s signed accountID) as [[a|p] s1] eqn:Eact;
    destruct (activeAccount_keep _ _ _ _ _ _ _ Eact) as (K1 & K2 & K3); by apply effect_same.
Qed.

Lemma getOrder_effect signed accountID id :
  acme_effect c e s None None None 0 (getOrder c e s signed accountID id).2.
Proof.
  unfold getOrder. destruct (postAsGet _); [apply effect_refl|].
  destruct (activeAccount c e s signed accountID) as [[a|p] s1] eqn:Eact;
    destruct (activeAccount_keep _ _ _ _ _ _ _ Eact) as (K1 & K2 & K3); [|by apply effect_same].
  destruct (_ !! id); [destruct (beq _ _)|]; by apply effect_same.
Qed.

Lemma getCertificate_effect signed accountID id :
  acme_effect c e s None None None 0 (getCertificate c e s signed accountID id).2.
Proof.
  unfold getCertificate. destruct (postAsGet _); [apply effect_refl|].
  destruct (activeAccount c e s signed accountID) as [[a|p] s1] eqn:Eact;
    destruct (activeAccount_keep _ _ _ _ _ _ _ Eact) as (K1 & K2 & K3); [|by apply effect_same].
  destruct (_ !! id); [destruct (beq _ _)|]; by apply effect_same.
Qed.

(** ** New orders *)

Lemma checkIdentifiers_spec lookup seen names :
  match checkIdentifiers c lookup seen names with
  | Err p => p_Status p = 400
  | Ok out => length out = length names /\ NoDup (map i_Value out) /\
      (forall v, v ∈ seen -> v ∉ map i_Value out) /\
      Forall (fun n => i_Type n = "dns"%string /\ allowedName c (i_Value n) = true) out
  end.
Proof.
  revert seen. induction names as [|n names IH]; intros seen; simpl.
  { split_and!; try constructor. intros v _. apply not_elem_of_nil. }
  destruct (existsb _ _); [done|]. set (v := ToLower (TrimSuffix (i_Value n) [DOT])).
  destruct (negb _ || negb _ || _) eqn:E; [done|]. bool_hyps.
  repeat match goal with H : negb _ = false |- _ => apply negb_false_iff in H end.
  destruct (lookup v); [|done]. specialize (IH (v :: seen)).
  destruct (checkIdentifiers c lookup (v :: seen) names) as [out|p]; [|done].
  destruct IH as (I1 & I2 & I3 & I4). simpl. split_and!.
  - by rewrite I1.
  - constructor; [|done]. apply I3, list_elem_of_here.
  - intros w Hw. apply not_elem_of_cons. split; [by intros ->|]. by apply I3, list_elem_of_further.
  - constructor; [|done]. split; [by apply eqs_true|done].
Qed.

(** A touched account survives the prune that follows. *)
Lemma touched_survives acts id a :
  acts !! id = Some (e_now e) -> Accounts st !! id = Some a ->
  exists a', Accounts (prune (e_now e) acts st) !! id = Some a'.
Proof.
  intros Hact Ha. rewrite prune_accounts, Ha. simpl. unfold prune_account. rewrite Hact. cbn [default Datatypes.id from_option].
  assert (Hl : e_now e <? (if LastActive a <? e_now e then e_now e else LastActive a) + accountIdleLifetime = true).
  { apply Z.ltb_lt. unfold accountIdleLifetime, hour. destruct (Z.ltb_spec (LastActive a) (e_now e)); lia. }
  rewrite Hl. cbn [negb]. rewrite andb_false_r. eauto.
Qed.

(** The snapshot [createOrder] commits. *)
Lemma createOrder_transition acts source accountID id names aids auths a :
  let pruned := prune (e_now e) acts st in
  allowCreation (e_now e) st source false = None ->
  Accounts pruned !! accountID = Some a -> len (RecentOrders a) < maxAccountOrders ->
  map_size (Orders pruned) < maxRecords -> map_size (Authorizations pruned) + len names <= maxRecords ->
  1 <= len names <= maxIdentifiers -> NoDup (map i_Value names) ->
  Forall (fun n => i_Type n = "dns"%string /\ allowedName c (i_Value n) = true) names ->
  e_ids e 0%nat = Some id ->
  addAuthorizations (e_ids e) 1 accountID id (e_now e + orderLifetime) names (Authorizations pruned) = Some (aids, auths) ->
  transition c e st
    (recordCreation (e_now e)
      (set_Accounts
        (set_Orders (set_Authorizations pruned auths)
          (<[id := mkOrder id accountID "pending" (e_now e + orderLifetime) names aids [] [] None]> (Orders pruned)))
        (<[accountID := mkAccount (acc_ID a) (acc_Key a) (acc_Thumbprint a) (acc_Status a) (acc_Contact a)
                          (LastActive a) (RecentOrders a ++ [e_now e])]> (Accounts pruned))) source false)
    None None (Some (source, false)).
Proof.
  intros pruned Hallow Ha Hrec Hord Hauth Hlen Hnd Hty Hid Hadd.
  assert (Wp : acme_wf c pruned) by by apply wf_prune.
  destruct (fresh_ids _ _ Hid) as (Hv & _ & Hfo & _).
  assert (Hfp : forall k i, e_ids e k = Some i -> Authorizations pruned !! i = None).
  { intros k i Hk. destruct (fresh_ids _ _ Hk) as (_ & _ & _ & Hf & _).
    destruct (Authorizations pruned !! i) eqn:E; [|done]. apply prune_auths in E as [E _]. congruence. }
  pose proof Hadd as Hspec.
  apply addAuthorizations_spec in Hspec as (S1 & S2 & S3 & S4);
    [|apply EO|apply EO|intros j i _; apply Hfp].
  assert (Wacc : account_wf accountID (mkAccount (acc_ID a) (acc_Key a) (acc_Thumbprint a) (acc_Status a)
    (acc_Contact a) (LastActive a) (RecentOrders a ++ [e_now e]))).
  { destruct (w_accounts _ _ Wp _ _ Ha) as [Hok Hl]. split; [|done]. revert Hok. unfold account_ok.
    cbn [acc_Key acc_ID acc_Thumbprint acc_Status RecentOrders]. destruct (Thumbprint _); [|done].
    intros Hok. bool_hyps. rewrite len_app. change (len [e_now e]) with 1.
    repeat (apply andb_true_iff; split); auto using beq_refl; try (by apply Z.leb_le; lia). }
  split.
  - eapply (wf_record acts); [|done|done].
    match goal with |- acme_wf c (set_Accounts (set_Orders _ ?m) ?acc) =>
      change (acme_wf c (set_Orders (set_Authorizations (set_Accounts pruned acc) auths) m));
      apply (wf_add_order c (set_Accounts pruned acc) id _ auths) end;
      cbn [set_Accounts Orders Authorizations Accounts ord_ID ord_Expires Identifiers AuthIDs ord_AccountID
           ord_Status CertificateID]; try done.
    + eapply wf_set_account; [done|done|done|by left].
    + destruct (Orders pruned !! id) eqn:E; [|done]. apply prune_orders in E as [E _]. congruence.
    + lia.
    + apply Z.eqb_neq. pose proof (eo_now _ _ EO). unfold orderLifetime, hour. lia.
    + intros i Hi. by apply S3.
    + apply lookup_insert_is_Some. by left.
  - cbn [recordCreation set_LeaseLimits set_Accounts set_Orders set_Authorizations Authorizations].
    intros i x Hx. destruct (decide (i ∈ aids)) as [Hin|Hnin].
    + right. destruct (S3 _ Hin) as (_ & j & _ & Hj). split; [eauto|].
      destruct (Forall2_elem_r _ _ _ _ S1 Hin) as (n & _ & token & _ & _ & Hx').
      rewrite Hx in Hx'. by injection Hx' as ->.
    + left. rewrite S2 in Hx by done. by eapply auths_pruned.
  - by eapply (limits_recorded e acts).
Qed.

Lemma newOrder_effect signed accountID source r s' :
  newOrder c e s signed accountID source = (r, s') ->
  acme_effect c e s None None (acknowledged r source false) 0 s'.
Proof.
  unfold newOrder. destruct (decodePayload _ _) as [[[names0 nb] na]|]; [|intros [= <- <-]; apply effect_refl].
  destruct (_ || _) eqn:En; [intros [= <- <-]; apply effect_refl|].
  destruct (negb _ || negb _); [intros [= <- <-]; apply effect_refl|].
  pose proof (checkIdentifiers_spec (e_lookup e) [] names0) as Hck.
  destruct (checkIdentifiers _ _ _ _) as [names|p].
  2:{ intros [= <- <-]. unfold acknowledged. cbn [writeProblem r_status]. rewrite Hck. apply effect_refl. }
  destruct Hck as (C1 & C2 & _ & C3). bool_hyps.
  assert (Hlen : 1 <= len names <= maxIdentifiers).
  { unfold len in *. rewrite C1. lia. }
  unfold createOrder.
  destruct (activeAccount c e s signed accountID) as [[a0|p] s1] eqn:Eact;
    destruct (activeAccount_keep _ _ _ _ _ _ _ Eact) as (K1 & K2 & K3).
  2:{ intros [= <- <-]. revert Eact. unfold activeAccount. destruct (_ !! accountID);
      [destruct (_ || _)|]; intros [= <- <-]; apply effect_refl. }
  destruct (activeAccount_Ok _ _ _ _ _ _ _ Eact) as (Ha & _ & _ & _ & Hact).
  rewrite K1. fold st. fold st in Ha.
  destruct (allowCreation (e_now e) st source false) as [x|] eqn:Eal.
  { intros [= <- <-]. destruct x; by apply effect_same. }
  destruct (touched_survives _ _ _ Hact Ha) as (a & Hpa). rewrite Hpa. cbn [default Datatypes.id from_option].
  destruct (_ || _ || _ || _) eqn:Elim; [intros [= <- <-]; by apply effect_same|]. bool_hyps.
  destruct (e_ids e 0%nat) as [id|] eqn:Eid; [|intros [= <- <-]; by apply effect_same].
  destruct (addAuthorizations _ _ _ _ _ _ _) as [[aids auths]|] eqn:Eadd;
    [|intros [= <- <-]; by apply effect_same].
  match goal with |- context [commit e s1 ?n] => set (next := n) end.
  assert (T : transition c e st next None None (Some (source, false))).
  { by apply createOrder_transition. }
  destruct (commit e s1 next) as [[step|] s2] eqn:Ecm; intros [= <- <-];
    exact (commit_effect c e s s1 next _ _ _ 0 _ _ ltac:(done) ltac:(done) ltac:(lia) T Ecm).
Qed.

(** ** Authorizations and challenges *)

Lemma ord_with_upd o p :
  ord_Status o <> "valid"%string -> upd_order o (ord_with o "invalid" p).
Proof. intros Hn. by repeat split. Qed.

Lemma order_of_auth id a :
  Authorizations st !! id = Some a ->
  exists o, Orders st !! auth_OrderID a = Some o /\ ord_ID o = auth_OrderID a /\ id ∈ AuthIDs o.
Proof.
  intros Ha. destruct (aw_order _ _ _ _ (w_auths _ _ W _ _ Ha)) as (o & Ho & _ & Hin).
  exists o. split_and!; [done| |done]. apply (ow_id _ _ _ _ (w_orders _ _ W _ _ Ho)).
Qed.

(** Writing back an authorization and, possibly, its order. *)
Lemma write_back id a a' o o' starts proof :
  Authorizations st !! id = Some a -> Orders st !! ord_ID o = Some o ->
  upd_auth a a' -> upd_order o o' -> auth_tr starts proof id a a' ->
  transition c e st (set_Orders (set_Authorizations st (<[id := a']> (Authorizations st)))
                       (<[ord_ID o := o']> (Orders st))) starts proof None.
Proof.
  intros Ha Ho Ua Uo Tr. apply transition_update; [|done|by eapply auths_insert].
  apply (wf_edit st); [done| |].
  - eapply pointwise_insert; [apply upd_order_refl|done|done].
  - eapply pointwise_insert; [apply upd_auth_refl|done|done].
Qed.

Lemma write_auth id a a' starts proof :
  Authorizations st !! id = Some a -> upd_auth a a' -> auth_tr starts proof id a a' ->
  transition c e st (set_Authorizations st (<[id := a']> (Authorizations st))) starts proof None.
Proof.
  intros Ha Ua Tr. apply transition_update; [|done|by eapply auths_insert].
  apply (wf_edit st (Orders st)); [done|apply pointwise_refl, upd_order_refl|].
  eapply pointwise_insert; [apply upd_auth_refl|done|done].
Qed.

Lemma getAuthorization_effect signed accountID id :
  acme_effect c e s None None None 0 (getAuthorization c e s signed accountID id).2.
Proof.
  unfold getAuthorization.
  destruct (activeAccount c e s signed accountID) as [[a0|p] s1] eqn:Eact;
    destruct (activeAccount_keep _ _ _ _ _ _ _ Eact) as (K1 & K2 & K3); [|by apply effect_same].
  rewrite K1. fold st. destruct (Authorizations st !! id) as [a|] eqn:Ea; [|by apply effect_same].
  destruct (negb (beq _ _)); [by apply effect_same|]. destruct (_ =? _); [by apply effect_same|].
  destruct (decodePayload _ _) as [status|]; [|by apply effect_same].
  destruct (negb (eqs status _)); [by apply effect_same|].
  destruct (order_of_auth _ _ Ea) as (o & Ho & Hoid & _).
  set (a' := auth_with a "deactivated" _ _).
  assert (Ua : upd_auth a a').
  { repeat split; [|done]. unfold statuses_ok. intros Hs. bool_hyps. simpl. destruct (eqs (ChallengeStatus a) "processing") eqn:Ep; [done|].
    by rewrite andb_true_r, Ep. }
  assert (Tr : auth_tr None None id a a').
  { split; [by repeat split|]. split; [done|]. by intros [? _]. }
  cbv zeta. cbn [set_Authorizations Orders]. change (auth_OrderID a') with (auth_OrderID a).
  rewrite Ho. cbn [default Datatypes.id from_option].
  destruct (_ || _) eqn:Eo.
  - assert (T : transition c e st (set_Orders (set_Authorizations st (<[id := a']> (Authorizations st)))
      (<[ord_ID o := ord_with o "invalid" (Some (failure 403 "unauthorized" "an authorization was deactivated"))]>
        (Orders st))) None None None).
    { eapply write_back; [done|by rewrite Hoid|done| |done]. apply ord_with_upd. intros Hv. by rewrite Hv in Eo. }
    by_commit T.
  - pose proof (write_auth _ _ _ None None Ea Ua Tr) as T. by_commit T.
Qed.

(** [challengeStart] starts a validation of [id], or changes nothing. *)
Lemma challengeStart_effect signed accountID id out s' :
  challengeStart c e s signed accountID id = (out, s') ->
  match out with
  | Replied _ => acme_effect c e s None None None 0 s'
  | Validating f =>
      acme_effect c e s (Some id) None None 1 s' /\ f_id f = id /\ f_account f = accountID /\ f_signed f = signed /\
      validations s < maxValidations /\
      exists a, Authorizations st !! id = Some a /\ auth_AccountID a = accountID /\ ~ busy a /\
        f_name f = auth_Name a /\ f_token f = Token a
  end.
Proof.
  unfold challengeStart. cbv zeta. destruct (negb _); [intros [= <- <-]; apply effect_refl|].
  destruct (activeAccount c e s signed accountID) as [[a0|p] s1] eqn:Eact;
    destruct (activeAccount_keep _ _ _ _ _ _ _ Eact) as (K1 & K2 & K3);
    [|intros [= <- <-]; by apply effect_same].
  rewrite K1. fold st. destruct (Authorizations st !! id) as [a|] eqn:Ea;
    [|intros [= <- <-]; by apply effect_same].
  destruct (beq (auth_AccountID a) accountID) eqn:Eown; cbn [negb]; [|intros [= <- <-]; by apply effect_same].
  destruct ((len (Payload signed) =? 0) || _ || _) eqn:Ebusy; [intros [= <- <-]; by apply effect_same|].
  destruct (negb (eqs (auth_Status a) "pending") || _ || _) eqn:Epend; [intros [= <- <-]; by apply effect_same|].
  destruct (maxValidations <=? validations s1) eqn:Emax; [intros [= <- <-]; by apply effect_same|].
  bool_hyps. repeat match goal with H : negb _ = false |- _ => apply negb_false_iff in H end.
  set (a' := auth_with a (auth_Status a) "processing" (auth_Error a)).
  match goal with H : eqs (auth_Status a) "pending" = true |- _ => apply eqs_true in H; rename H into Hpend end.
  match goal with H : eqs (ChallengeStatus a) "processing" = false |- _ => apply eqs_false in H; rename H into Hproc end.
  assert (T : transition c e st (set_Authorizations st (<[id := a']> (Authorizations st))) (Some id) None None).
  { eapply write_auth; [done| |].
    - repeat split; [|done]. unfold statuses_ok. subst a'. cbn [auth_with auth_Status ChallengeStatus]. by rewrite Hpend.
    - split; [by repeat split|]. split; [subst a'; simpl; rewrite Hpend; done|]. by right. }
  cbn [set_validations s_state]. rewrite K1. fold st.
  destruct (commit e _ _) as [[step|] s2] eqn:Ec; intros [= <- <-].
  - replace (validations (retryInterruptedChallenge s2 id) - 1)
      with (validations (retryInterruptedChallenge s2 id) - 1 + 0) by lia.
    eapply (commit_retry_effect c e s _ _ (Some id) None None 1 0 step s2 id); [| | | |exact T|exact Ec];
      cbn [set_validations s_state stateFile validations]; try done; [lia|congruence].
  - cbn [f_id f_account f_name f_token f_signed]. split_and!; try done.
    + eapply (commit_effect c e s _ _ _ _ None 1 None); [| | |exact T|exact Ec];
        cbn [set_validations s_state stateFile validations]; try done; lia.
    + lia.
    + exists a. split_and!; try done; [by apply beq_true|]. by intros [_ ?].
Qed.

(** ** The end of a validation *)

Lemma upd_order_trans o1 o2 o3 : upd_order o1 o2 -> upd_order o2 o3 -> upd_order o1 o3.
Proof. unfold upd_order. intros. intuition congruence. Qed.

Lemma settle_upd auths o : upd_order o (settle auths o).
Proof.
  unfold settle. destruct (eqs (ord_Status o) "pending") eqn:E; [|apply upd_order_refl].
  apply eqs_true in E. cbn [andb]. destruct (forallb _ _); [|apply upd_order_refl].
  repeat split; auto; cbn [ord_with ord_Status]; [done|congruence].
Qed.

(** What a validation proves, if the account still has the key that asked for it. *)
Definition proof_of (f : inflight) (outcome : option Target) : option (bytes * Target) :=
  match outcome with
  | Some t => if decide (holder s (f_account f) = Some (req_Thumbprint (f_signed f))) then Some (f_id f, t) else None
  | None => None
  end.

Lemma judge_spec id a o active outcome :
  (forall t, outcome = Some t -> target_ok t) -> busy a -> ord_Status o <> "valid"%string ->
  let '(a', o') := judge (e_now e) a o active outcome in
  upd_auth a a' /\ upd_order o o' /\ ~ busy a' /\
  auth_tr None (match outcome with Some t => if active then Some (id, t) else None | None => None end) id a a'.
Proof.
  intros Ht [Hp _] Hn.
  assert (Hfail : forall p q proof, upd_auth a (auth_with a "invalid" "invalid" p) /\ upd_order o (ord_with o "invalid" q) /\
    ~ busy (auth_with a "invalid" "invalid" p) /\ auth_tr None proof id a (auth_with a "invalid" "invalid" p)).
  { intros p q proof. split_and!; [by repeat split|by apply ord_with_upd|by intros [? _]|].
    split; [by repeat split|]. split; [done|]. by intros [? _]. }
  unfold judge. destruct outcome as [t|]; [|apply Hfail]. destruct active; [|apply Hfail]. destruct (negb _ || _ || _); [apply Hfail|].
  destruct (Ht t eq_refl) as [H4 Hc]. split_and!.
  - repeat split; auto. intros _. unfold statuses_ok. cbn. rewrite H4.
    by rewrite (proj2 (beq_false _ _) Hc).
  - apply upd_order_refl.
  - by intros [? _].
  - split; [by repeat split|]. split; [by right|]. by intros [? _].
Qed.

Lemma retry_not_busy st0 id a : Authorizations (retry_state st0 id) !! id = Some a -> ~ busy a.
Proof.
  unfold retry_state. destruct (Authorizations st0 !! id) as [b|] eqn:Eb; [|congruence].
  destruct (_ && _) eqn:E.
  - cbn. rewrite lookup_insert_eq. intros [= <-] [_ ?]. done.
  - rewrite Eb. intros [= <-] [B1 B2]. apply andb_false_iff in E as [E|E]; apply eqs_false in E; done.
Qed.

Lemma retry_parts x id :
  s_state (retryInterruptedChallenge x id) = retry_state (s_state x) id /\
  set_validations (retryInterruptedChallenge x id) (validations (retryInterruptedChallenge x id))
    = retryInterruptedChallenge x id.
Proof.
  split; [|by destruct (retryInterruptedChallenge x id)].
  unfold retryInterruptedChallenge, retry_state. destruct (_ !! id); [|done]. by destruct (_ && _).
Qed.

(** Committing the outcome for [id], or putting the challenge back. *)
Lemma finish_commit s1 next proof id (r0 r1 r : acme_reply) (s' : AcmeServer) a' :
  s_state s1 = st -> stateFile s1 = stateFile s -> validations s1 = validations s - 1 ->
  transition c e st next None proof None -> Authorizations next !! id = Some a' -> ~ busy a' ->
  match commit e s1 next with
  | (Some _, s2) => (r0, retryInterruptedChallenge s2 id)
  | (None, s2) => (r1, s2)
  end = (r, s') ->
  acme_effect c e s None proof None (-1) s' /\
  (forall a, Authorizations (s_state s') !! id = Some a -> ~ busy a).
Proof.
  intros E1 E2 E3 T Hn Hb. destruct (commit e s1 next) as [[step|] s2] eqn:Ec; intros [= <- <-].
  - destruct (retry_parts s2 id) as [R1 R2]. split; [|rewrite R1; apply retry_not_busy].
    pose proof (commit_retry_effect c e s s1 next None proof None (-1) (-1) step s2 id) as Hr. cbv zeta in Hr.
    replace (validations (retryInterruptedChallenge s2 id) - -1 + -1)
      with (validations (retryInterruptedChallenge s2 id)) in Hr by lia.
    rewrite R2 in Hr. apply Hr; try done; lia.
  - split; [exact (commit_effect c e s s1 next _ _ None (-1) _ _ ltac:(done) ltac:(done) ltac:(lia) T Ec)|].
    revert Ec. unfold commit. destruct (e_io e); [done|]. intros [= <-]. cbn [s_state].
    intros a [Ha _]%prune_auths. congruence.
Qed.

Lemma challengeFinish_effect f outcome r s' :
  (forall t, outcome = Some t -> target_ok t) ->
  challengeFinish c e s f outcome = (r, s') ->
  acme_effect c e s None (proof_of f outcome) None (-1) s' /\
  (forall a, Authorizations (s_state s') !! f_id f = Some a -> ~ busy a).
Proof.
  intros Ht. unfold challengeFinish. cbv zeta. cbn [set_validations s_state]. fold st.
  destruct (Authorizations st !! f_id f) as [a|] eqn:Ea.
  2:{ intros [= <- <-]. split; [|cbn; fold st; congruence].
      apply (eff_keep _ _ _ _ _ _ _ _ None); cbn; try done; lia. }
  destruct (negb _ || negb _) eqn:Eb.
  { intros [= <- <-]. split; [apply (eff_keep _ _ _ _ _ _ _ _ None); cbn; try done; lia|].
    cbn. fold st. rewrite Ea. intros b [= <-] [B1 B2]. rewrite B1, B2 in Eb. done. }
  bool_hyps. repeat match goal with H : negb _ = false |- _ => apply negb_false_iff in H end.
  assert (Hbusy : busy a) by (split; by apply eqs_true).
  destruct (order_of_auth _ _ Ea) as (o & Ho & Hoid & Hin). rewrite Ho. cbn [default Datatypes.id from_option].
  assert (Hnv : ord_Status o <> "valid"%string).
  { intros Hv. apply (ow_issued _ _ _ _ (w_orders _ _ W _ _ Ho) Hv _ _ Hin Ea), Hbusy. }
  destruct (activeAccount c e _ (f_signed f) (f_account f)) as [active s1] eqn:Eact.
  destruct (activeAccount_keep _ _ _ _ _ _ _ Eact) as (K1 & K2 & K3). cbn [s_state stateFile validations] in K1, K2, K3.
  destruct (negb (is_ok active) && _ && _ && _ && _).
  - set (a' := auth_with a (auth_Status a) "pending" (auth_Error a)).
    assert (Hst : ChallengeStatus a' = "pending"%string) by done.
    eapply (finish_commit s1 _ _ _ _ _ _ _ a'); try done.
    + eapply write_auth; [done| |].
      * repeat split; [|done]. unfold statuses_ok. subst a'. cbn. destruct Hbusy as [Hp _]. by rewrite Hp.
      * split; [by repeat split|]. split; [subst a'; cbn; destruct Hbusy as [-> _]; done|].
        intros [_ Hc]. by rewrite Hst in Hc.
    + apply lookup_insert_eq.
    + intros [_ Hc]. by rewrite Hst in Hc.
  - pose proof (judge_spec (f_id f) a o (is_ok active) outcome Ht Hbusy Hnv) as Hj.
    destruct (judge _ _ _ _ _) as [a' o']. destruct Hj as (Ua & Uo & Hb & Tr).
    set (auths := <[f_id f := a']> (Authorizations st)).
    assert (Us : upd_order o (settle auths o')) by (eapply upd_order_trans; [done|apply settle_upd]).
    assert (Hid : ord_ID (settle auths o') = ord_ID o) by apply Us. rewrite Hid.
    eapply (finish_commit s1 _ _ _ _ _ _ _ a'); try done.
    + eapply write_back; [done|by rewrite Hoid|done|done|]. destruct outcome as [t|]; [|done]. cbn [proof_of].
      destruct active as [acct|p]; [|by eapply auth_tr_unproved]. rewrite decide_True; [done|].
      destruct (activeAccount_Ok _ _ _ _ _ _ _ Eact) as (Hacct & _ & Hth & _). unfold holder.
      cbn [set_validations s_state] in Hacct. by rewrite Hacct, <- Hth.
    + apply lookup_insert_eq.
Qed.

(** ** Issuance *)

(** An authorization that permits issuance now. *)
Definition holds (aid n : bytes) : Prop :=
  exists a, Authorizations st !! aid = Some a /\ auth_Name a = n /\ auth_Status a = "valid"%string /\
    e_now e < auth_Expires a /\ e_lookup e n = Some (auth_Target a).

Lemma authorizedNames_holds aids names : authorizedNames e st aids = Some names -> Forall2 holds aids names.
Proof.
  revert names. induction aids as [|aid aids IH]; intros names; simpl; [intros [= <-]; constructor|].
  destruct (e_lookup e _) as [t|] eqn:El; [|done]. destruct (_ || _ || _) eqn:E; [done|].
  destruct (authorizedNames e st aids) as [rest|]; [|done]. intros [= <-]. bool_hyps.
  repeat match goal with H : negb _ = false |- _ => apply negb_false_iff in H end. bool_hyps.
  constructor; [|by apply IH]. destruct (Authorizations st !! aid) as [a|] eqn:Ea; [|done].
  cbn [default Datatypes.id from_option] in *. exists a. split_and!; try done; [by apply eqs_true|congruence].
Qed.

(** What [finalize] has checked when it asks for a signature. *)
Definition entitled (signed : Request) (accountID id : bytes) (names : list bytes) : Prop :=
  exists a o, Accounts st !! accountID = Some a /\ acc_Status a = "valid"%string /\
    acc_Thumbprint a = req_Thumbprint signed /\ Orders st !! id = Some o /\ ord_AccountID o = accountID /\
    ord_Status o = "ready"%string /\ e_now e < ord_Expires o /\ names = map i_Value (Identifiers o) /\
    Forall2 holds (AuthIDs o) names.

Lemma holds_names id o names :
  Orders st !! id = Some o -> Forall2 holds (AuthIDs o) names -> names = map i_Value (Identifiers o).
Proof.
  intros Ho. pose proof (ow_auths _ _ _ _ (w_orders _ _ W _ _ Ho)) as Ha. revert names.
  induction Ha as [|n aid ns aids (a & Ea & _ & _ & En) _ IH]; intros names Hh; inversion Hh; subst; [done|].
  match goal with Hx : holds aid _ |- _ => destruct Hx as (a' & Ea' & <- & _) end. simpl. f_equal; [congruence|].
  by apply IH.
Qed.

Lemma issue_transition id o csr names chain leaf kid :
  Orders st !! id = Some o -> ord_Status o = "ready"%string -> map_size (Certificates st) < maxRecords ->
  csr <> [] -> Forall2 holds (AuthIDs o) names -> e_sign e csr names = Signed chain ->
  parseLeaf chain = Some leaf -> e_ids e 0%nat = Some kid ->
  transition c e st
    (set_Orders (set_Certificates st (<[kid := mkCertificate kid (ord_AccountID o) id chain
        (BigString (SerialNumber leaf)) (NotAfter leaf) None 0]> (Certificates st)))
      (<[id := mkOrder (ord_ID o) (ord_AccountID o) "valid" (NotAfter leaf) (Identifiers o) (AuthIDs o) kid csr
                 (ord_Error o)]> (Orders st))) None None None.
Proof.
  intros Ho Hst Hsz Hcsr Hh Hsign Hleaf Hkid.
  destruct (eo_sign _ _ EO _ _ _ _ Hsign Hleaf) as (L1 & L2 & L3 & L4). pose proof (eo_now _ _ EO).
  destruct (fresh_ids _ _ Hkid) as (Hv & _ & _ & _ & Hf).
  apply transition_update; [|done|by apply auths_same].
  apply (wf_add_cert c st id o); cbn; try done.
  - by rewrite Hst.
  - apply Z.eqb_neq. lia.
  - exists leaf. cbn. split_and!; done.
  - intros aid a Hin Ha. destruct (list_elem_of_lookup_1 _ _ Hin) as [i Hi].
    destruct (Forall2_lookup_l _ _ _ _ _ Hh Hi) as (n & _ & a' & Ha' & _ & Hs & _).
    assert (a = a') as -> by congruence. by rewrite Hs.
Qed.

Lemma finalize_effect signed accountID id r s' asked :
  finalize c e s signed accountID id = (r, s', asked) ->
  acme_effect c e s None None None 0 s' /\
  (forall csr names, asked = Some (csr, names) -> entitled signed accountID id names).
Proof.
  unfold finalize. destruct (decodePayload _ _) as [encoded|]; [|intros [= <- <- <-]; split; [apply effect_refl|done]].
  destruct (DecodeString encoded) as [csr|]; [|intros [= <- <- <-]; split; [apply effect_refl|done]].
  destruct ((len csr =? 0) || _) eqn:Ecsr; [intros [= <- <- <-]; split; [apply effect_refl|done]|].
  destruct (activeAccount c e s signed accountID) as [[a0|p] s1] eqn:Eact;
    destruct (activeAccount_keep _ _ _ _ _ _ _ Eact) as (K1 & K2 & K3);
    [|intros [= <- <- <-]; split; [by apply effect_same|done]].
  destruct (activeAccount_Ok _ _ _ _ _ _ _ Eact) as (Ha & Hva & Hta & _).
  cbv zeta. rewrite K1. fold st. fold st in Ha.
  assert (Hsame : acme_effect c e s None None None 0 s1) by by apply effect_same.
  destruct (Orders st !! id) as [o|] eqn:Eo; [|intros [= <- <- <-]; by split].
  destruct (beq (ord_AccountID o) accountID) eqn:Eown; cbn [negb]; [|intros [= <- <- <-]; by split].
  apply beq_true in Eown. destruct (eqs (ord_Status o) "valid" && _); [intros [= <- <- <-]; by split|].
  destruct (negb (eqs (ord_Status o) "ready") || _) eqn:Er; [intros [= <- <- <-]; by split|].
  destruct (Z.leb_spec maxRecords (map_size (Certificates st))) as [|Hsz]; [intros [= <- <- <-]; by split|].
  bool_hyps. repeat match goal with H : negb _ = false |- _ => apply negb_false_iff in H end. bool_hyps.
  match goal with H : eqs (ord_Status o) "ready" = true |- _ => apply eqs_true in H; rename H into Hready end.
  destruct (authorizedNames e st (AuthIDs o)) as [names|] eqn:En.
  2:{ match goal with |- context [commit e s1 ?n] => assert (T : transition c e st n None None None) end.
      { apply transition_update; [|done|by apply auths_same]. apply (wf_edit st _ (Authorizations st)); [done| |].
        - eapply pointwise_insert; [apply upd_order_refl|done|]. apply ord_with_upd. by rewrite Hready.
        - apply pointwise_refl, upd_auth_refl. }
      destruct (commit e s1 _) as [[step|] s2] eqn:Ec; intros [= <- <- <-]; (split; [|done]);
        exact (commit_effect c e s s1 _ _ _ None 0 _ _ ltac:(done) ltac:(done) ltac:(lia) T Ec). }
  apply authorizedNames_holds in En.
  assert (Hent : entitled signed accountID id names).
  { exists a0, o. split_and!; try done. by eapply holds_names. }
  assert (Hentd : forall csr' names', Some (csr, names) = Some (csr', names') -> entitled signed accountID id names').
  { by intros ? ? [= <- <-]. }
  destruct (e_sign e csr names) as [chain|d|] eqn:Esign; [|intros [= <- <- <-]; by split..].
  destruct (parseLeaf chain) as [leaf|] eqn:El; [|intros [= <- <- <-]; by split].
  destruct (e_ids e 0%nat) as [kid|] eqn:Ek; [|intros [= <- <- <-]; by split].
  assert (Hcsr : csr <> []) by (by intros ->).
  pose proof (issue_transition id o csr names chain leaf kid Eo Hready Hsz Hcsr En Esign El Ek) as T.
  rewrite Eown in T |- *.
  destruct (commit e s1 _) as [[step|] s2] eqn:Ec; intros [= <- <- <-]; (split; [|done]);
    exact (commit_effect c e s s1 _ _ _ None 0 _ _ ltac:(done) ltac:(done) ltac:(lia) T Ec).
Qed.

(** ** Revocation *)

Lemma refreshCRL_Some st0 next :
  refreshCRL e st0 = Some next ->
  exists der number nextUpdate, next = set_CRL st0 der number nextUpdate /\ crl_ok next = true /\
    number = CRLNumber st0 + 1.
Proof.
  unfold refreshCRL. destruct (_ || _); [done|]. destruct (crlEntries _ _); [|done].
  destruct (e_crl e _ _) as [der|]; [|done]. destruct (ParseRevocationList der) as [rl|] eqn:Ep; [|done].
  destruct (negb _ || negb _) eqn:E; [done|]. destruct (CheckCRLSignature rl) eqn:Es; [|done]. cbn [negb].
  intros [= <-]. do 3 eexists. split; [done|]. split; [|done]. unfold crl_ok. cbn. rewrite Ep, Es, Z.eqb_refl.
  bool_hyps. rewrite bool_decide_eq_true_2 by done. apply orb_true_r.
Qed.

Lemma refresh_transition certs next :
  pointwise upd_cert (Certificates st) certs -> refreshCRL e (set_Certificates st certs) = Some next ->
  transition c e st next None None None.
Proof.
  intros Pc (der & n & t & -> & Hok & _)%refreshCRL_Some.
  apply transition_update; [|done|by apply auths_same].
  apply (wf_update c st); try done; try apply W.
  - by apply pointwise_refl.
  - apply pointwise_refl, upd_order_refl.
  - apply pointwise_refl, upd_auth_refl.
Qed.

Lemma findIssued_elem serial der certs k : findIssued serial der certs = Ok (Some k) -> k ∈ certs.
Proof.
  induction certs as [|x certs IH]; simpl; [done|].
  destruct (negb _); [intros; apply list_elem_of_further; auto|]. destruct (parseLeaf _); [|done].
  destruct (beq _ _); [intros [= ->]; apply list_elem_of_here|intros; apply list_elem_of_further; auto].
Qed.

Lemma canRevoke_keep signed issued leaf b s1 :
  canRevoke c e s signed issued leaf = (b, s1) ->
  s_state s1 = s_state s /\ stateFile s1 = stateFile s /\ validations s1 = validations s.
Proof.
  unfold canRevoke. destruct (negb _); [|by intros [= <- <-]].
  destruct (activeAccount _ _ _ _ _) as [[a|p] s2] eqn:E; intros [= <- <-]; by eapply activeAccount_keep.
Qed.

Lemma revokeCertificate_effect signed :
  acme_effect c e s None None None 0 (revokeCertificate c e s signed).2.
Proof.
  unfold revokeCertificate. destruct (decodePayload _ _) as [[encoded reason]|]; [|apply effect_refl].
  destruct (validRevocationReason reason) eqn:Er; cbn [negb]; [|apply effect_refl].
  destruct (DecodeString encoded) as [der|]; [|apply effect_refl]. destruct (_ || _); [apply effect_refl|].
  destruct (ParseCertificate der) as [leaf|]; [|apply effect_refl].
  destruct (findIssued _ _ _) as [[issued|]|] eqn:Ef; [|apply effect_refl..].
  destruct (beq _ []); [apply effect_refl|].
  destruct (canRevoke c e s signed issued leaf) as [ok s1] eqn:Ec.
  destruct (canRevoke_keep _ _ _ _ _ Ec) as (K1 & K2 & K3).
  destruct (negb ok); [by apply effect_same|]. destruct (bool_decide _); [by apply effect_same|].
  cbv zeta. cbn [cert_ID cert_AccountID cert_OrderID PEM Serial cert_NotAfter]. rewrite K1. fold st.
  apply findIssued_elem in Ef. apply list_elem_of_fmap in Ef as ([kid k] & E & Hk%elem_of_map_to_list). simpl in E. subst issued.
  fold s st in Hk. assert (Hid : cert_ID k = kid) by apply (cw_id _ _ _ (w_certs _ _ W _ _ Hk)). rewrite Hid.
  destruct (refreshCRL e _) as [next|] eqn:Eref; [|by apply effect_same].
  assert (T : transition c e st next None None None).
  { eapply refresh_transition; [|exact Eref]. eapply pointwise_insert; [apply upd_cert_refl|exact Hk|]. by repeat split. }
  by_commit T.
Qed.

Lemma serveCRL_effect head : acme_effect c e s None None None 0 (serveCRL e s head).2.
Proof.
  unfold serveCRL. cbv zeta. destruct (_ || _); [|apply effect_refl]. fold st.
  destruct (refreshCRL e st) as [next|] eqn:Eref; [|apply effect_refl].
  assert (T : transition c e st next None None None).
  { apply (refresh_transition (Certificates st)); [apply pointwise_refl, upd_cert_refl|].
    destruct st. exact Eref. }
  by_commit T.
Qed.
End handlers.
