(* ===== verification/AcmeInv.v ===== *)
(** * Package internal/acmeserver: the invariant of reachable servers

    Snapshots stay well formed and the state file agrees with memory; a busy
    authorization has its validation under way; a valid one has been proved;
    signatures were asked only for proved names; the quotas count every
    acknowledged creation. *)

From stdpp Require Import gmap list strings relations.
From Stdlib Require Import ZArith Lia.
From S2P Require Import Prelude GoStrings Names GoNet Lease AcmeState Acme AcmeFacts AcmeOps AcmeSystem AcmeSteps AcmeHandlers.

(** Acknowledged creations of a source lease in a log. *)
Definition log_times (l : list event) (kind : bool) (source : bytes) : list time :=
  omap (fun ev => match ev with
                  | EvCreated s k t => if bool_decide ((s, k) = (source, kind)) then Some t else None
                  | _ => None
                  end) l.

Section inv.
Context `{X509} `{!Decoders} (c : AcmeConfig).

(** ** Effects on authorizations, quotas and the file *)

Lemma auth_tr_weaken starts proof id a a' : auth_tr None None id a a' -> auth_tr starts proof id a a'.
Proof.
  intros (T1 & T2 & T3). split_and!; [done| |].
  - intros [?|?]%T2; [by left|done].
  - intros [?|?]%T3; [by left|done].
Qed.

Lemma auth_tr_trans starts proof id a b a' :
  auth_tr starts proof id a b -> auth_tr None None id b a' -> auth_tr starts proof id a a'.
Proof.
  intros (A1 & A2 & A3) (B1 & B2 & B3). split_and!.
  - destruct A1 as (?&?&?&?&?&?), B1 as (?&?&?&?&?&?). split_and!; congruence.
  - intros Hv. destruct (B2 Hv) as [[Hb Ht]|?]; [|done]. rewrite Ht. destruct (A2 Hb) as [[? ?]|?]; [left|right]; done.
  - intros Hb. destruct (B3 Hb) as [?|?]; [auto|done].
Qed.

Lemma retry_auths st r id a' :
  Authorizations (opt_retry r st) !! id = Some a' ->
  exists a, Authorizations st !! id = Some a /\ auth_tr None None id a a' /\ upd_auth a a' /\
    interrupted a' = interrupted a /\ (r = Some id -> ~ busy a').
Proof.
  destruct r as [rid|]; [|intros Ha; exists a'; split_and!; auto using auth_tr_refl, upd_auth_refl; congruence].
  simpl. intros Ha'. pose proof Ha' as Hnb. revert Ha'. unfold retry_state.
  assert (Hn : rid = id -> ~ busy a') by (intros ->; by eapply retry_not_busy). clear Hnb.
  destruct (Authorizations st !! rid) as [b|] eqn:Eb.
  2:{ intros Ha. exists a'. split_and!; auto using auth_tr_refl, upd_auth_refl. intros [= Er]. by apply Hn. }
  destruct (_ && _) eqn:E.
  2:{ intros Ha. exists a'. split_and!; auto using auth_tr_refl, upd_auth_refl. intros [= Er]. by apply Hn. }
  apply andb_true_iff in E as [E1%eqs_true E2%eqs_true]. cbn.
  intros [[-> <-]|[Hne Ha]]%lookup_insert_Some.
  - exists b. split_and!; [done| | | |by intros _; apply Hn].
    + split; [by repeat split|]. split; [intros Hv; left; done|by intros [_ ?]].
    + repeat split; [|done]. unfold statuses_ok. cbn. by rewrite E1.
    + unfold interrupted at 1. cbn. unfold interrupted. by rewrite E2.
  - exists a'. split_and!; auto using auth_tr_refl, upd_auth_refl. intros [= Er]. by apply Hn.
Qed.

Lemma retry_limits st r : LeaseLimits (opt_retry r st) = LeaseLimits st.
Proof. destruct r as [id|]; [|done]. simpl. unfold retry_state. destruct (_ !! id); [|done]. by destruct (_ && _). Qed.

(** A snapshot with interrupted challenges put back. *)
Definition settled (st : acme_state) : acme_state :=
  set_Authorizations st (interrupted <$> Authorizations st).

Lemma retry_settled st r : settled (opt_retry r st) = settled st.
Proof.
  destruct r as [id|]; [|done]. simpl. unfold retry_state.
  destruct (Authorizations st !! id) as [b|] eqn:Eb; [|done]. destruct (_ && _) eqn:E; [|done].
  apply andb_true_iff in E as [E1%eqs_true E2%eqs_true].
  unfold settled. cbn. rewrite fmap_insert. f_equal.
  apply insert_id. rewrite lookup_fmap, Eb. cbn. f_equal.
  unfold interrupted. cbn. by rewrite E2.
Qed.

Lemma interrupted_upd a : upd_auth a (interrupted a).
Proof.
  unfold interrupted. destruct (eqs (ChallengeStatus a) "processing") eqn:E; [|apply upd_auth_refl].
  repeat split; [|done]. unfold statuses_ok. cbn. rewrite E.
  destruct (eqs (ChallengeStatus a) "valid") eqn:Ev; [apply eqs_true in E, Ev; congruence|].
  intros Hs. bool_hyps. destruct (eqs (auth_Status a) "valid"); [|by rewrite !andb_true_r].
  exfalso. cbn [negb andb] in *. rewrite orb_true_r in *. done.
Qed.

Lemma interrupted_tr id a : auth_tr None None id a (interrupted a) /\ ~ busy (interrupted a).
Proof.
  unfold interrupted. destruct (eqs (ChallengeStatus a) "processing") eqn:E.
  - split; [|by intros [_ ?]]. split; [by repeat split|]. split; [by left|by intros [_ ?]].
  - apply eqs_false in E. split; [apply auth_tr_refl|]. by intros [_ ?].
Qed.

Lemma wf_settled st : acme_wf c st -> acme_wf c (settled st).
Proof.
  intros W. apply (wf_edit c st (Orders st)); [done|apply pointwise_refl, upd_order_refl|].
  apply pointwise_fmap, interrupted_upd.
Qed.

Lemma wf_retry st r : acme_wf c st -> acme_wf c (opt_retry r st).
Proof.
  intros W. destruct r as [id|]; [|done]. simpl. unfold retry_state.
  destruct (Authorizations st !! id) as [b|] eqn:Eb; [|done]. destruct (_ && _) eqn:E; [|done].
  apply andb_true_iff in E as [E1%eqs_true E2%eqs_true].
  apply (wf_edit c st (Orders st)); [done|apply pointwise_refl, upd_order_refl|].
  eapply pointwise_insert; [apply upd_auth_refl|done|]. repeat split; [|done]. unfold statuses_ok. cbn. by rewrite E1.
Qed.

Section effect.
Context (e : env) (s s' : AcmeServer) (starts : option bytes) (proof : option (bytes * Target))
  (must : option (bytes * bool)) (d : Z).
Hypothesis EF : acme_effect c e s starts proof must d s'.

Lemma effect_auths id a' :
  Authorizations (s_state s') !! id = Some a' ->
  (exists a, Authorizations (s_state s) !! id = Some a /\ auth_tr starts proof id a a') \/
  ((exists k, e_ids e k = Some id) /\ auth_Status a' <> "valid"%string /\ ~ busy a').
Proof.
  intros Ha'. destruct EF as [r _ E _ _|r next acts rec starts0 T Hst _ E _ _]; rewrite E in Ha'.
  - apply retry_auths in Ha' as (a & Ha & Tr & _). left. exists a. split; [done|by apply auth_tr_weaken].
  - apply retry_auths in Ha' as (b & [Hb _]%prune_auths & Tr & _ & _ & Hnb).
    destruct (tr_auths _ _ _ _ _ _ _ T _ _ Hb) as [(a & Ha & Tr')|(Hfresh & Hs & Hch)].
    + left. exists a. split; [done|]. destruct (auth_tr_trans _ _ _ _ _ _ Tr' Tr) as (X1 & X2 & X3).
      split_and!; [done|done|]. intros Hbusy. destruct (X3 Hbusy) as [?|Hs0]; [by left|].
      destruct (Hst _ Hs0) as [?|Hr]; [by right|]. by destruct (Hnb Hr).
    + right. split; [done|]. destruct Tr as (_ & T2 & T3). split.
      * intros Hv. destruct (T2 Hv) as [[? _]|?]; [congruence|done].
      * intros Hbz. destruct (T3 Hbz) as [[_ Hc]|?]; [congruence|done].
Qed.

Lemma effect_limits kind source cutoff :
  e_now e - window_of kind <= cutoff ->
  len (recentTimes (times_of (s_state s) kind source ++
         (if decide (must = Some (source, kind)) then [e_now e] else [])) cutoff) <=
  len (recentTimes (times_of (s_state s') kind source) cutoff).
Proof.
  intros Hc. destruct EF as [r Hm E _ _|r next acts rec starts0 T _ Hm E _ _]; unfold times_of; rewrite E, retry_limits.
  - rewrite Hm, decide_False, app_nil_r by done. fold (times_of (s_state s) kind source). done.
  - fold (times_of (prune (e_now e) acts next) kind source) (times_of (s_state s) kind source).
    rewrite times_of_prune, recentTimes_later by done. rewrite (tr_limits _ _ _ _ _ _ _ T) by done.
    rewrite !recentTimes_app, !len_app. pose proof (len_nonneg (recentTimes (if decide (rec = Some (source, kind)) then [e_now e] else []) cutoff)).
    destruct Hm as [-> | ->]; [|lia]. rewrite decide_False by done. change (len (recentTimes [] cutoff)) with 0. lia.
Qed.

Lemma effect_wf : acme_wf c (s_state s) -> acme_wf c (s_state s').
Proof.
  intros W. destruct EF as [r _ E _ _|r next acts rec starts0 T _ _ E _ _]; rewrite E; apply wf_retry; [done|].
  apply wf_prune, T.
Qed.

(** The state file holds the snapshot in memory, up to interrupted challenges. *)
Definition file_ok (x : AcmeServer) : Prop :=
  exists st m, stateFile x = FState true st m /\ acme_wf c st /\ settled st = settled (s_state x).

Lemma effect_file : file_ok s -> file_ok s'.
Proof.
  intros (st & m & E1 & E2 & E3). destruct EF as [r _ E Ef _|r next acts rec starts0 T _ _ E Ef _].
  - exists st, m. split_and!; [by rewrite Ef|done|]. by rewrite E, retry_settled.
  - eexists _, _. split; [exact Ef|]. split; [apply wf_prune, T|]. by rewrite E, retry_settled.
Qed.

Lemma effect_validations : validations s' = validations s + d.
Proof. by destruct EF. Qed.
End effect.

(** ** Restarts *)

Lemma legacy_orders_id st now l :
  acme_wf c st -> (forall o, o ∈ l -> is_Some (Accounts st !! ord_AccountID o)) ->
  fold_left (legacy_order now) l (Accounts st) = Accounts st.
Proof.
  intros W. induction l as [|o l IH]; intros Hl; [done|]. simpl.
  assert (E : legacy_order now (Accounts st) o = Accounts st).
  { unfold legacy_order. destruct (Hl o) as [a Ha]; [apply list_elem_of_here|]. rewrite Ha. cbn [default Datatypes.id from_option].
    destruct (w_accounts _ _ W _ _ Ha) as [_ Hz]. unfold IsZero.
    destruct (Z.eqb_spec (LastActive a) zeroTime); [lia|done]. }
  rewrite E. apply IH. intros x Hx. by apply Hl, list_elem_of_further.
Qed.

Lemma recovered_settled st now m : acme_wf c st -> recovered now m st = settled st.
Proof.
  intros W. unfold recovered, settled. rewrite legacy_orders_id; [|done|].
  - replace (legacy_active m <$> Accounts st) with (Accounts st); [by destruct st|].
    apply map_eq. intros id. rewrite lookup_fmap. destruct (Accounts st !! id) as [a|] eqn:Ea; [|done].
    cbn. f_equal. unfold legacy_active, IsZero. destruct (w_accounts _ _ W _ _ Ea) as [_ Hz].
    destruct (Z.eqb_spec (LastActive a) zeroTime); [lia|done].
  - intros o [id Ho]%orders_of_elem. apply (ow_account _ _ _ _ (w_orders _ _ W _ _ Ho)).
Qed.

(** A restart finds the snapshot of memory, with interrupted challenges back to
    pending, and prunes it. *)
Lemma restart_state e x :
  file_ok x ->
  New_acme c e (stateFile x) =
  match commit e (mkAcmeServer ∅ (settled (s_state x)) 0 (stateFile x)) (settled (s_state x)) with
  | (Some step, _) => Err (NewCommit step)
  | (None, s) => Ok s
  end.
Proof.
  intros (st & m & E1 & W & E3). unfold New_acme. rewrite E1. unfold restore_acme.
  rewrite (acme_wf_validates c st W). rewrite (recovered_settled _ _ _ W), E3. done.
Qed.

Lemma fresh_wf : acme_wf c (freshState c).
Proof. by split. Qed.

(** ** The invariant *)

Definition keyAuth (token thumb : bytes) : bytes := token ++ [DOT] ++ thumb.

Record acme_inv (t : time) (y : acme_sys) : Prop := {
  iv_wf : acme_wf c (s_state (srv y));
  iv_file : file_ok (srv y);
  iv_count : validations (srv y) = len (pending y) /\ len (pending y) <= maxValidations;
  iv_pending : forall f a, f ∈ pending y -> Authorizations (s_state (srv y)) !! f_id f = Some a ->
    auth_AccountID a = f_account f /\ auth_Name a = f_name f /\ Token a = f_token f;
  iv_busy : forall id a, Authorizations (s_state (srv y)) !! id = Some a -> busy a ->
    exists f, f ∈ pending y /\ f_id f = id;
  iv_proved : forall id a, Authorizations (s_state (srv y)) !! id = Some a -> auth_Status a = "valid"%string ->
    exists thumb, EvProved (auth_AccountID a) (auth_Name a) (Token a) (keyAuth (Token a) thumb) (auth_Target a) (Some thumb) ∈ log y;
  iv_signed : forall l1 acct csr names l2, log y = l1 ++ EvSigned acct csr names :: l2 ->
    forall n, n ∈ names -> exists token thumb target, EvProved acct n token (keyAuth token thumb) target (Some thumb) ∈ l2;
  iv_quota : forall kind source cutoff, t - window_of kind <= cutoff ->
    len (recentTimes (log_times (log y) kind source) cutoff) <=
    len (recentTimes (times_of (s_state (srv y)) kind source) cutoff)
}.

Definition matches (f : inflight) (a : authorization) : Prop :=
  auth_AccountID a = f_account f /\ auth_Name a = f_name f /\ Token a = f_token f.

Lemma log_times_app l k kind source :
  log_times (l ++ k) kind source = log_times l kind source ++ log_times k kind source.
Proof. apply omap_app. Qed.

(** A step with a known effect keeps the invariant. *)
Lemma inv_effect t e y s' starts proof must d pend evs :
  acme_inv t y -> t <= e_now e -> env_ok e y ->
  acme_effect c e (srv y) starts proof must d s' ->
  validations s' = len pend -> len pend <= maxValidations ->
  (forall f, f ∈ pend -> f ∈ pending y \/ exists a, Authorizations (s_state (srv y)) !! f_id f = Some a /\ matches f a) ->
  (forall id a, Authorizations (s_state s') !! id = Some a -> busy a -> exists f, f ∈ pend /\ f_id f = id) ->
  (forall id target, proof = Some (id, target) -> exists f thumb, f ∈ pending y /\ f_id f = id /\
     EvProved (f_account f) (f_name f) (f_token f) (keyAuth (f_token f) thumb) target (Some thumb) ∈ evs) ->
  (forall l1 acct csr names l2, evs = l1 ++ EvSigned acct csr names :: l2 -> forall n, n ∈ names ->
     exists token thumb target, EvProved acct n token (keyAuth token thumb) target (Some thumb) ∈ log y) ->
  (forall kind source, log_times evs kind source = if decide (must = Some (source, kind)) then [e_now e] else []) ->
  acme_inv (e_now e) (mkAcmeSys s' pend (evs ++ log y)).
Proof.
  intros I Ht EO EF Hval Hmax Hpend Hbusy Hproof Hsigned Hmust. split; cbn [srv AcmeSystem.pending log].
  - by eapply effect_wf, I.
  - by eapply effect_file, I.
  - done.
  - intros f a' Hf Ha'.
    destruct (effect_auths _ _ _ _ _ _ _ EF _ _ Ha') as [(a & Ha & ((_ & E2 & _ & E4 & _ & E6) & _))|((k & Hk) & _)].
    + rewrite E2, E4, E6. destruct (Hpend f Hf) as [Hold|(b & Hb & M)]; [by apply (iv_pending _ _ I)|].
      assert (a = b) as -> by congruence. exact M.
    + exfalso. destruct (eo_ids_fresh _ _ EO _ _ Hk) as (_ & _ & Hn & _ & Hall).
      destruct (Hpend f Hf) as [Hold|(b & Hb & _)]; [|congruence].
      rewrite Forall_forall in Hall. by apply (Hall f Hold).
  - done.
  - intros id a' Ha' Hv.
    destruct (effect_auths _ _ _ _ _ _ _ EF _ _ Ha') as [(a & Ha & ((_ & E2 & _ & E4 & _ & E6) & T2 & _))|(_ & Hnv & _)];
      [|done].
    rewrite E2, E4, E6. destruct (T2 Hv) as [[Hva ->]|Hp].
    + destruct (iv_proved _ _ I _ _ Ha Hva) as [thumb Hin]. exists thumb. apply elem_of_app. by right.
    + destruct (Hproof _ _ Hp) as (f & thumb & Hf & <- & Hin). destruct (iv_pending _ _ I _ _ Hf Ha) as (-> & -> & ->).
      exists thumb. apply elem_of_app. by left.
  - intros l1 acct csr names l2 El n Hn. apply app_eq_inv in El as [(k & E1 & E2)|(k & E1 & E2)].
    + destruct k as [|ev k]; [|injection E2 as <- ->].
      * simpl in E2. destruct (iv_signed _ _ I [] acct csr names l2 (eq_sym E2) n Hn) as (a & b & d' & Hin). eauto.
      * destruct (Hsigned _ _ _ _ _ E1 _ Hn) as (a & b & d' & Hin). exists a, b, d'. apply elem_of_app. by right.
    + by eapply (iv_signed _ _ I k).
  - intros kind source cutoff Hc.
    etrans; [|exact (effect_limits _ _ _ _ _ _ _ EF kind source cutoff Hc)].
    rewrite log_times_app, Hmust, !recentTimes_app, !len_app.
    pose proof (iv_quota _ _ I kind source cutoff ltac:(lia)). lia.
Qed.

Lemma busy_stays e s s' proof must d (pend : list inflight) :
  acme_effect c e s None proof must d s' ->
  (forall id a, Authorizations (s_state s) !! id = Some a -> busy a -> exists f, f ∈ pend /\ f_id f = id) ->
  forall id a, Authorizations (s_state s') !! id = Some a -> busy a -> exists f, f ∈ pend /\ f_id f = id.
Proof.
  intros EF Hb id a' Ha' Hbz.
  destruct (effect_auths _ _ _ _ _ _ _ EF _ _ Ha') as [(a & Ha & (_ & _ & T3))|(_ & _ & Hn)]; [|done].
  destruct (T3 Hbz) as [?|?]; [eauto|done].
Qed.

(** A handler that starts nothing, proves nothing and signs nothing. *)
Lemma inv_quiet t e y s' must evs :
  acme_inv t y -> t <= e_now e -> env_ok e y -> acme_effect c e (srv y) None None must 0 s' ->
  (forall l1 acct csr names l2, evs = l1 ++ EvSigned acct csr names :: l2 -> forall n, n ∈ names ->
     exists token thumb target, EvProved acct n token (keyAuth token thumb) target (Some thumb) ∈ log y) ->
  (forall kind source, log_times evs kind source = if decide (must = Some (source, kind)) then [e_now e] else []) ->
  acme_inv (e_now e) (mkAcmeSys s' (pending y) (evs ++ log y)).
Proof.
  intros I Ht EO EF Hs Hm. eapply inv_effect; [done..|exact EF| | |by left| |done|done|done].
  - rewrite (effect_validations _ _ _ _ _ _ _ EF). destruct (iv_count _ _ I). lia.
  - apply (iv_count _ _ I).
  - eapply busy_stays; [exact EF|]. apply (iv_busy _ _ I).
Qed.

Lemma created_times r source kind now kind' source' :
  log_times (created r source kind now) kind' source' =
  if decide (acknowledged r source kind = Some (source', kind')) then [now] else [].
Proof.
  unfold created, acknowledged. destruct (_ =? _); [|by rewrite decide_False].
  cbn. destruct (bool_decide _) eqn:E.
  - apply bool_decide_eq_true in E. rewrite decide_True by congruence. done.
  - apply bool_decide_eq_false in E. rewrite decide_False by congruence. done.
Qed.

Lemma created_unsigned r source kind now l1 acct csr names l2 :
  created r source kind now <> l1 ++ EvSigned acct csr names :: l2.
Proof.
  unfold created. destruct (_ =? _); [|by destruct l1]. destruct l1 as [|? [|? ?]]; done.
Qed.

(** What was asked of the authority had been proved. *)
Lemma entitled_proved t e y signed acct id names n :
  acme_inv t y -> entitled e y signed acct id names -> n ∈ names ->
  exists token thumb target, EvProved acct n token (keyAuth token thumb) target (Some thumb) ∈ log y.
Proof.
  intros I (a & o & _ & _ & _ & Ho & Hacc & _ & _ & _ & Hh) Hn.
  destruct (Forall2_elem_r _ _ _ _ Hh Hn) as (aid & Hin & b & Hb & Hname & Hs & _).
  destruct (Forall2_elem_r _ _ _ _ (ow_auths _ _ _ _ (w_orders _ _ (iv_wf _ _ I) _ _ Ho)) Hin)
    as (i & _ & b' & Hb' & _ & Hba & _).
  assert (b' = b) as -> by congruence. destruct (iv_proved _ _ I _ _ Hb Hs) as [thumb Hp].
  rewrite Hba, Hacc, Hname in Hp. eauto.
Qed.

Lemma inv_call `{!VerifiedInner} t e k y s' started evs :
  acme_inv t y -> t <= e_now e -> env_ok e y -> (forall r, call_signed k = Some r -> req_ok r) ->
  run_call c e k (srv y) = (s', started, evs) ->
  acme_inv (e_now e) (mkAcmeSys s' (option_list started ++ pending y) (evs ++ log y)).
Proof.
  intros I Ht EO Hreq Hrun. pose proof (iv_wf _ _ I) as W.
  assert (Q : forall s'', acme_effect c e (srv y) None None None 0 s'' ->
    acme_inv (e_now e) (mkAcmeSys s'' (pending y) ([] ++ log y))).
  { intros s'' EF. apply (inv_quiet t e y s'' None []); [done..|by intros []|]. intros. by rewrite decide_False. }
  destruct k as [signed source|signed a id|signed a id|signed a|signed a source|signed a id|signed a id|signed a id
                |signed a id|signed a id|signed|head]; simpl in Hrun; unfold quiet in Hrun.
  - destruct (newAccount c e (srv y) signed source) as [r s1] eqn:E. injection Hrun as <- <- <-.
    eapply inv_quiet; [done..|by eapply newAccount_effect; eauto| |].
    + intros ? ? ? ? ? Hx. by apply created_unsigned in Hx.
    + intros. apply created_times.
  - injection Hrun as <- <- <-. by apply Q, account_effect.
  - injection Hrun as <- <- <-. by apply Q, accountOrders_effect.
  - injection Hrun as <- <- <-. by apply Q, keyChange_effect.
  - destruct (newOrder c e (srv y) signed a source) as [r s1] eqn:E. injection Hrun as <- <- <-.
    eapply inv_quiet; [done..|by eapply newOrder_effect; eauto| |].
    + intros ? ? ? ? ? Hx. by apply created_unsigned in Hx.
    + intros. apply created_times.
  - injection Hrun as <- <- <-. by apply Q, getOrder_effect.
  - injection Hrun as <- <- <-. by apply Q, getAuthorization_effect.
  - destruct (challengeStart c e (srv y) signed a id) as [out s1] eqn:E.
    pose proof (challengeStart_effect c e y W signed a id out s1 E) as Hc. destruct out as [r|f].
    + injection Hrun as <- <- <-. by apply Q.
    + injection Hrun as <- <- <-. destruct Hc as (EF & F1 & F2 & F3 & Hlt & b & Hb & Hown & Hnb & Hn & Htk).
      destruct (iv_count _ _ I) as [Hcnt Hmax].
      change (option_list (Some f) ++ pending y) with (f :: pending y).
      eapply inv_effect; [done..|exact EF| | | | |done| |].
      * rewrite (effect_validations _ _ _ _ _ _ _ EF), len_cons. lia.
      * rewrite len_cons. lia.
      * intros g [->|Hg]%elem_of_cons; [right|by left]. exists b. rewrite F1. split; [done|].
        split_and!; congruence.
      * intros i b' Hb' Hbz.
        destruct (effect_auths _ _ _ _ _ _ _ EF _ _ Hb') as [(b0 & Hb0 & (_ & _ & T3))|(_ & _ & ?)]; [|done].
        destruct (T3 Hbz) as [Hbz'|[= <-]].
        -- destruct (iv_busy _ _ I _ _ Hb0 Hbz') as (g & Hg & E'). exists g. split; [by apply list_elem_of_further|done].
        -- exists f. split; [apply list_elem_of_here|done].
      * by intros [].
      * intros. by rewrite decide_False.
  - destruct (finalize c e (srv y) signed a id) as [[r s1] asked] eqn:E.
    destruct (finalize_effect c e y W EO signed a id r s1 asked E) as [EF Hent].
    destruct asked as [[csr names]|]; injection Hrun as <- <- <-; [|by apply Q].
    eapply inv_quiet; [done..|exact EF| |].
    + intros l1 acct csr' names' l2 Hl n Hn. destruct l1 as [|? l1]; [|by destruct l1].
      injection Hl as <- <- <- <-. eapply entitled_proved; [done|by eapply Hent|done].
    + intros. by rewrite decide_False.
  - injection Hrun as <- <- <-. by apply Q, getCertificate_effect.
  - injection Hrun as <- <- <-. by apply Q, revokeCertificate_effect.
  - injection Hrun as <- <- <-. by apply Q, serveCRL_effect.
Qed.

Lemma inv_finish t e y l1 f l2 outcome :
  acme_inv t y -> t <= e_now e -> env_ok e y -> (forall target, outcome = Some target -> target_ok target) ->
  pending y = l1 ++ f :: l2 ->
  acme_inv (e_now e) (mkAcmeSys (challengeFinish c e (srv y) f outcome).2 (l1 ++ l2) (proved (srv y) f outcome ++ log y)).
Proof.
  intros I Ht EO Htarget Hp. destruct (challengeFinish c e (srv y) f outcome) as [r s'] eqn:E.
  destruct (challengeFinish_effect c e y (iv_wf _ _ I) f outcome r s' Htarget E) as [EF Hnb]. cbn [snd].
  destruct (iv_count _ _ I) as [Hc Hm]. rewrite Hp, len_app, len_cons in Hc, Hm.
  eapply inv_effect; [done..|exact EF| | | | | | |].
  - rewrite (effect_validations _ _ _ _ _ _ _ EF), len_app. lia.
  - rewrite len_app. lia.
  - intros g Hg. left. rewrite Hp. set_solver.
  - intros id a Ha Hbz. destruct (busy_stays _ _ _ _ _ _ (pending y) EF (iv_busy _ _ I) _ _ Ha Hbz) as (g & Hg & Eg).
    rewrite Hp in Hg. apply elem_of_app in Hg as [Hg|[->|Hg]%elem_of_cons];
      [exists g; set_solver|rewrite <- Eg in Ha; by destruct (Hnb _ Ha)|exists g; set_solver].
  - intros id target. destruct outcome as [x|]; [|done]. cbn [proof_of]. case_decide as Hh; [|done]. intros [= <- <-].
    exists f, (req_Thumbprint (f_signed f)). rewrite <- Hh. split_and!; [rewrite Hp; set_solver|done|apply list_elem_of_here].
  - intros k1 acct csr names k2 Hk. destruct outcome; [|by destruct k1]. by destruct k1 as [|? []].
  - intros. rewrite decide_False by done. by destruct outcome.
Qed.

Lemma inv_restart t e y s' :
  acme_inv t y -> t <= e_now e -> zeroTime < e_now e -> New_acme c e (stateFile (srv y)) = Ok s' ->
  acme_inv (e_now e) (mkAcmeSys s' [] (log y)).
Proof.
  intros I Ht Hz. rewrite (restart_state e _ (iv_file _ _ I)). unfold commit. destruct (e_io e); [done|]. intros [= <-].
  cbn [activity validations].
  set (e0 := mkEnv (e_now e) (fun _ => None) (fun _ => None) (fun _ _ => SignFailed) (fun _ _ => None) None).
  set (st := s_state (srv y)). set (s' := mkAcmeServer _ _ _ _).
  assert (EO : env_ok e0 y) by by split.
  assert (T : transition c e0 st (settled st) None None None).
  { apply transition_update; [by apply wf_settled, I|done|]. intros id a. cbn. rewrite lookup_fmap.
    intros (b & Hb & ->)%fmap_Some. exists b. split; [done|apply interrupted_tr]. }
  assert (EF : acme_effect c e0 (srv y) None None None (- validations (srv y)) s').
  { apply (eff_commit _ _ _ _ _ _ _ _ None (settled st) ∅ None None); try done; [by left|]. cbn. lia. }
  change (log y) with ([] ++ log y). change (e_now e) with (e_now e0).
  eapply inv_effect; [done..|exact EF|done|done| | |done|by intros []|].
  - intros f Hf. by apply not_elem_of_nil in Hf.
  - intros id a Ha Hbz. exfalso. subst s'. cbn [s_state] in Ha. apply prune_auths in Ha as [Ha _].
    cbn in Ha. rewrite lookup_fmap in Ha. apply fmap_Some in Ha as (b & _ & ->). by apply (interrupted_tr id b).
  - intros. by rewrite decide_False.
Qed.

Lemma inv_init t y : acme_init c (t, y) -> acme_inv t y.
Proof.
  inversion 1 as [e s Hz Hn]; subst. unfold New_acme, restore_acme, commit in Hn. cbn [s_state default] in Hn.
  destruct (e_io e); [done|]. injection Hn as <-. cbn [activity validations from_option].
  set (st := prune (e_now e) ∅ (freshState c)).
  assert (Hna : forall id a, Authorizations st !! id = Some a -> False).
  { intros id a [Ha _]%prune_auths. done. }
  assert (W : acme_wf c st) by apply wf_prune, fresh_wf.
  split; cbn [srv AcmeSystem.pending log s_state validations].
  - done.
  - exists st, (e_now e). done.
  - done.
  - intros f a Hf. by apply not_elem_of_nil in Hf.
  - intros id a Ha. by destruct (Hna _ _ Ha).
  - intros id a Ha. by destruct (Hna _ _ Ha).
  - by intros [].
  - intros. cbn. apply len_nonneg.
Qed.

(** Every reachable server satisfies the invariant. *)
Lemma reach_acme_inv `{!VerifiedInner} ty : acme_reach c ty -> acme_inv ty.1 ty.2.
Proof.
  intros (ty0 & Hi & Hr).
  assert (Hstep : forall a b, acme_step c a b -> acme_inv a.1 a.2 -> acme_inv b.1 b.2).
  { intros a b []; intros; simpl in *; [by eapply inv_call|by eapply inv_finish|by eapply inv_restart]. }
  assert (H0' : acme_inv ty0.1 ty0.2) by (destruct ty0; by apply inv_init). clear Hi.
  induction Hr; eauto.
Qed.
End inv.
