(* ===== verification/AcmeValidate.v ===== *)
(** * Package internal/acmevalidate: HTTP-01 validation against DHCP leases

    The identifier policy, the binding of a name to the DHCP client and address
    that hold it, and the HTTP-01 exchange.  The lease registry is the class
    [Registry]; the HTTP client is a function from the address dialled and the
    URL asked to what came back. *)

From stdpp Require Import gmap list strings.
From Stdlib Require Import ZArith Lia.
From S2P Require Import Prelude GoStrings Names GoNet GoAddr Lease Registry GoBase64 AcmeState AcmeSystem.

(** ** Names *)

Definition lowerASCII (r : Z) : Z := if (65 <=? r) && (r <=? 90) then r + 32 else r.

(** [canonicalName]: strings.Map over the name without its final dot. *)
Definition canonicalName (name : bytes) : bytes :=
  flat_map (fun r => encode_rune (lowerASCII r)) (runes (TrimSuffix name [DOT])).

(** ** Configuration *)

Record ValidatorConfig := mkValidatorConfig { v_Domain : bytes; Subnet : Prefix }.

Record Validator := mkValidator { v_cfg : ValidatorConfig; broadcast : Addr }.

Inductive validator_error := BadValidatorDomain | BadValidatorSubnet.

Definition New_validator (cfg : ValidatorConfig) : result validator_error Validator :=
  let domain := canonicalName (v_Domain cfg) in
  let subnet := Subnet cfg in
  if negb (validDNSName domain) then Err BadValidatorDomain
  else if negb (prefix_IsValid subnet) || negb (Is4 (p_addr subnet)) || (30 <? p_bits subnet)
          || negb (addr_eqb (p_addr subnet) (p_addr (Masked subnet)))
  then Err BadValidatorSubnet
  else Ok (mkValidator (mkValidatorConfig domain subnet)
             (Addr4 (Z.lor (addr_value (p_addr subnet)) (Z.shiftr (2 ^ 32 - 1) (p_bits subnet))))).

(** ** Lookup *)

(** The test on a leased address. *)
Definition usableHost (v : Validator) (ip : Addr) : bool :=
  match ip with
  | Addr4 a =>
      (IsGlobalUnicast4 a || IsLoopback4 a) && Contains (Subnet (v_cfg v)) ip
      && negb (addr_eqb ip (p_addr (Subnet (v_cfg v)))) && negb (addr_eqb ip (broadcast v))
  | _ => false
  end.

(** [None] is ErrRejectedIdentifier. *)
Definition Lookup `{Registry R} (v : Validator) (r : R) (now : time) (name : bytes) : option Target :=
  let name := canonicalName name in
  let domain := v_Domain (v_cfg v) in
  if negb (validDNSName name) || negb (HasSuffix name ([DOT] ++ domain)) then None
  else if bool_decide (is_Some (ParseAddr name)) || beq name (str "gateway." ++ domain)
          || beq name (str "ns." ++ domain) || beq name (str "ldap." ++ domain)
  then None
  else match (rLookupName r now name).1 with
       | None => None
       | Some current =>
           if beq (ClientID current) [] || negb (now <? ExpiresAt current)
              || negb (beq (canonicalName (Hostname current)) name)
           then None
           else if negb (usableHost v (IP current)) then None
           else Some (mkTarget (IP current) (ClientID current))
       end.

(** ** Validate *)

Definition maxResponseBytes : Z := 4096.

(** [validKeyAuthorization]. *)
Definition validKeyAuthorization (token authorization : bytes) : bool :=
  if (len token <? 22) || (128 <? len token) then false
  else match DecodeString token with
  | None => false
  | Some decodedToken =>
      if (len decodedToken <? 16) || negb (beq (EncodeToString decodedToken) token) then false
      else
        let prefix := token ++ [DOT] in
        if negb (HasPrefix authorization prefix) then false
        else
          let thumbprint := TrimPrefix authorization prefix in
          if negb (len thumbprint =? 43) then false
          else match DecodeString thumbprint with
               | None => false
               | Some decoded => (len decoded =? 32) && beq (EncodeToString decoded) thumbprint
               end
  end.

(** strings.TrimRight with the cutset of [Validate]. *)
Fixpoint dropCut (s : bytes) : bytes :=
  match s with
  | b :: rest => if bool_decide (b ∈ [32; 9; 13; 10]) then dropCut rest else s
  | [] => []
  end.
Definition TrimRightSpace (s : bytes) : bytes := rev (dropCut (rev s)).

(** What the HTTP client returns: no response, or a status with a body, of
    which reading may fail. *)
Inductive fetched :=
| NoResponse
| Response (status : Z) (body : option bytes).

(** JoinHostPort(target.IP.String(), "80"). *)
Definition dialAddress (t : Target) : bytes :=
  match t_IP t with Addr4 a => String4 a ++ str ":80" | _ => [] end.

Definition challengeURL (name token : bytes) : bytes :=
  str "http://" ++ name ++ str "/.well-known/acme-challenge/" ++ token.

(** [Validate]: the registry before and after the exchange, each with a clock
    reading, and the state of the context at its two tests. *)
Definition Validate `{Registry R} (v : Validator) (before : R) (t1 : time) (after : R) (t2 : time)
    (live1 live2 : bool) (http : bytes -> bytes -> fetched) (name token keyAuthorization : bytes)
    : option Target :=
  if negb live1 then None
  else if negb (validKeyAuthorization token keyAuthorization) then None
  else
  let name := canonicalName name in
  match Lookup v before t1 name with
  | None => None
  | Some target =>
  match http (dialAddress target) (challengeURL name token) with
  | Response status (Some body) =>
      if negb (status =? 200) then None
      else
      let body := take (Z.to_nat (maxResponseBytes + 1)) body in
      if maxResponseBytes <? len body then None
      else if negb (beq (TrimRightSpace body) keyAuthorization) then None
      else if negb live2 then None
      else match Lookup v after t2 name with
           | Some current => if bool_decide (current = target) then Some target else None
           | None => None
           end
  | _ => None
  end
  end.

(** ** Facts *)

(** Canonical names are fixed points. *)
Lemma canonicalName_valid name : validDNSName name = true -> canonicalName name = name.
Proof.
  intros Hv. pose proof (validDNSName_bytes _ Hv) as Hb. apply validDNSName_labels in Hv as [Hl _].
  unfold canonicalName. rewrite (TrimSuffix_validLabels _ Hl).
  rewrite runes_ascii by by apply name_byte_ascii. clear Hl.
  induction Hb as [|x name Hx Hb IH]; [done|]. simpl. rewrite IH.
  unfold name_byte in Hx. unfold lowerASCII.
  destruct (Z.leb_spec 65 x), (Z.leb_spec x 90); simpl; try (rewrite encode_rune_ascii by lia; done); lia.
Qed.

(** A valid name below the domain, normalised, only gains its final dot. *)
Lemma normalised_below host domain n :
  validDNSName domain = true -> validDNSName n = true -> n = host ++ [DOT] ++ domain ->
  NormalizeHostname n domain = n ++ [DOT].
Proof.
  intros Hd Hv Hn. pose proof (proj1 (validDNSName_labels _ Hv)) as Hl.
  rewrite <- (canonical_fixed domain (n ++ [DOT])); [|done|].
  - unfold NormalizeHostname. by rewrite TrimSuffix_app, (TrimSuffix_validLabels _ Hl).
  - exists host. rewrite Hn, <- !app_assoc. split_and!; [done|by rewrite <- Hn|].
    intros ->. rewrite Hn in Hl. by rewrite validLabels_sep_app in Hl.
Qed.

Section lookup.
Context `{RegistryLaws R domain} (v : Validator).
Hypothesis Hdom : v_Domain (v_cfg v) = domain.

(** What a successful lookup has established. *)
Definition bound (r : R) (now : time) (name : bytes) (t : Target) : Prop :=
  exists l, r_live r now l /\ Hostname l = name ++ [DOT] /\ IP l = t_IP t /\ ClientID l = t_ClientID t /\
    now < ExpiresAt l.

(** Names HTTP-01 may validate: strictly below the domain, not an address, not
    a service name. *)
Definition eligible (name : bytes) : Prop :=
  validDNSName name = true /\ (exists host, name = host ++ [DOT] ++ domain) /\ ParseAddr name = None /\
  name <> str "gateway." ++ domain /\ name <> str "ns." ++ domain /\ name <> str "ldap." ++ domain.

Lemma Lookup_sound r now name t :
  r_ok r -> Lookup v r now name = Some t ->
  eligible (canonicalName name) /\ bound r now (canonicalName name) t /\
  usableHost v (t_IP t) = true /\ target_ok t.
Proof.
  intros Hr. unfold Lookup. rewrite Hdom. set (n := canonicalName name).
  destruct (negb (validDNSName n) || _) eqn:E1; [done|].
  destruct (bool_decide _ || _ || _ || _) eqn:E2; [done|]. bool_hyps.
  repeat match goal with Hn : negb _ = false |- _ => apply negb_false_iff in Hn
                       | Hn : beq _ _ = false |- _ => apply beq_false in Hn end.
  pose proof (rLookupName_spec (domain := domain) r now n Hr) as Hl.
  destruct ((rLookupName r now n).1) as [l|]; [|done]. destruct Hl as (Hlive & Hh & Hne).
  destruct (beq (ClientID l) [] || _ || _) eqn:E3; [done|]. bool_hyps.
  repeat match goal with Hn : negb _ = false |- _ => apply negb_false_iff in Hn
                       | Hn : beq _ _ = false |- _ => apply beq_false in Hn end. bool_hyps.
  destruct (usableHost v (IP l)) eqn:Eu; [|done]. cbn [negb]. intros [= <-].
  match goal with Hs : HasSuffix n _ = true |- _ => apply HasSuffix_spec in Hs as [host Hhost] end.
  split_and!.
  - split_and!; try done; [by exists host|]. destruct (ParseAddr n); [|done].
    match goal with Hp : ~ is_Some _ |- _ => by destruct Hp end.
  - exists l. split_and!; try done.
    rewrite Hh. apply (normalised_below host); [apply r_domain|done|done].
  - done.
  - split; [|done]. simpl. unfold usableHost in Eu. by destruct (IP l).
Qed.

(** ** What a completed validation shows *)

Lemma Validate_parts before t1 after t2 live1 live2 http name token ka t :
  r_ok before -> r_ok after ->
  Validate v before t1 after t2 live1 live2 http name token ka = Some t ->
  let n := canonicalName name in
  validKeyAuthorization token ka = true /\ eligible (canonicalName n) /\
  bound before t1 (canonicalName n) t /\ bound after t2 (canonicalName n) t /\
  usableHost v (t_IP t) = true /\
  exists body, http (dialAddress t) (challengeURL n token) = Response 200 (Some body) /\
    len body <= maxResponseBytes /\ TrimRightSpace body = ka.
Proof.
  intros Hb Ha. unfold Validate. destruct live1; [|done]. cbn [negb].
  destruct (validKeyAuthorization token ka) eqn:Ek; [|done]. cbn [negb].
  destruct (Lookup v before t1 (canonicalName name)) as [t0|] eqn:E1; [|done].
  destruct (http _ _) as [|status [body|]] eqn:Eh; [done| |done].
  destruct (Z.eqb_spec status 200) as [->|]; [|done]. cbn [negb].
  destruct (Z.ltb_spec maxResponseBytes (len (take (Z.to_nat (maxResponseBytes + 1)) body))) as [|Hlen]; [done|].
  destruct (beq _ ka) eqn:Eb; [|done]. cbn [negb]. destruct live2; [|done]. cbn [negb].
  destruct (Lookup v after t2 (canonicalName name)) as [t3|] eqn:E2; [|done].
  destruct (bool_decide (t3 = t0)) eqn:Et; [|done]. apply bool_decide_eq_true in Et as ->. intros [= ->].
  destruct (Lookup_sound _ _ _ _ Hb E1) as (L1 & L2 & L3 & _).
  destruct (Lookup_sound _ _ _ _ Ha E2) as (_ & L4 & _ & _).
  cbv zeta. split_and!; try done. exists body. apply beq_true in Eb.
  assert (Hl : len body <= maxResponseBytes).
  { unfold len, maxResponseBytes in *. rewrite length_take in Hlen. lia. }
  split_and!; [done|done|]. rewrite take_ge in Eb; [done|]. unfold len in Hl. lia.
Qed.
End lookup.

(** The shape of a key authorization. *)
Lemma validKeyAuthorization_shape token ka :
  validKeyAuthorization token ka = true ->
  22 <= len token <= 128 /\ exists thumb, ka = token ++ [DOT] ++ thumb /\ len thumb = 43.
Proof.
  unfold validKeyAuthorization. destruct (_ || _) eqn:El; [done|]. bool_hyps.
  destruct (DecodeString token); [|done]. destruct (_ || _); [done|].
  destruct (HasPrefix ka (token ++ [DOT])) eqn:Ep; [|done]. cbn [negb].
  apply HasPrefix_spec in Ep as [thumb ->].
  destruct (Z.eqb_spec (len (TrimPrefix ((token ++ [DOT]) ++ thumb) (token ++ [DOT]))) 43) as [E|]; [|done].
  intros _. split; [lia|]. exists thumb. rewrite <- app_assoc. split; [done|]. by rewrite TrimPrefix_app in E.
Qed.

(** The addresses a validator connects to are hosts of its subnet: neither the
    network address nor the broadcast address. *)
Lemma usableHost_range cfg v a :
  New_validator cfg = Ok v -> usableHost v (Addr4 a) = true ->
  let net := addr_value (p_addr (Subnet cfg)) in
  net < a < net + 2 ^ (32 - p_bits (Subnet cfg)) - 1.
Proof.
  unfold New_validator. destruct (negb (validDNSName _)); [done|].
  destruct (_ || _ || _ || _) eqn:E; [done|]. intros [= <-]. bool_hyps.
  destruct (Subnet cfg) as [[|w|] bits]; cbn [p_addr p_bits Is4] in *; try done.
  repeat match goal with Hn : negb _ = false |- _ => apply negb_false_iff in Hn end.
  unfold usableHost. cbn [v_cfg Subnet broadcast p_addr p_bits addr_value].
  assert (Hbits : 0 <= bits <= 30).
  { match goal with Hp : prefix_IsValid _ = true |- _ => unfold prefix_IsValid in Hp end. bool_hyps. cbn in *. lia. }
  set (k := 32 - bits).
  match goal with Hm : addr_eqb _ _ = true |- _ => apply addr_eqb_true in Hm; cbn in Hm; injection Hm as Hw end.
  rewrite Z.shiftl_mul_pow2, Z.shiftr_div_pow2 in Hw by lia. fold k in Hw.
  assert (Hbc : Z.lor w (Z.shiftr (2 ^ 32 - 1) bits) = w + 2 ^ k - 1).
  { replace (Z.shiftr (2 ^ 32 - 1) bits) with (Z.ones k).
    - pose proof (Z.add_lor_land w (Z.ones k)) as Hadd. rewrite Z.land_ones in Hadd by lia.
      rewrite Hw in Hadd at 2. rewrite Z_mod_mult in Hadd. rewrite Z.ones_equiv in *. lia.
    - rewrite Z.shiftr_div_pow2, Z.ones_equiv by lia. replace (2 ^ 32) with (2 ^ k * 2 ^ bits) by (rewrite <- Z.pow_add_r; f_equal; lia).
      assert (Hp : 0 < 2 ^ bits) by (apply Z.pow_pos_nonneg; lia).
      replace (2 ^ k * 2 ^ bits - 1) with ((2 ^ k - 1) * 2 ^ bits + (2 ^ bits - 1)) by lia.
      rewrite Z.div_add_l, Z.div_small by lia. lia. }
  rewrite Hbc. intros Hu. bool_hyps.
  match goal with Hc : Contains _ _ = true |- _ => apply Contains4 in Hc; [|lia]; fold k in Hc end.
  repeat match goal with Hn : addr_eqb _ _ = false |- _ => apply addr_eqb_false in Hn end.
  assert (0 < 2 ^ k) by (apply Z.pow_pos_nonneg; lia).
  pose proof (Z.div_mod a (2 ^ k) ltac:(lia)). pose proof (Z.mod_pos_bound a (2 ^ k) ltac:(lia)).
  assert (a <> w) by congruence. assert (a <> w + 2 ^ k - 1) by congruence. nia.
Qed.
