(* ===== verification/AcmeProps.v ===== *)
(** * Package internal/acmeserver: properties

    Stated over every server reachable by interleaved requests, validations and
    restarts, with a concrete run of the protocol as witness. *)

From stdpp Require Import gmap list strings relations sorting.
From Stdlib Require Import ZArith Lia.
From S2P Require Import Prelude GoStrings Names GoNet GoAddr Lease LeaseFacts LeaseOps LeaseProps Registry GoBase64 AcmeState Acme AcmeFacts AcmeOps AcmeSystem AcmeSteps AcmeHandlers AcmeInv AcmeValidate.

(** ** A concrete world *)

(** Keys are their own thumbprints; certificates carry a fixed leaf. *)
#[local] Instance demo_jose : Jose :=
  { Key := bytes; zeroKey := []; Thumbprint := fun k => if beq k [] then None else Some k;
    IsPublic := fun _ => true }.

Definition demo_leaf (der : bytes) : Leaf :=
  mkLeaf der 77 (1000 * hour) false [str "pc.home.arpa"] 0 (str "leafkey").

#[local] Instance demo_x509 : X509 :=
  { pemDecode := fun b => Some (str "CERTIFICATE", b);
    ParseCertificate := fun der => Some (demo_leaf der);
    CheckLeafSignature := fun _ => true;
    ParseRevocationList := fun b => Some (mkCRL (Some (be_decode b)) (900 * hour));
    CheckCRLSignature := fun _ => true }.

Definition demo_request (payload kid : bytes) : Request := mkRequest payload (str "k1") kid (str "k1").

#[local] Instance demo_decoders : Decoders :=
  { json_account := fun _ => Some ([], [], false, true);
    json_order := fun _ => Some ([mkIdentifier "dns" (str "PC.home.arpa.")], [], [], true);
    json_status := fun _ => Some ("deactivated"%string, true);
    json_object := fun _ => Some (0, true);
    json_csr := fun _ => Some (str "Q1NS", true);
    json_keychange := fun _ => None;
    json_revoke := fun _ => Some (EncodeToString (str "chain"), 1, true);
    json_strings := fun _ => None; json_string := fun _ => None;
    urlParse := fun _ => None; PathUnescape := fun _ => None; ParseAddress := fun _ => None;
    VerifyKeyChange := fun _ _ => Err None }.

#[local] Instance demo_inner : VerifiedInner.
Proof. done. Qed.

Definition demo_acme : AcmeConfig := mkAcmeConfig (str "https://ca/acme") (str "home.arpa") (str "root").
Definition demo_target : Target := mkTarget (Addr4 (10 * 2 ^ 24 + 9)) (str "client").
Definition demo_id (n : Z) : bytes := replicate 31 65 ++ [65 + n].
Definition kid1 : bytes := url demo_acme (str "/account/" ++ demo_id 1).

(** An environment at [now] that hands out the identifiers [ids]. *)
Definition demo_env (now : time) (ids : list Z) : env :=
  mkEnv now (fun n => if beq n (str "pc.home.arpa") then Some demo_target else None)
    (fun k => match ids !! k with Some n => Some (demo_id n) | None => None end)
    (fun _ _ => Signed (str "chain")) (fun _ n => Some [n]) None.

Definition demo_server (e : env) : AcmeServer :=
  match New_acme demo_acme e FMissing with
  | Ok s => s
  | Err _ => mkAcmeServer ∅ (freshState demo_acme) 0 FMissing
  end.

(** The system after a call and after the end of a validation. *)
Definition after_call `{X509} `{!Decoders} (c : AcmeConfig) (e : env) (k : call) (y : acme_sys) : acme_sys :=
  let '(s', started, evs) := run_call c e k (srv y) in
  mkAcmeSys s' (option_list started ++ pending y) (evs ++ log y).

Lemma call_step `{X509} `{!Decoders} c t e k y :
  t <= e_now e -> env_ok e y -> (forall r, call_signed k = Some r -> req_ok r) ->
  acme_step c (t, y) (e_now e, after_call c e k y).
Proof.
  intros Ht He Hr. unfold after_call. destruct (run_call c e k (srv y)) as [[s' started] evs] eqn:E.
  by eapply acme_call.
Qed.

(** A run: account, order, challenge, proof. *)
Definition r1 : Request := demo_request (str "{}") [].
Definition r2 : Request := demo_request (str "{}") kid1.
Definition e0 : env := demo_env (1 * hour) [].
Definition e1 : env := demo_env (2 * hour) [1].
Definition e2 : env := demo_env (3 * hour) [2; 3; 4].
Definition e3 : env := demo_env (4 * hour) [].
Definition e4 : env := demo_env (5 * hour) [].
Definition e5 : env := demo_env (6 * hour) [5].
Definition y0 : acme_sys := mkAcmeSys (demo_server e0) [] [].
Definition y1 : acme_sys := after_call demo_acme e1 (CallNewAccount r1 (str "client")) y0.
Definition y2 : acme_sys := after_call demo_acme e2 (CallNewOrder r2 (demo_id 1) (str "client")) y1.
Definition y3 : acme_sys := after_call demo_acme e3 (CallChallenge r2 (demo_id 1) (demo_id 3)) y2.
Definition y4 : acme_sys :=
  match pending y3 with
  | f :: l => mkAcmeSys (challengeFinish demo_acme e4 (srv y3) f (Some demo_target)).2 l
                (proved (srv y3) f (Some demo_target) ++ log y3)
  | [] => y3
  end.

Example demo_finalize :
  (finalize demo_acme e5 (srv y4) r2 (demo_id 1) (demo_id 2)).2 = Some (str "CSR", [str "pc.home.arpa"]).
Proof. vm_compute. reflexivity. Qed.

Lemma demo_id_inj a b : demo_id a = demo_id b -> a = b.
Proof. unfold demo_id. intros [_ [= E]]%app_inj_2; [lia|done]. Qed.

(** The environment is fit for a system, decided on its identifiers. *)
Definition fit (y : acme_sys) (n : Z) : bool :=
  let st := s_state (srv y) in let id := demo_id n in
  validID id && bool_decide (Accounts st !! id = None) && bool_decide (Orders st !! id = None)
  && bool_decide (Authorizations st !! id = None) && bool_decide (Certificates st !! id = None)
  && forallb (fun f => negb (beq (f_id f) id)) (pending y).

Lemma demo_env_ok now ids y :
  zeroTime < now < 1000 * hour -> NoDup ids -> forallb (fit y) ids = true ->
  Certificates (s_state (srv y)) = ∅ -> env_ok (demo_env now ids) y.
Proof.
  intros Hn Hnd Hfit Hc. rewrite forallb_forall in Hfit.
  assert (Hids : forall k id, e_ids (demo_env now ids) k = Some id -> exists n, ids !! k = Some n /\ id = demo_id n).
  { intros k id. cbn. destruct (ids !! k) as [n|]; [|done]. intros [= <-]. eauto. }
  assert (Hf : forall k n, ids !! k = Some n -> fit y n = true).
  { intros k n Hk. apply Hfit, list_elem_of_In. by eapply list_elem_of_lookup_2. }
  split; cbn [e_now demo_env].
  - lia.
  - intros n t. cbn. destruct (beq n _); [|done]. by intros [= <-].
  - intros k id (n & Hk & ->)%Hids. apply Hf in Hk. unfold fit in Hk. by bool_hyps.
  - intros i j id (a & Ha & ->)%Hids (b & Hb & E)%Hids. apply demo_id_inj in E as ->. by eapply NoDup_lookup.
  - intros k id (n & Hk & ->)%Hids. apply Hf in Hk. unfold fit in Hk. bool_hyps. cbv zeta. split_and!; try done.
    match goal with Hp : forallb _ (pending y) = true |- _ => rewrite forallb_forall in Hp;
      apply Forall_forall; intros f Hfin; apply list_elem_of_In, Hp, negb_true_iff, beq_false in Hfin; done end.
  - intros csr names chain leaf [= <-] [= <-]. split_and!; [done|done|cbn; lia|]. rewrite Hc. done.
Qed.

Lemma demo_req payload kid : req_ok (demo_request payload kid).
Proof. split; vm_compute; reflexivity. Qed.

Lemma demo_call now ids k y t :
  t <= now -> zeroTime < now < 1000 * hour -> NoDup ids -> forallb (fit y) ids = true ->
  Certificates (s_state (srv y)) = ∅ -> (exists p kid, call_signed k = Some (demo_request p kid)) ->
  acme_step demo_acme (t, y) (now, after_call demo_acme (demo_env now ids) k y).
Proof.
  intros Ht Hn Hnd Hf Hc (p & kid & Hk). apply (call_step demo_acme t (demo_env now ids) k y); [done| |].
  - by apply demo_env_ok.
  - intros r Hr. rewrite Hk in Hr. injection Hr as <-. apply demo_req.
Qed.

Lemma demo_step1 : acme_step demo_acme (1 * hour, y0) (2 * hour, y1).
Proof.
  apply (demo_call (2 * hour) [1]); [done|done|repeat constructor; set_solver|vm_compute; reflexivity..|].
  by exists (str "{}"), [].
Qed.

Lemma demo_step2 : acme_step demo_acme (2 * hour, y1) (3 * hour, y2).
Proof.
  apply (demo_call (3 * hour) [2; 3; 4]); [done|done|repeat constructor; set_solver|vm_compute; reflexivity..|].
  by exists (str "{}"), kid1.
Qed.

Lemma demo_step3 : acme_step demo_acme (3 * hour, y2) (4 * hour, y3).
Proof.
  apply (demo_call (4 * hour) []); [done|done|constructor|vm_compute; reflexivity..|].
  by exists (str "{}"), kid1.
Qed.

Definition demo_inflight : inflight :=
  mkInflight r2 (demo_id 1) (demo_id 3) (str "pc.home.arpa") (demo_id 4).

Lemma demo_pending : pending y3 = [demo_inflight].
Proof. vm_compute. reflexivity. Qed.

Lemma demo_step4 : acme_step demo_acme (4 * hour, y3) (5 * hour, y4).
Proof.
  unfold y4. rewrite demo_pending.
  apply (acme_finish demo_acme (4 * hour) e4 y3 [] demo_inflight [] (Some demo_target)); [done| | |exact demo_pending].
  - apply demo_env_ok; [done|constructor|done|vm_compute; reflexivity].
  - by intros ? [= <-].
Qed.

Lemma demo_reach : acme_reach demo_acme (5 * hour, y4).
Proof.
  exists (1 * hour, y0). split.
  - apply (acme_new demo_acme e0); [done|vm_compute; reflexivity].
  - eapply rtc_l; [exact demo_step1|]. eapply rtc_l; [exact demo_step2|].
    eapply rtc_l; [exact demo_step3|]. eapply rtc_l; [exact demo_step4|]. apply rtc_refl.
Qed.

Lemma demo_env5 : env_ok e5 y4.
Proof. apply demo_env_ok; [done|repeat constructor; set_solver|vm_compute; reflexivity|vm_compute; reflexivity]. Qed.

(** ** Issuance *)

(** C2: The authority is asked to sign only for the active account that signed the
    request, for a ready and unexpired order of that account, for exactly the
    names of the order; and each name was proved earlier by this account, by the
    host that holds the name now: that host answered with the token of the
    challenge and the thumbprint of the key the account had when it answered.
    This holds in every state that interleaved requests, validations and
    restarts can reach. *)
Theorem signatures_are_earned `{X509} `{!Decoders} `{!VerifiedInner} c t y e signed acct id r s' csr names :
  acme_reach c (t, y) -> env_ok e y ->
  finalize c e (srv y) signed acct id = (r, s', Some (csr, names)) ->
  (exists a, Accounts (s_state (srv y)) !! acct = Some a /\ acc_Status a = "valid"%string /\
     acc_Thumbprint a = req_Thumbprint signed) /\
  (exists o, Orders (s_state (srv y)) !! id = Some o /\ ord_AccountID o = acct /\
     ord_Status o = "ready"%string /\ e_now e < ord_Expires o /\ names = map i_Value (Identifiers o)) /\
  (forall n, n ∈ names -> exists token thumb target,
     EvProved acct n token (token ++ [DOT] ++ thumb) target (Some thumb) ∈ log y /\ e_lookup e n = Some target).
Proof.
  intros Hreach EO Hf. pose proof (reach_acme_inv c _ Hreach) as Hr. simpl in Hr. pose proof (iv_wf _ _ _ Hr) as W.
  destruct (finalize_effect c e y W EO signed acct id r s' _ Hf) as [_ Hent].
  destruct (Hent csr names eq_refl) as (a & o & Ha & Hs & Ht & Ho & Hoa & Hos & Hoe & Hn & Hh).
  split_and!; [by exists a|by exists o|]. intros n Hin.
  destruct (Forall2_elem_r _ _ _ _ Hh Hin) as (aid & Hia & b & Hb & Hname & Hbs & _ & Hl).
  destruct (Forall2_elem_r _ _ _ _ (ow_auths _ _ _ _ (w_orders _ _ W _ _ Ho)) Hia) as (i & _ & b' & Hb' & _ & Hba & _).
  assert (b' = b) as -> by congruence. destruct (iv_proved _ _ _ Hr _ _ Hb Hbs) as [thumb Hp].
  rewrite Hba, Hoa, Hname in Hp. exists (Token b), thumb, (auth_Target b). done.
Qed.

Lemma signatures_are_earned_witness :
  exists token thumb target,
    EvProved (demo_id 1) (str "pc.home.arpa") token (token ++ [DOT] ++ thumb) target (Some thumb) ∈ log y4 /\
    target = demo_target.
Proof.
  destruct (finalize demo_acme e5 (srv y4) r2 (demo_id 1) (demo_id 2)) as [[r s'] asked] eqn:E.
  assert (Ea : asked = Some (str "CSR", [str "pc.home.arpa"])).
  { rewrite <- demo_finalize, E. reflexivity. }
  subst asked.
  destruct (signatures_are_earned demo_acme (5 * hour) y4 e5 r2 (demo_id 1) (demo_id 2) r s'
    (str "CSR") [str "pc.home.arpa"] demo_reach) as (_ & _ & Hn).
  - exact demo_env5.
  - exact E.
  - destruct (Hn (str "pc.home.arpa")) as (token & thumb & target & Hp & Hl); [apply list_elem_of_here|].
    exists token, thumb, target. split; [exact Hp|]. vm_compute in Hl. injection Hl as <-. reflexivity.
Defined.

(** ** Restarts *)

(** C5: Whatever the server has committed it can read back: a restart from the
    state file of any reachable server succeeds when its own commit does, and
    resumes with the snapshot that was in memory, pruned, every interrupted
    challenge being pending again. *)
Theorem acme_restart_recovers `{X509} `{!Decoders} `{!VerifiedInner} c t y e :
  acme_reach c (t, y) -> e_io e = None ->
  validateState c true (s_state (srv y)) = Ok tt /\
  exists s', New_acme c e (stateFile (srv y)) = Ok s' /\ activity s' = ∅ /\ validations s' = 0 /\
    s_state s' = prune (e_now e) ∅
      (set_Authorizations (s_state (srv y)) (interrupted <$> Authorizations (s_state (srv y)))) /\
    stateFile s' = FState true (s_state s') (e_now e).
Proof.
  intros Hreach Hio. pose proof (reach_acme_inv c _ Hreach) as Hr. simpl in Hr. split; [by apply acme_wf_validates, Hr|].
  rewrite (restart_state c e _ (iv_file _ _ _ Hr)). unfold commit. rewrite Hio. eexists. split; [done|]. done.
Qed.

Lemma acme_restart_recovers_witness :
  exists s', New_acme demo_acme e5 (stateFile (srv y4)) = Ok s' /\
    ord_Status (default zeroOrder (Orders (s_state s') !! demo_id 2)) = "ready"%string.
Proof.
  destruct (acme_restart_recovers demo_acme (5 * hour) y4 e5 demo_reach eq_refl) as (_ & s' & Hs & _ & _ & Hst & _).
  exists s'. split; [done|]. rewrite Hst. vm_compute. reflexivity.
Defined.

(** ** Challenges *)

(** C27: No challenge is left in processing: an authorization being validated has
    its validation under way, at most 32 are at once, and when one ends, with
    any outcome and any storage failure, its authorization is processing no
    more. *)
Theorem challenges_not_stranded `{X509} `{!Decoders} `{!VerifiedInner} c t y :
  acme_reach c (t, y) ->
  (forall id a, Authorizations (s_state (srv y)) !! id = Some a -> auth_Status a = "pending"%string ->
     ChallengeStatus a = "processing"%string -> exists f, f ∈ pending y /\ f_id f = id) /\
  validations (srv y) = len (pending y) /\ len (pending y) <= 32 /\
  (forall e f outcome a, (forall target, outcome = Some target -> target_ok target) ->
     Authorizations (s_state (challengeFinish c e (srv y) f outcome).2) !! f_id f = Some a ->
     auth_Status a = "pending"%string -> ChallengeStatus a <> "processing"%string).
Proof.
  intros Hreach. pose proof (reach_acme_inv c _ Hreach) as Hr. simpl in Hr. destruct (iv_count _ _ _ Hr) as [Hc Hm]. split_and!; [|done|done|].
  - intros id a Ha B1 B2. by apply (iv_busy _ _ _ Hr id a).
  - intros e f outcome a Ht Ha Hp Hb. destruct (challengeFinish c e (srv y) f outcome) as [r s'] eqn:E.
    destruct (challengeFinish_effect c e y (iv_wf _ _ _ Hr) f outcome r s' Ht E) as [_ Hnb].
    by apply (Hnb a).
Qed.

Lemma demo_reach3 : acme_reach demo_acme (4 * hour, y3).
Proof.
  exists (1 * hour, y0). split.
  - apply (acme_new demo_acme e0); [done|vm_compute; reflexivity].
  - eapply rtc_l; [exact demo_step1|]. eapply rtc_l; [exact demo_step2|].
    eapply rtc_l; [exact demo_step3|]. apply rtc_refl.
Qed.

Lemma challenges_not_stranded_witness :
  exists f, f ∈ pending y3 /\ f_id f = demo_id 3.
Proof.
  destruct (challenges_not_stranded demo_acme (4 * hour) y3 demo_reach3) as (Hb & _).
  destruct (Authorizations (s_state (srv y3)) !! demo_id 3) as [a|] eqn:E; [|vm_compute in E; discriminate].
  apply (Hb (demo_id 3) a E); vm_compute in E; injection E as <-; reflexivity.
Defined.

(** ** Quotas *)

(** C28: However requests, validations and restarts interleave, a DHCP client sees
    at most 8 accounts created in any 24 hours and at most 32 orders in any
    hour. *)
Theorem creation_quotas `{X509} `{!Decoders} `{!VerifiedInner} c t y source :
  acme_reach c (t, y) ->
  len (recentTimes (log_times (log y) true source) (t - 24 * hour)) <= 8 /\
  len (recentTimes (log_times (log y) false source) (t - hour)) <= 32.
Proof.
  intros Hreach. pose proof (reach_acme_inv c _ Hreach) as Hr. simpl in Hr. pose proof (iv_wf _ _ _ Hr) as W.
  assert (Hl : len (times_of (s_state (srv y)) true source) <= 8 /\ len (times_of (s_state (srv y)) false source) <= 32).
  { unfold times_of. destruct (LeaseLimits (s_state (srv y)) !! source) as [l|] eqn:El; [|done].
    apply (w_limits _ _ W) in El. unfold limit_ok in El. bool_hyps.
    unfold maxLeaseAccounts, maxLeaseOrders in *. simpl. lia. }
  split; (etrans; [apply (iv_quota _ _ _ Hr); unfold window_of, accountRateWindow, orderRateWindow; lia|]);
    (etrans; [apply recentTimes_len|apply Hl]).
Qed.

Lemma creation_quotas_witness :
  len (recentTimes (log_times (log y4) true (str "client")) (5 * hour - 24 * hour)) = 1 /\
  len (recentTimes (log_times (log y4) true (str "client")) (5 * hour - 24 * hour)) <= 8.
Proof.
  split; [vm_compute; reflexivity|]. apply (creation_quotas demo_acme (5 * hour) y4 (str "client")), demo_reach.
Defined.

(** ** HTTP-01 *)

(** C18: A name is validated only by fetching the challenge of its token from port 80
    of the address its live lease has, a host of the configured subnet, with
    status 200 and a body of at most 4096 bytes that is the key authorization up
    to trailing white space; the same client holds the same address for the name
    before and after the exchange; service names, address literals and names
    outside the domain are never validated. *)
Theorem http01_validation_sound `{RegistryLaws R domain} cfg v (before after : R) t1 t2 live1 live2 http name token ka t :
  New_validator cfg = Ok v -> v_Domain (v_cfg v) = domain -> r_ok before -> r_ok after ->
  Validate v before t1 after t2 live1 live2 http name token ka = Some t ->
  let n := canonicalName name in
  let net := addr_value (p_addr (Subnet cfg)) in
  (exists a body, t_IP t = Addr4 a /\ net < a < net + 2 ^ (32 - p_bits (Subnet cfg)) - 1 /\
     http (String4 a ++ str ":80") (challengeURL n token) = Response 200 (Some body) /\
     len body <= 4096 /\ TrimRightSpace body = ka) /\
  (exists thumb, ka = token ++ [DOT] ++ thumb /\ len thumb = 43) /\
  eligible (domain := domain) (canonicalName n) /\
  bound (domain := domain) before t1 (canonicalName n) t /\ bound (domain := domain) after t2 (canonicalName n) t.
Proof.
  intros Hnew Hd Hb Ha Hv.
  destruct (Validate_parts v Hd _ _ _ _ _ _ _ _ _ _ _ Hb Ha Hv) as (K1 & K2 & K3 & K4 & K5 & body & K6 & K7 & K8).
  destruct (validKeyAuthorization_shape _ _ K1) as (_ & Hshape).
  cbv zeta. split_and!; try done. unfold dialAddress in K6. destruct (t_IP t) as [|a|]; try done.
  exists a, body. split_and!; try done; by eapply usableHost_range.
Qed.

Definition demo_vcfg : ValidatorConfig := mkValidatorConfig (str "Home.arpa.") (mkPrefix (Addr4 (10 * 2 ^ 24)) 24).
Definition demo_validator : Validator :=
  match New_validator demo_vcfg with Ok v => v | Err _ => mkValidator demo_vcfg AddrNone end.
Definition demo_token : bytes := EncodeToString (replicate 24 7).
Definition demo_ka : bytes := demo_token ++ [DOT] ++ EncodeToString (replicate 32 9).
Definition demo_http (address url : bytes) : fetched :=
  if beq address (str "10.0.0.10:80") then Response 200 (Some (demo_ka ++ [10])) else NoResponse.

Lemma demo_manager_ok : m_ok (str "home.arpa") (mgr demo2).
Proof. split; [exact demo_wf2|vm_compute; reflexivity]. Qed.

Lemma demo_home : validDNSName (str "home.arpa") = true.
Proof. vm_compute. reflexivity. Qed.

Lemma http01_validation_sound_witness :
  Validate demo_validator (mgr demo2) 2 (mgr demo2) 3 true true demo_http (str "laptop.Home.arpa.") demo_token demo_ka
    = Some (mkTarget ip_a alice) /\
  exists l, m_live (mgr demo2) 3 l /\ Hostname l = str "laptop.home.arpa." /\ ClientID l = alice.
Proof.
  assert (Hv : Validate demo_validator (mgr demo2) 2 (mgr demo2) 3 true true demo_http (str "laptop.Home.arpa.")
    demo_token demo_ka = Some (mkTarget ip_a alice)) by (vm_compute; reflexivity).
  split; [exact Hv|].
  destruct (@http01_validation_sound Manager _ (str "home.arpa") (manager_laws (str "home.arpa") demo_home)
    demo_vcfg demo_validator (mgr demo2) (mgr demo2) 2 3 true true demo_http _ _ _ _
    ltac:(vm_compute; reflexivity) ltac:(vm_compute; reflexivity) demo_manager_ok demo_manager_ok Hv)
    as (_ & _ & _ & _ & l & L1 & L2 & _ & L4 & _).
  exists l. split; [exact L1|]. split; [|exact L4]. rewrite L2. vm_compute. reflexivity.
Defined.

(** ** Revocation *)

Lemma crlEntries_complete now certs entries k at_time :
  crlEntries now certs = Some entries -> k ∈ certs -> RevokedAt k = Some at_time -> now < cert_NotAfter k ->
  exists serial, BigSetString (Serial k) = Some serial /\ 0 < serial /\ mkEntry serial at_time (Reason k) ∈ entries.
Proof.
  revert entries. induction certs as [|x certs IH]; intros entries Hc Hin Hr Hn; [by apply not_elem_of_nil in Hin|].
  simpl in Hc. apply elem_of_cons in Hin as [->|Hin].
  - rewrite Hr in Hc. destruct (Z.ltb_spec now (cert_NotAfter x)); [|lia]. cbn [negb] in Hc.
    destruct (BigSetString (Serial x)) as [serial|]; [|done]. destruct (Z.leb_spec serial 0); [done|].
    destruct (crlEntries now certs) as [es|]; [|done]. injection Hc as <-.
    exists serial. split_and!; [done|done|apply list_elem_of_here].
  - destruct (RevokedAt x) as [u|]; [|by eapply IH]. destruct (negb _); [by eapply IH|].
    destruct (BigSetString (Serial x)) as [serial|]; [|done]. destruct (_ <=? _); [done|].
    destruct (crlEntries now certs) as [es|] eqn:Ees; [|done]. injection Hc as <-.
    destruct (IH es eq_refl Hin Hr Hn) as (q & Q1 & Q2 & Q3). exists q. split_and!; [done|done|by apply list_elem_of_further].
Qed.

(** Who may revoke a certificate: the active account it was issued to, an active
    account with current proofs for every name, or the certificate's own key. *)
Definition may_revoke `{X509} `{!Decoders} (c : AcmeConfig) (e : env) (st : acme_state) (signed : Request)
    (issued : certificate) (leaf : Leaf) : Prop :=
  (exists id a, Accounts st !! id = Some a /\ acc_Status a = "valid"%string /\
     acc_Thumbprint a = req_Thumbprint signed /\
     (acc_ID a = cert_AccountID issued \/ authorizedForCertificate e st (acc_ID a) leaf = true)) \/
  (KeyID signed = [] /\ Thumbprint (PublicKey leaf) = Some (req_Thumbprint signed)).

Lemma canRevoke_sound `{X509} `{!Decoders} c e s signed issued leaf s1 :
  canRevoke c e s signed issued leaf = (true, s1) ->
  may_revoke c e (s_state s) signed issued leaf /\ s_state s1 = s_state s.
Proof.
  unfold canRevoke. destruct (beq (KeyID signed) []) eqn:Ek; cbn [negb].
  - intros [= Ht <-]. apply bool_decide_eq_true in Ht. apply beq_true in Ek. split; [by right|done].
  - destruct (activeAccount _ _ _ _ _) as [[a|p] s2] eqn:Ea; [|done]. intros [= Hp <-].
    destruct (activeAccount_keep _ _ _ _ _ _ _ Ea) as (K1 & _). rewrite K1 in Hp.
    destruct (activeAccount_Ok _ _ _ _ _ _ _ Ea) as (A1 & A2 & A3 & _). split; [|done]. left.
    eexists _, a. split_and!; [done..|]. apply orb_true_iff in Hp as [Hp%beq_true|Hp]; auto.
Qed.

Lemma findIssued_sound `{X509} serial der certs k :
  findIssued serial der certs = Ok (Some k) ->
  k ∈ certs /\ Serial k = serial /\ exists stored, parseLeaf (PEM k) = Some stored /\ Raw stored = der.
Proof.
  intros Hf. split; [by eapply findIssued_elem|]. revert Hf.
  induction certs as [|x certs IH]; simpl; [done|]. destruct (beq (Serial x) serial) eqn:Es; cbn [negb]; [|done].
  destruct (parseLeaf (PEM x)) as [stored|] eqn:Ep; [|done]. destruct (beq (Raw stored) der) eqn:Er; [|done].
  intros [= ->]. apply beq_true in Es, Er. split; [done|]. by exists stored.
Qed.

#[local] Instance entry_le_total : Total entry_le.
Proof. intros a b. unfold entry_le. lia. Qed.

(** What a refreshed list contains. *)
Lemma refreshCRL_entries `{X509} e st next :
  refreshCRL e st = Some next ->
  exists entries, e_crl e entries (CRLNumber st + 1) = Some (CRL next) /\ CRLNumber next = CRLNumber st + 1 /\
    Sorted entry_le entries /\
    forall j k at_time, Certificates st !! j = Some k -> RevokedAt k = Some at_time -> e_now e < cert_NotAfter k ->
      exists serial, BigSetString (Serial k) = Some serial /\ mkEntry serial at_time (Reason k) ∈ entries.
Proof.
  unfold refreshCRL. destruct (_ || _); [done|]. destruct (crlEntries _ _) as [es|] eqn:Ee; [|done].
  destruct (e_crl e _ _) as [der|] eqn:Ed; [|done]. destruct (ParseRevocationList der); [|done].
  destruct (_ || _); [done|]. destruct (negb _); [done|]. intros [= <-]. exists (merge_sort entry_le es).
  split_and!; [done|done|apply Sorted_merge_sort; apply _|].
  intros j k at_time Hk Hr Hn.
  destruct (crlEntries_complete _ _ _ k at_time Ee) as (serial & S1 & _ & S2); [|done|done|].
  - apply list_elem_of_fmap. exists (j, k). split; [done|]. by apply elem_of_map_to_list.
  - exists serial. split; [done|]. by rewrite merge_sort_Permutation.
Qed.

(** A revocation that is answered with success was authorised, and is in force:
    the committed list has the next number and was signed over entries, in order
    of serial number, that include every revoked and unexpired certificate, the
    one just revoked with its time and reason. *)
Theorem revocation_published `{X509} `{!Decoders} c e s signed r s' :
  revokeCertificate c e s signed = (r, s') -> r_status r = 200 ->
  exists encoded der leaf issued id reason entries crl,
    decodePayload json_revoke (Payload signed) = Some (encoded, reason) /\ validRevocationReason reason = true /\
    DecodeString encoded = Some der /\ ParseCertificate der = Some leaf /\ Certificates (s_state s) !! id = Some issued /\
    (exists stored, parseLeaf (PEM issued) = Some stored /\ Raw stored = der) /\
    Serial issued = BigString (SerialNumber leaf) /\ RevokedAt issued = None /\
    may_revoke c e (s_state s) signed issued leaf /\
    CRL (s_state s') = crl /\ CRLNumber (s_state s') = CRLNumber (s_state s) + 1 /\
    e_crl e entries (CRLNumber (s_state s) + 1) = Some crl /\ Sorted entry_le entries /\
    let revoked := mkCertificate (cert_ID issued) (cert_AccountID issued) (cert_OrderID issued) (PEM issued)
                     (Serial issued) (cert_NotAfter issued) (Some (e_now e)) reason in
    forall j k at_time, <[cert_ID issued := revoked]> (Certificates (s_state s)) !! j = Some k ->
      RevokedAt k = Some at_time -> e_now e < cert_NotAfter k ->
      exists serial, BigSetString (Serial k) = Some serial /\ mkEntry serial at_time (Reason k) ∈ entries.
Proof.
  unfold revokeCertificate.
  destruct (decodePayload _ _) as [[encoded reason]|] eqn:Edec; [|by intros [= <- <-]].
  destruct (validRevocationReason reason) eqn:Ereason; cbn [negb]; [|by intros [= <- <-]].
  destruct (DecodeString encoded) as [der|] eqn:Eder; [|by intros [= <- <-]].
  destruct (_ || _); [by intros [= <- <-]|]. destruct (ParseCertificate der) as [leaf|] eqn:El; [|by intros [= <- <-]].
  destruct (findIssued _ _ _) as [[issued|]|] eqn:Ef; [|by intros [= <- <-]..].
  destruct (beq _ []); [by intros [= <- <-]|].
  destruct (canRevoke c e s signed issued leaf) as [[|] s1] eqn:Ec; cbn [negb]; [|by intros [= <- <-]].
  destruct (canRevoke_sound _ _ _ _ _ _ _ Ec) as [Hmay Hst].
  destruct (bool_decide (is_Some (RevokedAt issued))) eqn:Er; [by intros [= <- <-]|].
  cbv zeta. cbn [cert_ID cert_AccountID cert_OrderID PEM Serial cert_NotAfter]. rewrite Hst.
  set (revoked := mkCertificate _ _ _ _ _ _ _ _).
  destruct (refreshCRL e _) as [next|] eqn:Eref; [|by intros [= <- <-]].
  destruct (commit e s1 next) as [[step|] s2] eqn:Ecm; [by intros [= <- <-]|]. intros [= <- <-] _.
  destruct (findIssued_sound _ _ _ _ Ef) as (F1 & F2 & F3).
  apply list_elem_of_fmap in F1 as ([id k] & E & Hk%elem_of_map_to_list). simpl in E. subst k.
  destruct (refreshCRL_entries _ _ _ Eref) as (entries & R1 & R2 & R3 & R4).
  assert (Hcrl : CRL (s_state s2) = CRL next /\ CRLNumber (s_state s2) = CRLNumber next).
  { revert Ecm. unfold commit. destruct (e_io e); [done|]. by intros [= <-]. }
  destruct Hcrl as [-> ->]. apply bool_decide_eq_false in Er.
  exists encoded, der, leaf, issued, id, reason, entries, (CRL next). split_and!; try done.
  destruct (RevokedAt issued); [|done]. destruct Er. eauto.
Qed.

(** The certificate of the run, issued and then revoked by its account. *)
Definition e6 : env := demo_env (7 * hour) [].
Definition y5 : acme_sys := after_call demo_acme e5 (CallFinalize r2 (demo_id 1) (demo_id 2)) y4.

Lemma revocation_published_witness :
  CRLNumber (s_state (revokeCertificate demo_acme e6 (srv y5) r2).2) = 1 /\
  exists entries crl, e_crl e6 entries 1 = Some crl /\
    CRL (s_state (revokeCertificate demo_acme e6 (srv y5) r2).2) = crl.
Proof.
  destruct (revokeCertificate demo_acme e6 (srv y5) r2) as [r s'] eqn:E.
  assert (Hr : r_status r = 200).
  { change r with (r, s').1. rewrite <- E. vm_compute. reflexivity. }
  destruct (revocation_published demo_acme e6 (srv y5) r2 r s' E Hr)
    as (_ & _ & _ & _ & _ & _ & entries & crl & _ & _ & _ & _ & _ & _ & _ & _ & _ & Hcrl & Hn & He & _).
  assert (H0 : CRLNumber (s_state (srv y5)) = 0) by (vm_compute; reflexivity).
  rewrite H0 in Hn, He. split; [exact Hn|]. exists entries, crl. split; [exact He|exact Hcrl].
Defined.
