(* ===== verification/AcmeAuth.v ===== *)
(** * acmeauth: signed requests and nonces

    auth.go: the table of outstanding nonces and the verification of a flattened
    JWS.  JSON is read by GoJson; go-jose's keys and signatures are the class
    [JoseLib].  [auth_jose] is the instance of the class the server's definitions
    are written against, with the thumbprints and keys of this package. *)

From stdpp Require Import gmap list strings.
From Stdlib Require Import ZArith Lia.
From S2P Require Import Prelude GoStrings GoJson GoBase64 GoKeys AcmeState Acme AcmeSystem.

(** ** Code outside the repository *)

(** [jose.JSONWebKey], as far as it is read. *)
Record JSONWebKey := mkJWK { jwk_Key : public_key; jwk_Algorithm : bytes; jwk_Use : bytes }.

(** go-jose: keys out of JSON, the SHA-256 digest of RFC 7638, whether a key is
    public, signed messages with the number of their signatures, and their
    verification, which gives the payload. *)
Class JoseLib `{Curves} := {
  jwk_Unmarshal : bytes -> option JSONWebKey;
  jwk_Thumbprint : JSONWebKey -> option bytes;
  jwk_IsPublic : JSONWebKey -> bool;
  SignedJWS : Type;
  ParseSignedJSON : bytes -> list bytes -> option SignedJWS;
  Signatures : SignedJWS -> nat;
  signed_Verify : SignedJWS -> public_key -> option bytes }.

(** ** Nonces *)

Definition maxBodyBytes : Z := 65536.
Definition maxNonces : Z := 8192.
Definition nonceTTL : duration := 10 * 60 * 1000000000.

Record nonceEntry := mkNonce { ne_value : bytes; ne_expires : time }.

(** The map and the queue of a [Verifier]; elements of the queue are numbered, and
    the map refers to them by number. *)
Record Verifier := mkVerifier { v_nonces : gmap bytes nat; v_queue : list (nat * nonceEntry); v_next : nat }.

Definition New_verifier : Verifier := mkVerifier ∅ [] 0.

(** The loop of [Nonce] that drops expired and superfluous nonces. *)
Fixpoint evict (now : time) (queue : list (nat * nonceEntry)) (nonces : gmap bytes nat)
    : list (nat * nonceEntry) * gmap bytes nat :=
  match queue with
  | [] => ([], nonces)
  | (_, entry) :: rest =>
      if (Z.of_nat (size nonces) <? maxNonces) && (now <? ne_expires entry) then (queue, nonces)
      else evict now rest (delete (ne_value entry) nonces)
  end.

(** [Nonce], from the random bytes read, if any. *)
Definition Nonce (random : option bytes) (now : time) : St Verifier (option bytes) := fun v =>
  match random with
  | None => (None, v)
  | Some random =>
      let nonce := EncodeToString random in
      let '(queue, nonces) := evict now (v_queue v) (v_nonces v) in
      (Some nonce, mkVerifier (<[nonce := v_next v]> nonces)
                     (queue ++ [(v_next v, mkNonce nonce (now + nonceTTL))]) (S (v_next v)))
  end.

(** [consume]. *)
Definition consume (now : time) (nonce : bytes) : St Verifier bool := fun v =>
  match v_nonces v !! nonce with
  | None => (false, v)
  | Some element =>
      let v' := mkVerifier (delete nonce (v_nonces v)) (filter (fun e => e.1 <> element) (v_queue v)) (v_next v) in
      match list_find (fun e => e.1 = element) (v_queue v) with
      | Some (_, (_, entry)) => (now <? ne_expires entry, v')
      | None => (false, v')
      end
  end.

(** ** JSON objects *)

(** The text of the value that [s] starts with, and what follows. *)
Definition rawValue (s : bytes) : option (bytes * bytes) :=
  match value (S (2 * length s)) maxNesting s with
  | Some (_, rest) => Some (take (length s - length rest) s, rest)
  | None => None
  end.

(** The loop of [object], at the opening quote of a name. *)
Fixpoint objectFields (fuel : nat) (s : bytes) (fields : gmap bytes bytes) : option (gmap bytes bytes * bytes) :=
  match expect 34 s with
  | None => None
  | Some r =>
  match scanString r with
  | None => None
  | Some (name, r) =>
  if bool_decide (is_Some (fields !! unquote name)) then None
  else
  match expect 58 (skipSpace r) with
  | None => None
  | Some r =>
  match rawValue (skipSpace r) with
  | None => None
  | Some (raw, r) =>
  let fields := <[unquote name := raw]> fields in
  match expect 125 (skipSpace r) with
  | Some rest => Some (fields, rest)
  | None =>
  match expect 44 (skipSpace r), fuel with
  | Some r, S k => objectFields k (skipSpace r) fields
  | _, _ => None
  end end end end end end.

(** [object]: the fields of the one object in the text, with their raw values. *)
Definition object (data : bytes) : option (gmap bytes bytes) :=
  match expect 123 (skipSpace data) with
  | None => None
  | Some r =>
      match (match expect 125 (skipSpace r) with
             | Some rest => Some (∅, rest)
             | None => objectFields (length data) (skipSpace r) ∅
             end) with
      | Some (fields, rest) => match skipSpace rest with [] => Some fields | _ => None end
      | None => None
      end
  end.

(** [stringValue] of a field that may be missing. *)
Definition stringValue (raw : option bytes) : option bytes :=
  match raw with
  | None => None
  | Some raw =>
      if (len raw =? 0) || beq (TrimSpace raw) (str "null") then None
      else match parseJSON raw with Some (JStr s) => Some (unquote s) | _ => None end
  end.

(** ** Keys and algorithms *)

(** acmeauth.Error. *)
Record auth_error := mkAuthError { ae_Type : string; ae_Detail : string; ae_Status : Z }.
Definition malformed (detail : string) : auth_error := mkAuthError "malformed" detail 400.

Definition algorithms : list bytes :=
  map str ["ES256"; "ES384"; "ES512"; "RS256"; "RS384"; "RS512"; "PS256"; "PS384"; "PS512"; "EdDSA"]%string.
Definition supportedAlgorithm (alg : bytes) : bool := bool_decide (alg ∈ algorithms).

(** The private fields a JWK must not have. *)
Definition privateFields : list bytes :=
  map str ["d"; "p"; "q"; "dp"; "dq"; "qi"; "oth"; "k"; "x5u"; "x5c"]%string.

Definition unsupportedHeaders : list bytes := map str ["crit"; "jku"; "x5u"; "x5c"; "x5t"; "x5t#S256"]%string.

Section auth.
Context `{JoseLib}.

Definition validPublicKey (jwk : JSONWebKey) : bool :=
  if negb (beq (jwk_Use jwk) []) && negb (beq (jwk_Use jwk) (str "sig")) then false
  else supportedKey (jwk_Key jwk).

(** [Thumbprint]. *)
Definition auth_Thumbprint (key : JSONWebKey) : option bytes :=
  if negb (validPublicKey key) then None
  else match jwk_Thumbprint key with Some t => Some (EncodeToString t) | None => None end.

Definition keySupportsAlgorithm (jwk : JSONWebKey) (alg : bytes) : bool :=
  if negb (beq (jwk_Algorithm jwk) []) && negb (beq (jwk_Algorithm jwk) alg) then false
  else match jwk_Key jwk with
       | EcdsaKey (Some k) =>
           (bool_decide (ec_Curve k = P256) && beq alg (str "ES256"))
           || (bool_decide (ec_Curve k = P384) && beq alg (str "ES384"))
           || (bool_decide (ec_Curve k = P521) && beq alg (str "ES512"))
       | RsaKey _ => bool_decide (alg ∈ map str ["RS256"; "RS384"; "RS512"; "PS256"; "PS384"; "PS512"]%string)
       | Ed25519Key _ => beq alg (str "EdDSA")
       | _ => false
       end.

Definition parseKey (data : bytes) : Prelude.result auth_error JSONWebKey :=
  match object data with
  | None => Err (malformed "invalid embedded JWK")
  | Some fields =>
      if existsb (fun name => bool_decide (is_Some (fields !! name))) privateFields
      then Err (malformed "JWK must contain only a public account key")
      else match jwk_Unmarshal data with
           | Some key => Ok key
           | None => Err (malformed "invalid embedded JWK")
           end
  end.

(** ** The keys of the server's model *)

#[export] Instance auth_jose : Jose := {|
  Key := JSONWebKey; zeroKey := mkJWK UnknownKey [] []; Thumbprint := auth_Thumbprint; IsPublic := jwk_IsPublic |}.

(** ** Verification *)

(** What [LookupKey] answers: an account may be unknown, or the lookup fail. *)
Inductive lookup_error := UnknownAccount | LookupFailed.

(** [verify] answers with an [auth_error], or with [None] for any other error. *)
Abbreviation answered := (Prelude.result (option auth_error)).

(** The strict base64url strings of the envelope: their text and contents. *)
Definition envelopeField (envelope : gmap bytes bytes) (name : string) : answered (bytes * bytes) :=
  match stringValue (envelope !! str name) with
  | None => Err (Some (malformed "JWS fields must be base64url strings"))
  | Some encoded =>
      if negb (bool_decide (name = "payload"%string)) && beq encoded []
      then Err (Some (malformed "JWS fields must be base64url strings"))
      else match DecodeString encoded with
           | Some decoded =>
               if beq (EncodeToString decoded) encoded then Ok (encoded, decoded)
               else Err (Some (malformed "JWS fields must use unpadded base64url encoding"))
           | None => Err (Some (malformed "JWS fields must use unpadded base64url encoding"))
           end
  end.

(** The protected header of an envelope. *)
Definition protectedHeader (data : bytes) : answered (gmap bytes bytes) :=
  match object data with
  | None => Err (Some (malformed "expected a flattened JWS with protected, payload, and signature fields"))
  | Some envelope =>
      if negb (size envelope =? 3)%nat
      then Err (Some (malformed "expected a flattened JWS with protected, payload, and signature fields"))
      else
        protected <-! envelopeField envelope "protected" ;
        _ <-! envelopeField envelope "payload" ;
        _ <-! envelopeField envelope "signature" ;
        match object protected.2 with
        | None => Err (Some (malformed "invalid JWS protected header"))
        | Some header => Ok header
        end
  end.

(** The key of a request: embedded, or that of the account named by kid. *)
Definition requestKey (header : gmap bytes bytes) (lookup : option (bytes -> Prelude.result lookup_error JSONWebKey))
    : answered (JSONWebKey * bytes) :=
  match header !! str "jwk" with
  | Some jwk => match parseKey jwk with Ok key => Ok (key, []) | Err e => Err (Some e) end
  | None =>
      match stringValue (header !! str "kid") with
      | None => Err (Some (malformed "JWS kid must be a nonempty account URL"))
      | Some kid =>
          if beq kid [] then Err (Some (malformed "JWS kid must be a nonempty account URL"))
          else match lookup with
               | None => Err (Some (mkAuthError "accountDoesNotExist" "account does not exist" 400))
               | Some lookup =>
                   match lookup kid with
                   | Ok key => Ok (key, kid)
                   | Err UnknownAccount => Err (Some (mkAuthError "accountDoesNotExist" "account does not exist" 400))
                   | Err LookupFailed => Err None
                   end
               end
      end
  end.

(** [verify] after the nonce: [inner] says that no nonce is expected. *)
Definition verifyHeader (data expectedURL : bytes) (header : gmap bytes bytes) (inner : bool)
    (lookup : option (bytes -> Prelude.result lookup_error JSONWebKey)) : answered Request :=
  match stringValue (header !! str "url") with
  | None => Err (Some (malformed "JWS protected header must include url"))
  | Some url =>
  if beq url [] then Err (Some (malformed "JWS protected header must include url"))
  else if negb (beq url expectedURL)
  then Err (Some (mkAuthError "unauthorized" "JWS url does not match the requested resource" 403))
  else if existsb (fun name => bool_decide (is_Some (header !! name))) unsupportedHeaders
  then Err (Some (malformed "unsupported JWS protected header"))
  else if match header !! str "b64" with Some b64 => negb (beq (TrimSpace b64) (str "true")) | None => false end
  then Err (Some (malformed "JWS payload must be base64url encoded"))
  else
  match stringValue (header !! str "alg") with
  | None => Err (Some (mkAuthError "badSignatureAlgorithm" "unsupported JWS signature algorithm" 400))
  | Some alg =>
  if negb (supportedAlgorithm alg)
  then Err (Some (mkAuthError "badSignatureAlgorithm" "unsupported JWS signature algorithm" 400))
  else
  let hasJWK := bool_decide (is_Some (header !! str "jwk")) in
  let hasKID := bool_decide (is_Some (header !! str "kid")) in
  if eqb hasJWK hasKID || (inner && hasKID)
  then Err (Some (malformed "JWS must contain exactly one of jwk or kid; inner key-change JWS requires jwk"))
  else
  key_kid <-! requestKey header lookup ;
  let '(key, kid) := key_kid in
  match auth_Thumbprint key with
  | None => Err (Some (malformed "account key must be a supported public key"))
  | Some thumbprint =>
  if negb (keySupportsAlgorithm key alg)
  then Err (Some (mkAuthError "badSignatureAlgorithm" "signature algorithm does not match the account key" 400))
  else
  match ParseSignedJSON data [alg] with
  | None => Err (Some (malformed "invalid JWS signature envelope"))
  | Some signed =>
  if negb (Signatures signed =? 1)%nat then Err (Some (malformed "invalid JWS signature envelope"))
  else
  match signed_Verify signed (jwk_Key key) with
  | None => Err (Some (mkAuthError "unauthorized" "JWS signature verification failed" 403))
  | Some payload => Ok (mkRequest payload key kid thumbprint)
  end end end end end.

(** [verify] of a request that must carry a nonce, which is used up at [now]. *)
Definition verify (now : time) (data expectedURL : bytes)
    (lookup : option (bytes -> Prelude.result lookup_error JSONWebKey)) : St Verifier (answered Request) := fun v =>
  match protectedHeader data with
  | Err e => (Err e, v)
  | Ok header =>
      let badNonce := Err (Some (mkAuthError "badNonce" "nonce is missing, expired, or already used" 400)) in
      match stringValue (header !! str "nonce") with
      | None => (badNonce, v)
      | Some nonce =>
          if beq nonce [] then (badNonce, v)
          else
            let '(fresh, v) := consume now nonce v in
            if negb fresh then (badNonce, v) else (verifyHeader data expectedURL header false lookup, v)
      end
  end.

(** [VerifyKeyChange]: the inner request, whose key is embedded. *)
Definition auth_VerifyKeyChange (data expectedURL : bytes) : answered Request :=
  if maxBodyBytes <? len data then Err (Some (mkAuthError "malformed" "JWS request exceeds 64 KiB" 413))
  else
    header <-! protectedHeader data ;
    if bool_decide (is_Some (header !! str "nonce"))
    then Err (Some (malformed "inner key-change JWS must omit nonce"))
    else verifyHeader data expectedURL header true None.

(** What [Verify] reads of an HTTP request: the media type of its Content-Type,
    if it parses, the length it announces, and its body, [Some None] when reading
    it fails. *)
Record http_body := mkBody { b_mediaType : option bytes; b_ContentLength : Z; b_Body : option (option bytes) }.

(** [Verify]. *)
Definition Verify (now : time) (r : http_body) (expectedURL : bytes)
    (lookup : option (bytes -> Prelude.result lookup_error JSONWebKey)) : St Verifier (answered Request) := fun v =>
  if negb (bool_decide (b_mediaType r = Some (str "application/jose+json")))
  then (Err (Some (mkAuthError "malformed" "content type must be application/jose+json" 415)), v)
  else match b_Body r with
  | None => (Err (Some (malformed "missing JWS request body")), v)
  | Some body =>
      if maxBodyBytes <? b_ContentLength r
      then (Err (Some (mkAuthError "malformed" "JWS request exceeds 64 KiB" 413)), v)
      else match body with
      | None => (Err (Some (malformed "cannot read JWS request body")), v)
      | Some body =>
          let data := take (Z.to_nat (maxBodyBytes + 1)) body in
          if maxBodyBytes <? len data
          then (Err (Some (mkAuthError "malformed" "JWS request exceeds 64 KiB" 413)), v)
          else verify now data expectedURL lookup v
      end
  end.

End auth.
