(* ===== verification/AcmeAuthProps.v ===== *)
(** * acmeauth: theorems

    What the table of nonces guarantees over any sequence of requests, and what a
    request that passed verification is known to be. *)

From stdpp Require Import gmap list strings.
From Stdlib Require Import ZArith Lia.
From S2P Require Import Prelude GoStrings GoJson GoBase64 GoKeys AcmeState Acme AcmeSystem AcmeAuth.

(** ** Runs of the nonce table *)

(** A nonce is issued from random bytes, or used by a request. *)
Inductive nonce_op := VIssue (random : bytes) (now : time) | VUse (nonce : bytes) (now : time).

Definition nonce_step (op : nonce_op) : St Verifier bool := fun v =>
  match op with
  | VIssue random now => (false, (Nonce (Some random) now v).2)
  | VUse nonce now => consume now nonce v
  end.

(** The answers to the uses of a run, and the table after it. *)
Fixpoint nonce_run (ops : list nonce_op) (v : Verifier) : list bool * Verifier :=
  match ops with
  | [] => ([], v)
  | op :: rest =>
      let '(accepted, v) := nonce_step op v in
      let '(l, v) := nonce_run rest v in (accepted :: l, v)
  end.

(** ** Fuel *)

Lemma rawValue_length s raw r : rawValue s = Some (raw, r) -> (length r < length s)%nat.
Proof.
  unfold rawValue. destruct (value _ _ _) as [[v rest]|] eqn:E; [|done]. intros [= _ <-]. by apply (proj1 (value_length _)) in E.
Qed.

(** The length of the text is enough fuel for the fields of an object. *)
Lemma objectFields_fuel n : forall m s fields, (length s <= n)%nat -> (length s <= m)%nat ->
  objectFields n s fields = objectFields m s fields.
Proof.
  induction n as [|n IH]; intros m s fields Hn Hm.
  { destruct s; [|cbn in Hn; lia]. by destruct m. }
  destruct m as [|m]; [destruct s; [done|cbn in Hm; lia]|]. cbn [objectFields].
  destruct (expect 34 s) as [r|] eqn:E1; [|done]. destruct (scanString r) as [[name r1]|] eqn:E2; [|done].
  destruct (bool_decide _); [done|]. destruct (expect 58 _) as [r2|] eqn:E3; [|done].
  destruct (rawValue _) as [[raw r3]|] eqn:E4; [|done]. destruct (expect 125 _); [done|]. destruct (expect 44 _) as [r4|] eqn:E5; [|done].
  apply expect_length in E1, E3, E5. apply scanString_length in E2. apply rawValue_length in E4.
  pose proof (skipSpace_length r1). pose proof (skipSpace_length r2). pose proof (skipSpace_length r3). pose proof (skipSpace_length r4).
  apply IH; lia.
Qed.


Lemma nonce_run_app a b v :
  nonce_run (a ++ b) v =
  ((nonce_run a v).1 ++ (nonce_run b (nonce_run a v).2).1, (nonce_run b (nonce_run a v).2).2).
Proof.
  revert v. induction a as [|o a IH]; intros v; cbn [nonce_run app].
  - cbn [fst snd app]. by destruct (nonce_run b v).
  - destruct (nonce_step o v) as [x v1]. rewrite IH. by destruct (nonce_run a v1).
Qed.

Lemma nonce_run_snoc ops op v :
  nonce_run (ops ++ [op]) v =
  ((nonce_run ops v).1 ++ [(nonce_step op (nonce_run ops v).2).1], (nonce_step op (nonce_run ops v).2).2).
Proof. rewrite nonce_run_app. cbn [nonce_run]. by destruct (nonce_step op _). Qed.

Lemma nonce_run_length ops v : length (nonce_run ops v).1 = length ops.
Proof.
  revert v. induction ops as [|o ops IH]; intros v; [done|]. cbn [nonce_run].
  destruct (nonce_step o v) as [b v1]. specialize (IH v1). destruct (nonce_run ops v1). simpl in *. lia.
Qed.

(** ** The invariant of the table *)

(** Elements of the queue have distinct numbers, and the map refers to elements of
    the queue, each by its own value. *)
Record table_ok (nonces : gmap bytes nat) (queue : list (nat * nonceEntry)) : Prop := {
  q_ids : NoDup queue.*1;
  q_refs : forall n id, nonces !! n = Some id -> exists e, (id, e) ∈ queue /\ ne_value e = n }.

Record verifier_ok (v : Verifier) : Prop := {
  v_table : table_ok (v_nonces v) (v_queue v);
  v_fresh : Forall (fun q => (q.1 < v_next v)%nat) (v_queue v) }.

Lemma queue_entry_inj (queue : list (nat * nonceEntry)) id e1 e2 :
  NoDup queue.*1 -> (id, e1) ∈ queue -> (id, e2) ∈ queue -> e1 = e2.
Proof.
  intros Hd H1 H2. apply list_elem_of_lookup in H1 as [i H1]. apply list_elem_of_lookup in H2 as [j H2].
  assert (i = j); [|congruence]. eapply NoDup_lookup; [exact Hd| |]; rewrite list_lookup_fmap; [by rewrite H1|by rewrite H2].
Qed.

(** Only as many names as elements. *)
Lemma table_size nonces queue : table_ok nonces queue -> (size nonces <= length queue)%nat.
Proof.
  intros [Hd Hr]. rewrite <- length_map_to_list.
  transitivity (length (map_to_list nonces).*2); [by rewrite length_fmap|].
  transitivity (length queue.*1); [|by rewrite length_fmap].
  apply submseteq_length. apply NoDup_submseteq.
  - apply NoDup_fmap_2_strong; [|apply NoDup_map_to_list].
    intros [n1 i1] [n2 i2] H1 H2 E. simpl in E. subst i2. apply elem_of_map_to_list in H1, H2.
    destruct (Hr _ _ H1) as (e1 & Q1 & <-). destruct (Hr _ _ H2) as (e2 & Q2 & <-).
    by rewrite (queue_entry_inj _ _ _ _ Hd Q1 Q2).
  - intros id Hid. apply list_elem_of_fmap in Hid as ([n i] & -> & Hn). apply elem_of_map_to_list in Hn.
    destruct (Hr _ _ Hn) as (e & He & _). apply list_elem_of_fmap. by exists (i, e).
Qed.

(** Dropping the first element of the queue. *)
Lemma table_drop nonces id e queue :
  table_ok nonces ((id, e) :: queue) -> table_ok (delete (ne_value e) nonces) queue.
Proof.
  intros [Hd Hr]. cbn [fmap list_fmap fst] in Hd. apply NoDup_cons in Hd as [Hn Hd]. split; [done|].
  intros n i Hi. apply lookup_delete_Some in Hi as [Hne Hi]. destruct (Hr _ _ Hi) as (e' & He & Ev).
  apply elem_of_cons in He as [E|He]; [injection E as -> ->; congruence|by exists e'].
Qed.

Lemma evict_ok now queue nonces : table_ok nonces queue ->
  let '(q, m) := evict now queue nonces in
  table_ok m q /\ (exists pre, queue = pre ++ q) /\ m ⊆ nonces /\ Z.of_nat (size m) < maxNonces.
Proof.
  revert nonces. induction queue as [|[id e] queue IH]; intros nonces Ht; cbn [evict].
  - split; [done|]. split; [by exists []|]. split; [done|]. pose proof (table_size _ _ Ht). simpl in *. unfold maxNonces. lia.
  - destruct (_ && _) eqn:E.
    + split; [done|]. split; [by exists []|]. split; [done|]. bool_hyps. done.
    + specialize (IH _ (table_drop _ _ _ _ Ht)). destruct (evict now queue _) as [q m].
      destruct IH as (? & (pre & ->) & Hm & ?). split; [done|]. split; [by exists ((id, e) :: pre)|].
      split; [|done]. etransitivity; [exact Hm|]. apply delete_subseteq.
Qed.

Lemma Nonce_ok random now v : verifier_ok v -> verifier_ok (Nonce random now v).2 /\
  (Z.of_nat (size (v_nonces v)) <= maxNonces -> Z.of_nat (size (v_nonces (Nonce random now v).2)) <= maxNonces).
Proof.
  intros [Ht Hf]. unfold Nonce. destruct random as [random|]; [|done].
  pose proof (evict_ok now _ _ Ht) as He. destruct (evict now (v_queue v) (v_nonces v)) as [q m].
  destruct He as ([Hd Hr] & (pre & Eq) & _ & Hs). cbn [snd v_nonces v_queue v_next].
  rewrite Eq in Hf. apply Forall_app in Hf as [_ Hf]. split; [split; [split|]|]; cbn [v_nonces v_queue v_next].
  - rewrite fmap_app. apply NoDup_app. split; [done|]. split; [|apply NoDup_singleton].
    intros id Hid. apply list_elem_of_fmap in Hid as ([i e] & -> & Hi). cbn. intros ->%list_elem_of_singleton.
    rewrite Forall_forall in Hf. specialize (Hf _ Hi). simpl in Hf. lia.
  - intros n id Hn. apply lookup_insert_Some in Hn as [[<- <-]|[_ Hn]].
    + eexists. split; [apply elem_of_app; right; left|done].
    + destruct (Hr _ _ Hn) as (e & He & Ev). exists e. split; [apply elem_of_app; by left|done].
  - apply Forall_app. split; [|repeat constructor].
    eapply Forall_impl; [exact Hf|]. simpl. lia.
  - intros _. rewrite map_size_insert. destruct (m !! _); simpl; unfold id; lia.
Qed.

Lemma filter_ids (P : nat * nonceEntry -> Prop) `{!forall x, Decision (P x)} (queue : list (nat * nonceEntry)) :
  NoDup queue.*1 -> NoDup (filter P queue).*1.
Proof.
  induction queue as [|q queue IH]; [done|]. cbn [fmap list_fmap]. intros [Hn Hd]%NoDup_cons.
  rewrite filter_cons. case_decide; [|auto]. cbn [fmap list_fmap]. apply NoDup_cons. split; [|auto].
  intros Hq. apply Hn. apply list_elem_of_fmap in Hq as (x & -> & Hx). apply list_elem_of_filter in Hx as [_ Hx].
  by apply list_elem_of_fmap_2.
Qed.

Lemma consume_ok now nonce v : verifier_ok v -> verifier_ok (consume now nonce v).2 /\
  v_nonces (consume now nonce v).2 = delete nonce (v_nonces v).
Proof.
  intros [[Hd Hr] Hf]. unfold consume. destruct (v_nonces v !! nonce) as [el|] eqn:E.
  2:{ split; [by split|]. simpl. by rewrite delete_id. }
  assert (Hok : verifier_ok (mkVerifier (delete nonce (v_nonces v)) (filter (fun e => e.1 <> el) (v_queue v)) (v_next v))).
  { split; [split|]; cbn [v_nonces v_queue v_next].
    - by apply filter_ids.
    - intros n id Hn. apply lookup_delete_Some in Hn as [Hne Hn]. destruct (Hr _ _ Hn) as (e & He & Ev).
      exists e. split; [|done]. apply list_elem_of_filter. split; [|done]. simpl. intros ->.
      destruct (Hr _ _ E) as (e2 & He2 & Ev2). rewrite (queue_entry_inj _ _ _ _ Hd He He2) in Ev. congruence.
    - rewrite Forall_forall in *. intros q Hq. apply list_elem_of_filter in Hq as [_ Hq]. auto. }
  destruct (list_find _ _) as [[? [? ?]]|]; done.
Qed.

Lemma nonce_step_ok op v : verifier_ok v -> verifier_ok (nonce_step op v).2.
Proof. destruct op; [by apply Nonce_ok|by apply consume_ok]. Qed.

Lemma New_verifier_ok : verifier_ok New_verifier.
Proof. split; [split|]; cbn; [constructor|done|constructor]. Qed.

Lemma nonce_run_keeps ops v : verifier_ok v -> verifier_ok (nonce_run ops v).2.
Proof.
  revert v. induction ops as [|op ops IH]; intros v Hv; [done|]. cbn [nonce_run].
  pose proof (nonce_step_ok op v Hv) as H1. destruct (nonce_step op v) as [b w]. specialize (IH w H1). by destruct (nonce_run ops w).
Qed.

Lemma nonce_run_ok ops : verifier_ok (nonce_run ops New_verifier).2.
Proof. apply nonce_run_keeps, New_verifier_ok. Qed.

(** ** Every accepted nonce was issued for this use *)

(** [n] was issued as operation [j], and not used afterwards. *)
Definition outstanding (ops : list nonce_op) (j : nat) (n : bytes) (t0 : time) : Prop :=
  (exists r, ops !! j = Some (VIssue r t0) /\ EncodeToString r = n) /\
  forall k t, (j < k)%nat -> ops !! k <> Some (VUse n t).

Lemma outstanding_snoc ops op j n t0 : outstanding ops j n t0 -> (forall t, op <> VUse n t) -> outstanding (ops ++ [op]) j n t0.
Proof.
  intros ((r & Hj & Hr) & Hu) Hop. split.
  - exists r. split; [by apply lookup_app_l_Some|done].
  - intros k t Hk Hk2. apply lookup_app_Some in Hk2 as [Hk2|[_ Hk2]]; [by eapply Hu|].
    apply list_lookup_singleton_Some in Hk2 as [_ E]. by eapply Hop.
Qed.

(** The element a name refers to expires ten minutes after its issue. *)
Definition tracked (ops : list nonce_op) (v : Verifier) : Prop :=
  forall n id e, v_nonces v !! n = Some id -> (id, e) ∈ v_queue v ->
    exists j t0, outstanding ops j n t0 /\ ne_expires e = t0 + nonceTTL.

Lemma tracked_step ops op v : verifier_ok v -> tracked ops v -> tracked (ops ++ [op]) (nonce_step op v).2.
Proof.
  intros Hv Ht n id e. destruct op as [r now|n' now]; cbn [nonce_step snd].
  - unfold Nonce. pose proof (evict_ok now _ _ (v_table _ Hv)) as He.
    destruct (evict now (v_queue v) (v_nonces v)) as [q m]. destruct He as (_ & (pre & Eq) & Hsub & _).
    cbn [snd v_nonces v_queue]. intros Hn Hin.
    pose proof (v_fresh _ Hv) as Hf. rewrite Eq in Hf. apply Forall_app in Hf as [_ Hf]. rewrite Forall_forall in Hf.
    apply elem_of_app in Hin as [Hin|[= -> ->]%list_elem_of_singleton].
    + pose proof (Hf _ Hin) as Hlt. simpl in Hlt. apply lookup_insert_Some in Hn as [[_ E]|[Hne Hn]]; [lia|].
      destruct (Ht n id e) as (j & t0 & Ho & Ee); [by eapply lookup_weaken|rewrite Eq; set_solver|].
      exists j, t0. split; [|done]. by apply outstanding_snoc.
    + apply lookup_insert_Some in Hn as [[<- _]|[Hne Hn]].
      * exists (length ops), now. split; [|done]. split.
        { exists r. split; [|done]. by rewrite lookup_app_r, Nat.sub_diag by lia. }
        intros k t Hk Hk2. apply lookup_lt_Some in Hk2. rewrite length_app in Hk2. simpl in Hk2. lia.
      * apply lookup_weaken with (m2 := v_nonces v) in Hn; [|done].
        destruct (q_refs _ _ (v_table _ Hv) _ _ Hn) as (e' & He' & _).
        pose proof (v_fresh _ Hv) as Hf2. rewrite Forall_forall in Hf2. specialize (Hf2 _ He'). simpl in Hf2. lia.
  - destruct (consume_ok now n' v Hv) as [_ ->]. intros Hn Hin. apply lookup_delete_Some in Hn as [Hne Hn].
    assert (Hin' : (id, e) ∈ v_queue v).
    { revert Hin. unfold consume. destruct (v_nonces v !! n'); [|done].
      destruct (list_find _ _) as [[? [? ?]]|]; cbn [snd v_queue]; intros Hin; by apply list_elem_of_filter in Hin as [_ Hin]. }
    destruct (Ht n id e Hn Hin') as (j & t0 & Ho & Ee). exists j, t0. split; [|done]. apply outstanding_snoc; [done|].
    intros t [= -> _]. congruence.
Qed.

Lemma nonce_run_tracked ops : tracked ops (nonce_run ops New_verifier).2.
Proof.
  induction ops as [|op ops IH] using rev_ind; [intros n id e Hn; discriminate Hn|].
  rewrite nonce_run_snoc. apply tracked_step; [apply nonce_run_ok|done].
Qed.

Lemma consume_accepts now n v : verifier_ok v -> (consume now n v).1 = true ->
  exists id e, v_nonces v !! n = Some id /\ (id, e) ∈ v_queue v /\ now < ne_expires e.
Proof.
  intros Hv. unfold consume. destruct (v_nonces v !! n) as [id|]; [|done].
  destruct (list_find _ (v_queue v)) as [[i [id' e]]|] eqn:E; [|done]. cbn [fst]. intros Hl%Z.ltb_lt.
  apply list_find_Some in E as (Hi & Ei & _). simpl in Ei. subst id'. exists id, e.
  split; [done|]. split; [by eapply list_elem_of_lookup_2|done].
Qed.

(** C19: Over any sequence of requests since the start, at most 8192 nonces are
    outstanding, and a nonce is accepted only if it was issued less than ten
    minutes before and not presented since: every nonce issued is good for at most
    one request. *)
Theorem nonces_single_use ops :
  Z.of_nat (size (v_nonces (nonce_run ops New_verifier).2)) <= maxNonces /\
  forall i n t, ops !! i = Some (VUse n t) -> (nonce_run ops New_verifier).1 !! i = Some true ->
    exists j r t0, (j < i)%nat /\ ops !! j = Some (VIssue r t0) /\ EncodeToString r = n /\ t < t0 + nonceTTL /\
      forall k t', (j < k < i)%nat -> ops !! k <> Some (VUse n t').
Proof.
  split.
  - induction ops as [|op ops IH] using rev_ind; [done|]. rewrite nonce_run_snoc. cbn [snd].
    destruct op as [r now|n now]; cbn [nonce_step snd]; [by apply Nonce_ok; [apply nonce_run_ok|]|].
    destruct (consume_ok now n _ (nonce_run_ok ops)) as [_ ->].
    rewrite map_size_delete. destruct (_ !! n); unfold id; lia.
  - intros i n t Hi Hacc. pose proof (take_drop_middle _ _ _ Hi) as E. pose proof (lookup_lt_Some _ _ _ Hi) as Hlt.
    rewrite <- E, nonce_run_app in Hacc. cbn [fst] in Hacc.
    assert (El : length (nonce_run (take i ops) New_verifier).1 = i) by (rewrite nonce_run_length, length_take; lia).
    rewrite lookup_app_r, El, Nat.sub_diag in Hacc by lia. cbn [nonce_run] in Hacc.
    destruct (nonce_step _ _) as [b v1] eqn:Es. destruct (nonce_run _ v1). injection Hacc as ->.
    destruct (consume_accepts t n (nonce_run (take i ops) New_verifier).2) as (id & e & Hn & Hin & Hexp);
      [apply nonce_run_ok|exact (f_equal fst Es)|].
    destruct (nonce_run_tracked (take i ops) n id e Hn Hin) as (j & t0 & ((r & Hj & Hr) & Hu) & Ee).
    apply lookup_take_Some in Hj as [Hj Hji]. exists j, r, t0.
    split; [done|]. split; [done|]. split; [done|]. split; [lia|].
    intros k t' [Hk1 Hk2] Hk. apply (Hu k t' Hk1). by rewrite lookup_take_lt by lia.
Qed.

(** A nonce is refused the second time, and when it waited ten minutes. *)
Example nonces_single_use_sample :
  let n := EncodeToString [1] in
  (nonce_run [VIssue [1] 0; VUse n 5; VUse n 6; VIssue [2] 7; VUse (EncodeToString [2]) (7 + nonceTTL)] New_verifier).1
  = [false; true; false; false; false].
Proof. vm_compute. reflexivity. Qed.

(** ** A fresh nonce is honoured *)

(** The element of [n] with at most [k] younger ones behind it, and no other
    element of that name. *)
Definition waiting (n : bytes) (expires : time) (k : nat) (v : Verifier) : Prop :=
  exists id pre post, v_queue v = pre ++ (id, mkNonce n expires) :: post /\ v_nonces v !! n = Some id /\
    (length post <= k)%nat /\ Forall (fun q => ne_value q.2 <> n) (pre ++ post).

Lemma evict_waiting now expires n id post : forall pre nonces,
  table_ok nonces (pre ++ (id, mkNonce n expires) :: post) -> nonces !! n = Some id ->
  Forall (fun q => ne_value q.2 <> n) pre -> now < expires -> Z.of_nat (length post) + 1 < maxNonces ->
  exists pre' suffix, evict now (pre ++ (id, mkNonce n expires) :: post) nonces =
    (pre' ++ (id, mkNonce n expires) :: post, suffix) /\ suffix !! n = Some id /\ exists dropped, pre = dropped ++ pre'.
Proof.
  induction pre as [|[i e] pre IH]; intros nonces Ht Hn Hp Hnow Hl; cbn [app evict].
  - exists [], nonces. pose proof (table_size _ _ Ht) as Hs. cbn [length app] in Hs.
    rewrite (proj2 (Z.ltb_lt _ _)) by lia. rewrite (proj2 (Z.ltb_lt _ _)) by done. cbn [andb].
    split; [done|]. split; [done|]. by exists [].
  - destruct (_ && _).
    + exists ((i, e) :: pre), nonces. split; [done|]. split; [done|]. by exists [].
    + apply Forall_cons in Hp as [Hne Hp]. simpl in Hne.
      destruct (IH (delete (ne_value e) nonces)) as (pre' & m & -> & Hm & d & ->);
        [by apply (table_drop _ i)|by rewrite lookup_delete_ne|done|done|done|].
      exists pre', m. split; [done|]. split; [done|]. by exists ((i, e) :: d).
Qed.

Lemma waiting_issue n expires k r now v : verifier_ok v -> waiting n expires k v ->
  EncodeToString r <> n -> now < expires -> Z.of_nat k + 1 < maxNonces ->
  waiting n expires (S k) (nonce_step (VIssue r now) v).2.
Proof.
  intros Hv (id & pre & post & Eq & Hn & Hl & Hf) Hr Hnow Hk. cbn [nonce_step snd]. unfold Nonce.
  apply Forall_app in Hf as [Hf1 Hf2]. pose proof (v_table _ Hv) as Ht. rewrite Eq in Ht |- *.
  destruct (evict_waiting now expires n id post pre (v_nonces v) Ht Hn Hf1 Hnow) as (pre' & m & -> & Hm & d & ->); [lia|].
  cbn [snd]. exists id, pre', (post ++ [(v_next v, mkNonce (EncodeToString r) (now + nonceTTL))]).
  cbn [v_queue v_nonces]. split; [by rewrite <- app_assoc|]. split; [by rewrite lookup_insert_ne|].
  split; [rewrite length_app; simpl; lia|]. apply Forall_app in Hf1 as [_ Hf1].
  rewrite !Forall_app. split; [done|]. split; [done|]. by repeat constructor.
Qed.

Lemma waiting_use n expires k n' now v : verifier_ok v -> waiting n expires k v -> n' <> n ->
  waiting n expires k (nonce_step (VUse n' now) v).2.
Proof.
  intros Hv (id & pre & post & Eq & Hn & Hl & Hf) Hne. cbn [nonce_step].
  unfold consume. destruct (v_nonces v !! n') as [el|] eqn:E; [|by exists id, pre, post].
  assert (Hid : el <> id).
  { intros ->. destruct (q_refs _ _ (v_table _ Hv) _ _ E) as (e & He & Ev).
    destruct (q_refs _ _ (v_table _ Hv) _ _ Hn) as (e' & He' & Ev').
    rewrite (queue_entry_inj _ _ _ _ (q_ids _ _ (v_table _ Hv)) He He') in Ev. congruence. }
  assert (Hw : waiting n expires k
    (mkVerifier (delete n' (v_nonces v)) (filter (fun e => e.1 <> el) (v_queue v)) (v_next v))).
  { exists id, (filter (fun e => e.1 <> el) pre), (filter (fun e => e.1 <> el) post). cbn [v_queue v_nonces].
    rewrite Eq, filter_app, filter_cons_True by (simpl; congruence). split; [done|].
    split; [by rewrite lookup_delete_ne|]. split; [etransitivity; [apply length_filter|done]|].
    apply Forall_app in Hf as [Hf1 Hf2]. rewrite Forall_forall in Hf1, Hf2.
    apply Forall_app. split; apply Forall_forall; intros q [_ Hq]%list_elem_of_filter; auto. }
  destruct (list_find _ _) as [[? [? ?]]|]; exact Hw.
Qed.

Definition op_time (op : nonce_op) : time := match op with VIssue _ t => t | VUse _ t => t end.
Definition is_issue (op : nonce_op) : bool := match op with VIssue _ _ => true | VUse _ _ => false end.

(** An operation that has nothing to do with [n]. *)
Definition unrelated (n : bytes) (op : nonce_op) : Prop :=
  match op with VIssue r _ => EncodeToString r <> n | VUse n' _ => n' <> n end.

Lemma waiting_run n expires ops : forall k v, verifier_ok v -> waiting n expires k v ->
  Forall (unrelated n) ops -> Forall (fun op => op_time op < expires) ops ->
  Z.of_nat k + len (filter (fun op => is_issue op = true) ops) < maxNonces ->
  waiting n expires (k + length (filter (fun op => is_issue op = true) ops)) (nonce_run ops v).2.
Proof.
  induction ops as [|op ops IH]; intros k v Hv Hw Hu Ht Hk.
  { cbn. by rewrite Nat.add_0_r. }
  apply Forall_cons in Hu as [Hop Hu]. apply Forall_cons in Ht as [Hto Ht].
  pose proof (nonce_step_ok op v Hv) as Hv1. cbn [nonce_run].
  assert (Hn : waiting n expires (k + (if is_issue op then 1 else 0)) (nonce_step op v).2).
  { destruct op as [r now|n' now]; cbn [is_issue].
    - rewrite Nat.add_1_r. rewrite filter_cons_True, len_cons in Hk by done.
      pose proof (len_nonneg (filter (fun op => is_issue op = true) ops)). apply waiting_issue; try done. lia.
    - rewrite Nat.add_0_r. by apply waiting_use. }
  destruct (nonce_step op v) as [b v1]. cbn [snd] in *.
  assert (Hk' : Z.of_nat (k + (if is_issue op then 1 else 0)) + len (filter (fun op => is_issue op = true) ops) < maxNonces).
  { revert Hk. rewrite filter_cons. destruct op; cbn [is_issue]; case_decide; try done; rewrite ?len_cons; lia. }
  specialize (IH _ v1 Hv1 Hn Hu Ht Hk'). destruct (nonce_run ops v1) as [l v2]. cbn [snd] in *.
  replace (k + length (filter (fun op => is_issue op = true) (op :: ops)))%nat
    with (k + (if is_issue op then 1 else 0) + length (filter (fun op => is_issue op = true) ops))%nat; [done|].
  rewrite filter_cons. destruct op; cbn [is_issue]; case_decide; try done; simpl; lia.
Qed.

Lemma unrelated_queue n ops : Forall (unrelated n) ops ->
  Forall (fun q => ne_value q.2 <> n) (v_queue (nonce_run ops New_verifier).2).
Proof.
  induction ops as [|op ops IH] using rev_ind; [constructor|].
  intros [Hb [Hop _]%Forall_cons]%Forall_app. specialize (IH Hb). rewrite nonce_run_snoc. cbn [snd].
  destruct op as [r' now|n' now]; cbn [nonce_step snd].
  - unfold Nonce. pose proof (evict_ok now _ _ (v_table _ (nonce_run_ok ops))) as He.
    destruct (evict now _ _) as [q m]. destruct He as (_ & (pre & Eq) & _). cbn [snd v_queue].
    rewrite Eq in IH. apply Forall_app in IH as [_ IH]. apply Forall_app. split; [done|]. by repeat constructor.
  - unfold consume. destruct (v_nonces _ !! n'); [|done]. rewrite Forall_forall in IH.
    destruct (list_find _ _) as [[? [? ?]]|]; cbn [snd v_queue]; apply Forall_forall;
      intros x [_ Hx]%list_elem_of_filter; auto.
Qed.

(** A nonce handed out is honoured: presented within ten minutes, after other
    clients obtained at most 8191 nonces and used any of theirs, it is accepted.
    (That 32 random bytes are never drawn twice is the hypothesis on the nonces of
    the others.) *)
Theorem fresh_nonce_accepted before r t0 ops t :
  Forall (unrelated (EncodeToString r)) before ->
  Forall (unrelated (EncodeToString r)) ops -> Forall (fun op => op_time op < t0 + nonceTTL) ops ->
  len (filter (fun op => is_issue op = true) ops) < maxNonces -> t < t0 + nonceTTL ->
  let v := (nonce_run (before ++ [VIssue r t0] ++ ops) New_verifier).2 in
  (consume t (EncodeToString r) v).1 = true.
Proof.
  intros Hb Hu Ht Hk Hexp. cbv zeta. rewrite !nonce_run_app. cbn [snd].
  set (v0 := (nonce_run before New_verifier).2). set (v1 := (nonce_run [VIssue r t0] v0).2).
  assert (Hv0 : verifier_ok v0) by apply nonce_run_ok.
  assert (Hv1 : verifier_ok v1) by by apply (nonce_step_ok (VIssue r t0)).
  assert (Hw : waiting (EncodeToString r) (t0 + nonceTTL) 0 v1).
  { subst v1. cbn [nonce_run nonce_step]. unfold Nonce.
    pose proof (evict_ok t0 _ _ (v_table _ Hv0)) as He.
    destruct (evict t0 (v_queue v0) (v_nonces v0)) as [q m]. destruct He as (_ & (pre & Eq) & _).
    exists (v_next v0), q, []. cbn [snd v_queue v_nonces]. split; [done|]. split; [by rewrite lookup_insert_eq|].
    split; [done|]. rewrite app_nil_r.
    pose proof (unrelated_queue _ _ Hb) as Hall. fold v0 in Hall. rewrite Eq in Hall. by apply Forall_app in Hall as [_ ?]. }
  destruct (waiting_run (EncodeToString r) (t0 + nonceTTL) ops 0 v1 Hv1 Hw Hu Ht) as (id & pre & post & Eq & Hn & _ & Hf); [simpl; lia|].
  pose proof (nonce_run_keeps ops v1 Hv1) as Hvf.
  unfold consume. rewrite Hn. destruct (list_find _ _) as [[i [id' e]]|] eqn:E.
  - apply list_find_Some in E as (Hi & Ei & _). simpl in Ei. subst id'.
    apply list_elem_of_lookup_2 in Hi.
    rewrite (queue_entry_inj _ id e (mkNonce (EncodeToString r) (t0 + nonceTTL)) (q_ids _ _ (v_table _ Hvf)) Hi).
    2:{ rewrite Eq. set_solver. }
    cbn [fst ne_expires]. by apply Z.ltb_lt.
  - rewrite list_find_None, Eq in E. apply Forall_app in E as [_ [E _]%Forall_cons]. done.
Qed.

Lemma fresh_nonce_accepted_witness :
  (consume 9 (EncodeToString [1]) (nonce_run ([VIssue [3] 0] ++ [VIssue [1] 1] ++ [VIssue [2] 2; VUse (EncodeToString [3]) 5]) New_verifier).2).1 = true.
Proof.
  apply (fresh_nonce_accepted [VIssue [3] 0] [1] 1 [VIssue [2] 2; VUse (EncodeToString [3]) 5] 9);
    first [done | repeat constructor; vm_compute; congruence | vm_compute; reflexivity].
Defined.

(** ** Verified requests *)

(** What go-jose documents: which keys are public, and that the payload of a
    verified message is the payload field, signed together with the protected
    header.  [signs alg key input signature] is the validity of a signature. *)
Class JoseLaws `{JoseLib} := {
  signs : bytes -> public_key -> bytes -> bytes -> Prop;
  jose_public : forall k, match jwk_Key k with
                          | EcdsaKey (Some _) | RsaKey (Some _) | Ed25519Key _ => jwk_IsPublic k = true
                          | _ => True
                          end;
  jose_verified : forall data alg signed key content envelope protected payload signature,
    ParseSignedJSON data [alg] = Some signed -> signed_Verify signed key = Some content ->
    object data = Some envelope -> stringValue (envelope !! str "protected") = Some protected ->
    stringValue (envelope !! str "payload") = Some payload ->
    stringValue (envelope !! str "signature") = Some signature ->
    DecodeString payload = Some content /\
    exists sig, DecodeString signature = Some sig /\ signs alg key (protected ++ [DOT] ++ payload) sig }.

(** The three fields of a flattened JWS and its protected header. *)
Definition jws_form (data protected payload signature : bytes) (header : gmap bytes bytes) : Prop :=
  exists envelope p, object data = Some envelope /\ size envelope = 3%nat /\
    stringValue (envelope !! str "protected") = Some protected /\
    stringValue (envelope !! str "payload") = Some payload /\
    stringValue (envelope !! str "signature") = Some signature /\
    DecodeString protected = Some p /\ object p = Some header.

Section verified.
Context `{JoseLaws}.

Lemma envelopeField_ok envelope name r : envelopeField envelope name = Ok r ->
  stringValue (envelope !! str name) = Some r.1 /\ DecodeString r.1 = Some r.2.
Proof.
  unfold envelopeField. destruct (stringValue _) as [encoded|]; [|done]. destruct (_ && _); [done|].
  destruct (DecodeString encoded) as [d|] eqn:E; [|done]. destruct (beq _ _); [|done]. by intros [= <-].
Qed.

Lemma protectedHeader_ok data header : protectedHeader data = Ok header ->
  exists protected payload signature, jws_form data protected payload signature header.
Proof.
  unfold protectedHeader. destruct (object data) as [envelope|] eqn:Eo; [|done].
  destruct (size envelope =? 3)%nat eqn:Es; [|done]. cbn [negb].
  destruct (envelopeField envelope "protected") as [p|] eqn:E1; [|done].
  destruct (envelopeField envelope "payload") as [b|] eqn:E2; [|done].
  destruct (envelopeField envelope "signature") as [s|] eqn:E3; [|done].
  destruct (object p.2) as [h|] eqn:Eh; [|done]. intros [= <-].
  apply envelopeField_ok in E1 as [? ?], E2 as [? _], E3 as [? _].
  exists p.1, b.1, s.1, envelope, p.2. apply Nat.eqb_eq in Es. done.
Qed.

Lemma Thumbprint_ok key t : auth_Thumbprint key = Some t -> validPublicKey key = true /\ jwk_IsPublic key = true.
Proof.
  unfold auth_Thumbprint. destruct (validPublicKey key) eqn:E; [|done]. cbn [negb]. intros _. split; [done|].
  pose proof (jose_public key) as Hp. revert E. unfold validPublicKey. destruct (_ && _); [done|].
  destruct (jwk_Key key) as [[?|]|[?|]|?|]; done.
Qed.

(** Where the key of a request comes from. *)
Definition key_origin (header : gmap bytes bytes) (lookup : option (bytes -> Prelude.result lookup_error JSONWebKey))
    (req : Request) : Prop :=
  (exists raw fields, header !! str "jwk" = Some raw /\ header !! str "kid" = None /\ KeyID req = [] /\
     jwk_Unmarshal raw = Some (req_Key req) /\ object raw = Some fields /\
     forall name, name ∈ privateFields -> fields !! name = None) \/
  (exists f, lookup = Some f /\ header !! str "jwk" = None /\ KeyID req <> [] /\
     stringValue (header !! str "kid") = Some (KeyID req) /\ f (KeyID req) = Ok (req_Key req)).

Lemma requestKey_ok header lookup key kid r : requestKey header lookup = Ok (key, kid) ->
  bool_decide (is_Some (header !! str "jwk")) = negb (bool_decide (is_Some (header !! str "kid"))) ->
  req_Key r = key -> KeyID r = kid -> key_origin header lookup r.
Proof.
  unfold requestKey, parseKey. intros Hk Hx E1 E2. destruct (header !! str "jwk") as [raw|] eqn:Ej.
  - left. destruct (object raw) as [fields|] eqn:Eo; [|done]. destruct (existsb _ _) eqn:Ep; [done|].
    destruct (jwk_Unmarshal raw) as [k|] eqn:Eu; [|done]. injection Hk as -> <-. exists raw, fields.
    split; [done|]. split; [|split; [exact E2|split; [rewrite E1; exact Eu|split; [done|]]]].
    + destruct (header !! str "kid"); [|done]. by rewrite !bool_decide_eq_true_2 in Hx by by eexists.
    + intros name Hn. destruct (fields !! name) eqn:Ef; [|done]. exfalso.
      assert (Ht : existsb (fun name => bool_decide (is_Some (fields !! name))) privateFields = true).
      { apply existsb_exists. exists name. split; [by apply list_elem_of_In|]. rewrite Ef. by apply bool_decide_eq_true_2. }
      congruence.
  - right. destruct (stringValue _) as [k|] eqn:Es; [|done]. destruct (beq k []) eqn:Ek; [done|]. apply beq_false in Ek.
    destruct lookup as [f|]; [|done]. destruct (f k) as [key'|[]] eqn:Ef; [|done|done]. injection Hk as <- <-.
    exists f. split; [done|]. split; [done|]. rewrite E2, E1. done.
Qed.

(** What [verifyHeader] established. *)
Lemma verifyHeader_ok data url header inner lookup req :
  verifyHeader data url header inner lookup = Ok req ->
  stringValue (header !! str "url") = Some url /\
  (exists alg signed, stringValue (header !! str "alg") = Some alg /\ supportedAlgorithm alg = true /\
     keySupportsAlgorithm (req_Key req) alg = true /\
     ParseSignedJSON data [alg] = Some signed /\ signed_Verify signed (jwk_Key (req_Key req)) = Some (Payload req)) /\
  key_origin header lookup req /\ req_ok req.
Proof.
  unfold verifyHeader. destruct (stringValue (header !! str "url")) as [u|]; [|done].
  destruct (beq u []); [done|]. destruct (beq u url) eqn:Eu; [|done]. apply beq_true in Eu as ->. cbn [negb].
  destruct (existsb _ _); [done|]. destruct (match header !! str "b64" with Some _ => _ | None => _ end); [done|].
  destruct (stringValue (header !! str "alg")) as [alg|] eqn:Ea; [|done].
  destruct (supportedAlgorithm alg) eqn:Esup; [|done]. cbn [negb].
  destruct (eqb _ _ || _) eqn:Ex; [done|]. apply orb_false_iff in Ex as [Ex _].
  destruct (requestKey header lookup) as [[key kid]|] eqn:Ek; [|done].
  destruct (auth_Thumbprint key) as [thumb|] eqn:Et; [|done].
  destruct (keySupportsAlgorithm key alg) eqn:Eks; [|done]. cbn [negb].
  destruct (ParseSignedJSON data [alg]) as [signed|] eqn:Eps; [|done].
  destruct (Signatures signed =? 1)%nat; [|done]. cbn [negb].
  destruct (signed_Verify signed (jwk_Key key)) as [payload|] eqn:Ev; [|done]. intros [= <-].
  split; [done|]. split; [by exists alg, signed|]. split.
  - eapply requestKey_ok; [exact Ek| |done|done]. revert Ex. by do 2 case_bool_decide.
  - split; [exact Et|]. by apply (Thumbprint_ok key thumb).
Qed.

(** The interface the server is proved against: the inner request of a key change
    is a verified one. *)
Lemma inner_verified data url inner : auth_VerifyKeyChange data url = Ok inner -> req_ok inner.
Proof.
  unfold auth_VerifyKeyChange. destruct (_ <? _); [done|]. destruct (protectedHeader data) as [h|]; [|done].
  destruct (bool_decide _); [done|]. intros Hv. by apply verifyHeader_ok in Hv as (_ & _ & _ & ?).
Qed.

End verified.

(** ** Requests of accounts *)

(** The lookup the server gives to its verifier. *)
Definition acme_lookup `{JoseLib} (c : AcmeConfig) (s : AcmeServer) (kid : bytes) : Prelude.result lookup_error JSONWebKey :=
  match lookupKey c s kid with Some key => Ok key | None => Err UnknownAccount end.

(** C3: A request that passes verification is authentic: it is a flattened JWS whose
    signed header names this very resource and a nonce that was outstanding, is
    used up now and was not expired; its payload and header carry a valid signature,
    by an algorithm that suits the key, of the embedded public key or of the key on
    record for the account it names; and its thumbprint is that of the key. *)
Theorem verified_request `{JoseLaws} (c : AcmeConfig) (s : AcmeServer) now data resource v req v' :
  verify now data resource (Some (acme_lookup c s)) v = (Ok req, v') ->
  exists protected payload signature header nonce alg sig,
    jws_form data protected payload signature header /\
    stringValue (header !! str "url") = Some resource /\
    stringValue (header !! str "nonce") = Some nonce /\ consume now nonce v = (true, v') /\ v_nonces v' !! nonce = None /\
    stringValue (header !! str "alg") = Some alg /\ alg ∈ algorithms /\ keySupportsAlgorithm (req_Key req) alg = true /\
    DecodeString payload = Some (Payload req) /\ DecodeString signature = Some sig /\
    signs alg (jwk_Key (req_Key req)) (protected ++ [DOT] ++ payload) sig /\ req_ok req /\
    ((KeyID req = [] /\ exists raw, header !! str "jwk" = Some raw /\ jwk_Unmarshal raw = Some (req_Key req)) \/
     (stringValue (header !! str "kid") = Some (KeyID req) /\
      exists id a, Accounts (s_state s) !! id = Some a /\ KeyID req = url c (str "/account/" ++ id) /\ acc_Key a = req_Key req)).
Proof.
  unfold verify. destruct (protectedHeader data) as [header|] eqn:Eh; [|done].
  destruct (stringValue (header !! str "nonce")) as [nonce|] eqn:En; [|done]. destruct (beq nonce []); [done|].
  destruct (consume now nonce v) as [[] v1] eqn:Ec; cbn [negb]; [|done]. intros [= Hv <-].
  apply protectedHeader_ok in Eh as (protected & payload & signature & Hform).
  apply verifyHeader_ok in Hv as (Hu & (alg & signed & Ha & Hsup & Hks & Hps & Hver) & Hor & Hreq).
  destruct Hform as (envelope & p & Ho & Hs3 & Hp1 & Hp2 & Hp3 & Hd & Hh).
  destruct (jose_verified _ _ _ _ _ _ _ _ _ Hps Hver Ho Hp1 Hp2 Hp3) as (Hpay & sig & Hsig & Hok).
  exists protected, payload, signature, header, nonce, alg, sig.
  split; [by exists envelope, p|]. split; [done|]. split; [done|]. split; [done|]. split.
  { revert Ec. unfold consume. destruct (v_nonces v !! nonce); [|done].
    destruct (list_find _ _) as [[? [? ?]]|]; intros [= _ <-]; apply lookup_delete_eq. }
  split; [done|]. split; [by apply bool_decide_eq_true_1 in Hsup|]. split; [done|]. split; [done|]. split; [done|].
  split; [done|]. split; [done|].
  destruct Hor as [(raw & fields & Hj & _ & Hk & Hun & _)|(f & [= <-] & _ & _ & Hk & Hf)].
  - left. split; [done|]. by exists raw.
  - right. split; [done|]. revert Hf. unfold acme_lookup, lookupKey.
    destruct (Accounts (s_state s) !! _) as [a|] eqn:Ea'; [|done]. destruct (beq _ _) eqn:Eb; [|done].
    apply beq_true in Eb. intros [= Ek]. eexists _, a. split; [exact Ea'|]. split; [exact Eb|exact Ek].
Qed.

(** A signature scheme for the witness: the one-byte signature 1 is always
    valid. *)
#[local] Instance toy_curves : Curves := {| onCurve _ _ _ := true |}.
#[local] Instance toy_jose : JoseLib := {|
  jwk_Unmarshal _ := Some (mkJWK (Ed25519Key (replicate 32 0)) [] []);
  jwk_Thumbprint _ := Some [7]; jwk_IsPublic _ := true;
  SignedJWS := bytes; ParseSignedJSON data _ := Some data; Signatures _ := 1%nat;
  signed_Verify data _ :=
    match object data with
    | Some e =>
        match stringValue (e !! str "signature"), stringValue (e !! str "payload") with
        | Some s, Some p => if bool_decide (DecodeString s = Some [1]) then DecodeString p else None
        | _, _ => None
        end
    | None => None
    end |}.
#[local] Instance toy_jose_laws : JoseLaws.
Proof.
  apply (Build_JoseLaws _ _ (fun _ _ _ sig => sig = [1])).
  - intros k. by destruct (jwk_Key k) as [[]|[]| |].
  - intros data alg signed key content envelope protected payload signature [= <-] Hv Ho _ Hp Hs.
    revert Hv. cbn [signed_Verify toy_jose]. rewrite Ho, Hp, Hs. case_bool_decide; [|done]. intros ->.
    split; [done|]. by exists [1].
Defined.

Definition toy_server : AcmeServer := mkAcmeServer ∅ (mkAcmeState ∅ 1 [] [] ∅ ∅ ∅ ∅ [] 0 0) 0 FMissing.
Definition toy_config : AcmeConfig := mkAcmeConfig (str "https://g/acme") (str "g") [].
Definition toy_nonces : Verifier := (Nonce (Some [5; 6]) 0 New_verifier).2.
Definition toy_data : bytes :=
  json_text "{'payload':'" ++ EncodeToString (str "{}") ++ json_text "','protected':'"
  ++ EncodeToString (json_text "{'alg':'EdDSA','nonce':'" ++ EncodeToString [5; 6]
                     ++ json_text "','url':'https://g/acme/x','jwk':{'kty':'OKP'}}")
  ++ json_text "','signature':'" ++ EncodeToString [1] ++ json_text "'}".

Definition toy_used : Verifier := mkVerifier ∅ [] 1.

Definition toy_verify (now : time) (v : Verifier) : Prelude.result (option auth_error) Request * Verifier :=
  verify now toy_data (str "https://g/acme/x") (Some (acme_lookup toy_config toy_server)) v.

(** What the witness expects, as a test. *)
Definition toy_expected (x : Prelude.result (option auth_error) Request * Verifier) : bool :=
  match x.1 with Ok req => beq (Payload req) (str "{}") | Err _ => false end
  && bool_decide (v_nonces x.2 = ∅) && bool_decide (length (v_queue x.2) = 0%nat) && (v_next x.2 =? 1)%nat.

Lemma toy_expected_ok x : toy_expected x = true -> exists req, x = (Ok req, toy_used) /\ Payload req = str "{}".
Proof.
  destruct x as [[req|e] [m q n]]; unfold toy_expected; cbn [fst snd v_nonces v_queue v_next]; intros Hx; bool_hyps; [|done].
  match goal with Hn : (n =? 1)%nat = true |- _ => apply Nat.eqb_eq in Hn as -> end.
  destruct q; [|done]. exists req. subst m. split; [done|]. by apply beq_true.
Qed.

Lemma verified_request_witness :
  (exists req, toy_verify 9 toy_nonces = (Ok req, toy_used) /\ Payload req = str "{}" /\ req_ok req) /\
  is_ok (toy_verify 10 toy_used).1 = false.
Proof.
  split; [|vm_compute; reflexivity].
  destruct (toy_expected_ok (toy_verify 9 toy_nonces)) as (req & E & Hp); [vm_compute; reflexivity|].
  exists req. split; [exact E|]. split; [exact Hp|].
  pose proof (verified_request toy_config toy_server 9 toy_data (str "https://g/acme/x") toy_nonces req toy_used E) as Hv.
  destruct Hv as (p & b & s & h & n & a & sig & _ & _ & _ & _ & _ & _ & _ & _ & _ & _ & _ & Hreq & _). exact Hreq.
Defined.
