(* ===== verification/Pki.v ===== *)
(** * pki: the private certificate authority

    csr.go, manager.go and persistence.go.  crypto/x509, crypto/tls and
    encoding/pem are the class [PkiLib]: certificates are records of the fields the
    code reads, and what the library documents about creating and parsing them is
    stated in PkiProps.  The directory of the CA is a map of files; every step of
    writing one may fail.  One call reads the clock once. *)

From stdpp Require Import gmap list strings sorting.
From Stdlib Require Import ZArith Lia.
From S2P Require Import Prelude GoStrings GoNet GoAddr GoPath GoKeys GoAsn1 Names Lease AcmeState.

(** ** Code outside the repository *)

(** [x509.Certificate], as far as it is read again; also a template. *)
Record Certificate := mkCert {
  c_Raw : bytes; c_SerialNumber : Z; c_Subject : bytes; c_NotBefore : time; c_NotAfter : time; c_IsCA : bool;
  c_BasicConstraintsValid : bool; c_KeyUsage : Z; c_ExtKeyUsage : list Z; c_DNSNames : list bytes;
  c_IPAddresses : list bytes; c_CRLDistributionPoints : list bytes; c_RawSubject : bytes; c_RawIssuer : bytes;
  c_Unhandled : nat; c_PublicKey : public_key }.

Definition KeyUsageDigitalSignature : Z := 1.
Definition KeyUsageKeyEncipherment : Z := 4.
Definition KeyUsageCertSign : Z := 32.
Definition KeyUsageCRLSign : Z := 64.
Definition ExtKeyUsageServerAuth : Z := 1.

(** [x509.CertificateRequest]: an extension has its OID, whether it is critical,
    and its value; a subject attribute that is not a string has no value. *)
Record extension := mkExtension { x_Id : list Z; x_Critical : bool; x_Value : bytes }.
Record CertificateRequest := mkCSR {
  csr_PublicKey : public_key; csr_Extensions : list extension; csr_DNSNames : list bytes;
  csr_SubjectNames : list (list Z * option bytes) }.

(** An entry of a revocation list; the serial may be a nil pointer. *)
Record RevocationEntry := mkRevocation { re_Serial : option Z; re_Time : time; re_Reason : Z }.

Class PkiLib `{Curves} := {
  PrivateKey : Type;
  Public : PrivateKey -> public_key;
  isP256 : PrivateKey -> bool;
  CreateCertificate : Certificate -> Certificate -> public_key -> PrivateKey -> option bytes;
  ParseCert : bytes -> option Certificate;
  CheckSignatureFrom : Certificate -> Certificate -> bool;
  VerifyChain : Certificate -> time -> Certificate -> bool;
  X509KeyPair : bytes -> option (bytes * PrivateKey);
  MarshalPKCS8 : PrivateKey -> option bytes;
  pemEncode : string -> bytes -> bytes;
  pem_Decode : bytes -> option (bytes * bool * bytes * bytes);
  ParseCSR : bytes -> option CertificateRequest;
  CheckCSRSignature : CertificateRequest -> bool;
  CreateRevocationList : Z -> time -> time -> list RevocationEntry -> Certificate -> PrivateKey -> option bytes;
  addTenYears : time -> time }.

(** ** CSR policy *)

Definition oidSubjectAltName : list Z := [2; 5; 29; 17].
Definition oidCommonName : list Z := [2; 5; 4; 3].

Definition validateCSRKey `{Curves} (key : public_key) : bool := supportedKey key.

(** The names of a SAN sequence: [None] when one is malformed, otherwise whether
    all are DNS names. *)
Fixpoint sanNames (fuel : nat) (data : bytes) : option bool :=
  match data with
  | [] => Some true
  | _ =>
      match asn1_Unmarshal data with
      | None => None
      | Some (name, rest) =>
          if negb (rv_Class name =? ClassContextSpecific) || negb (rv_Tag name =? 2) || rv_IsCompound name then Some false
          else match fuel with O => None | S k => sanNames k rest end
      end
  end.

Inductive csr_error := CriticalExtension | MalformedSAN | ParseSAN | NotDNSName | NameCount
  | AuthorizedName (name : bytes) | RequestedName (name : bytes) | CommonName.

Definition validateExtension (ext : extension) : option csr_error :=
  if negb (bool_decide (x_Id ext = oidSubjectAltName)) then (if x_Critical ext then Some CriticalExtension else None)
  else match asn1_Unmarshal (x_Value ext) with
       | None => Some MalformedSAN
       | Some (sequence, rest) =>
           if negb (beq rest []) || negb (rv_Class sequence =? ClassUniversal) || negb (rv_Tag sequence =? TagSequence)
              || negb (rv_IsCompound sequence) then Some MalformedSAN
           else match sanNames (length (rv_Bytes sequence)) (rv_Bytes sequence) with
                | None => Some ParseSAN
                | Some false => Some NotDNSName
                | Some true => None
                end
       end.

Fixpoint validateCSRExtensions (extensions : list extension) : option csr_error :=
  match extensions with
  | [] => None
  | ext :: rest => match validateExtension ext with Some e => Some e | None => validateCSRExtensions rest end
  end.

(** [pki.Config]. *)
Record PkiConfig := mkPkiConfig { k_Directory : bytes; k_Domain : bytes; k_ServerIP : Addr; k_CRLURL : bytes }.

(** [Manager.certificateName]. *)
Definition certificateName (cfg : PkiConfig) (hostname name : bytes) : bytes :=
  if existsb (fun c => 127 <? c) (runes name) then []
  else
    let name := ToLower (TrimSuffix name [DOT]) in
    if bool_decide (is_Some (ParseAddr name)) then []
    else
      let canonical := TrimSuffix (NormalizeHostname name (k_Domain cfg)) [DOT] in
      let domain := TrimPrefix hostname (str "gateway.") in
      if beq name [] || negb (beq canonical name) || beq name hostname || beq name (str "ns." ++ domain)
         || beq name (str "ldap." ++ domain) then []
      else canonical.

(** The loop over the authorized names of [csrNames]. *)
Fixpoint authorizeNames (canon : bytes -> bytes) (names : list bytes) (authorized : gset bytes)
    : Prelude.result csr_error (gset bytes) :=
  match names with
  | [] => Ok authorized
  | name :: rest =>
      let canonical := canon name in
      if beq canonical [] || bool_decide (canonical ∈ authorized) then Err (AuthorizedName name)
      else authorizeNames canon rest ({[canonical]} ∪ authorized)
  end.

(** The loop over the names of the CSR. *)
Fixpoint matchNames (canon : bytes -> bytes) (names : list bytes) (authorized : gset bytes) (acc : list bytes)
    : Prelude.result csr_error (list bytes) :=
  match names with
  | [] => Ok acc
  | name :: rest =>
      let canonical := canon name in
      if beq canonical [] || negb (bool_decide (canonical ∈ authorized)) then Err (RequestedName name)
      else matchNames canon rest (authorized ∖ {[canonical]}) (acc ++ [canonical])
  end.

Definition commonNameOK (canon : bytes -> bytes) (names : list bytes) (attribute : list Z * option bytes) : bool :=
  if bool_decide (attribute.1 = oidCommonName)
  then match attribute.2 with Some cn => bool_decide (canon cn ∈ names) | None => false end
  else true.

Definition names_le (a b : bytes) : Prop := bytes_compare a b <> Gt.
#[export] Instance names_le_dec : RelDecision names_le.
Proof. intros a b. unfold names_le. apply _. Defined.

(** [Manager.csrNames]. *)
Definition csrNames (cfg : PkiConfig) (hostname : bytes) (csr : CertificateRequest) (authorizedNames : list bytes)
    : Prelude.result csr_error (list bytes) :=
  let canon := certificateName cfg hostname in
  if (len authorizedNames =? 0) || (100 <? len authorizedNames) || negb (len (csr_DNSNames csr) =? len authorizedNames)
  then Err NameCount
  else
    authorized <-! authorizeNames canon authorizedNames ∅ ;
    names <-! matchNames canon (csr_DNSNames csr) authorized [] ;
    if negb (forallb (commonNameOK canon names) (csr_SubjectNames csr)) then Err CommonName
    else Ok (merge_sort names_le names).

(** ** The manager *)

Definition rootBundleName : bytes := str "root-ca-bundle.pem".
Definition leafBundleName : bytes := str "gateway-bundle.pem".
Definition ldapBundleName : bytes := str "ldap-bundle.pem".
Definition rootPublicName : bytes := str "root-ca.pem".
Definition leafLifetime : duration := 90 * 24 * hour.
Definition renewBefore : duration := 30 * 24 * hour.
Definition clockSkew : duration := 5 * minute.

(** A file of the CA directory: whether it is regular, its permission bits and its
    contents, if they can be read. *)
Record pki_file := mkPkiFile { pf_regular : bool; pf_perm : Z; pf_data : option bytes }.
Abbreviation pki_disk := (gmap bytes pki_file).

(** The steps of [writeFile], in order. *)
Inductive write_step := WCreateTemp | WChmod | WWrite | WSync | WClose | WPublish | WOpenDir | WSyncDir.

Definition published (s : write_step) : bool := match s with WOpenDir | WSyncDir => true | _ => false end.

(** [writeFile], failing at [fail] if anywhere: the file is in place from the
    rename or link on; a link does not replace a file.  True is success. *)
Definition writeFile (fail : option write_step) (name data : bytes) (mode : Z) (exclusive : bool)
    : St pki_disk bool := fun d =>
  let written := <[name := mkPkiFile true mode (Some data)]> d in
  match fail with
  | Some s =>
      if published s && negb (exclusive && bool_decide (is_Some (d !! name))) then (false, written) else (false, d)
  | None => if exclusive && bool_decide (is_Some (d !! name)) then (false, d) else (true, written)
  end.

Section pki.
Context `{PkiLib}.

Record tls_cert := mkTls { t_Leaf : Certificate; t_Key : PrivateKey }.

(** [parseBundle]: one certificate block, one key block, nothing else. *)
Fixpoint bundleBlocks (types : list string) (rest : bytes) : bool :=
  match types with
  | [] => beq rest []
  | blockType :: types =>
      if negb (HasPrefix rest (str "-----BEGIN " ++ str blockType ++ str "-----")) then false
      else match pem_Decode rest with
           | None => false
           | Some (ty, headers, _, remaining) =>
               if negb (beq ty (str blockType)) || headers then false
               else bundleBlocks types (TrimSpace remaining)
           end
  end.

Definition parseBundle (data : bytes) : option tls_cert :=
  if negb (bundleBlocks ["CERTIFICATE"; "PRIVATE KEY"]%string (TrimSpace data)) then None
  else match X509KeyPair data with
       | None => None
       | Some (der, key) =>
           if negb (isP256 key) then None
           else match ParseCert der with Some leaf => Some (mkTls leaf key) | None => None end
       end.

Inductive read_error := BundleMissing | BundleRefused.

(** [readBundle]. *)
Definition readBundle (d : pki_disk) (name : bytes) : Prelude.result read_error tls_cert :=
  match d !! name with
  | None => Err BundleMissing
  | Some f =>
      if negb (pf_regular f) || negb (Z.land (pf_perm f) 63 =? 0) then Err BundleRefused
      else match pf_data f with
           | None => Err BundleRefused
           | Some data => match parseBundle data with Some c => Ok c | None => Err BundleRefused end
           end
  end.

Record PkiManager := mkPki {
  m_cfg : PkiConfig; m_hostname : bytes; m_root : tls_cert; m_rootPEM : bytes;
  m_leaf : option tls_cert; m_ldapLeaf : option tls_cert }.

(** The surroundings of a call: the clock, whether the directory can be prepared
    and listed, and for every file the key and serial drawn for it and where
    writing it fails. *)
Record pki_env := mkPkiEnv {
  pe_now : time; pe_dir : bool; pe_readDir : bool; pe_issue : bytes -> option (PrivateKey * Z);
  pe_write : bytes -> option write_step }.

(** [validateRoot]. *)
Definition validateRoot (root : Certificate) (now : time) : bool :=
  c_IsCA root && c_BasicConstraintsValid root && negb (Z.land (c_KeyUsage root) KeyUsageCertSign =? 0)
  && beq (c_RawSubject root) (c_RawIssuer root) && CheckSignatureFrom root root
  && negb ((now <? c_NotBefore root) || negb (now <? c_NotAfter root)) && (c_Unhandled root =? 0)%nat.

(** [validateLeaf]. *)
Definition validateLeaf (root leaf : Certificate) : bool :=
  negb (c_IsCA leaf) && c_BasicConstraintsValid leaf && (c_KeyUsage leaf =? KeyUsageDigitalSignature)
  && bool_decide (c_ExtKeyUsage leaf = [ExtKeyUsageServerAuth]) && CheckSignatureFrom leaf root
  && VerifyChain root (c_NotBefore leaf) leaf.

(** [net.IP.Equal]. *)
Definition v4InV6 : bytes := replicate 10 0 ++ [255; 255].
Definition ipEqual (a b : bytes) : bool :=
  beq a b || ((len a =? 4) && beq b (v4InV6 ++ a)) || ((len b =? 4) && beq a (v4InV6 ++ b)).

(** [needsRenewal]. *)
Definition needsRenewal (cfg : PkiConfig) (root : Certificate) (cert : option tls_cert) (hostname : bytes) (now : time) : bool :=
  match cert with
  | None => true
  | Some cert =>
      let leaf := t_Leaf cert in
      if negb (bool_decide (c_DNSNames leaf = [hostname]))
         || negb (match c_IPAddresses leaf with [ip] => ipEqual ip (AsSlice (k_ServerIP cfg)) | _ => false end)
      then true
      else if (now <? c_NotBefore leaf) || negb (now <? c_NotAfter leaf) then true
      else negb (now + renewBefore <? c_NotAfter leaf) && (c_NotAfter leaf <? c_NotAfter root)
  end.

(** [issue]: the certificate and its bundle. *)
Definition issue (template : Certificate) (parent : option tls_cert) (random : option (PrivateKey * Z))
    : option (tls_cert * bytes) :=
  match random with
  | None => None
  | Some (key, serial) =>
      let t := template in
      let template := mkCert (c_Raw t) (serial + 1) (c_Subject t) (c_NotBefore t) (c_NotAfter t) (c_IsCA t)
        (c_BasicConstraintsValid t) (c_KeyUsage t) (c_ExtKeyUsage t) (c_DNSNames t) (c_IPAddresses t)
        (c_CRLDistributionPoints t) (c_RawSubject t) (c_RawIssuer t) (c_Unhandled t) (c_PublicKey t) in
      let '(signer, issuer) := match parent with Some p => (t_Key p, t_Leaf p) | None => (key, template) end in
      match CreateCertificate template issuer (Public key) signer, MarshalPKCS8 key with
      | Some der, Some keyDER =>
          let bundle := pemEncode "CERTIFICATE" der ++ pemEncode "PRIVATE KEY" keyDER in
          match parseBundle bundle with Some cert => Some (cert, bundle) | None => None end
      | _, _ => None
      end
  end.

(** A template with the fields the code sets. *)
Definition template (subject : bytes) (notBefore notAfter : time) (isCA : bool) (usage : Z) (ext : list Z)
    (names ips crl : list bytes) : Certificate :=
  mkCert [] 0 subject notBefore notAfter isCA true usage ext names ips crl [] [] 0 UnknownKey.

(** [createRoot]. *)
Definition createRoot (e : pki_env) : St pki_disk (option tls_cert) := fun d =>
  let t := template (str "Infrastructure-in-a-Box Root CA") (pe_now e - clockSkew) (addTenYears (pe_now e)) true
             (Z.lor KeyUsageCertSign KeyUsageCRLSign) [] [] [] [] in
  match issue t None (pe_issue e rootBundleName) with
  | None => (None, d)
  | Some (cert, bundle) =>
      let '(ok, d) := writeFile (pe_write e rootBundleName) rootBundleName bundle 384 true d in
      (if ok : bool then Some cert else None, d)
  end.

(** [issueLeaf]. *)
Definition issueLeaf (e : pki_env) (cfg : PkiConfig) (root : tls_cert) (hostname bundleName : bytes)
    : St pki_disk (option tls_cert) := fun d =>
  let notBefore := Z.max (pe_now e - clockSkew) (c_NotBefore (t_Leaf root)) in
  let notAfter := Z.min (pe_now e + leafLifetime) (c_NotAfter (t_Leaf root)) in
  let t := template hostname notBefore notAfter false KeyUsageDigitalSignature [ExtKeyUsageServerAuth] [hostname]
             [AsSlice (k_ServerIP cfg)] [] in
  match issue t (Some root) (pe_issue e bundleName) with
  | None => (None, d)
  | Some (cert, bundle) =>
      let '(ok, d) := writeFile (pe_write e bundleName) bundleName bundle 384 false d in
      (if ok : bool then Some cert else None, d)
  end.

Inductive pki_error :=
| BadPkiDomain | BadServerIP | NoDirectory | BadDirectory | RootMissing | BadRootBundle | CreateRootFailed | InvalidRoot
| ExportFailed | BadLeafBundle | InvalidLeaf | IssueFailed
| CSRSize | ParseRequest | BadRequestKey | BadRequestSignature | RequestExtension (e : csr_error) | RequestNames (e : csr_error)
| SerialFailed | SigningFailed | VerificationFailed | CRLNumberInvalid | CRLEntryInvalid.

(** [serviceCertificate], with the certificate held so far: the one returned, and
    the one held afterwards. *)
Definition serviceCertificate (e : pki_env) (cfg : PkiConfig) (root : tls_cert) (hostname bundleName : bytes)
    (current : option tls_cert) : St pki_disk (Prelude.result pki_error tls_cert * option tls_cert) := fun d =>
  if negb (validateRoot (t_Leaf root) (pe_now e)) then ((Err InvalidRoot, current), d)
  else
    let loaded :=
      match current with
      | Some c => Ok (Some c)
      | None =>
          match readBundle d bundleName with
          | Err BundleMissing => Ok None
          | Err BundleRefused => Err BadLeafBundle
          | Ok cert => if validateLeaf (t_Leaf root) (t_Leaf cert) then Ok (Some cert) else Err InvalidLeaf
          end
      end in
    match loaded with
    | Err err => ((Err err, None), d)
    | Ok current =>
        if needsRenewal cfg (t_Leaf root) current hostname (pe_now e) then
          let '(r, d) := issueLeaf e cfg root hostname bundleName d in
          match r with
          | Some cert => ((Ok cert, Some cert), d)
          | None => ((Err IssueFailed, current), d)
          end
        else match current with
             | Some cert => ((Ok cert, Some cert), d)
             | None => ((Err IssueFailed, None), d)
             end
    end.

(** [GetCertificate] and [GetLDAPCertificate]. *)
Definition GetCertificate (e : pki_env) (m : PkiManager) : St pki_disk (Prelude.result pki_error tls_cert * PkiManager) := fun d =>
  let '((r, leaf), d) := serviceCertificate e (m_cfg m) (m_root m) (m_hostname m) leafBundleName (m_leaf m) d in
  ((r, mkPki (m_cfg m) (m_hostname m) (m_root m) (m_rootPEM m) leaf (m_ldapLeaf m)), d).

Definition ldapHostname (m : PkiManager) : bytes := str "ldap." ++ TrimPrefix (m_hostname m) (str "gateway.").

Definition GetLDAPCertificate (e : pki_env) (m : PkiManager) : St pki_disk (Prelude.result pki_error tls_cert * PkiManager) := fun d =>
  let '((r, leaf), d) := serviceCertificate e (m_cfg m) (m_root m) (ldapHostname m) ldapBundleName (m_ldapLeaf m) d in
  ((r, mkPki (m_cfg m) (m_hostname m) (m_root m) (m_rootPEM m) (m_leaf m) leaf), d).

(** The root of [open]: read, or created in an empty directory. *)
Definition openRoot (e : pki_env) : St pki_disk (Prelude.result pki_error tls_cert) := fun d =>
  match readBundle d rootBundleName with
  | Ok root => (Ok root, d)
  | Err BundleRefused => (Err BadRootBundle, d)
  | Err BundleMissing =>
      if negb (pe_readDir e) then (Err BadDirectory, d)
      else if negb (bool_decide (d = ∅)) then (Err RootMissing, d)
      else let '(r, d) := createRoot e d in
           (match r with Some root => Ok root | None => Err CreateRootFailed end, d)
  end.

(** [open]. *)
Definition Open (e : pki_env) (cfg : PkiConfig) : St pki_disk (Prelude.result pki_error PkiManager) := fun d =>
  let hostname := TrimSuffix (NormalizeHostname (str "gateway") (k_Domain cfg)) [DOT] in
  if beq hostname [] then (Err BadPkiDomain, d)
  else if negb (IsValid (k_ServerIP cfg)) || IsUnspecified (k_ServerIP cfg) || IsMulticast (k_ServerIP cfg)
          || negb (beq (addr_zone (k_ServerIP cfg)) []) then (Err BadServerIP, d)
  else
    let cfg := mkPkiConfig (k_Directory cfg) (k_Domain cfg) (Unmap (k_ServerIP cfg)) (k_CRLURL cfg) in
    if beq (TrimSpace (k_Directory cfg)) [] then (Err NoDirectory, d)
    else if negb (pe_dir e) then (Err BadDirectory, d)
    else
      let '(r, d) := openRoot e d in
      match r with
      | Err err => (Err err, d)
      | Ok root =>
          if negb (validateRoot (t_Leaf root) (pe_now e)) then (Err InvalidRoot, d)
          else
            let rootPEM := pemEncode "CERTIFICATE" (c_Raw (t_Leaf root)) in
            let '(ok, d) := writeFile (pe_write e rootPublicName) rootPublicName rootPEM 420 false d in
            if negb (ok : bool) then (Err ExportFailed, d)
            else
              let '((r, m), d) := GetCertificate e (mkPki cfg hostname root rootPEM None None) d in
              (match r with Ok _ => Ok m | Err err => Err err end, d)
      end.

(** ** Signing *)

(** [SignCSR], with the serial drawn, if any. *)
Definition SignCSR (m : PkiManager) (now : time) (serial : option Z) (csrDER : bytes) (authorizedNames : list bytes)
    : Prelude.result pki_error bytes :=
  if (len csrDER =? 0) || (65536 <? len csrDER) then Err CSRSize
  else match ParseCSR csrDER with
  | None => Err ParseRequest
  | Some csr =>
  if negb (validateCSRKey (csr_PublicKey csr)) then Err BadRequestKey
  else if negb (CheckCSRSignature csr) then Err BadRequestSignature
  else match validateCSRExtensions (csr_Extensions csr) with
  | Some err => Err (RequestExtension err)
  | None =>
  match csrNames (m_cfg m) (m_hostname m) csr authorizedNames with
  | Err err => Err (RequestNames err)
  | Ok names =>
  let root := t_Leaf (m_root m) in
  if negb (validateRoot root now) then Err InvalidRoot
  else match serial with
  | None => Err SerialFailed
  | Some serial =>
  let notBefore := Z.max (now - clockSkew) (c_NotBefore root) in
  let notAfter := Z.min (now + leafLifetime) (c_NotAfter root) in
  let usage := match csr_PublicKey csr with
               | RsaKey _ => Z.lor KeyUsageDigitalSignature KeyUsageKeyEncipherment
               | _ => KeyUsageDigitalSignature
               end in
  let t := template (nth 0 names []) notBefore notAfter false usage [ExtKeyUsageServerAuth] names []
             (if beq (k_CRLURL (m_cfg m)) [] then [] else [k_CRLURL (m_cfg m)]) in
  let t := mkCert (c_Raw t) (serial + 1) (c_Subject t) (c_NotBefore t) (c_NotAfter t) (c_IsCA t)
    (c_BasicConstraintsValid t) (c_KeyUsage t) (c_ExtKeyUsage t) (c_DNSNames t) (c_IPAddresses t)
    (c_CRLDistributionPoints t) (c_RawSubject t) (c_RawIssuer t) (c_Unhandled t) (c_PublicKey t) in
  match CreateCertificate t root (csr_PublicKey csr) (t_Key (m_root m)) with
  | None => Err SigningFailed
  | Some der =>
  match ParseCert der with
  | None => Err SigningFailed
  | Some leaf =>
  if negb (VerifyChain root now leaf) then Err VerificationFailed
  else Ok (pemEncode "CERTIFICATE" der ++ m_rootPEM m)
  end end end end end end.

(** The entries of [CreateCRL]. *)
Fixpoint cleanEntries (now : time) (entries : list RevocationEntry) (seen : gset Z) : bool :=
  match entries with
  | [] => true
  | entry :: rest =>
      match re_Serial entry with
      | None => false
      | Some serial =>
          if (serial <=? 0) || bool_decide (serial ∈ seen) then false
          else if (re_Time entry =? zeroTime) || (now <? re_Time entry) || (re_Reason entry <? 0) || (10 <? re_Reason entry)
                  || (re_Reason entry =? 7) then false
          else cleanEntries now rest ({[serial]} ∪ seen)
      end
  end.

(** [CreateCRL]. *)
Definition CreateCRL (m : PkiManager) (now : time) (entries : list RevocationEntry) (number : Z)
    : Prelude.result pki_error bytes :=
  let root := t_Leaf (m_root m) in
  if number <=? 0 then Err CRLNumberInvalid
  else if negb (validateRoot root now) then Err InvalidRoot
  else if negb (cleanEntries now entries ∅) then Err CRLEntryInvalid
  else
    let next := Z.min (now + 24 * hour) (c_NotAfter root) in
    match CreateRevocationList number now next entries root (t_Key (m_root m)) with
    | Some der => Ok der
    | None => Err SigningFailed
    end.

End pki.
