(* ===== verification/PkiProps.v ===== *)
(** * pki: theorems *)

From stdpp Require Import gmap list strings sorting.
From Stdlib Require Import ZArith Lia.
From S2P Require Import Prelude GoStrings GoNet GoAddr GoPath GoKeys GoAsn1 Names Lease AcmeState Pki.

(** ** Names *)

(** The length of the SAN sequence is enough fuel to scan it. *)
Lemma sanNames_fuel n : forall m data, (length data <= n)%nat -> (length data <= m)%nat -> sanNames n data = sanNames m data.
Proof.
  induction n as [|n IH]; intros m data Hn Hm; (destruct data as [|b data]; [by destruct m|]); [cbn in Hn; lia|].
  destruct m as [|m]; [cbn in Hm; lia|]. cbn [sanNames]. destruct (asn1_Unmarshal _) as [[name rest]|] eqn:E; [|done].
  apply asn1_Unmarshal_length in E. rewrite (IH m rest) by lia. done.
Qed.

Lemma authorizeNames_ok canon names : forall acc out, authorizeNames canon names acc = Ok out <->
  Forall (fun n => canon n <> []) names /\ NoDup (map canon names) /\
  Forall (fun n => n ∉ acc) (map canon names) /\ out = list_to_set (map canon names) ∪ acc.
Proof.
  induction names as [|n names IH]; intros acc out; cbn [authorizeNames map].
  { split; [intros [= <-]|intros (_ & _ & _ & ->)].
    - repeat split; try constructor. set_solver.
    - f_equal. set_solver. }
  destruct (beq (canon n) []) eqn:Eb; cbn [orb].
  { apply beq_true in Eb. split; [done|]. intros ([Hn _]%Forall_cons & _). done. }
  apply beq_false in Eb. case_bool_decide as Ha.
  { split; [done|]. intros (_ & _ & [Hn _]%Forall_cons & _). done. }
  rewrite IH, !Forall_cons, NoDup_cons. split.
  - intros (H1 & H2 & H3 & ->). rewrite Forall_forall in H3. repeat split; try done.
    + intros Hin. specialize (H3 _ Hin). set_solver.
    + apply Forall_forall. intros x Hx. specialize (H3 _ Hx). set_solver.
    + cbn [list_to_set]. set_solver.
  - intros ([_ H1] & [Hn H2] & [_ H3] & ->). rewrite Forall_forall in H3. repeat split; try done.
    + apply Forall_forall. intros x Hx. specialize (H3 _ Hx).
      assert (x <> canon n) by (by intros ->). set_solver.
    + cbn [list_to_set]. set_solver.
Qed.

Lemma matchNames_ok canon names : forall authorized acc out, matchNames canon names authorized acc = Ok out <->
  Forall (fun n => canon n <> []) names /\ NoDup (map canon names) /\
  Forall (fun n => n ∈ authorized) (map canon names) /\ out = acc ++ map canon names.
Proof.
  induction names as [|n names IH]; intros authorized acc out; cbn [matchNames map].
  { rewrite app_nil_r. split; [intros [= <-]|intros (_ & _ & _ & ->)]; [|done]. repeat split; constructor. }
  destruct (beq (canon n) []) eqn:Eb; cbn [orb].
  { apply beq_true in Eb. split; [done|]. intros ([Hn _]%Forall_cons & _). done. }
  apply beq_false in Eb. case_bool_decide as Ha; cbn [negb].
  2:{ split; [done|]. intros (_ & _ & [Hn _]%Forall_cons & _). done. }
  rewrite IH, !Forall_cons, NoDup_cons. split.
  - intros (H1 & H2 & H3 & ->). rewrite Forall_forall in H3. repeat split; try done.
    + intros Hin. specialize (H3 _ Hin). set_solver.
    + apply Forall_forall. intros x Hx. specialize (H3 _ Hx). set_solver.
    + by rewrite <- app_assoc.
  - intros ([_ H1] & [Hn H2] & [_ H3] & ->). rewrite Forall_forall in H3. repeat split; try done.
    + apply Forall_forall. intros x Hx. specialize (H3 _ Hx).
      assert (x <> canon n) by (by intros ->). set_solver.
    + by rewrite <- app_assoc.
Qed.

(** Distinct names that are as many as, and among, other distinct names are those
    names in some order. *)
Lemma names_permutation (a b : list bytes) : NoDup a -> NoDup b -> length a = length b ->
  Forall (fun n => n ∈ (list_to_set b : gset bytes)) a -> a ≡ₚ b.
Proof.
  intros Ha Hb Hl Hin. rewrite Forall_forall in Hin.
  apply submseteq_length_Permutation; [|lia]. apply NoDup_submseteq; [done|]. intros x Hx. specialize (Hin _ Hx). set_solver.
Qed.

(** ** Certificate names *)

(** The names a certificate is issued for are decided exactly: the request is
    accepted precisely when, after canonicalisation, its DNS names are the
    authorized ones in some order, between one and a hundred, all admissible and
    distinct, and its common name is one of them; the names certified are these,
    sorted. *)
Theorem csrNames_exact cfg hostname csr authorized names :
  let canon := certificateName cfg hostname in
  csrNames cfg hostname csr authorized = Ok names <->
  (1 <= len authorized <= 100 /\ Forall (fun n => canon n <> []) authorized /\ NoDup (map canon authorized) /\
   map canon (csr_DNSNames csr) ≡ₚ map canon authorized /\
   (forall v, (oidCommonName, v) ∈ csr_SubjectNames csr -> exists cn, v = Some cn /\ canon cn ∈ map canon authorized) /\
   names = merge_sort names_le (map canon (csr_DNSNames csr))).
Proof.
  cbv zeta. unfold csrNames. set (canon := certificateName cfg hostname).
  assert (Hcn : forall l, map canon (csr_DNSNames csr) ≡ₚ map canon authorized ->
    forallb (commonNameOK canon (map canon (csr_DNSNames csr))) l = true <->
    forall v, (oidCommonName, v) ∈ l -> exists cn, v = Some cn /\ canon cn ∈ map canon authorized).
  { intros l Hp. rewrite forallb_forall. split.
    - intros Hl v Hv. apply list_elem_of_In, Hl in Hv. unfold commonNameOK in Hv. cbn [fst snd] in Hv.
      rewrite bool_decide_eq_true_2 in Hv by done. destruct v as [cn|]; [|done]. exists cn. split; [done|].
      apply bool_decide_eq_true_1 in Hv. by rewrite <- Hp.
    - intros Hl [o v] Hv. apply list_elem_of_In in Hv. unfold commonNameOK. cbn [fst snd]. case_bool_decide as Ho; [|done].
      subst o. destruct (Hl v Hv) as (cn & -> & Hin). apply bool_decide_eq_true_2. by rewrite Hp. }
  pose proof (len_nonneg authorized). split.
  - destruct (_ || _) eqn:Ec; [done|]. bool_hyps.
    destruct (authorizeNames canon authorized ∅) as [set|] eqn:Ea; [|done].
    destruct (matchNames canon (csr_DNSNames csr) set []) as [l|] eqn:Em; [|done].
    apply authorizeNames_ok in Ea as (A1 & A2 & _ & ->). apply matchNames_ok in Em as (M1 & M2 & M3 & ->). cbn [app].
    destruct (forallb _ _) eqn:Ef; [|done]. intros [= <-].
    assert (Hp : map canon (csr_DNSNames csr) ≡ₚ map canon authorized).
    { apply names_permutation; [done|done|rewrite !length_map; unfold len in *; lia|].
      eapply Forall_impl; [exact M3|]. set_solver. }
    split; [lia|]. split; [done|]. split; [done|]. split; [done|]. split; [by apply (Hcn _ Hp)|done].
  - intros (Hl & A1 & A2 & Hp & Hc & ->). pose proof (Permutation_length Hp) as Hlen. rewrite !length_map in Hlen.
    replace (len authorized =? 0) with false by (symmetry; apply Z.eqb_neq; lia).
    replace (100 <? len authorized) with false by (symmetry; apply Z.ltb_ge; lia).
    replace (len (csr_DNSNames csr) =? len authorized) with true by (symmetry; apply Z.eqb_eq; unfold len; lia). cbn [negb orb].
    assert (Ea : authorizeNames canon authorized ∅ = Ok (list_to_set (map canon authorized) ∪ ∅)).
    { apply authorizeNames_ok. split; [done|]. split; [done|]. split; [|done]. apply Forall_forall. set_solver. }
    assert (Em : matchNames canon (csr_DNSNames csr) (list_to_set (map canon authorized) ∪ ∅) [] = Ok (map canon (csr_DNSNames csr))).
    { apply matchNames_ok. split; [|split; [by rewrite Hp|split; [|done]]].
      - rewrite <- (Forall_map canon (fun x => x <> [])). rewrite Hp. by rewrite Forall_map.
      - apply Forall_forall. intros x Hx. rewrite Hp in Hx. set_solver. }
    rewrite Ea, Em. rewrite (proj2 (Hcn _ Hp) Hc). done.
Qed.

(** What an admissible name is: a valid hostname below the domain, in lower case,
    other than the names of the box itself. *)
Lemma certificateName_ok cfg domain name n :
  validDNSName domain = true -> normDomain (k_Domain cfg) = domain ->
  certificateName cfg (str "gateway." ++ domain) name = n -> n <> [] ->
  canonicalUnder domain (n ++ [DOT]) /\ n <> str "gateway." ++ domain /\ n <> str "ns." ++ domain /\
  n <> str "ldap." ++ domain /\ ParseAddr n = None /\ n = ToLower (TrimSuffix name [DOT]).
Proof.
  intros Hd Hn. unfold certificateName. destruct (existsb _ _); [by intros <-|].
  set (low := ToLower (TrimSuffix name [DOT])). case_bool_decide as Hp; [by intros <-|].
  rewrite TrimPrefix_app. destruct (_ || _) eqn:E; [by intros <-|]. intros <- Hne. bool_hyps.
  repeat match goal with
  | H : beq _ _ = true |- _ => apply beq_true in H
  | H : beq _ _ = false |- _ => apply beq_false in H
  end.
  match goal with Hc : TrimSuffix (NormalizeHostname low _) [DOT] = low |- _ => rename Hc into Hcan end.
  rewrite Hcan in *. split.
  - assert (Hnz : NormalizeHostname low (k_Domain cfg) <> []) by (intros E0; rewrite E0 in Hcan; by subst low).
    destruct (NormalizeHostname_canonical _ _ Hnz) as [Hc _]. rewrite Hn in Hc.
    destruct Hc as (host & Eh & Hv & Hh). exists host. split; [|done]. rewrite <- Hcan, Eh, !app_assoc. by rewrite TrimSuffix_app.
  - repeat split; try done. destruct (ParseAddr low); [|done]. destruct Hp. by eexists.
Qed.

(** ** What the libraries document *)

(** Times of a certificate are whole seconds. *)
Definition whole (t : time) : time := t / second * second.

Class PkiLaws `{PkiLib} : Prop := {
  create_fields : forall t p k s der c, CreateCertificate t p k s = Some der -> ParseCert der = Some c ->
    c_Raw c = der /\ c_SerialNumber c = c_SerialNumber t /\ c_NotBefore c = whole (c_NotBefore t) /\
    c_NotAfter c = whole (c_NotAfter t) /\ c_IsCA c = c_IsCA t /\ c_KeyUsage c = c_KeyUsage t /\
    c_ExtKeyUsage c = c_ExtKeyUsage t /\ c_DNSNames c = c_DNSNames t /\ c_IPAddresses c = c_IPAddresses t /\ c_PublicKey c = k;
  create_signed : forall t p k s der c, CreateCertificate t p k s = Some der -> ParseCert der = Some c ->
    c_PublicKey p = Public s -> c_IsCA p = true -> Z.land (c_KeyUsage p) KeyUsageCertSign <> 0 -> CheckSignatureFrom c p = true;
  parse_whole : forall der c, ParseCert der = Some c ->
    whole (c_NotBefore c) = c_NotBefore c /\ whole (c_NotAfter c) = c_NotAfter c;
  keypair_matches : forall data der key c, X509KeyPair data = Some (der, key) -> ParseCert der = Some c ->
    c_PublicKey c = Public key;
  keypair_pem : forall der k der' key, X509KeyPair (pemEncode "CERTIFICATE" der ++ pemEncode "PRIVATE KEY" k) = Some (der', key) ->
    der' = der;
  pem_first : forall data rest, pem_Decode (pemEncode "CERTIFICATE" data ++ rest) = Some (str "CERTIFICATE", false, data, rest) }.

Lemma whole_le t : whole t <= t.
Proof. unfold whole, second. pose proof (Z.mul_div_le t 1000000000 ltac:(lia)). lia. Qed.
Lemma whole_lt t u : t + second <= u -> t < whole u.
Proof. unfold whole, second. intros Hu. pose proof (Z.mod_pos_bound u 1000000000 ltac:(lia)). pose proof (Z.div_mod u 1000000000 ltac:(lia)). lia. Qed.
Lemma whole_mono t u : t <= u -> whole t <= whole u.
Proof. unfold whole, second. intros Hu. pose proof (Z.div_le_mono t u 1000000000 ltac:(lia) Hu). lia. Qed.
Lemma whole_min t u : whole (Z.min t u) = Z.min (whole t) (whole u).
Proof.
  destruct (Z.le_gt_cases t u) as [Hl|Hl].
  - pose proof (whole_mono t u Hl). rewrite !Z.min_l by lia. done.
  - pose proof (whole_mono u t ltac:(lia)). rewrite !Z.min_r by lia. done.
Qed.

Section laws.
Context `{PkiLaws}.

(** A certificate with the key it was made for. *)
Definition matched (c : tls_cert) : Prop :=
  (exists der, ParseCert der = Some (t_Leaf c)) /\ c_PublicKey (t_Leaf c) = Public (t_Key c).

Lemma parseBundle_matched data c : parseBundle data = Some c -> matched c.
Proof.
  unfold parseBundle. destruct (negb _); [done|]. destruct (X509KeyPair data) as [[der key]|] eqn:E; [|done].
  destruct (negb _); [done|]. destruct (ParseCert der) as [leaf|] eqn:Ep; [|done]. intros [= <-].
  split; [by exists der|]. by eapply keypair_matches.
Qed.

Lemma readBundle_matched d name c : readBundle d name = Ok c -> matched c.
Proof.
  unfold readBundle. destruct (d !! name) as [f|]; [|done]. destruct (_ || _); [done|].
  destruct (pf_data f) as [data|]; [|done]. destruct (parseBundle data) eqn:E; [|done]. intros [= <-]. by eapply parseBundle_matched.
Qed.

Lemma issue_ok t parent rnd cert bundle : issue t parent rnd = Some (cert, bundle) ->
  parseBundle bundle = Some cert /\
  exists key serial der signer issuer,
    rnd = Some (key, serial) /\ ParseCert der = Some (t_Leaf cert) /\
    (forall p, parent = Some p -> signer = t_Key p /\ issuer = t_Leaf p) /\
    exists t', CreateCertificate t' issuer (Public key) signer = Some der /\ c_SerialNumber t' = serial + 1 /\
      c_NotBefore t' = c_NotBefore t /\ c_NotAfter t' = c_NotAfter t /\ c_IsCA t' = c_IsCA t /\
      c_KeyUsage t' = c_KeyUsage t /\ c_ExtKeyUsage t' = c_ExtKeyUsage t /\ c_DNSNames t' = c_DNSNames t /\
      c_IPAddresses t' = c_IPAddresses t.
Proof.
  unfold issue. destruct rnd as [[key serial]|]; [|done]. cbv zeta.
  set (t' := mkCert _ _ _ _ _ _ _ _ _ _ _ _ _ _ _ _).
  set (si := match parent with Some p => (t_Key p, t_Leaf p) | None => (key, t') end).
  assert (Hsi : forall p, parent = Some p -> si.1 = t_Key p /\ si.2 = t_Leaf p) by (subst si; by intros p ->).
  destruct si as [signer issuer]. cbn [fst snd] in Hsi.
  destruct (CreateCertificate t' issuer (Public key) signer) as [der|] eqn:Ec; [|done].
  destruct (MarshalPKCS8 key) as [keyDER|]; [|done].
  destruct (parseBundle _) as [c|] eqn:Ep; [|done]. intros [= <- <-]. split; [done|].
  exists key, serial, der, signer, issuer. split; [done|]. split.
  - revert Ep. unfold parseBundle. destruct (negb _); [done|]. destruct (X509KeyPair _) as [[der' key']|] eqn:Ek; [|done].
    apply keypair_pem in Ek as ->. destruct (negb _); [done|]. destruct (ParseCert der) as [leaf|]; [|done]. by intros [= <-].
  - split; [exact Hsi|]. exists t'. done.
Qed.

(** A root that signs. *)
Lemma validateRoot_ok root now : validateRoot root now = true ->
  c_IsCA root = true /\ Z.land (c_KeyUsage root) KeyUsageCertSign <> 0 /\ c_NotBefore root <= now < c_NotAfter root.
Proof.
  unfold validateRoot. intros Hv. bool_hyps. repeat split; try done; lia.
Qed.

(** A TLS server certificate of this CA. *)
Definition serves (root leaf : Certificate) : Prop :=
  c_IsCA leaf = false /\ c_KeyUsage leaf = KeyUsageDigitalSignature /\ c_ExtKeyUsage leaf = [ExtKeyUsageServerAuth] /\
  CheckSignatureFrom leaf root = true.

Lemma issueLeaf_ok e cfg root hostname bundle d cert d' :
  matched root -> validateRoot (t_Leaf root) (pe_now e) = true ->
  issueLeaf e cfg root hostname bundle d = (Some cert, d') ->
  serves (t_Leaf root) (t_Leaf cert) /\
  needsRenewal cfg (t_Leaf root) (Some cert) hostname (pe_now e) = false /\
  readBundle d' bundle = Ok cert /\ (forall n, n <> bundle -> d' !! n = d !! n).
Proof.
  intros [(rder & Hrp) Hrk] Hroot. unfold issueLeaf. destruct (issue _ _ _) as [[c b]|] eqn:Ei; [|done].
  destruct (writeFile _ _ _ _ _ _) as [[] d1] eqn:Ew; [|done]. intros [= <- <-].
  apply issue_ok in Ei as (Hb & key & serial & der & signer & issuer & _ & Hp & Hpar & t' & Hc & _ & Enb & Ena & Eca & Eku & Eek & Edn & Eip).
  destruct (Hpar root eq_refl) as [-> ->].
  destruct (validateRoot_ok _ _ Hroot) as (R1 & R2 & R3).
  destruct (create_fields _ _ _ _ _ _ Hc Hp) as (_ & _ & F1 & F2 & F3 & F4 & F5 & F6 & F7 & _).
  pose proof (create_signed _ _ _ _ _ _ Hc Hp Hrk R1 R2) as Hsig.
  destruct (parse_whole _ _ Hrp) as [W1 W2].
  rewrite Enb, Ena, Eca, Eku, Eek, Edn, Eip in *. cbn [template c_NotBefore c_NotAfter c_IsCA c_KeyUsage c_ExtKeyUsage c_DNSNames c_IPAddresses] in *.
  split; [done|]. split; [|split].
  - unfold needsRenewal. rewrite F6, F7, F1, F2. rewrite bool_decide_eq_true_2 by done. unfold ipEqual. rewrite beq_refl. cbn [negb orb].
    assert (Hnb : whole (Z.max (pe_now e - clockSkew) (c_NotBefore (t_Leaf root))) <= pe_now e).
    { etransitivity; [apply whole_le|]. unfold clockSkew, minute, second. lia. }
    rewrite whole_min, W2. pose proof (whole_lt (pe_now e + renewBefore) (pe_now e + leafLifetime)) as Hw.
    unfold renewBefore, leafLifetime, hour, second in *. specialize (Hw ltac:(lia)).
    destruct (Z.ltb_spec (pe_now e) (whole (Z.max (pe_now e - clockSkew) (c_NotBefore (t_Leaf root))))); [lia|].
    destruct (Z.ltb_spec (pe_now e) (Z.min (whole (pe_now e + 90 * 24 * (3600 * 1000000000))) (c_NotAfter (t_Leaf root)))); [|lia].
    cbn [orb negb]. apply andb_false_iff.
    destruct (Z.le_gt_cases (whole (pe_now e + 90 * 24 * (3600 * 1000000000))) (c_NotAfter (t_Leaf root))).
    + left. apply negb_false_iff, Z.ltb_lt. lia.
    + right. apply Z.ltb_ge. lia.
  - revert Ew. unfold writeFile. cbn [andb]. destruct (pe_write e bundle) as [s|]; [by destruct (published s && _)|]. intros [= <-].
    unfold readBundle. rewrite lookup_insert_eq. cbn [pf_regular pf_perm pf_data]. rewrite Hb. done.
  - revert Ew. unfold writeFile. cbn [andb]. destruct (pe_write e bundle) as [s|]; [by destruct (published s && _)|]. intros [= <-] n Hn.
    by rewrite lookup_insert_ne.
Qed.

Lemma needsRenewal_false cfg root cert hostname now : needsRenewal cfg root (Some cert) hostname now = false ->
  let leaf := t_Leaf cert in
  c_DNSNames leaf = [hostname] /\
  (exists ip, c_IPAddresses leaf = [ip] /\ ipEqual ip (AsSlice (k_ServerIP cfg)) = true) /\
  c_NotBefore leaf <= now < c_NotAfter leaf /\ (now + renewBefore < c_NotAfter leaf \/ c_NotAfter root <= c_NotAfter leaf).
Proof.
  cbv zeta. unfold needsRenewal. destruct (_ || _) eqn:E1; [done|]. destruct ((now <? _) || _) eqn:E2; [done|].
  intros E3. apply andb_false_iff in E3. bool_hyps. split; [done|]. split.
  - destruct (c_IPAddresses (t_Leaf cert)) as [|ip [|? ?]]; try done. by exists ip.
  - split; [lia|]. destruct E3 as [E3|E3]; bool_hyps; [by left|by right].
Qed.

Lemma validateLeaf_serves root leaf : validateLeaf root leaf = true -> serves root leaf.
Proof. unfold validateLeaf. intros Hv. bool_hyps. done. Qed.

Definition held (root : tls_cert) (o : option tls_cert) : Prop :=
  forall c, o = Some c -> serves (t_Leaf root) (t_Leaf c).

Lemma held_none root : held root None.
Proof. by intros c [=]. Qed.

(** One request for a service's certificate. *)
Lemma serviceCertificate_ok e cfg root hostname bundle current d r kept d' :
  matched root -> held root current ->
  serviceCertificate e cfg root hostname bundle current d = ((r, kept), d') ->
  held root kept /\ (forall n, n <> bundle -> d' !! n = d !! n) /\
  forall cert, r = Ok cert ->
    kept = Some cert /\ needsRenewal cfg (t_Leaf root) (Some cert) hostname (pe_now e) = false /\
    forall e', pe_now e' = pe_now e ->
      serviceCertificate e' cfg root hostname bundle kept d' = ((Ok cert, Some cert), d').
Proof.
  intros Hm Hh. unfold serviceCertificate. destruct (validateRoot (t_Leaf root) (pe_now e)) eqn:Hroot; cbn [negb].
  2:{ intros [= <- <- <-]. split; [done|]. split; [done|]. by intros cert [=]. }
  set (loaded := match current with Some c => Ok (Some c) | None => _ end).
  assert (Hl : forall o, loaded = Ok o -> held root o).
  { subst loaded. intros o. destruct current as [c|]; [by intros [= <-]|].
    destruct (readBundle d bundle) as [c|[]]; [|by intros [= <-]|done].
    destruct (validateLeaf _ _) eqn:Ev; [|done]. intros [= <-] c' [= <-]. by apply validateLeaf_serves. }
  destruct loaded as [o|err]; [|intros [= <- <- <-]; split; [done|]; split; [done|]; by intros ? [=]].
  specialize (Hl o eq_refl). destruct (needsRenewal cfg (t_Leaf root) o hostname (pe_now e)) eqn:En.
  - destruct (issueLeaf e cfg root hostname bundle d) as [[c|] d1] eqn:Ei; intros [= <- <- <-].
    + destruct (issueLeaf_ok _ _ _ _ _ _ _ _ Hm Hroot Ei) as (Hs & Hn & _ & Hd).
      split; [by intros ? [= <-]|]. split; [done|]. intros cert [= <-]. split; [done|]. split; [done|].
      intros e' ->. by rewrite Hroot, Hn.
    + split; [done|]. split; [|by intros ? [=]]. intros n Hn. revert Ei. unfold issueLeaf.
      destruct (issue _ _ _) as [[c b]|]; [|by intros [= <-]]. unfold writeFile. cbn [andb].
      destruct (pe_write e bundle) as [st|]; [destruct (published st && _)|]; intros [= <-]; try done; by rewrite lookup_insert_ne.
  - destruct o as [c|]; [|done]. intros [= <- <- <-]. split; [done|]. split; [done|]. intros cert [= <-].
    split; [done|]. split; [done|]. intros e' ->. by rewrite Hroot, En.
Qed.

(** ** The authority over its life *)

(** The process with its directory: it is started, asked for certificates, and
    started again, whatever fails. *)
Inductive pki_step : option PkiManager * pki_disk -> option PkiManager * pki_disk -> Prop :=
| pki_open e cfg om d :
    pki_step (om, d) (match (Open e cfg d).1 with Ok m => Some m | Err _ => None end, (Open e cfg d).2)
| pki_get e m d : pki_step (Some m, d) (Some (GetCertificate e m d).1.2, (GetCertificate e m d).2)
| pki_ldap e m d : pki_step (Some m, d) (Some (GetLDAPCertificate e m d).1.2, (GetLDAPCertificate e m d).2).

(** The manager works with the root on disk and certificates of that root. *)
Definition pki_ok (root : tls_cert) (m : PkiManager) : Prop :=
  m_root m = root /\ m_rootPEM m = pemEncode "CERTIFICATE" (c_Raw (t_Leaf root)) /\
  m_hostname m = TrimSuffix (NormalizeHostname (str "gateway") (k_Domain (m_cfg m))) [DOT] /\ m_hostname m <> [] /\
  held root (m_leaf m) /\ held root (m_ldapLeaf m).

Lemma other_names : rootPublicName <> rootBundleName /\ leafBundleName <> rootBundleName /\ ldapBundleName <> rootBundleName.
Proof. repeat split; intros E; vm_compute in E; discriminate E. Qed.

Lemma readBundle_same d d' name : d' !! name = d !! name -> readBundle d' name = readBundle d name.
Proof. unfold readBundle. by intros ->. Qed.

(** What [Open] leaves behind, whatever happens. *)
Lemma Open_ok e cfg d :
  let '(r, d') := Open e cfg d in
  (forall f, d !! rootBundleName = Some f -> d' !! rootBundleName = Some f) /\
  (d !! rootBundleName = None -> d <> ∅ -> d' = d /\ is_ok r = false) /\
  forall m, r = Ok m -> readBundle d' rootBundleName = Ok (m_root m) /\ pki_ok (m_root m) m.
Proof.
  destruct other_names as (N1 & N2 & _). unfold Open.
  set (hostname := TrimSuffix _ _). destruct (beq hostname []) eqn:Eh; [by repeat split|].
  destruct (_ || _); [by repeat split|]. cbn [k_Directory]. destruct (beq (TrimSpace (k_Directory cfg)) []); [by repeat split|].
  destruct (pe_dir e); cbn [negb]; [|by repeat split].
  assert (Ho : let '(r, d1) := openRoot e d in
    (forall f, d !! rootBundleName = Some f -> d1 !! rootBundleName = Some f) /\
    (d !! rootBundleName = None -> d <> ∅ -> d1 = d /\ is_ok r = false) /\
    forall root, r = Ok root -> readBundle d1 rootBundleName = Ok root).
  { unfold openRoot. destruct (readBundle d rootBundleName) as [root|[]] eqn:Er.
    - split; [done|]. split; [|by intros ? [= <-]]. intros E. unfold readBundle in Er. by rewrite E in Er.
    - assert (En : d !! rootBundleName = None).
      { revert Er. unfold readBundle. destruct (d !! rootBundleName) as [f|]; [|done]. destruct (_ || _); [done|].
        destruct (pf_data f); [|done]. by destruct (parseBundle _). }
      destruct (pe_readDir e); cbn [negb]; [|by repeat split]. case_bool_decide as He; cbn [negb]; [|by repeat split].
      destruct (createRoot e d) as [r d1] eqn:Ec. split; [by rewrite En|]. split; [done|]. intros root.
      destruct r as [c|]; [|done]. intros [= <-]. revert Ec. unfold createRoot.
      destruct (issue _ _ _) as [[c' b]|] eqn:Ei; [|done]. apply issue_ok in Ei as (Hb & _). unfold writeFile. rewrite En.
      rewrite bool_decide_eq_false_2 by (by intros [? ?]). cbn [andb negb].
      destruct (pe_write e rootBundleName) as [st|]; [by destruct (published st && _)|]. intros [= <- <-].
      unfold readBundle. rewrite lookup_insert_eq. cbn [pf_regular pf_perm pf_data]. by rewrite Hb.
    - split; [done|]. split; [done|]. done. }
  destruct (openRoot e d) as [[root|err] d1]; destruct Ho as (O1 & O2 & O3); [|split; [exact O1|split; [intros E1 E2; by destruct (O2 E1 E2)|done]]].
  specialize (O3 root eq_refl).
  assert (Hno : d !! rootBundleName = None -> d <> ∅ -> False) by (intros E1 E2; by destruct (O2 E1 E2)).
  destruct (validateRoot _ _) eqn:Hroot; cbn [negb]; [|split; [done|]; split; [intros; exfalso; eauto|done]].
  destruct (writeFile (pe_write e rootPublicName) _ _ _ _ d1) as [ok d2] eqn:Ew.
  assert (Hd2 : d2 !! rootBundleName = d1 !! rootBundleName).
  { revert Ew. unfold writeFile. cbn [andb].
    destruct (pe_write e rootPublicName) as [st|]; [destruct (published st && _)|]; intros [= _ <-]; try done; by rewrite lookup_insert_ne. }
  destruct ok; cbn [negb]; [|split; [intros; rewrite Hd2; auto|]; split; [intros; exfalso; eauto|done]].
  set (m0 := mkPki _ hostname root _ None None).
  destruct (GetCertificate e m0 d2) as [[r m] d3] eqn:Eg. unfold GetCertificate in Eg.
  destruct (serviceCertificate e (m_cfg m0) (m_root m0) (m_hostname m0) leafBundleName (m_leaf m0) d2) as [[r' kept] d3'] eqn:Es.
  injection Eg as <- <- <-.
  destruct (serviceCertificate_ok _ _ _ _ _ _ _ _ _ _ (readBundle_matched _ _ _ O3) (held_none _) Es)
    as (Hk & Hd3 & _).
  assert (Hd3' : d3' !! rootBundleName = d1 !! rootBundleName) by (rewrite Hd3 by done; done).
  split; [intros; rewrite Hd3'; auto|]. split; [intros; exfalso; eauto|].
  intros m. destruct r' as [c|]; [|done]. intros [= <-]. cbn [m_root m_rootPEM m_hostname m_cfg m_leaf m_ldapLeaf m0].
  split; [by rewrite (readBundle_same d1)|].
  split; [done|]. split; [done|]. split; [done|]. split; [by apply beq_false|]. split; [exact Hk|apply held_none].
Qed.

Lemma GetCertificate_ok e m d root : matched root -> pki_ok root m ->
  pki_ok root (GetCertificate e m d).1.2 /\ (forall n, n <> leafBundleName -> (GetCertificate e m d).2 !! n = d !! n).
Proof.
  intros Hm (E1 & E2 & E3 & E4 & E5 & E6). unfold GetCertificate. rewrite E1 in *.
  destruct (serviceCertificate _ _ _ _ _ _ _) as [[r kept] d'] eqn:Es.
  destruct (serviceCertificate_ok _ _ _ _ _ _ _ _ _ _ Hm E5 Es) as (Hk & Hd & _). split; [|exact Hd]. done.
Qed.

Lemma GetLDAPCertificate_ok e m d root : matched root -> pki_ok root m ->
  pki_ok root (GetLDAPCertificate e m d).1.2 /\ (forall n, n <> ldapBundleName -> (GetLDAPCertificate e m d).2 !! n = d !! n).
Proof.
  intros Hm (E1 & E2 & E3 & E4 & E5 & E6). unfold GetLDAPCertificate. rewrite E1 in *.
  destruct (serviceCertificate _ _ _ _ _ _ _) as [[r kept] d'] eqn:Es.
  destruct (serviceCertificate_ok _ _ _ _ _ _ _ _ _ _ Hm E6 Es) as (Hk & Hd & _). split; [|exact Hd]. done.
Qed.

Definition pki_state_ok (root : tls_cert) (s : option PkiManager * pki_disk) : Prop :=
  readBundle s.2 rootBundleName = Ok root /\ forall m, s.1 = Some m -> pki_ok root m.

Lemma pki_step_ok root s s' : pki_step s s' -> pki_state_ok root s -> pki_state_ok root s'.
Proof.
  destruct other_names as (_ & N2 & N3). intros Hs [Hr Hm]. pose proof (readBundle_matched _ _ _ Hr) as Hmt.
  destruct Hs as [e cfg om d|e m d|e m d]; cbn [fst snd] in *.
  - pose proof (Open_ok e cfg d) as Ho. destruct (Open e cfg d) as [r d'] eqn:E. cbn [fst snd] in *. destruct Ho as (O1 & _ & O3).
    assert (Hd : readBundle d' rootBundleName = Ok root).
    { rewrite <- Hr. apply readBundle_same. destruct (d !! rootBundleName) as [f|] eqn:Ef; [by apply O1|].
      unfold readBundle in Hr. by rewrite Ef in Hr. }
    split; [exact Hd|]. intros m. destruct r as [m0|]; [|done]. intros [= <-]. destruct (O3 m0 eq_refl) as [Hr' Hok].
    rewrite Hd in Hr'. injection Hr' as ->. exact Hok.
  - destruct (GetCertificate_ok e m d root Hmt (Hm m eq_refl)) as [Hok Hd]. split; cbn [fst snd].
    + rewrite <- Hr. apply readBundle_same. by apply Hd.
    + by intros m' [= <-].
  - destruct (GetLDAPCertificate_ok e m d root Hmt (Hm m eq_refl)) as [Hok Hd]. split; cbn [fst snd].
    + rewrite <- Hr. apply readBundle_same. by apply Hd.
    + by intros m' [= <-].
Qed.

Lemma pki_run_ok root s s' : rtc pki_step s s' -> pki_state_ok root s -> pki_state_ok root s'.
Proof. induction 1; [done|]. intros. by eauto using pki_step_ok. Qed.

End laws.

(** C20: The identity of the authority is never replaced.  Once a start has
    succeeded, every later start and every certificate request, whatever fails in
    them, leaves the root bundle as it is, and every manager that comes up works
    with that root and publishes it; and a directory that has lost its root bundle
    is refused and left alone. *)
Theorem ca_identity_kept `{PkiLaws} e cfg d m d0 om d1 :
  Open e cfg d = (Ok m, d0) -> rtc pki_step (Some m, d0) (om, d1) ->
  readBundle d1 rootBundleName = Ok (m_root m) /\
  (forall m', om = Some m' -> m_root m' = m_root m /\ m_rootPEM m' = m_rootPEM m) /\
  forall e' cfg', (forall f, d1 !! rootBundleName = Some f -> (Open e' cfg' d1).2 !! rootBundleName = Some f) /\
    (delete rootBundleName d1 <> ∅ -> exists err, Open e' cfg' (delete rootBundleName d1) = (Err err, delete rootBundleName d1)).
Proof.
  intros Ho Hr. pose proof (Open_ok e cfg d) as H3. rewrite Ho in H3. destruct H3 as (_ & _ & H3).
  destruct (H3 m eq_refl) as [Hread Hok].
  destruct (pki_run_ok (m_root m) _ _ Hr) as [Hread1 Hok1]; [by split; [|intros ? [= <-]]|]. cbn [fst snd] in *.
  split; [exact Hread1|]. split.
  - intros m' Hm'. destruct (Hok1 m' Hm') as (E1 & E2 & _). destruct Hok as (_ & E3 & _). split; [done|congruence].
  - intros e' cfg'. split.
    + pose proof (Open_ok e' cfg' d1) as Ho1. destruct (Open e' cfg' d1). by destruct Ho1.
    + intros Hne. pose proof (Open_ok e' cfg' (delete rootBundleName d1)) as Ho1.
      destruct (Open e' cfg' (delete rootBundleName d1)) as [r d']. destruct Ho1 as (_ & Ho1 & _).
      destruct Ho1 as [-> Hf]; [apply lookup_delete_eq|done|]. destruct r; [done|]. by eexists.
Qed.

(** A certificate handed to a TLS handshake is the right one: a server
    certificate of this authority for the one name of the service and the address
    of the box, valid now and for thirty days more unless the root itself ends
    sooner; and asking again at that time gives the same certificate without
    touching the disk, so that handshakes do not reissue it. *)
Theorem handshake_certificate `{PkiLaws} root m d e d1 cert m1 :
  pki_state_ok root (Some m, d) -> GetCertificate e m d = ((Ok cert, m1), d1) ->
  let leaf := t_Leaf cert in
  serves (t_Leaf root) leaf /\ c_DNSNames leaf = [m_hostname m] /\
  (exists ip, c_IPAddresses leaf = [ip] /\ ipEqual ip (AsSlice (k_ServerIP (m_cfg m))) = true) /\
  c_NotBefore leaf <= pe_now e < c_NotAfter leaf /\
  (pe_now e + renewBefore < c_NotAfter leaf \/ c_NotAfter (t_Leaf root) <= c_NotAfter leaf) /\
  forall e', pe_now e' = pe_now e -> GetCertificate e' m1 d1 = ((Ok cert, m1), d1).
Proof.
  intros [Hr Hm]. cbn [fst snd] in *. pose proof (readBundle_matched _ _ _ Hr) as Hmt.
  destruct (Hm m eq_refl) as (E1 & E2 & E3 & E4 & E5 & E6). unfold GetCertificate. rewrite E1.
  destruct (serviceCertificate _ _ _ _ _ _ _) as [[r kept] d'] eqn:Es. intros [= -> <- <-].
  destruct (serviceCertificate_ok _ _ _ _ _ _ _ _ _ _ Hmt E5 Es) as (Hk & _ & Hc).
  destruct (Hc cert eq_refl) as (-> & Hn & Hagain). cbv zeta.
  destruct (needsRenewal_false _ _ _ _ _ Hn) as (N1 & N2 & N3 & N4).
  split; [by apply Hk|]. split; [done|]. split; [done|]. split; [done|]. split; [done|].
  intros e' He'. cbn [m_cfg m_root m_hostname m_rootPEM m_leaf m_ldapLeaf]. by rewrite Hagain.
Qed.

(** ** Issued certificates *)

(** The certificates the ACME server reads, in terms of this package. *)
Section acme.
Context `{PkiLib} `{Jose} (keyOf : public_key -> Key) (root : Certificate)
  (parseCRL : bytes -> option RevocationList) (checkCRL : RevocationList -> bool).

Definition leafOf (c : Certificate) : Leaf :=
  mkLeaf (c_Raw c) (c_SerialNumber c) (c_NotAfter c) (c_IsCA c) (c_DNSNames c) (len (c_IPAddresses c)) (keyOf (c_PublicKey c)).

Definition pki_x509 : X509 := {|
  pemDecode s := match pem_Decode s with Some (ty, _, data, _) => Some (ty, data) | None => None end;
  ParseCertificate der := leafOf <$> ParseCert der;
  CheckLeafSignature l := match ParseCert (Raw l) with Some c => CheckSignatureFrom c root | None => false end;
  ParseRevocationList := parseCRL; CheckCRLSignature := checkCRL |}.
End acme.

(** C7: A certificate signed for a request is what the ACME server and its clients
    rely on: the request is well formed and proves possession of a supported key;
    the chain starts with a leaf for that key and exactly the authorized names,
    all of them hosts below the domain other than the box's own names; its only
    extended usage is TLS server authentication, its key may sign and, if it is an
    RSA key, encipher keys, and nothing else; it is not an authority, signed by the
    root, valid now, and ends within ninety days and with the root at the latest. *)
Theorem issued_certificate `{PkiLaws} `{Jose} keyOf parseCRL checkCRL m root domain now serial der authorized chain leaf :
  pki_ok root m -> matched root -> validDNSName domain = true -> normDomain (k_Domain (m_cfg m)) = domain ->
  m_hostname m = str "gateway." ++ domain ->
  SignCSR m now (Some serial) der authorized = Ok chain ->
  @parseLeaf _ (pki_x509 keyOf (t_Leaf root) parseCRL checkCRL) chain = Some leaf ->
  IsCA leaf = false /\ @CheckLeafSignature _ (pki_x509 keyOf (t_Leaf root) parseCRL checkCRL) leaf = true /\
  now < NotAfter leaf <= Z.min (now + leafLifetime) (c_NotAfter (t_Leaf root)) /\
  SerialNumber leaf = serial + 1 /\ otherNames leaf = 0 /\
  DNSNames leaf ≡ₚ map (certificateName (m_cfg m) (m_hostname m)) authorized /\ NoDup (DNSNames leaf) /\
  (forall n, n ∈ DNSNames leaf -> canonicalUnder domain (n ++ [DOT]) /\ n <> str "gateway." ++ domain /\
     n <> str "ns." ++ domain /\ n <> str "ldap." ++ domain) /\
  exists csr cert, ParseCSR der = Some csr /\ supportedKey (csr_PublicKey csr) = true /\ CheckCSRSignature csr = true /\
    validateCSRExtensions (csr_Extensions csr) = None /\ PublicKey leaf = keyOf (csr_PublicKey csr) /\
    ParseCert (Raw leaf) = Some cert /\ leaf = leafOf keyOf cert /\ c_NotBefore cert <= now /\
    c_ExtKeyUsage cert = [ExtKeyUsageServerAuth] /\
    c_KeyUsage cert = match csr_PublicKey csr with
                      | RsaKey _ => Z.lor KeyUsageDigitalSignature KeyUsageKeyEncipherment
                      | _ => KeyUsageDigitalSignature
                      end.
Proof.
  intros (Er & Epem & _) [(rder & Hrp) Hrk] Hd Hnd Hh. unfold SignCSR. destruct (_ || _); [done|].
  destruct (ParseCSR der) as [csr|]; [|done]. destruct (validateCSRKey _) eqn:Ek; [|done]. cbn [negb].
  destruct (CheckCSRSignature csr) eqn:Ecs; [|done]. cbn [negb].
  destruct (validateCSRExtensions _) eqn:Ee; [done|].
  destruct (csrNames _ _ _ _) as [names|] eqn:En; [|done]. rewrite Er.
  destruct (validateRoot (t_Leaf root) now) eqn:Hroot; [|done]. cbn [negb]. cbv zeta.
  set (t := mkCert _ (serial + 1) _ _ _ _ _ _ _ _ _ _ _ _ _ _).
  destruct (CreateCertificate t (t_Leaf root) (csr_PublicKey csr) (t_Key root)) as [cder|] eqn:Ec; [|done].
  destruct (ParseCert cder) as [c|] eqn:Ep; [|done]. destruct (VerifyChain _ _ _); [|done]. cbn [negb].
  intros [= <-]. unfold parseLeaf. cbn [pemDecode pki_x509 ParseCertificate].
  rewrite pem_first, beq_refl, Ep. cbn [fmap option_fmap option_map]. intros [= <-].
  cbn [IsCA NotAfter SerialNumber otherNames DNSNames PublicKey leafOf CheckLeafSignature Raw pki_x509].
  destruct (create_fields _ _ _ _ _ _ Ec Ep) as (F0 & Fs & F1 & F2 & F3 & F4 & F5 & F6 & F7 & F8).
  destruct (validateRoot_ok _ _ Hroot) as (R1 & R2 & R3). destruct (parse_whole _ _ Hrp) as [_ W2].
  assert (Hcert : ParseCert (c_Raw c) = Some c /\ leafOf keyOf c = leafOf keyOf c /\ c_NotBefore c <= now /\
    c_ExtKeyUsage c = c_ExtKeyUsage t /\ c_KeyUsage c = c_KeyUsage t).
  { rewrite F0, F1. split_and!; try done. pose proof (whole_le (c_NotBefore t)). cbn [t template c_NotBefore] in *.
    unfold validateRoot in Hroot. bool_hyps. unfold clockSkew, minute, second in *. lia. }
  rewrite F0, Ep, F2, F3, F6, F7, F8, Fs. cbn [t c_SerialNumber c_NotAfter c_IsCA c_DNSNames c_IPAddresses template].
  apply csrNames_exact in En as (_ & A1 & A2 & Hp & _ & ->).
  assert (Hperm : merge_sort names_le (map (certificateName (m_cfg m) (m_hostname m)) (csr_DNSNames csr))
                  ≡ₚ map (certificateName (m_cfg m) (m_hostname m)) authorized) by by rewrite merge_sort_Permutation.
  split; [done|]. split; [by eapply create_signed|]. split.
  { rewrite whole_min, W2. pose proof (whole_lt now (now + leafLifetime)). pose proof (whole_le (now + leafLifetime)).
    unfold leafLifetime, hour, second in *. lia. }
  split; [done|]. split; [done|]. split; [done|]. split; [by rewrite Hperm|]. split.
  2: { exists csr, c. by destruct Hcert as (? & ? & ? & ? & ?). }
  intros n Hn. rewrite Hperm in Hn. apply list_elem_of_fmap in Hn as (a & -> & Ha).
  rewrite Forall_forall in A1. specialize (A1 a Ha). rewrite Hh in A1.
  destruct (certificateName_ok (m_cfg m) domain a _ Hd Hnd eq_refl A1) as (C1 & C2 & C3 & C4 & _). rewrite Hh. done.
Qed.

(** ** A library for the witnesses *)

(** Certificates written as their fields, lists with their length in front. *)
Definition put (l : bytes) : bytes := len l :: l.
Definition put_all (ls : list bytes) : bytes := len ls :: concat (map put ls).
Definition get (s : bytes) : option (bytes * bytes) :=
  match s with n :: r => Some (take (Z.to_nat n) r, drop (Z.to_nat n) r) | [] => None end.
Fixpoint get_many (n : nat) (s : bytes) : option (list bytes * bytes) :=
  match n with
  | O => Some ([], s)
  | S k => match get s with
           | Some (a, r) => match get_many k r with Some (l, r) => Some (a :: l, r) | None => None end
           | None => None
           end
  end.
Definition get_all (s : bytes) : option (list bytes * bytes) :=
  match s with n :: r => get_many (Z.to_nat n) r | [] => None end.

Lemma get_put l r : get (put l ++ r) = Some (l, r).
Proof. unfold put, len. cbn [app get]. by rewrite Nat2Z.id, take_app_length, drop_app_length. Qed.
Lemma get_put_all ls r : get_all (put_all ls ++ r) = Some (ls, r).
Proof.
  unfold put_all, len. cbn [app get_all]. rewrite Nat2Z.id. induction ls as [|l ls IH]; [done|].
  cbn [length get_many map concat]. by rewrite <- app_assoc, get_put, IH.
Qed.

Definition toy_write (t : Certificate) (k : bytes) : bytes :=
  [c_SerialNumber t; c_NotBefore t; c_NotAfter t; if c_IsCA t then 1 else 0; c_KeyUsage t]
  ++ put (c_ExtKeyUsage t) ++ put_all (c_DNSNames t) ++ put_all (c_IPAddresses t) ++ k.

Definition toy_parse (der : bytes) : option Certificate :=
  match der with
  | serial :: nb :: na :: ca :: usage :: r =>
      match get r with
      | Some (ext, r) =>
          match get_all r with
          | Some (names, r) =>
              match get_all r with
              | Some (ips, key) => Some (mkCert der serial [] (whole nb) (whole na) (negb (ca =? 0)) true usage ext names ips [] [] [] 0
                                           (Ed25519Key key))
              | None => None
              end
          | None => None
          end
      | None => None
      end
  | _ => None
  end.

Definition pem_begin (ty : bytes) : bytes := str "-----BEGIN " ++ ty ++ str "-----".
Definition toy_pem (ty data : bytes) : bytes := pem_begin ty ++ put data ++ [45].
Definition toy_unpem (s : bytes) : option (bytes * bool * bytes * bytes) :=
  let read ty := match get (drop (length (pem_begin ty)) s) with
                 | Some (data, 45 :: rest) => Some (ty, false, data, rest)
                 | _ => None
                 end in
  if HasPrefix s (pem_begin (str "CERTIFICATE")) then read (str "CERTIFICATE")
  else if HasPrefix s (pem_begin (str "PRIVATE KEY")) then read (str "PRIVATE KEY") else None.

Definition toy_key : bytes := [7].

#[local] Instance toy_curves : Curves := {| onCurve _ _ _ := true |}.
#[local] Instance toy_pki : PkiLib := {|
  PrivateKey := unit; Public _ := Ed25519Key toy_key; isP256 _ := true;
  CreateCertificate t _ k _ := match k with Ed25519Key k => Some (toy_write t k) | _ => None end;
  ParseCert := toy_parse; CheckSignatureFrom _ _ := true; VerifyChain _ _ _ := true;
  X509KeyPair data := match toy_unpem data with
                      | Some (_, _, der, _) =>
                          match toy_parse der with
                          | Some c => if match c_PublicKey c with Ed25519Key k => beq k toy_key | _ => false end
                                      then Some (der, tt) else None
                          | None => None
                          end
                      | None => None
                      end;
  MarshalPKCS8 _ := Some [1]; pemEncode ty data := toy_pem (str ty) data; pem_Decode := toy_unpem;
  ParseCSR _ := Some (mkCSR (Ed25519Key (replicate 32 1)) [] [str "a.home.arpa"] []);
  CheckCSRSignature _ := true; CreateRevocationList _ _ _ _ _ _ := Some []; addTenYears t := t + 3650 * 24 * hour |}.

Lemma toy_pem_first data rest : toy_unpem (toy_pem (str "CERTIFICATE") data ++ rest) = Some (str "CERTIFICATE", false, data, rest).
Proof.
  unfold toy_unpem, toy_pem. rewrite <- app_assoc, HasPrefix_app, drop_app_length, <- app_assoc, get_put. done.
Qed.

Lemma toy_parse_write t k : toy_parse (toy_write t k) =
  Some (mkCert (toy_write t k) (c_SerialNumber t) [] (whole (c_NotBefore t)) (whole (c_NotAfter t)) (c_IsCA t) true (c_KeyUsage t)
          (c_ExtKeyUsage t) (c_DNSNames t) (c_IPAddresses t) [] [] [] 0 (Ed25519Key k)).
Proof.
  unfold toy_write, toy_parse. cbn [app]. rewrite get_put, !get_put_all. by destruct (c_IsCA t).
Qed.

Lemma whole_whole t : whole (whole t) = whole t.
Proof. unfold whole. by rewrite Z.div_mul by (unfold second; lia). Qed.

#[local] Instance toy_pki_laws : PkiLaws.
Proof.
  split; cbn [CreateCertificate ParseCert CheckSignatureFrom X509KeyPair pemEncode pem_Decode Public toy_pki].
  - intros t p k s der c. destruct k as [| |k|]; try done. intros [= <-]. rewrite toy_parse_write. by intros [= <-].
  - done.
  - intros der c. unfold toy_parse. destruct der as [|a [|b [|x [|y [|z r]]]]]; try done.
    destruct (get r) as [[ext r1]|]; [|done]. destruct (get_all r1) as [[names r2]|]; [|done].
    destruct (get_all r2) as [[ips key]|]; [|done]. intros [= <-]. cbn [c_NotBefore c_NotAfter]. by rewrite !whole_whole.
  - intros data der key c. destruct (toy_unpem data) as [[[[ty h] der'] rest]|]; [|done].
    destruct (toy_parse der') as [c'|] eqn:E; [|done]. destruct (match c_PublicKey c' with Ed25519Key _ => _ | _ => _ end) eqn:Ek; [|done].
    intros [= <- <-]. rewrite E. intros [= <-]. destruct (c_PublicKey c'); try done. by apply beq_true in Ek as ->.
  - intros der k der' key. rewrite toy_pem_first. destruct (toy_parse der); [|done]. by destruct (match c_PublicKey _ with Ed25519Key _ => _ | _ => _ end); intros [= <- _].
  - intros data rest. apply toy_pem_first.
Qed.

Definition toy_env (now : time) : pki_env := mkPkiEnv now true true (fun _ => Some (tt, 5)) (fun _ => None).
Definition toy_cfg : PkiConfig := mkPkiConfig (str "pki") (str "home.arpa") (Addr4 3232235777) (str "https://gateway.home.arpa/acme/crl").
Definition toy_start : time := 1750000000 * second.
Definition toy_open := Open (toy_env toy_start) toy_cfg ∅.

Lemma toy_opened : exists m d, toy_open = (Ok m, d) /\ m_hostname m = str "gateway.home.arpa" /\ m_cfg m = toy_cfg.
Proof.
  assert (Hm : match toy_open.1 with
               | Ok m => beq (m_hostname m) (str "gateway.home.arpa") && beq (k_Domain (m_cfg m)) (k_Domain toy_cfg)
                         && beq (k_Directory (m_cfg m)) (k_Directory toy_cfg) && beq (k_CRLURL (m_cfg m)) (k_CRLURL toy_cfg)
                         && addr_eqb (k_ServerIP (m_cfg m)) (k_ServerIP toy_cfg)
               | Err _ => false end = true) by (vm_compute; reflexivity).
  destruct toy_open as [[m|] d]; cbn [fst] in Hm; [|done]. exists m, d. split; [done|]. bool_hyps.
  repeat match goal with H : beq _ _ = true |- _ => apply beq_true in H end. split; [done|].
  destruct (m_cfg m) as [a b c g]. cbn [k_Domain k_Directory k_CRLURL k_ServerIP] in *. subst.
  match goal with H : addr_eqb _ _ = true |- _ => apply bool_decide_eq_true_1 in H; by subst end.
Qed.

Lemma ca_identity_kept_witness :
  exists m d, toy_open = (Ok m, d) /\ readBundle d rootBundleName = Ok (m_root m) /\
    exists err, Open (toy_env toy_start) toy_cfg (delete rootBundleName d) = (Err err, delete rootBundleName d).
Proof.
  assert (Hne : bool_decide (delete rootBundleName toy_open.2 = ∅) = false) by (vm_compute; reflexivity).
  destruct toy_opened as (m & d & E & _). exists m, d. rewrite E in Hne. cbn [snd] in Hne.
  destruct (ca_identity_kept (toy_env toy_start) toy_cfg ∅ m d (Some m) d E (rtc_refl _ _)) as (Hr & _ & Hd).
  split; [exact E|]. split; [exact Hr|]. apply (Hd (toy_env toy_start) toy_cfg). exact (bool_decide_eq_false_1 _ Hne).
Defined.

(** The state after the first start. *)
Lemma toy_state m d : toy_open = (Ok m, d) -> pki_state_ok (m_root m) (Some m, d).
Proof.
  intros E. pose proof (Open_ok (toy_env toy_start) toy_cfg ∅) as Ho. unfold toy_open in E. rewrite E in Ho.
  destruct Ho as (_ & _ & Ho). destruct (Ho m eq_refl). by split; [|intros ? [= <-]].
Qed.

(** Two months later the certificate of the gateway is replaced. *)
Definition toy_later : time := toy_start + 61 * 24 * hour.
Definition toy_handshake (m : PkiManager) (d : pki_disk) := GetCertificate (toy_env toy_later) m d.
#[local] Opaque toy_open toy_handshake.

Lemma handshake_certificate_witness :
  exists m d cert m1 d1, toy_open = (Ok m, d) /\ toy_handshake m d = ((Ok cert, m1), d1) /\
    c_DNSNames (t_Leaf cert) = [str "gateway.home.arpa"] /\ toy_later + renewBefore < c_NotAfter (t_Leaf cert).
Proof.
  assert (Hh : match toy_open with
               | (Ok m, d) => match toy_handshake m d with
                              | ((Ok cert, _), _) => c_NotAfter (t_Leaf cert) <? c_NotAfter (t_Leaf (m_root m))
                              | _ => false end
               | _ => false end = true) by (vm_compute; reflexivity).
  destruct toy_opened as (m & d & E & Hn & _). rewrite E in Hh.
  destruct (toy_handshake m d) as [[[cert|] m1] d1] eqn:Eg; [|discriminate Hh]. apply Z.ltb_lt in Hh.
  exists m, d, cert, m1, d1. split; [exact E|]. split; [exact Eg|].
  destruct (handshake_certificate (m_root m) m d (toy_env toy_later) d1 cert m1 (toy_state m d E) Eg) as (_ & H1 & _ & _ & H2 & _).
  rewrite <- Hn. split; [exact H1|]. destruct H2 as [H2|H2]; [exact H2|lia].
Defined.

Definition toy_sign (m : PkiManager) := SignCSR m toy_start (Some 41) [1] [str "a.home.arpa"].
#[local] Opaque toy_sign.

#[local] Instance toy_jose : Jose := {| Key := unit; zeroKey := tt; Thumbprint _ := None; IsPublic _ := true |}.
Definition toy_keyOf (_ : public_key) : Key := tt.
Definition toy_x509 (root : Certificate) : X509 := pki_x509 toy_keyOf root (fun _ => None) (fun _ => false).

Lemma issued_certificate_witness :
  exists m d chain leaf, toy_open = (Ok m, d) /\ toy_sign m = Ok chain /\
    @parseLeaf _ (toy_x509 (t_Leaf (m_root m))) chain = Some leaf /\
    IsCA leaf = false /\ SerialNumber leaf = 42 /\ DNSNames leaf ≡ₚ [str "a.home.arpa"].
Proof.
  assert (Hs : match toy_open.1 with
               | Ok m => match toy_sign m with
                         | Ok chain => match @parseLeaf _ (toy_x509 (t_Leaf (m_root m))) chain with Some _ => true | None => false end
                         | Err _ => false end
               | Err _ => false end = true) by (vm_compute; reflexivity).
  destruct toy_opened as (m & d & E & Hn & Hc). rewrite E in Hs. cbn [fst] in Hs.
  destruct (toy_sign m) as [chain|] eqn:Es; [|discriminate Hs].
  destruct (@parseLeaf _ (toy_x509 (t_Leaf (m_root m))) chain) as [leaf|] eqn:El; [|discriminate Hs].
  exists m, d, chain, leaf. split; [exact E|]. split; [exact Es|]. split; [exact El|].
  destruct (toy_state m d E) as [Hr Hm]. cbn [fst snd] in *.
  destruct (issued_certificate toy_keyOf (fun _ => None) (fun _ => false) m (m_root m) (str "home.arpa") toy_start 41 [1]
    [str "a.home.arpa"] chain leaf) as (H1 & _ & _ & H2 & _ & H3 & _).
  - by apply Hm.
  - by eapply readBundle_matched.
  - vm_compute. reflexivity.
  - rewrite Hc. vm_compute. reflexivity.
  - rewrite Hn. vm_compute. reflexivity.
  - exact Es.
  - exact El.
  - split; [exact H1|]. split; [exact H2|]. rewrite H3, Hc, Hn.
    replace (map (certificateName toy_cfg (str "gateway.home.arpa")) [str "a.home.arpa"]) with [str "a.home.arpa"]
      by (vm_compute; reflexivity). done.
Defined.
