(* ===== verification/Config.v ===== *)
(** * config: validation of the configuration

    config.go, records.go, ldap.go (validation) and nfs.go (shares): from the
    strings of the configuration file to the settings the services are built from,
    every check in the code's order.  ConfigFile has the JSON object and the
    paths. *)

From stdpp Require Import gmap list strings.
From Stdlib Require Import ZArith Lia.
From S2P Require Import Prelude GoStrings GoNet GoAddr GoPath GoTime Names Lease Ldap.

(** ** Code outside the repository *)

(** net/mail's address parser (display name and address), bcrypt's cost and the
    relative names of a DN, with their attributes. *)
Class ConfigLib `{LdapLib} := {
  mail_ParseAddress : bytes -> option (bytes * bytes);
  bcrypt_Cost : bytes -> option Z;
  DN_RDNs : DN -> list (list (bytes * bytes)) }.

(** ** Data *)

#[export] Instance prefix_eq_dec : EqDecision Prefix.
Proof. solve_decision. Defined.

Record NFSShare := mkShare { sh_Name : bytes; sh_Path : bytes; sh_ReadOnly : bool }.

(** [config.Config]. *)
Record BoxConfig := mkBoxConfig {
  cfg_Interface : bytes; cfg_DHCPAddress : bytes; cfg_DNSAddress : bytes; cfg_ServerIP : Addr;
  cfg_Subnet : Prefix; cfg_PoolStart : Addr; cfg_PoolEnd : Addr; cfg_Router : Addr; cfg_Domain : bytes;
  cfg_LeaseDuration : duration; cfg_LeaseFile : bytes; cfg_Upstream : bytes; cfg_DNSTTL : duration;
  cfg_TFTPAddress : bytes; cfg_NTPAddress : bytes; cfg_BootDirectory : bytes; cfg_HTTPAddress : bytes;
  cfg_HTTPSAddress : bytes; cfg_CADirectory : bytes; cfg_ACMEStateFile : bytes; cfg_LDAP : LDAPConfig;
  cfg_NFSAddress : bytes; cfg_NFS : list NFSShare; cfg_ARecords : gmap bytes Addr }.

(** [fileSettings]: the string settings under their key in the file (the map of
    pointers in [decode]) and the structured ones. *)
Record fileSettings := mkSettings {
  f_text : gmap bytes bytes; f_LDAP : LDAPConfig; f_NFS : list NFSShare; f_aRecords : gmap bytes bytes }.

Definition setting (key : string) (s : fileSettings) : bytes := default [] (f_text s !! str key).
Definition f_Interface := setting "interface".
Definition f_serverIP := setting "server_ip".
Definition f_subnet := setting "subnet".
Definition f_poolStart := setting "pool_start".
Definition f_poolEnd := setting "pool_end".
Definition f_router := setting "router".
Definition f_Domain := setting "domain".
Definition f_leaseDuration := setting "lease_duration".
Definition f_LeaseFile := setting "lease_file".
Definition f_Upstream := setting "upstream".
Definition f_dnsTTL := setting "dns_ttl".
Definition f_CADirectory := setting "ca_dir".
Definition f_BootDirectory := setting "boot_root".
Definition f_ACMEStateFile := setting "acme_state".

Inductive config_error :=
| ErrInterface | ErrRequired (name : string) | ErrNumeric (name : string) | ErrUnicast (name : string)
| ErrSubnetSyntax | ErrSubnetSize | ErrSubnetCanonical
| ErrOutsideSubnet (name : string) | ErrNetworkAddress (name : string) | ErrPoolOrder | ErrPoolServer | ErrPoolRouter
| ErrDomainChars | ErrDomainLength | ErrLabelLength | ErrLabelHyphen
| ErrRecordName (name : bytes) | ErrRecordReserved (name : bytes) | ErrRecordDuplicate (name : bytes)
| ErrDurationSyntax (name : string) | ErrDurationShort (name : string) | ErrDurationLong (name : string)
| ErrShareName (i : nat) | ErrShareDuplicate (i : nat) | ErrSharePath (i : nat) | ErrShareOverlap (i : nat)
| ErrBootRoot | ErrLdapListen | ErrBaseDN | ErrBaseDNAttribute
| ErrGroupName (i : nat) | ErrGroupDuplicate (i : nat) | ErrGroupID (i : nat) | ErrGroupIDDuplicate (i : nat)
| ErrUserName (i : nat) | ErrUserDuplicate (i : nat) | ErrUserID (i : nat) | ErrUserIDDuplicate (i : nat)
| ErrPrimaryGroup (i : nat) | ErrOtherGroup (i : nat) | ErrMail (i : nat) | ErrPassword (i : nat)
| ErrLdapHostname | ErrCADirectory | ErrACMEState | ErrUpstreamSyntax | ErrUpstreamUnicast | ErrUpstreamSelf.

Abbreviation checked := (Prelude.result config_error).
Definition test (b : bool) (e : config_error) : checked unit := if b then Ok tt else Err e.

(** ** Addresses *)

Definition parseIPv4 (name : string) (value : bytes) : checked Addr :=
  if beq value [] then Err (ErrRequired name)
  else match ParseAddr value with
       | Some (Addr4 v) => if IsGlobalUnicast4 v then Ok (Addr4 v) else Err (ErrUnicast name)
       | _ => Err (ErrNumeric name)
       end.

(** The last address of a subnet. *)
Definition broadcastIP (subnet : Prefix) : Addr :=
  Addr4 (Z.lor (addr_value (p_addr subnet)) (Z.shiftr (2 ^ 32 - 1) (p_bits subnet))).

Definition cfg_inPool (start end_ addr : Addr) : bool := addr_leb start addr && addr_leb addr end_.

Fixpoint validateHosts (subnet : Prefix) (addresses : list (string * Addr)) : checked unit :=
  match addresses with
  | [] => Ok tt
  | (name, addr) :: rest =>
      if negb (Contains subnet addr) then Err (ErrOutsideSubnet name)
      else if addr_eqb addr (p_addr subnet) || addr_eqb addr (broadcastIP subnet) then Err (ErrNetworkAddress name)
      else validateHosts subnet rest
  end.

(** [Config.validateNetwork]. *)
Definition validateNetwork (subnet : Prefix) (serverIP start end_ router : Addr) : checked unit :=
  match validateHosts subnet ([("server_ip"%string, serverIP); ("pool_start"%string, start); ("pool_end"%string, end_)]
                              ++ if IsValid router then [("router"%string, router)] else []) with
  | Err e => Err e
  | Ok _ =>
      if negb (addr_leb start end_) then Err ErrPoolOrder
      else if cfg_inPool start end_ serverIP then Err ErrPoolServer
      else if IsValid router && cfg_inPool start end_ router then Err ErrPoolRouter
      else Ok tt
  end.

(** ** Names, durations, endpoints *)

Fixpoint validateDomainLabels (labels : list bytes) : checked unit :=
  match labels with
  | [] => Ok tt
  | label :: rest =>
      if (len label =? 0) || (63 <? len label) then Err ErrLabelLength
      else if (at_ label 0 =? HYPHEN) || (at_ label (length label - 1) =? HYPHEN) then Err ErrLabelHyphen
      else if existsb (fun char => negb ((97 <=? char) && (char <=? 122)) && negb ((48 <=? char) && (char <=? 57))
                                   && negb (char =? HYPHEN)) (runes label) then Err ErrDomainChars
      else validateDomainLabels rest
  end.

Definition validateDomain (domain : bytes) : checked unit :=
  if (len domain =? 0) || (242 <? len domain) then Err ErrDomainLength
  else validateDomainLabels (Split domain DOT).

(** Go's % and / truncate; the first test has excluded negative values. *)
Definition validateDuration (name : string) (value minimum : duration) : checked unit :=
  if (value <? minimum) || negb (Z.rem value second =? 0) then Err (ErrDurationShort name)
  else if 2 ^ 32 - 1 <? Z.quot value second then Err (ErrDurationLong name)
  else Ok tt.

Definition parseAddress (value : bytes) : checked (Addr * Z) :=
  match SplitHostPort value with
  | None => Err ErrUpstreamSyntax
  | Some (host, portText) =>
      match ParseAddr host with
      | Some (Addr4 v) =>
          match ParseUint portText 16 with
          | Some port => if port =? 0 then Err ErrUpstreamSyntax else Ok (Addr4 v, port)
          | None => Err ErrUpstreamSyntax
          end
      | _ => Err ErrUpstreamSyntax
      end
  end.

Definition validateListeners (upstream : bytes) (serverIP : Addr) : checked unit :=
  if beq upstream [] then Ok tt
  else match parseAddress upstream with
       | Err e => Err e
       | Ok (addr, port) =>
           if negb (IsGlobalUnicast4 (addr_value addr)) && negb (IsLoopback addr) then Err ErrUpstreamUnicast
           else if (port =? 53) && addr_eqb addr serverIP then Err ErrUpstreamSelf
           else Ok tt
       end.

(** ** A records *)

Fixpoint parseRecords (domain : bytes) (records : list (bytes * bytes)) (acc : gmap bytes Addr)
    : checked (gmap bytes Addr) :=
  match records with
  | [] => Ok acc
  | (name, value) :: rest =>
      let canonical := NormalizeARecord name domain in
      if beq canonical [] then Err (ErrRecordName name)
      else if beq canonical (str "ns." ++ domain ++ [DOT]) || beq canonical (str "gateway." ++ domain ++ [DOT])
      then Err (ErrRecordReserved name)
      else if bool_decide (is_Some (acc !! canonical)) then Err (ErrRecordDuplicate name)
      else match parseIPv4 "a_records" value with
           | Err e => Err e
           | Ok ip => parseRecords domain rest (<[canonical := ip]> acc)
           end
  end.

(** [parseARecords]; the map is walked in some order. *)
Definition parseARecords (domain : bytes) (records : gmap bytes bytes) : checked (gmap bytes Addr) :=
  parseRecords domain (map_to_list records) ∅.

(** ** NFS shares *)

Definition alnum (c : Z) : bool :=
  ((65 <=? c) && (c <=? 90)) || ((97 <=? c) && (c <=? 122)) || ((48 <=? c) && (c <=? 57)).

(** [nfsSharePattern]: ^[A-Za-z0-9_][A-Za-z0-9_.-]{0,254}$ *)
Definition nfsSharePattern (name : bytes) : bool :=
  match name with
  | [] => false
  | c :: rest => (alnum c || (c =? 95))
      && forallb (fun c => alnum c || (c =? 95) || (c =? DOT) || (c =? HYPHEN)) rest && (len rest <=? 254)
  end.

(** [pathWithin]: whether [path] is [directory] or below it. *)
Definition pathWithin (directory path : bytes) : bool :=
  match Rel directory path with Some relative => beq relative dot || IsLocal relative | None => false end.

(** The loop of [ValidateNFSShares]: [previous] are the shares before the
    [i]-th, [names] their names. *)
Fixpoint validateShares (i : nat) (previous shares : list NFSShare) (names : gset bytes) : checked unit :=
  match shares with
  | [] => Ok tt
  | share :: rest =>
      if negb (nfsSharePattern (sh_Name share)) then Err (ErrShareName i)
      else if bool_decide (sh_Name share ∈ names) then Err (ErrShareDuplicate i)
      else if negb (IsAbs (sh_Path share)) || ContainsByte (sh_Path share) 0 then Err (ErrSharePath i)
      else if existsb (fun p => pathWithin (sh_Path p) (sh_Path share) || pathWithin (sh_Path share) (sh_Path p)) previous
      then Err (ErrShareOverlap i)
      else validateShares (S i) (previous ++ [share]) rest ({[sh_Name share]} ∪ names)
  end.

Definition ValidateNFSShares (shares : list NFSShare) : checked unit := validateShares 0 [] shares ∅.

(** ** LDAP *)

(** [ldapNamePattern]: ^[A-Za-z_][A-Za-z0-9_.-]{0,63}$ *)
Definition ldapNamePattern (name : bytes) : bool :=
  match name with
  | [] => false
  | c :: rest => ((alnum c && negb ((48 <=? c) && (c <=? 57))) || (c =? 95))
      && forallb (fun c => alnum c || (c =? 95) || (c =? DOT) || (c =? HYPHEN)) rest && (len rest <=? 63)
  end.

(** [bcryptHashPattern]: ^\$2[aby]\$[0-9]{2}\$[./A-Za-z0-9]{53}$ *)
Definition bcryptHashPattern (hash : bytes) : bool :=
  match hash with
  | d1 :: two :: v :: d2 :: c1 :: c2 :: d3 :: rest =>
      (d1 =? 36) && (two =? 50) && ((v =? 97) || (v =? 98) || (v =? 121)) && (d2 =? 36)
      && isDigit c1 && isDigit c2 && (d3 =? 36)
      && (len rest =? 53) && forallb (fun c => alnum c || (c =? DOT) || (c =? 47)) rest
  | _ => false
  end.

Definition validateLDAPListen (value : bytes) : bool :=
  match SplitHostPort value with
  | None => false
  | Some (host, portText) =>
      let host := if beq host [] then str "0.0.0.0" else host in
      match ParseAddr host with
      | None => false
      | Some addr =>
          if negb (beq (addr_zone addr) []) then false
          else
            let unicast := IsGlobalUnicast addr || IsLoopback addr in
            if negb unicast && negb (IsUnspecified addr) then false
            else match ParseUint portText 16 with
                 | None => false
                 | Some port => negb ((port =? 0) && negb (IsLoopback addr))
                 end
      end
  end.

(** [hex.DecodeString] succeeds with 32 bytes. *)
Fixpoint hexDigits (s : bytes) : bool :=
  match s with
  | [] => true
  | c :: rest => match hex_value c with Some _ => hexDigits rest | None => false end
  end.

Section ldap.
Context `{ConfigLib}.

(** [validateLDAPPassword]; bcrypt.MinCost is 4. *)
Definition validateLDAPPassword (user : LDAPUser) : bool :=
  let hasSHA256 := negb (beq (u_PassSHA256 user) []) in
  let hasBcrypt := negb (beq (u_PassBcrypt user) []) in
  if hasSHA256 && hasBcrypt then false
  else if negb (u_Disabled user) && negb hasSHA256 && negb hasBcrypt then false
  else if hasSHA256 && negb (hexDigits (u_PassSHA256 user) && (len (u_PassSHA256 user) =? 64)) then false
  else if hasBcrypt && negb (bcryptHashPattern (u_PassBcrypt user)) then false
  else if hasBcrypt && negb (match bcrypt_Cost (u_PassBcrypt user) with
                             | Some cost => (4 <=? cost) && (cost <=? 14) | None => false end) then false
  else true.

Definition maxInt32 : Z := 2 ^ 31 - 1.

(** The loop over the groups: their IDs. *)
Fixpoint validateGroups (i : nat) (groups : list LDAPGroup) (names : gset bytes) (ids : gset Z) : checked (gset Z) :=
  match groups with
  | [] => Ok ids
  | group :: rest =>
      if negb (ldapNamePattern (g_Name group)) then Err (ErrGroupName i)
      else
        let name := ToLower (g_Name group) in
        if bool_decide (name ∈ names) then Err (ErrGroupDuplicate i)
        else if (g_GID group <=? 0) || (maxInt32 <? g_GID group) then Err (ErrGroupID i)
        else if bool_decide (g_GID group ∈ ids) then Err (ErrGroupIDDuplicate i)
        else validateGroups (S i) rest ({[name]} ∪ names) ({[g_GID group]} ∪ ids)
  end.

Fixpoint validateUsers (i : nat) (users : list LDAPUser) (groups : gset Z) (names : gset bytes) (uids : gset Z)
    : checked unit :=
  match users with
  | [] => Ok tt
  | user :: rest =>
      if negb (ldapNamePattern (u_Name user)) then Err (ErrUserName i)
      else
        let name := ToLower (u_Name user) in
        if bool_decide (name ∈ names) then Err (ErrUserDuplicate i)
        else if (u_UIDNumber user <? 0) || (maxInt32 <? u_UIDNumber user) then Err (ErrUserID i)
        else if negb (u_UIDNumber user =? 0) && bool_decide (u_UIDNumber user ∈ uids) then Err (ErrUserIDDuplicate i)
        else
          let uids := if u_UIDNumber user =? 0 then uids else {[u_UIDNumber user]} ∪ uids in
          if negb (bool_decide (u_PrimaryGroup user ∈ groups)) then Err (ErrPrimaryGroup i)
          else if negb (forallb (fun gid => bool_decide (gid ∈ groups)) (u_OtherGroups user)) then Err (ErrOtherGroup i)
          else if negb (beq (u_Mail user) [])
                  && negb (match mail_ParseAddress (u_Mail user) with
                           | Some (name, address) => beq name [] && beq address (u_Mail user) | None => false end)
          then Err (ErrMail i)
          else if negb (validateLDAPPassword user) then Err (ErrPassword i)
          else validateUsers (S i) rest groups ({[name]} ∪ names) uids
  end.

(** [LDAPConfig.Validate]. *)
Definition Validate_ldap (c : LDAPConfig) : checked unit :=
  if negb (validateLDAPListen (Listen c)) || negb (validateLDAPListen (TLSListen c)) then Err ErrLdapListen
  else match ParseDN (BaseDN c) with
       | None => Err ErrBaseDN
       | Some dn =>
           if len (DN_RDNs dn) =? 0 then Err ErrBaseDN
           else if existsb (existsb (fun attr => beq (TrimSpace attr.1) [] || beq (TrimSpace attr.2) [])) (DN_RDNs dn)
           then Err ErrBaseDNAttribute
           else ids <-! validateGroups 0 (Groups c) ∅ ∅ ; validateUsers 0 (Users c) ids ∅ ∅
       end.

(** ** The whole configuration *)

(** The listener of a service on the server's address. *)
Definition serverPort (ip : Addr) (port : string) : bytes := JoinHostPort (String4 (addr_value ip)) (str port).

(** [fileSettings.config]. *)
Definition config_ (s : fileSettings) : checked BoxConfig :=
  _ <-! test (negb (beq (TrimSpace (f_Interface s)) [])) ErrInterface ;
  serverIP <-! parseIPv4 "server_ip" (f_serverIP s) ;
  subnet <-! (match ParsePrefix (f_subnet s) with Some p => Ok p | None => Err ErrSubnetSyntax end) ;
  _ <-! test (Is4 (p_addr subnet) && (p_bits subnet <=? 30)) ErrSubnetSize ;
  _ <-! test (bool_decide (subnet = Masked subnet)) ErrSubnetCanonical ;
  poolStart <-! parseIPv4 "pool_start" (f_poolStart s) ;
  poolEnd <-! parseIPv4 "pool_end" (f_poolEnd s) ;
  router <-! (if beq (f_router s) [] then Ok AddrNone else parseIPv4 "router" (f_router s)) ;
  _ <-! validateNetwork subnet serverIP poolStart poolEnd router ;
  _ <-! test (forallb (fun char => char <=? 127) (runes (f_Domain s))) ErrDomainChars ;
  let domain := ToLower (TrimSuffix (f_Domain s) [DOT]) in
  _ <-! validateDomain domain ;
  aRecords <-! parseARecords domain (f_aRecords s) ;
  leaseDuration <-! (match ParseDuration (f_leaseDuration s) with
                     | Some d => Ok d | None => Err (ErrDurationSyntax "lease_duration") end) ;
  dnsTTL <-! (match ParseDuration (f_dnsTTL s) with
              | Some d => Ok d | None => Err (ErrDurationSyntax "dns_ttl") end) ;
  _ <-! validateDuration "lease_duration" leaseDuration minute ;
  _ <-! validateDuration "dns_ttl" dnsTTL second ;
  _ <-! ValidateNFSShares (f_NFS s) ;
  _ <-! test (negb (beq (TrimSpace (f_BootDirectory s)) [])) ErrBootRoot ;
  let baseDN := if beq (BaseDN (f_LDAP s)) [] then str "dc=" ++ Join (Split domain DOT) (str ",dc=")
                else BaseDN (f_LDAP s) in
  let ldap := mkLDAPConfig (serverPort serverIP "389") (serverPort serverIP "636") baseDN
                (Users (f_LDAP s)) (Groups (f_LDAP s)) in
  _ <-! Validate_ldap ldap ;
  let name := str "ldap." ++ domain ++ [DOT] in
  _ <-! test (match aRecords !! name with Some address => addr_eqb address serverIP | None => true end)
          ErrLdapHostname ;
  let aRecords := <[name := serverIP]> aRecords in
  _ <-! test (negb (beq (TrimSpace (f_CADirectory s)) [])) ErrCADirectory ;
  let acmeState := if beq (f_ACMEStateFile s) [] then PathJoin (f_CADirectory s) (str "acme.json")
                   else f_ACMEStateFile s in
  _ <-! test (negb (beq (TrimSpace acmeState) [])) ErrACMEState ;
  _ <-! validateListeners (f_Upstream s) serverIP ;
  Ok (mkBoxConfig (f_Interface s) (str ":67") (serverPort serverIP "53") serverIP subnet poolStart poolEnd router
        domain leaseDuration (f_LeaseFile s) (f_Upstream s) dnsTTL (serverPort serverIP "69")
        (serverPort serverIP "123") (f_BootDirectory s) (serverPort serverIP "80") (serverPort serverIP "443")
        (f_CADirectory s) acmeState ldap (serverPort serverIP "2049") (f_NFS s) aRecords).

End ldap.
