(* ===== verification/ConfigFile.v ===== *)
(** * config: the configuration file

    file.go and the decoding halves of ldap.go, nfs.go and records.go: the JSON
    object of the configuration, read strictly, the default settings, and the
    rules about where private and public files may be.  The code walks the tokens of
    the file and stops at the first thing it does not expect; the definitions walk
    the value GoJson reads, and so accept the same files. *)

From stdpp Require Import gmap list strings.
From Stdlib Require Import ZArith Lia.
From S2P Require Import Prelude GoStrings GoNet GoPath GoJson Ldap Config.

(** ** Decoding *)

Inductive decode_error :=
| ErrNotObject (what : string) | ErrNotArray (what : string) | ErrDuplicateKey (key : bytes) | ErrUnknownKey (key : bytes)
| ErrValue (key : bytes) | ErrSyntax | ErrTrailingData.

Abbreviation decoded := (Prelude.result decode_error).

(** The loop over the members of an object: [set key v a] stores a member in the
    value [a] being built, [None] for a key it does not know. *)
Fixpoint decodeMembers {A} (set : bytes -> json -> A -> option (decoded A)) (members : list (bytes * json))
    (seen : gset bytes) (a : A) : decoded A :=
  match members with
  | [] => Ok a
  | (key, v) :: rest =>
      if bool_decide (key ∈ seen) then Err (ErrDuplicateKey key)
      else match set key v a with
           | None => Err (ErrUnknownKey key)
           | Some (Err e) => Err e
           | Some (Ok a) => decodeMembers set rest ({[key]} ∪ seen) a
           end
  end.

(** [decodeLDAPObject], for the struct behind its map of fields. *)
Definition decodeLDAPObject {A} (what : string) (set : bytes -> json -> A -> option (decoded A)) (v : json) (zero : A)
    : decoded A :=
  match v with
  | JObj members => decodeMembers set members ∅ zero
  | _ => Err (ErrNotObject what)
  end.

Fixpoint decodeElements {A} (decode : json -> decoded A) (l : list json) : decoded (list A) :=
  match l with
  | [] => Ok []
  | v :: rest => a <-! decode v ; acc <-! decodeElements decode rest ; Ok (a :: acc)
  end.

(** [decodeLDAPArray]. *)
Definition decodeLDAPArray {A} (what : string) (decode : json -> decoded A) (v : json) : decoded (list A) :=
  match v with
  | JArr l => decodeElements decode l
  | _ => Err (ErrNotArray what)
  end.

(** [decodeLDAPScalar] by the type of the target: null and other types are
    refused. *)
Definition scalarString (key : bytes) (v : json) : decoded bytes :=
  match v with JStr s => Ok (unquote s) | _ => Err (ErrValue key) end.
Definition scalarBool (key : bytes) (v : json) : decoded bool :=
  match v with JBool b => Ok b | _ => Err (ErrValue key) end.
Definition scalarInt (key : bytes) (v : json) : decoded Z :=
  match v with
  | JNum literal => match numberInt literal with Some n => Ok n | None => Err (ErrValue key) end
  | _ => Err (ErrValue key)
  end.

Definition rmap {E A B} (f : A -> B) (r : Prelude.result E A) : Prelude.result E B :=
  match r with Ok a => Ok (f a) | Err e => Err e end.

Definition is_key (key : bytes) (name : string) : bool := beq key (str name).

(** [decodeLDAPUser]. *)
Definition setUser (key : bytes) (v : json) (u : LDAPUser) : option (decoded LDAPUser) :=
  let '(mkUser name mail sha bcrypt uid primary other disabled search) := u in
  if is_key key "name" then Some (rmap (fun x => mkUser x mail sha bcrypt uid primary other disabled search) (scalarString key v))
  else if is_key key "mail" then Some (rmap (fun x => mkUser name x sha bcrypt uid primary other disabled search) (scalarString key v))
  else if is_key key "pass_sha256" then Some (rmap (fun x => mkUser name mail x bcrypt uid primary other disabled search) (scalarString key v))
  else if is_key key "pass_bcrypt" then Some (rmap (fun x => mkUser name mail sha x uid primary other disabled search) (scalarString key v))
  else if is_key key "uid_number" then Some (rmap (fun x => mkUser name mail sha bcrypt x primary other disabled search) (scalarInt key v))
  else if is_key key "primary_group" then Some (rmap (fun x => mkUser name mail sha bcrypt uid x other disabled search) (scalarInt key v))
  else if is_key key "other_groups" then
    Some (rmap (fun x => mkUser name mail sha bcrypt uid primary x disabled search) (decodeLDAPArray "other_groups" (scalarInt key) v))
  else if is_key key "disabled" then Some (rmap (fun x => mkUser name mail sha bcrypt uid primary other x search) (scalarBool key v))
  else if is_key key "can_search" then Some (rmap (fun x => mkUser name mail sha bcrypt uid primary other disabled x) (scalarBool key v))
  else None.
Definition decodeLDAPUser (v : json) : decoded LDAPUser :=
  decodeLDAPObject "user" setUser v (mkUser [] [] [] [] 0 0 [] false false).

Definition setGroup (key : bytes) (v : json) (g : LDAPGroup) : option (decoded LDAPGroup) :=
  if is_key key "name" then Some (rmap (fun x => mkGroup x (g_GID g)) (scalarString key v))
  else if is_key key "gid" then Some (rmap (fun x => mkGroup (g_Name g) x) (scalarInt key v))
  else None.
Definition decodeLDAPGroup (v : json) : decoded LDAPGroup := decodeLDAPObject "group" setGroup v (mkGroup [] 0).

Definition setLDAP (key : bytes) (v : json) (c : LDAPConfig) : option (decoded LDAPConfig) :=
  if is_key key "base_dn" then Some (rmap (fun x => mkLDAPConfig [] [] x (Users c) (Groups c)) (scalarString key v))
  else if is_key key "users" then
    Some (rmap (fun x => mkLDAPConfig [] [] (BaseDN c) x (Groups c)) (decodeLDAPArray "users" decodeLDAPUser v))
  else if is_key key "groups" then
    Some (rmap (fun x => mkLDAPConfig [] [] (BaseDN c) (Users c) x) (decodeLDAPArray "groups" decodeLDAPGroup v))
  else None.
Definition zeroLDAP : LDAPConfig := mkLDAPConfig [] [] [] [] [].
Definition decodeLDAP (v : json) : decoded LDAPConfig := decodeLDAPObject "ldap" setLDAP v zeroLDAP.

(** [decodeNFS]. *)
Definition setShare (key : bytes) (v : json) (s : NFSShare) : option (decoded NFSShare) :=
  if is_key key "name" then Some (rmap (fun x => mkShare x (sh_Path s) (sh_ReadOnly s)) (scalarString key v))
  else if is_key key "path" then Some (rmap (fun x => mkShare (sh_Name s) x (sh_ReadOnly s)) (scalarString key v))
  else if is_key key "read_only" then Some (rmap (fun x => mkShare (sh_Name s) (sh_Path s) x) (scalarBool key v))
  else None.
Definition decodeNFS (v : json) : decoded (list NFSShare) :=
  decodeLDAPArray "nfs" (fun v => decodeLDAPObject "nfs" setShare v (mkShare [] [] false)) v.

(** [decodeARecords]. *)
Fixpoint recordMembers (members : list (bytes * json)) (records : gmap bytes bytes) : decoded (gmap bytes bytes) :=
  match members with
  | [] => Ok records
  | (name, v) :: rest =>
      if bool_decide (is_Some (records !! name)) then Err (ErrDuplicateKey name)
      else match v with
           | JStr ip => recordMembers rest (<[name := unquote ip]> records)
           | _ => Err (ErrValue name)
           end
  end.
Definition decodeARecords (v : json) : decoded (gmap bytes bytes) :=
  match v with JObj members => recordMembers members ∅ | _ => Err (ErrNotObject "a_records") end.

(** ** The settings *)

(** The keys of the string settings. *)
Definition fields : list bytes :=
  map str ["interface"; "server_ip"; "subnet"; "pool_start"; "pool_end"; "router"; "domain"; "lease_duration";
           "lease_file"; "upstream"; "dns_ttl"; "ca_dir"; "boot_root"; "acme_state"]%string.

(** The body of the loop of [decode]. *)
Definition setSetting (key : bytes) (v : json) (s : fileSettings) : option (decoded fileSettings) :=
  if is_key key "nfs" then Some (rmap (fun x => mkSettings (f_text s) (f_LDAP s) x (f_aRecords s)) (decodeNFS v))
  else if is_key key "ldap" then Some (rmap (fun x => mkSettings (f_text s) x (f_NFS s) (f_aRecords s)) (decodeLDAP v))
  else if is_key key "a_records" then Some (rmap (fun x => mkSettings (f_text s) (f_LDAP s) (f_NFS s) x) (decodeARecords v))
  else if bool_decide (key ∈ fields) then
    Some (rmap (fun x => mkSettings (<[key := x]> (f_text s)) (f_LDAP s) (f_NFS s) (f_aRecords s)) (scalarString key v))
  else None.

(** [fileSettings.decode]. *)
Definition decode_settings (data : bytes) (s : fileSettings) : decoded fileSettings :=
  match firstValue data with
  | None => Err ErrSyntax
  | Some (JObj members, rest) =>
      s <-! decodeMembers setSetting members ∅ s ;
      if negb (beq (skipSpace rest) []) then Err ErrTrailingData else Ok s
  | Some _ => Err (ErrNotObject "configuration")
  end.

(** The settings before the file is read. *)
Definition defaults : fileSettings :=
  mkSettings
    (list_to_map (map (fun kv => (str kv.1, str kv.2))
       [("domain", "home.arpa"); ("lease_file", "leases.json"); ("ca_dir", "pki"); ("boot_root", "tftp");
        ("lease_duration", "12h"); ("dns_ttl", "1m")]%string))
    zeroLDAP [] ∅.

(** ** Paths *)

Definition resolvePath (dir path : bytes) : bytes :=
  if beq path [] then [] else if IsAbs path then Clean path else PathJoin dir path.

(** What [filepath.EvalSymlinks] answers. *)
Inductive evaluated := Resolved (path : bytes) | NotExist | EvalFailed.

Section paths.
Variable EvalSymlinks : bytes -> evaluated.

(** [canonicalPath]: [None] is its error.  Every turn goes to the parent, so the
    length of the path is enough fuel. *)
Fixpoint canonicalFrom (fuel : nat) (name : bytes) : option bytes :=
  match EvalSymlinks name with
  | Resolved p => Some p
  | EvalFailed => None
  | NotExist =>
      let parent := Dir name in
      if beq parent name then None
      else match fuel with
           | O => None
           | S k => match canonicalFrom k parent with
                    | Some resolved => Some (PathJoin resolved (Base name))
                    | None => None
                    end
           end
  end.
Definition canonicalPath (name : bytes) : option bytes := canonicalFrom (length name) name.

Inductive path_error :=
| ErrSamePath (setting target : string) | ErrBootContains (target : string) | ErrBootInside
| ErrResolve (target : string) | ErrResolveShare (name : bytes) | ErrShareContains (name : bytes) (target : string)
| ErrShareInside (name : bytes) | ErrShares (e : config_error).

Abbreviation pathResult := (Prelude.result path_error).

(** The loop that resolves the protected paths. *)
Fixpoint resolveProtected (protected : list (string * bytes)) : pathResult (list (string * bytes)) :=
  match protected with
  | [] => Ok []
  | (name, path) :: rest =>
      if beq path [] then more <-! resolveProtected rest ; Ok ((name, path) :: more)
      else match canonicalPath path with
           | None => Err (ErrResolve name)
           | Some p => more <-! resolveProtected rest ; Ok ((name, p) :: more)
           end
  end.

(** The inner loop of [validateNFSPaths], for one resolved share. *)
Fixpoint shareClear (share : NFSShare) (protected : list (string * bytes)) : pathResult unit :=
  match protected with
  | [] => Ok tt
  | (name, path) :: rest =>
      if negb (beq path []) && pathWithin (sh_Path share) path then Err (ErrShareContains (sh_Name share) name)
      else if bool_decide (name = "ca_dir"%string) && pathWithin path (sh_Path share)
      then Err (ErrShareInside (sh_Name share))
      else shareClear share rest
  end.

Fixpoint resolveShares (shares : list NFSShare) (protected : list (string * bytes)) : pathResult (list NFSShare) :=
  match shares with
  | [] => Ok []
  | share :: rest =>
      match canonicalPath (sh_Path share) with
      | None => Err (ErrResolveShare (sh_Name share))
      | Some p =>
          let share := mkShare (sh_Name share) p (sh_ReadOnly share) in
          _ <-! shareClear share protected ;
          more <-! resolveShares rest protected ;
          Ok (share :: more)
      end
  end.

(** [Config.validateNFSPaths]. *)
Definition validateNFSPaths (c : BoxConfig) (configPath : bytes) : pathResult unit :=
  match cfg_NFS c with
  | [] => Ok tt
  | shares =>
      protected <-! resolveProtected [("configuration file", configPath); ("ca_dir", cfg_CADirectory c);
                                      ("lease_file", cfg_LeaseFile c); ("acme_state", cfg_ACMEStateFile c)]%string ;
      resolved <-! resolveShares shares protected ;
      match ValidateNFSShares resolved with Ok _ => Ok tt | Err e => Err (ErrShares e) end
  end.

(** The files [validatePaths] protects. *)
Definition protectedFiles (c : BoxConfig) (configPath : bytes) : list (string * bytes) :=
  [("configuration file"%string, configPath); ("ca_dir"%string, cfg_CADirectory c)]
  ++ map (fun f => ("CA certificate/key files"%string, PathJoin (cfg_CADirectory c) (str f)))
       ["root-ca-bundle.pem"; "gateway-bundle.pem"; "ldap-bundle.pem"; "root-ca.pem"]%string.

Fixpoint distinctState (c : BoxConfig) (protected : list (string * bytes)) : pathResult unit :=
  match protected with
  | [] => Ok tt
  | (name, path) :: rest =>
      if beq (cfg_ACMEStateFile c) path then Err (ErrSamePath "acme_state" name)
      else if beq (cfg_LeaseFile c) path then Err (ErrSamePath "lease_file" name)
      else distinctState c rest
  end.

(** [Config.validatePaths]. *)
Definition validatePaths (c : BoxConfig) (configPath : bytes) : pathResult unit :=
  let protected := protectedFiles c configPath in
  _ <-! distinctState c protected ;
  if beq (cfg_ACMEStateFile c) (cfg_LeaseFile c) then Err (ErrSamePath "acme_state" "lease_file")
  else if existsb (fun target => beq target.2 configPath) (drop 1 protected)
  then Err (ErrSamePath "configuration file" "CA files")
  else if existsb (fun target => negb (beq target.2 []) && pathWithin (cfg_BootDirectory c) target.2)
            (protected ++ [("lease_file"%string, cfg_LeaseFile c); ("acme_state"%string, cfg_ACMEStateFile c)])
  then Err (ErrBootContains "private files")
  else if pathWithin (cfg_CADirectory c) (cfg_BootDirectory c) then Err ErrBootInside
  else validateNFSPaths c configPath.

(** ** Loading *)

Definition maxConfigBytes : Z := 1048576.

(** A configuration file as the system shows it: its kind and size when looked
    at, and what reading it gives. *)
Record config_file := mkConfigFile { cf_regular : bool; cf_size : Z; cf_data : option bytes }.

(** [readConfig]. *)
Definition readConfig (file : option config_file) : option bytes :=
  match file with
  | None => None
  | Some f =>
      if negb (cf_regular f) || (maxConfigBytes <? cf_size f) then None
      else match cf_data f with
           | None => None
           | Some data =>
               let data := take (Z.to_nat (maxConfigBytes + 1)) data in
               if (maxConfigBytes <? len data) || negb (ValidString data) then None else Some data
           end
  end.

Inductive load_error := ErrConfigPath | ErrReadConfig | ErrDecode (e : decode_error) | ErrConfig (e : config_error)
  | ErrPaths (e : path_error).

Definition with_paths (c : BoxConfig) (leases boot ca acme : bytes) : BoxConfig :=
  mkBoxConfig (cfg_Interface c) (cfg_DHCPAddress c) (cfg_DNSAddress c) (cfg_ServerIP c) (cfg_Subnet c)
    (cfg_PoolStart c) (cfg_PoolEnd c) (cfg_Router c) (cfg_Domain c) (cfg_LeaseDuration c) leases (cfg_Upstream c)
    (cfg_DNSTTL c) (cfg_TFTPAddress c) (cfg_NTPAddress c) boot (cfg_HTTPAddress c) (cfg_HTTPSAddress c) ca acme
    (cfg_LDAP c) (cfg_NFSAddress c) (cfg_NFS c) (cfg_ARecords c).

(** The working directory and the file at a path. *)
Variable cwd : bytes.
Variable fileAt : bytes -> option config_file.

(** [Load]; [filepath.Abs] is the join with the working directory. *)
Definition Load `{ConfigLib} (path : bytes) : Prelude.result load_error BoxConfig :=
  if beq (TrimSpace path) [] then Err ErrConfigPath
  else
    let path := if IsAbs path then Clean path else PathJoin cwd path in
    match readConfig (fileAt path) with
    | None => Err ErrReadConfig
    | Some data =>
        match decode_settings data defaults with
        | Err e => Err (ErrDecode e)
        | Ok settings =>
            match config_ settings with
            | Err e => Err (ErrConfig e)
            | Ok c =>
                let dir := Dir path in
                let c := with_paths c (resolvePath dir (cfg_LeaseFile c)) (resolvePath dir (cfg_BootDirectory c))
                           (resolvePath dir (cfg_CADirectory c)) (resolvePath dir (cfg_ACMEStateFile c)) in
                match validatePaths c path with
                | Err e => Err (ErrPaths e)
                | Ok _ => Ok c
                end
            end
        end
    end.

End paths.
