(* ===== verification/ConfigFacts.v ===== *)
(** * Facts about validated settings

    What passing each check of the configuration means, as used by the theorems
    on the services. *)

From stdpp Require Import gmap list strings.
From Stdlib Require Import ZArith Lia.
From S2P Require Import Prelude GoStrings GoNet GoAddr GoAddrFacts GoPath GoTime Names Lease Ldap Config.

(** ** Shares *)

Lemma pathWithin_spec d p : IsAbs d = true -> IsAbs p = true ->
  pathWithin d p = true <-> components d `prefix_of` components p.
Proof. exact (Rel_local d p). Qed.

(** Two paths neither of which contains the other. *)
Definition apart (p q : bytes) : Prop :=
  ~ components p `prefix_of` components q /\ ~ components q `prefix_of` components p.

Lemma apart_sym p q : apart p q -> apart q p.
Proof. intros [H1 H2]. by split. Qed.

Record shares_ok (shares : list NFSShare) : Prop := {
  sh_abs : Forall (fun s => IsAbs (sh_Path s) = true /\ 0 ∉ sh_Path s /\ nfsSharePattern (sh_Name s) = true) shares;
  sh_names : NoDup (map sh_Name shares);
  sh_apart : ForallOrdPairs (fun s t => apart (sh_Path s) (sh_Path t)) shares }.

Lemma validateShares_ok i previous shares names :
  Forall (fun s => IsAbs (sh_Path s) = true) previous -> (forall s, s ∈ previous -> sh_Name s ∈ names) ->
  validateShares i previous shares names = Ok tt ->
  shares_ok shares /\
  Forall (fun s => Forall (fun p => apart (sh_Path p) (sh_Path s) /\ sh_Name p <> sh_Name s) previous) shares.
Proof.
  revert i previous names. induction shares as [|s shares IH]; intros i previous names Hp Hn E.
  { split; [split; constructor|constructor]. }
  cbn [validateShares] in E. destruct (negb (nfsSharePattern _)) eqn:E1; [done|]. bool_hyps.
  destruct (bool_decide (sh_Name s ∈ names)) eqn:E2; [done|]. bool_hyps.
  destruct (negb (IsAbs (sh_Path s)) || _) eqn:E3; [done|]. bool_hyps.
  destruct (existsb _ previous) eqn:E4; [done|].
  assert (Hz : 0 ∉ sh_Path s). { intros Hin. apply ContainsByte_spec in Hin. congruence. }
  assert (Hps : Forall (fun p => apart (sh_Path p) (sh_Path s) /\ sh_Name p <> sh_Name s) previous).
  { apply Forall_forall. intros p Hpin. rewrite Forall_forall in Hp.
    assert (Hf : pathWithin (sh_Path p) (sh_Path s) || pathWithin (sh_Path s) (sh_Path p) = false).
    { destruct (_ || _) eqn:E5 at 1; [|done]. rewrite <- not_true_iff_false in E4. destruct E4.
      apply existsb_exists. exists p. split; [by apply list_elem_of_In|done]. }
    apply orb_false_iff in Hf as [F1 F2]. split.
    - split; rewrite <- pathWithin_spec by auto; congruence.
    - intros En. apply E2. rewrite <- En. by apply Hn. }
  apply IH in E as [[S1 S2 S3] Hrest].
  2:{ apply Forall_app. by split; [|constructor]. }
  2:{ intros p. rewrite elem_of_app, list_elem_of_singleton. intros [Hin| ->]; [|set_solver]. apply Hn in Hin. set_solver. }
  assert (Hs : Forall (fun t => apart (sh_Path s) (sh_Path t) /\ sh_Name s <> sh_Name t) shares).
  { eapply Forall_impl; [exact Hrest|]. intros t Ht. apply Forall_app in Ht as [_ Ht]. by apply Forall_cons in Ht as [Ht _]. }
  split.
  - split; [by constructor| |].
    + simpl. constructor; [|done]. intros Hin. apply list_elem_of_fmap in Hin as (t & En & Hin).
      rewrite Forall_forall in Hs. by apply Hs in Hin as [_ Hin].
    + constructor; [|done]. eapply Forall_impl; [exact Hs|]. by intros t [Ht _].
  - constructor; [done|]. eapply Forall_impl; [exact Hrest|]. intros t Ht. by apply Forall_app in Ht as [Ht _].
Qed.

Lemma ValidateNFSShares_ok shares : ValidateNFSShares shares = Ok tt -> shares_ok shares.
Proof. intros E. apply validateShares_ok in E as [E _]; [done|constructor|]. intros s Hs. by apply not_elem_of_nil in Hs. Qed.

(** Different shares do not overlap. *)
Lemma shares_apart shares s t : shares_ok shares -> s ∈ shares -> t ∈ shares -> s <> t -> apart (sh_Path s) (sh_Path t).
Proof.
  intros [_ _ Ha] Hs Ht Hne. induction Ha as [|x l Hx _ IH]; [by apply not_elem_of_nil in Hs|].
  rewrite Forall_forall in Hx. apply elem_of_cons in Hs as [->|Hs], Ht as [->|Ht]; [done|by apply Hx|by apply apart_sym, Hx|by apply IH].
Qed.

(** ** Addresses *)

(** A 32-bit unicast address. *)
Definition host4 (a : Addr) : Prop := exists v, a = Addr4 v /\ 0 <= v < 2 ^ 32 /\ IsGlobalUnicast4 v = true.

Lemma parseIPv4_ok name value a : parseIPv4 name value = Ok a -> host4 a.
Proof.
  unfold parseIPv4. destruct (beq value []); [done|]. destruct (ParseAddr value) as [[|v|]|] eqn:Ep; try done.
  destruct (IsGlobalUnicast4 v) eqn:Eu; [|done]. intros [= <-]. exists v. split; [done|]. split; [|done]. by eapply ParseAddr_4.
Qed.

Lemma ParseAddr_valid s a : ParseAddr s = Some a -> IsValid a = true.
Proof.
  unfold ParseAddr. destruct (addrSyntax s) as [c|] eqn:E; [|done]. apply addrSyntax_some in E as [->|[->| ->]]; [| |done].
  - destruct (parseIPv4Fields s); [|done]. by intros [= <-].
  - unfold parseIPv6. intros E. repeat case_match; try done; by injection E as <-.
Qed.

Lemma ParsePrefix_valid s p : ParsePrefix s = Some p -> prefix_IsValid p = true.
Proof.
  unfold ParsePrefix. destruct (LastIndexByte s 47) as [i|]; [|done]. destruct (ParseAddr (take i s)) as [ip|] eqn:Ep; [|done].
  destruct (negb (beq (addr_zone ip) [])) eqn:Ez; [done|]. bool_hyps. destruct (_ && _); [done|].
  destruct (Atoi _) as [bits|]; [|done]. destruct ((bits <? 0) || _) eqn:Eb; [done|]. bool_hyps. intros [= <-].
  unfold prefix_IsValid. cbn [p_addr p_bits].
  assert (Hv := ParseAddr_valid _ _ Ep).
  rewrite Hv. apply beq_true in Ez as Ez'. rewrite Ez. rewrite !andb_true_iff. repeat split; apply Z.leb_le; lia.
Qed.

(** The subnet of a configuration: a canonical IPv4 prefix with room for hosts. *)
Definition subnet4 (p : Prefix) : Prop :=
  exists base bits, p = mkPrefix (Addr4 base) bits /\ 0 <= bits <= 30 /\ Masked p = p.

Lemma subnet4_valid p : subnet4 p -> prefix_IsValid p = true.
Proof.
  intros (base & bits & -> & Hb & _). unfold prefix_IsValid. cbn. rewrite !andb_true_iff. repeat split; apply Z.leb_le; lia.
Qed.

(** Addresses between two addresses of a subnet are in the subnet. *)
Lemma Contains_between p a b v : subnet4 p -> Contains p (Addr4 a) = true -> Contains p (Addr4 b) = true ->
  a <= v <= b -> Contains p (Addr4 v) = true.
Proof.
  intros (base & bits & -> & Hb & _). rewrite !Contains4 by lia. intros Ha Hb' Hv.
  assert (0 < 2 ^ (32 - bits)) by (apply Z.pow_pos_nonneg; lia).
  pose proof (Z.div_le_mono a v (2 ^ (32 - bits)) ltac:(lia) ltac:(lia)).
  pose proof (Z.div_le_mono v b (2 ^ (32 - bits)) ltac:(lia) ltac:(lia)). lia.
Qed.

(** The addresses of a subnet, from the network to the broadcast address. *)
Lemma subnet_range base bits : subnet4 (mkPrefix (Addr4 base) bits) ->
  broadcastIP (mkPrefix (Addr4 base) bits) = Addr4 (base + (2 ^ (32 - bits) - 1)) /\
  (forall v, Contains (mkPrefix (Addr4 base) bits) (Addr4 v) = true -> base <= v <= base + (2 ^ (32 - bits) - 1)).
Proof.
  intros (base' & bits' & [= <- <-] & Hb & Hm). set (n := 32 - bits).
  assert (Hn : 0 < 2 ^ n) by (apply Z.pow_pos_nonneg; lia).
  assert (Hbase : base = 2 ^ n * (base / 2 ^ n)).
  { injection Hm as Hm. cbn [p_addr p_bits BitLen] in Hm. fold n in Hm.
    rewrite Z.shiftl_mul_pow2, Z.shiftr_div_pow2 in Hm by lia. lia. }
  split.
  - unfold broadcastIP. cbn [p_addr p_bits addr_value]. f_equal.
    assert (Hones : Z.shiftr (2 ^ 32 - 1) bits = Z.ones n).
    { change (2 ^ 32 - 1) with (Z.ones 32). rewrite Z.shiftr_div_pow2 by lia. by rewrite Z.ones_div_pow2 by lia. }
    rewrite Hones. replace (2 ^ n - 1) with (Z.ones n) by (rewrite Z.ones_equiv; lia).
    rewrite <- Z.lxor_lor, <- Z.add_nocarry_lxor; [done| |]; rewrite Z.land_ones by lia; rewrite Hbase, Z.mul_comm;
      by apply Z.mod_mul; lia.
  - intros v. rewrite Contains4 by lia. fold n. intros Hv.
    pose proof (Z.div_mod v (2 ^ n) ltac:(lia)). pose proof (Z.mod_pos_bound v (2 ^ n) Hn). nia.
Qed.

(** A host of the subnet: neither the network nor the broadcast address. *)
Definition host_of (p : Prefix) (a : Addr) : Prop :=
  Contains p a = true /\ a <> p_addr p /\ a <> broadcastIP p.

Lemma validateHosts_ok p l : validateHosts p l = Ok tt -> Forall (fun x => host_of p x.2) l.
Proof.
  induction l as [|[n a] l IH]; [constructor|]. cbn [validateHosts].
  destruct (negb (Contains p a)) eqn:E1; [done|]. destruct (addr_eqb a _ || _) eqn:E2; [done|]. bool_hyps.
  intros E. constructor; [|by apply IH]. split; [done|]. cbn [snd].
  rewrite <- !addr_eqb_false. done.
Qed.

Record network_ok (subnet : Prefix) (serverIP start end_ router : Addr) : Prop := {
  net_subnet : subnet4 subnet;
  net_server : host4 serverIP; net_start : host4 start; net_end : host4 end_;
  net_router : router = AddrNone \/ host4 router;
  net_hosts : host_of subnet serverIP /\ host_of subnet start /\ host_of subnet end_;
  net_gateway : router <> AddrNone -> host_of subnet router;
  net_order : addr_leb start end_ = true;
  net_outside : cfg_inPool start end_ serverIP = false /\ (router <> AddrNone -> cfg_inPool start end_ router = false) }.

Lemma validateNetwork_ok subnet serverIP start end_ router :
  subnet4 subnet -> host4 serverIP -> host4 start -> host4 end_ -> router = AddrNone \/ host4 router ->
  validateNetwork subnet serverIP start end_ router = Ok tt -> network_ok subnet serverIP start end_ router.
Proof.
  intros Hs H1 H2 H3 H4. unfold validateNetwork. destruct (validateHosts _ _) as [[]|] eqn:Ev; [|done].
  apply validateHosts_ok in Ev. apply Forall_app in Ev as [Ev Er].
  apply Forall_cons in Ev as [V1 Ev]. apply Forall_cons in Ev as [V2 Ev]. apply Forall_cons in Ev as [V3 _]. cbn [snd] in *.
  destruct (negb (addr_leb start end_)) eqn:Eo; [done|]. destruct (cfg_inPool _ _ serverIP) eqn:Ep; [done|].
  destruct (IsValid router && _) eqn:Eg; [done|]. bool_hyps. intros _.
  assert (Hr : router <> AddrNone -> IsValid router = true) by by destruct router.
  split; try done.
  - intros Hn. rewrite (Hr Hn) in Er. by apply Forall_cons in Er as [Er _].
  - split; [done|]. intros Hn. rewrite (Hr Hn) in Eg. by apply andb_false_iff in Eg as [Eg|Eg].
Qed.

(** Every address of the pool is a host of the subnet that is neither the server
    nor the router. *)
Lemma pool_hosts subnet serverIP start end_ router a : network_ok subnet serverIP start end_ router ->
  cfg_inPool start end_ a = true -> Is4 a = true ->
  host_of subnet a /\ a <> serverIP /\ a <> router.
Proof.
  intros [Hs _ (s & -> & Hs1 & _) (e & -> & He1 & _) _ (_ & [Cs1 [Cs2 Cs3]] & [Ce1 [Ce2 Ce3]]) _ _ [Po1 Po2]] Hp H4.
  destruct a as [|v|]; [done| |done]. assert (Hin := Hp). unfold cfg_inPool in Hp. rewrite !addr_leb4, andb_true_iff, !Z.leb_le in Hp.
  assert (Hc : Contains subnet (Addr4 v) = true) by by apply (Contains_between _ s e).
  assert (Hs' := Hs). destruct Hs' as (base & bits & -> & _). apply subnet_range in Hs as [Hbc Hr].
  rewrite Hbc in *. cbn [p_addr] in *. apply Hr in Cs1, Ce1.
  split; [split; [done|]|split; [congruence|]].
  - cbn [p_addr]. rewrite Hbc. assert (s <> base) by congruence. assert (e <> base + (2 ^ (32 - bits) - 1)) by congruence.
    split; intros [= ->]; lia.
  - intros E. destruct (decide (router = AddrNone)) as [->|Hn]; [done|]. rewrite <- E in Po2. rewrite Po2 in Hin; [done|congruence].
Qed.

(** ** Names and durations *)

Lemma validateDomainLabels_ok labels : validateDomainLabels labels = Ok tt -> forallb validLabel labels = true.
Proof.
  induction labels as [|l labels IH]; [done|]. cbn [validateDomainLabels forallb].
  destruct ((len l =? 0) || _) eqn:E1; [done|]. destruct ((at_ l 0 =? HYPHEN) || _) eqn:E2; [done|].
  destruct (existsb _ (runes l)) eqn:E3; [done|]. intros E. rewrite (IH E), andb_true_r.
  unfold validLabel. rewrite <- !orb_assoc, !negb_orb. rewrite orb_false_iff in E1, E2. destruct E1 as [-> ->], E2 as [-> ->]. cbn [negb andb].
  apply forallb_forall. intros c Hc. apply label_rune_spec. rewrite <- not_true_iff_false, existsb_exists in E3.
  destruct (decide (97 <= c <= 122 \/ 48 <= c <= 57 \/ c = 45)); [done|]. destruct E3. exists c. split; [done|].
  rewrite !andb_true_iff, !negb_true_iff, !andb_false_iff, !Z.leb_gt, Z.eqb_neq. unfold HYPHEN. lia.
Qed.

Lemma validateDomain_ok domain : validateDomain domain = Ok tt -> validDNSName domain = true /\ 0 < len domain <= 242.
Proof.
  unfold validateDomain. destruct ((len domain =? 0) || _) eqn:E; [done|]. bool_hyps. intros Hl.
  apply validateDomainLabels_ok in Hl. unfold validDNSName, validLabels.
  assert (0 <= len domain) by (unfold len; lia).
  destruct ((len domain =? 0) || (253 <? len domain)) eqn:E'; [bool_hyps; rewrite orb_true_iff, Z.eqb_eq, Z.ltb_lt in *; lia|].
  split; [done|lia].
Qed.

Lemma validateDuration_ok name value minimum : 0 < minimum -> validateDuration name value minimum = Ok tt ->
  minimum <= value <= (2 ^ 32 - 1) * second /\ value = value / second * second.
Proof.
  intros Hm. unfold validateDuration. destruct ((value <? minimum) || _) eqn:E; [done|]. bool_hyps.
  rewrite Z.rem_mod_nonneg, Z.quot_div_nonneg in * by (unfold second; lia).
  destruct (Z.ltb_spec (2 ^ 32 - 1) (value / second)); [done|]. intros _.
  assert (Hd := Z.div_mod value second ltac:(unfold second; lia)).
  split; [|lia]. split; [lia|]. unfold second in *. nia.
Qed.

(** Configured A records: canonical names that are not the built-in ones, with
    unicast addresses. *)
Definition records_ok (domain : bytes) (records : gmap bytes Addr) : Prop :=
  map_Forall (fun name ip => canonicalRecord domain name /\ host4 ip
    /\ name <> str "ns." ++ domain ++ [DOT] /\ name <> str "gateway." ++ domain ++ [DOT]) records.

Lemma parseRecords_ok domain records : validDNSName domain = true ->
  forall acc out, records_ok domain acc -> parseRecords domain records acc = Ok out -> records_ok domain out.
Proof.
  intros Hd. induction records as [|[name value] records IH]; intros acc out Ha; [by intros [= <-]|]. cbn [parseRecords].
  destruct (beq (NormalizeARecord name domain) []) eqn:E1; [done|]. destruct (beq _ _ || beq _ _) eqn:E2; [done|].
  destruct (bool_decide _); [done|]. destruct (parseIPv4 _ value) as [ip|] eqn:Ei; [|done]. bool_hyps.
  apply IH. apply map_Forall_insert_2; [|done]. split; [|split; [by eapply parseIPv4_ok|split; by apply beq_false]].
  assert (Hc := NormalizeARecord_canonical name domain (proj1 (beq_false _ _) E1)).
  rewrite TrimSuffix_validLabels in Hc by by apply validDNSName_labels. by rewrite (validDNSName_ToLower _ Hd) in Hc.
Qed.

Lemma records_insert domain name ip records : records_ok domain records -> canonicalRecord domain name -> host4 ip ->
  name <> str "ns." ++ domain ++ [DOT] -> name <> str "gateway." ++ domain ++ [DOT] -> records_ok domain (<[name := ip]> records).
Proof. intros. by apply map_Forall_insert_2. Qed.

(** A name directly below the domain, as the services have theirs. *)
Lemma label_under label domain : validLabel label = true -> validLabels label = true -> validDNSName domain = true ->
  len label + 1 + len domain <= 253 -> canonicalRecord domain (label ++ [DOT] ++ domain ++ [DOT]).
Proof.
  intros Hl Hls Hd Hlen. exists false, (label ++ [DOT] ++ domain). cbn [star app]. split; [by rewrite <- !app_assoc|].
  split; [|split].
  - change (label ++ DOT :: domain) with (label ++ [DOT] ++ domain). rewrite validLabels_sep_app, Hls. by apply validDNSName_labels in Hd as [-> _].
  - right. apply ContainsByte_spec. set_solver.
  - unfold len in *. rewrite length_app. cbn [length]. lia.
Qed.

(** ** LDAP *)

Section ldap.
Context `{ConfigLib}.

(** Names fold case; a user number of zero means none. *)
Record ldap_ok (c : LDAPConfig) : Prop := {
  lo_groups : Forall (fun g => ldapNamePattern (g_Name g) = true /\ 0 < g_GID g <= maxInt32) (Groups c);
  lo_group_names : NoDup (map (fun g => ToLower (g_Name g)) (Groups c));
  lo_gids : NoDup (map g_GID (Groups c));
  lo_users : Forall (fun u => ldapNamePattern (u_Name u) = true /\ 0 <= u_UIDNumber u <= maxInt32
    /\ Forall (fun gid => gid ∈ map g_GID (Groups c)) (u_PrimaryGroup u :: u_OtherGroups u)
    /\ validateLDAPPassword u = true) (Users c);
  lo_user_names : NoDup (map (fun u => ToLower (u_Name u)) (Users c));
  lo_uids : NoDup (filter (fun uid => uid <> 0) (map u_UIDNumber (Users c))) }.

(** What both loops keep: seen before, or new and different from the rest. *)
Lemma fresh_cons {A B} `{EqDecision A} `{Countable A} (f : B -> A) (b : B) l (seen : gset A) :
  f b ∉ seen -> Forall (fun x => f x ∉ {[f b]} ∪ seen) l -> NoDup (map f l) ->
  NoDup (map f (b :: l)) /\ Forall (fun x => f x ∉ seen) (b :: l).
Proof.
  intros Hb Hl Hn. cbn [map]. split.
  - constructor; [|done]. intros Hin. apply list_elem_of_fmap in Hin as (x & E & Hx). rewrite Forall_forall in Hl.
    apply Hl in Hx. set_solver.
  - constructor; [done|]. eapply Forall_impl; [exact Hl|]. cbn. set_solver.
Qed.

Lemma validateGroups_ok i groups names ids out : validateGroups i groups names ids = Ok out ->
  Forall (fun g => ldapNamePattern (g_Name g) = true /\ 0 < g_GID g <= maxInt32) groups
  /\ (NoDup (map (fun g => ToLower (g_Name g)) groups) /\ Forall (fun g => ToLower (g_Name g) ∉ names) groups)
  /\ (NoDup (map g_GID groups) /\ Forall (fun g => g_GID g ∉ ids) groups)
  /\ (forall id, id ∈ out <-> id ∈ map g_GID groups \/ id ∈ ids).
Proof.
  revert i names ids. induction groups as [|g groups IH]; intros i names ids.
  { intros [= <-]. split; [constructor|]. split; [split; constructor|]. split; [split; constructor|]. set_solver. }
  cbn [validateGroups]. destruct (negb _) eqn:E1; [done|]. destruct (bool_decide _) eqn:E2 at 1; [done|].
  destruct ((g_GID g <=? 0) || _) eqn:E3; [done|]. destruct (bool_decide (g_GID g ∈ ids)) eqn:E4; [done|]. bool_hyps.
  intros E. apply IH in E as (F1 & [N1 N2] & [N3 N4] & Ho).
  split; [by constructor|]. split; [by apply (fresh_cons (fun g => ToLower (g_Name g)))|].
  split; [by apply fresh_cons|]. intros id. rewrite Ho. cbn [map]. set_solver.
Qed.

Lemma validateUsers_ok i users groups names uids : validateUsers i users groups names uids = Ok tt ->
  Forall (fun u => ldapNamePattern (u_Name u) = true /\ 0 <= u_UIDNumber u <= maxInt32
    /\ Forall (fun gid => gid ∈ groups) (u_PrimaryGroup u :: u_OtherGroups u) /\ validateLDAPPassword u = true) users
  /\ (NoDup (map (fun u => ToLower (u_Name u)) users) /\ Forall (fun u => ToLower (u_Name u) ∉ names) users)
  /\ NoDup (filter (fun uid => uid <> 0) (map u_UIDNumber users))
  /\ Forall (fun u => u_UIDNumber u <> 0 -> u_UIDNumber u ∉ uids) users.
Proof.
  revert i names uids. induction users as [|u users IH]; intros i names uids.
  { intros _. split; [constructor|]. split; [split; constructor|]. split; constructor. }
  cbn [validateUsers]. destruct (negb (ldapNamePattern _)) eqn:E1; [done|]. destruct (bool_decide (_ ∈ names)) eqn:E2; [done|].
  destruct ((u_UIDNumber u <? 0) || _) eqn:E3; [done|]. destruct (negb (u_UIDNumber u =? 0) && _) eqn:E4; [done|].
  destruct (negb (bool_decide (u_PrimaryGroup u ∈ groups))) eqn:E5; [done|]. destruct (negb (forallb _ _)) eqn:E6; [done|].
  destruct (negb (beq (u_Mail u) []) && _); [done|]. destruct (negb (validateLDAPPassword u)) eqn:E7; [done|]. bool_hyps.
  intros E. apply IH in E as (F1 & [N1 N2] & N3 & F4).
  assert (Hg : Forall (fun gid => gid ∈ groups) (u_OtherGroups u)).
  { apply Forall_forall. intros gid Hin. apply list_elem_of_In in Hin. rewrite forallb_forall in E6. by apply E6, bool_decide_eq_true in Hin. }
  split; [by constructor; [split; [done|split; [done|split; [by constructor|done]]]|done]|].
  split; [by apply (fresh_cons (fun u => ToLower (u_Name u)))|]. cbn [map].
  destruct (Z.eqb_spec (u_UIDNumber u) 0) as [Ez|Ez].
  - rewrite filter_cons_False by auto. split; [done|]. constructor; [done|]. exact F4.
  - cbn [negb andb] in E4. bool_hyps. rewrite filter_cons_True by done. split.
    + constructor; [|done]. intros Hin. apply list_elem_of_filter in Hin as [Hz Hin].
      apply list_elem_of_fmap in Hin as (v & Ev & Hv). rewrite Forall_forall in F4. apply F4 in Hv; [set_solver|congruence].
    + constructor; [done|]. eapply Forall_impl; [exact F4|]. cbn. set_solver.
Qed.

Lemma Validate_ldap_ok c : Validate_ldap c = Ok tt -> ldap_ok c.
Proof.
  unfold Validate_ldap. destruct (_ || _); [done|]. destruct (ParseDN _) as [dn|]; [|done]. destruct (_ =? _); [done|].
  destruct (existsb _ _); [done|]. destruct (validateGroups _ _ _ _) as [ids|] eqn:Eg; [|done]. cbn.
  intros Eu. apply validateGroups_ok in Eg as (G1 & [G2 _] & [G3 _] & Ho). apply validateUsers_ok in Eu as (U1 & [U2 _] & U3 & _).
  split; try done. eapply Forall_impl; [exact U1|]. intros u (A1 & A2 & A3 & A4). split; [done|]. split; [done|]. split; [|done].
  eapply Forall_impl; [exact A3|]. intros gid Hg. apply Ho in Hg as [Hg|Hg]; [done|set_solver].
Qed.

(** ** Accepted configurations *)

(** The settings the services are built from. *)
Record accepted (c : BoxConfig) : Prop := {
  ac_network : network_ok (cfg_Subnet c) (cfg_ServerIP c) (cfg_PoolStart c) (cfg_PoolEnd c) (cfg_Router c);
  ac_domain : validDNSName (cfg_Domain c) = true /\ 0 < len (cfg_Domain c) <= 242;
  ac_records : records_ok (cfg_Domain c) (cfg_ARecords c);
  ac_ldap_name : cfg_ARecords c !! (str "ldap." ++ cfg_Domain c ++ [DOT]) = Some (cfg_ServerIP c);
  ac_lease : minute <= cfg_LeaseDuration c <= (2 ^ 32 - 1) * second /\ cfg_LeaseDuration c = cfg_LeaseDuration c / second * second;
  ac_ttl : second <= cfg_DNSTTL c <= (2 ^ 32 - 1) * second /\ cfg_DNSTTL c = cfg_DNSTTL c / second * second;
  ac_shares : ValidateNFSShares (cfg_NFS c) = Ok tt;
  ac_ldap : Validate_ldap (cfg_LDAP c) = Ok tt;
  ac_upstream : validateListeners (cfg_Upstream c) (cfg_ServerIP c) = Ok tt;
  ac_listen : cfg_DNSAddress c = serverPort (cfg_ServerIP c) "53" /\ cfg_TFTPAddress c = serverPort (cfg_ServerIP c) "69"
    /\ cfg_NTPAddress c = serverPort (cfg_ServerIP c) "123" /\ cfg_HTTPAddress c = serverPort (cfg_ServerIP c) "80"
    /\ cfg_HTTPSAddress c = serverPort (cfg_ServerIP c) "443" /\ cfg_NFSAddress c = serverPort (cfg_ServerIP c) "2049";
  ac_dirs : TrimSpace (cfg_BootDirectory c) <> [] /\ TrimSpace (cfg_CADirectory c) <> [] /\ TrimSpace (cfg_ACMEStateFile c) <> [] }.

Lemma test_ok b e x : test b e = Ok x -> b = true.
Proof. by destruct b. Qed.

Lemma fixed_labels : validLabels (str "ldap") = true /\ validLabel (str "ldap") = true.
Proof. vm_compute. by split. Qed.

(** The first of a sequence of checks has passed. *)
Ltac passed H v E :=
  match type of H with (match ?x with Ok _ => _ | Err _ => _ end) = Ok _ => destruct x as [v|] eqn:E; [|discriminate H] end.

(** What [config_] returns it has checked. *)
Lemma config_accepted s c : config_ s = Ok c -> accepted c.
Proof.
  unfold config_. intros E. passed E ok0 T0. passed E serverIP P0. passed E subnet P1. passed E ok1 T1. passed E ok2 T2.
  passed E start P2. passed E end_ P3. passed E router P4. passed E ok3 N1. passed E ok4 T3. passed E ok5 D1. passed E records R1.
  passed E lease L1. passed E ttl L2. passed E ok6 D2. passed E ok7 D3. passed E ok8 S1. passed E ok9 T4. passed E ok10 V1.
  passed E ok11 T5. passed E ok12 T6. passed E ok13 T7. passed E ok14 U1. injection E as <-. destruct ok3, ok5, ok6, ok7, ok8, ok10, ok14.
  apply test_ok in T1, T2, T4, T5, T6, T7. bool_hyps. apply parseIPv4_ok in P0, P2, P3.
  assert (Hr : router = AddrNone \/ host4 router).
  { destruct (beq (f_router s) []); [injection P4; auto|right; by eapply parseIPv4_ok]. }
  assert (Hs : subnet4 subnet).
  { destruct (ParsePrefix (f_subnet s)) as [p|] eqn:Ep; [|done]. injection P1 as ->. apply ParsePrefix_valid in Ep.
    unfold prefix_IsValid in Ep. bool_hyps. destruct subnet as [[|base|] bits]; try done. exists base, bits.
    split; [done|]. split; [|by symmetry]. cbn in *. lia. }
  apply validateDomain_ok in D1 as Hd. destruct Hd as [Hd Hl]. set (domain := ToLower _) in *.
  assert (Hrec : records_ok domain records) by (eapply parseRecords_ok; [done| |exact R1]; apply map_Forall_empty).
  destruct fixed_labels as [F1 F2].
  split; cbn [cfg_Subnet cfg_ServerIP cfg_PoolStart cfg_PoolEnd cfg_Router cfg_Domain cfg_ARecords cfg_LeaseDuration cfg_DNSTTL
    cfg_NFS cfg_LDAP cfg_Upstream cfg_DNSAddress cfg_TFTPAddress cfg_NTPAddress cfg_HTTPAddress cfg_HTTPSAddress cfg_NFSAddress
    cfg_BootDirectory cfg_CADirectory cfg_ACMEStateFile]; try done.
  - by apply validateNetwork_ok.
  - change (str "ldap." ++ domain ++ [DOT]) with (str "ldap" ++ [DOT] ++ domain ++ [DOT]).
    apply records_insert; [done| |done|discriminate|discriminate].
    apply (label_under (str "ldap") domain F2 F1 Hd). change (len (str "ldap")) with 4. lia.
  - by rewrite lookup_insert_eq.
  - eapply validateDuration_ok; [|exact D2]. unfold minute, second; lia.
  - eapply validateDuration_ok; [|exact D3]. unfold second; lia.
  - split; [by apply beq_false|split; by apply beq_false].
Qed.

End ldap.
