(* ===== verification/ConfigProps.v ===== *)
(** * Loaded configurations

    What [Load] promises of a configuration it returns: settings that satisfy
    every constraint of the services, absolute paths, and private files outside
    everything that is served. *)

From stdpp Require Import gmap list strings.
From Stdlib Require Import ZArith Lia.
From S2P Require Import Prelude GoStrings GoNet GoAddr GoPath GoTime GoJson Names Lease Ldap LdapProps Config ConfigFile ConfigFacts.

(** ** Absolute paths *)

Lemma IsAbs_cons p : IsAbs p = true -> exists r, p = SLASH :: r.
Proof. unfold IsAbs. destruct p as [|x r]; [done|]. cbn [HasPrefix]. destruct (Z.eqb_spec x SLASH) as [->|]; [by exists r|]. by destruct (Z.eqb_spec SLASH x). Qed.

Lemma IsAbs_Clean p : IsAbs p = true -> IsAbs (Clean p) = true.
Proof. intros H. by rewrite Clean_abs. Qed.

Lemma IsAbs_PathJoin d p : IsAbs d = true -> IsAbs (PathJoin d p) = true.
Proof. intros H. destruct (IsAbs_cons _ H) as [r ->]. by apply IsAbs_Clean. Qed.

Lemma Split_word_length s sep w : w ∈ Split s sep -> (length w <= length s)%nat.
Proof.
  revert w. induction s as [|x s IH]; intros w Hw; [by apply list_elem_of_singleton in Hw as ->|].
  destruct (decide (x = sep)) as [->|Hne].
  - rewrite Split_cons_sep in Hw. apply elem_of_cons in Hw as [->|Hw]; [simpl; lia|]. apply IH in Hw. simpl. lia.
  - destruct (Split_cons_ne x s sep Hne) as (v & ws & E & E'). rewrite E in IH. rewrite E' in Hw. apply elem_of_cons in Hw as [->|Hw]; simpl.
    + assert (length v <= length s)%nat by (apply IH; left). lia.
    + assert (length w <= length s)%nat by (apply IH; by right). lia.
Qed.

Lemma IsAbs_parent p : IsAbs p = true -> IsAbs (take (length p - length (last_component p)) p) = true.
Proof.
  intros H. destruct (IsAbs_cons _ H) as [r ->]. unfold last_component. rewrite Split_cons_sep.
  destruct (Split r SLASH) as [|w ws] eqn:E; [by apply Split_nonempty in E|].
  assert (Hl : (length (List.last ([] :: w :: ws) []) <= length r)%nat).
  { apply (Split_word_length r SLASH). rewrite E. change (List.last ([] :: w :: ws) []) with (List.last (w :: ws) []).
    apply list_elem_of_In. rewrite (app_removelast_last (l := w :: ws) []) at 2 by done. apply in_app_iff. right. by left. }
  cbn [length]. replace (S (length r) - _)%nat with (S (length r - length (List.last ([] :: w :: ws) [])))%nat by lia. done.
Qed.

Lemma IsAbs_Dir p : IsAbs p = true -> IsAbs (Dir p) = true.
Proof. intros H. by apply IsAbs_Clean, IsAbs_parent. Qed.

Lemma drop_spaces_last ws x : IsSpace x.1 = false -> exists ws', drop_spaces (ws ++ [x]) = ws' ++ [x].
Proof.
  intros Hx. induction ws as [|[r w] ws IH]; cbn [app drop_spaces].
  - destruct x as [r w]. cbn in *. rewrite Hx. by exists [].
  - destruct (IsSpace r); [done|]. by exists ((r, w) :: ws).
Qed.

Lemma TrimSpace_abs p : IsAbs p = true -> TrimSpace p <> [].
Proof.
  intros H. destruct (IsAbs_cons _ H) as [r ->]. unfold TrimSpace. change (decode (SLASH :: r)) with ((SLASH, [SLASH]) :: decode r).
  cbn [drop_spaces]. change (IsSpace SLASH) with false. cbn iota. cbn [rev].
  destruct (drop_spaces_last (rev (decode r)) (SLASH, [SLASH]) eq_refl) as [ws ->]. rewrite rev_app_distr. done.
Qed.

Lemma resolvePath_abs dir p : IsAbs dir = true -> p <> [] -> IsAbs (resolvePath dir p) = true.
Proof.
  intros Hd Hp. unfold resolvePath. rewrite (proj2 (beq_false _ _) Hp).
  destruct (IsAbs p) eqn:E; [by apply IsAbs_Clean|by apply IsAbs_PathJoin].
Qed.

Lemma TrimSpace_nonempty p : TrimSpace p <> [] -> p <> [].
Proof. by intros H ->. Qed.

(** ** The parent of a path is shorter *)

Definition wsum (ws : list bytes) : nat := sum_list_with (fun w => S (length w)) ws.

Lemma clean_fold_sum ws : forall kept, let k := fold_left (clean_step true) ws kept in
  (wsum k <= wsum kept + wsum ws)%nat /\ (wsum k = wsum kept + wsum ws -> k = rev ws ++ kept)%nat.
Proof.
  induction ws as [|w ws IH]; intros kept; cbn [fold_left]; [unfold wsum; cbn; split; [lia|done]|].
  destruct (IH (clean_step true kept w)) as [H1 H2]. change (wsum (w :: ws)) with (S (length w) + wsum ws)%nat.
  assert (Hs : clean_step true kept w = w :: kept \/ (wsum (clean_step true kept w) <= wsum kept)%nat).
  { unfold clean_step. destruct (_ || _); [right; lia|]. destruct (beq w dotdot); [|by left].
    destruct kept as [|top rest]; [right; done|]. destruct (beq top dotdot); [by left|right]. unfold wsum. cbn. lia. }
  destruct Hs as [Hs|Hs].
  - rewrite Hs in *. change (wsum (w :: kept)) with (S (length w) + wsum kept)%nat in *. split; [lia|]. intros E. rewrite H2 by lia.
    cbn [rev]. by rewrite <- app_assoc.
  - split; [lia|]. intros E. lia.
Qed.

Lemma Join_length ws : ws <> [] -> S (length (Join ws [SLASH])) = wsum ws.
Proof.
  induction ws as [|w [|v ws] IH]; [done| |]; intros _.
  - unfold wsum. cbn. lia.
  - change (Join (w :: v :: ws) [SLASH]) with (w ++ [SLASH] ++ Join (v :: ws) [SLASH]).
    change (wsum (w :: v :: ws)) with (S (length w) + wsum (v :: ws))%nat. rewrite <- IH, !length_app by done. cbn. lia.
Qed.

Lemma Clean_shorter p : IsAbs p = true -> Clean p = p \/ (length (Clean p) < length p)%nat.
Proof.
  intros H. assert (Hp := H). destruct (IsAbs_cons _ H) as [r ->]. rewrite Clean_abs by done. unfold abs_path, components. rewrite Hp, Split_cons_sep.
  cbn [fold_left]. change (clean_step true [] []) with (@nil bytes). destruct (clean_fold_sum (Split r SLASH) []) as [H1 H2].
  set (k := fold_left _ _ _) in *. change (wsum []) with 0%nat in *. rewrite !Nat.add_0_l in *.
  assert (Hr : S (length r) = wsum (Split r SLASH)) by (rewrite <- (Join_Split r SLASH) at 1; apply Join_length, Split_nonempty).
  assert (Hk : wsum (rev k) = wsum k) by (unfold wsum; rewrite rev_alt; apply sum_list_with_reverse).
  destruct (decide (rev k = [])) as [E|E].
  - rewrite E. destruct r as [|x r]; [by left|right]. cbn. lia.
  - destruct (decide (wsum k = wsum (Split r SLASH))) as [Ee|Ee].
    + left. rewrite (H2 Ee), app_nil_r, rev_involutive. by rewrite Join_Split.
    + right. pose proof (Join_length (rev k) E). cbn [length]. lia.
Qed.

Lemma Dir_shorter p : IsAbs p = true -> Dir p = p \/ (length (Dir p) < length p)%nat.
Proof.
  intros H. assert (Hqa := IsAbs_parent p H). unfold Dir in *. destruct (last_component p) as [|x w] eqn:E.
  - rewrite Nat.sub_0_r, firstn_all. by apply Clean_shorter.
  - right. set (q := take _ p) in *. assert (Hl : (length q < length p)%nat).
    { unfold q. rewrite length_take. cbn [length]. destruct (IsAbs_cons _ H) as [r ->]. cbn [length]. lia. }
    destruct (Clean_shorter q Hqa) as [->|]; lia.
Qed.

(** ** Private files *)

Section paths.
Variable EvalSymlinks : bytes -> evaluated.
Hypothesis EvalSymlinks_abs : forall p q, EvalSymlinks p = Resolved q -> IsAbs p = true -> IsAbs q = true.

Lemma canonicalFrom_abs fuel p q : canonicalFrom EvalSymlinks fuel p = Some q -> IsAbs p = true -> IsAbs q = true.
Proof.
  revert p q. induction fuel as [|k IH]; intros p q; cbn [canonicalFrom]; destruct (EvalSymlinks p) as [r| |] eqn:E; try done.
  - intros [= <-]. by eapply EvalSymlinks_abs.
  - by destruct (beq _ _).
  - intros [= <-]. by eapply EvalSymlinks_abs.
  - destruct (beq _ _); [done|]. destruct (canonicalFrom _ k _) as [r|] eqn:Er; [|done]. intros [= <-] Hp.
    apply IsAbs_PathJoin. eapply IH; [exact Er|by apply IsAbs_Dir].
Qed.

(** The length of the path is enough fuel for the walk up to the root. *)
Lemma canonicalFrom_fuel n : forall m p, IsAbs p = true -> (length p <= n)%nat -> (length p <= m)%nat ->
  canonicalFrom EvalSymlinks n p = canonicalFrom EvalSymlinks m p.
Proof.
  induction n as [|n IH]; intros m p Ha Hn Hm; destruct (IsAbs_cons _ Ha) as [r Er]; [subst p; cbn in Hn; lia|].
  destruct m as [|m]; [subst p; cbn in Hm; lia|]. cbn [canonicalFrom]. destruct (EvalSymlinks p); [done| |done].
  destruct (beq (Dir p) p) eqn:E; [done|]. apply beq_false in E. destruct (Dir_shorter p Ha) as [|Hl]; [done|].
  rewrite (IH m (Dir p)); [done|by apply IsAbs_Dir|lia|lia].
Qed.

(** The files of the box that nothing serves. *)
Definition privateFiles (c : BoxConfig) (configPath : bytes) : list bytes :=
  [configPath; cfg_CADirectory c; cfg_LeaseFile c; cfg_ACMEStateFile c]
  ++ map (fun f => PathJoin (cfg_CADirectory c) (str f))
       ["root-ca-bundle.pem"; "gateway-bundle.pem"; "ldap-bundle.pem"; "root-ca.pem"]%string.

(** [p] is neither [d] nor below it. *)
Definition outside_of (d p : bytes) : Prop := ~ components d `prefix_of` components p.

Lemma pathWithin_outside d p : IsAbs d = true -> IsAbs p = true -> pathWithin d p = false -> outside_of d p.
Proof. intros Hd Hp E Hx. apply pathWithin_spec in Hx; congruence. Qed.

Record paths_ok (c : BoxConfig) (configPath : bytes) : Prop := {
  po_abs : IsAbs (cfg_BootDirectory c) = true /\ IsAbs (cfg_CADirectory c) = true /\ IsAbs (cfg_ACMEStateFile c) = true
    /\ (cfg_LeaseFile c = [] \/ IsAbs (cfg_LeaseFile c) = true);
  po_state : cfg_ACMEStateFile c <> cfg_LeaseFile c /\
    Forall (fun f => f <> cfg_ACMEStateFile c /\ f <> cfg_LeaseFile c) (map snd (protectedFiles c configPath));
  po_boot : Forall (fun f => f = [] \/ outside_of (cfg_BootDirectory c) f) (privateFiles c configPath);
  po_ca : outside_of (cfg_CADirectory c) (cfg_BootDirectory c);
  po_shares : cfg_NFS c <> [] -> exists real, shares_ok real /\
    Forall2 (fun s r => canonicalPath EvalSymlinks (sh_Path s) = Some (sh_Path r) /\ sh_Name s = sh_Name r) (cfg_NFS c) real /\
    Forall (fun r => (forall f, f ∈ take 4 (privateFiles c configPath) -> f = [] \/
        exists p, canonicalPath EvalSymlinks f = Some p /\ outside_of (sh_Path r) p)
      /\ exists p, canonicalPath EvalSymlinks (cfg_CADirectory c) = Some p /\ outside_of p (sh_Path r)) real }.

Lemma distinctState_ok c protected : distinctState c protected = Ok tt ->
  Forall (fun f => f <> cfg_ACMEStateFile c /\ f <> cfg_LeaseFile c) (map snd protected).
Proof.
  induction protected as [|[n p] l IH]; [constructor|]. cbn [distinctState map].
  destruct (beq (cfg_ACMEStateFile c) p) eqn:E1; [done|]. destruct (beq (cfg_LeaseFile c) p) eqn:E2; [done|]. bool_hyps.
  intros E. constructor; [|by apply IH]. apply beq_false in E1, E2. cbn. split; congruence.
Qed.

Lemma resolveProtected_ok l out : resolveProtected EvalSymlinks l = Ok out ->
  Forall2 (fun x y => x.1 = y.1 /\ (x.2 = [] /\ y.2 = [] \/ x.2 <> [] /\ canonicalPath EvalSymlinks x.2 = Some y.2)) l out.
Proof.
  revert out. induction l as [|[n p] l IH]; intros out; [intros [= <-]; constructor|]. cbn [resolveProtected].
  destruct (beq p []) eqn:E.
  - apply beq_true in E. subst p. destruct (resolveProtected _ l) as [m|]; [|done]. intros [= <-]. constructor; [by split; [|left]|by apply IH].
  - apply beq_false in E. destruct (canonicalPath _ p) as [q|] eqn:Eq; [|done]. destruct (resolveProtected _ l) as [m|]; [|done].
    intros [= <-]. constructor; [by split; [|right]|by apply IH].
Qed.

Lemma shareClear_ok share l : shareClear share l = Ok tt ->
  Forall (fun x => (x.2 = [] \/ pathWithin (sh_Path share) x.2 = false) /\
                   (x.1 = "ca_dir"%string -> pathWithin x.2 (sh_Path share) = false)) l.
Proof.
  induction l as [|[n p] l IH]; [constructor|]. cbn [shareClear]. destruct (negb (beq p []) && _) eqn:E1; [done|].
  destruct (bool_decide _ && _) eqn:E2; [done|]. intros E. constructor; [|by apply IH]. cbn [fst snd]. split.
  - apply andb_false_iff in E1 as [E1|E1]; [left; apply negb_false_iff in E1; by apply beq_true|by right].
  - intros ->. by apply andb_false_iff in E2 as [E2|E2].
Qed.

Lemma resolveShares_ok shares l out : resolveShares EvalSymlinks shares l = Ok out ->
  Forall2 (fun s r => canonicalPath EvalSymlinks (sh_Path s) = Some (sh_Path r) /\ sh_Name s = sh_Name r) shares out
  /\ Forall (fun r => shareClear r l = Ok tt) out.
Proof.
  revert out. induction shares as [|s shares IH]; intros out; [intros [= <-]; by split|]. cbn [resolveShares].
  destruct (canonicalPath _ _) as [p|] eqn:Ep; [|done]. destruct (shareClear _ l) as [[]|] eqn:Es; [|done].
  destruct (resolveShares _ shares l) as [m|]; [|done]. intros [= <-]. destruct (IH m eq_refl) as [F1 F2]. split; by constructor.
Qed.

Section validated.
Context (c : BoxConfig) (configPath : bytes).
Hypothesis config_abs : IsAbs configPath = true.
Hypothesis paths_abs : IsAbs (cfg_BootDirectory c) = true /\ IsAbs (cfg_CADirectory c) = true /\ IsAbs (cfg_ACMEStateFile c) = true
  /\ (cfg_LeaseFile c = [] \/ IsAbs (cfg_LeaseFile c) = true).

Lemma private_abs f : f ∈ privateFiles c configPath -> f = [] \/ IsAbs f = true.
Proof.
  destruct paths_abs as (_ & Hca & Hacme & Hlease). unfold privateFiles. rewrite elem_of_app. intros [Hf|Hf].
  - rewrite !elem_of_cons in Hf. destruct Hf as [->|[->|[->|[->|Hf]]]]; [by right|by right|done|by right|by apply not_elem_of_nil in Hf].
  - apply list_elem_of_fmap in Hf as (x & -> & _). right. by apply IsAbs_PathJoin.
Qed.

Lemma private_checked f : f ∈ privateFiles c configPath ->
  f ∈ map snd (protectedFiles c configPath ++ [("lease_file"%string, cfg_LeaseFile c); ("acme_state"%string, cfg_ACMEStateFile c)]).
Proof.
  unfold privateFiles, protectedFiles. rewrite !map_app, map_map, !elem_of_app. cbn [map snd]. rewrite !elem_of_cons. naive_solver.
Qed.

Lemma shares_private (l : list (string * bytes)) real :
  resolveProtected EvalSymlinks [("configuration file", configPath); ("ca_dir", cfg_CADirectory c);
    ("lease_file", cfg_LeaseFile c); ("acme_state", cfg_ACMEStateFile c)]%string = Ok l ->
  Forall (fun r => shareClear r l = Ok tt) real -> Forall (fun r => IsAbs (sh_Path r) = true) real ->
  Forall (fun r => (forall f, f ∈ take 4 (privateFiles c configPath) -> f = [] \/
        exists p, canonicalPath EvalSymlinks f = Some p /\ outside_of (sh_Path r) p)
      /\ exists p, canonicalPath EvalSymlinks (cfg_CADirectory c) = Some p /\ outside_of p (sh_Path r)) real.
Proof.
  intros Hl Hc Hr. apply resolveProtected_ok in Hl. apply Forall_forall. intros r Hin. rewrite Forall_forall in Hc, Hr.
  assert (Hra := Hr _ Hin). apply Hc, shareClear_ok in Hin. clear Hc Hr.
  assert (Hone : forall n f, (n, f) ∈ [("configuration file", configPath); ("ca_dir", cfg_CADirectory c);
    ("lease_file", cfg_LeaseFile c); ("acme_state", cfg_ACMEStateFile c)]%string -> f = [] \/ IsAbs f = true -> f = [] \/
      exists p, canonicalPath EvalSymlinks f = Some p /\ outside_of (sh_Path r) p /\ (n = "ca_dir"%string -> outside_of p (sh_Path r))).
  { intros n f Hf Hfa. destruct (list_elem_of_lookup_1 _ _ Hf) as [i Hi]. destruct (Forall2_lookup_l _ _ _ _ _ Hl Hi) as ([n' p] & Hp & En & Hcase).
    cbn [fst snd] in *. subst n'. destruct Hcase as [[-> _]|[Hne Hcp]]; [by left|]. right. exists p. destruct Hfa as [->|Hfa]; [done|].
    assert (Hpa : IsAbs p = true) by by eapply canonicalFrom_abs. rewrite Forall_forall in Hin. apply list_elem_of_lookup_2, Hin in Hp as [H1 H2].
    cbn [fst snd] in *. split; [done|]. split.
    - destruct H1 as [->|H1]; [done|]. by apply pathWithin_outside.
    - intros ->. apply pathWithin_outside; auto. }
  split.
  - intros f Hf. assert (Hfa : f = [] \/ IsAbs f = true) by (apply private_abs, (subseteq_take 4); exact Hf).
    cbn [privateFiles take app] in Hf. rewrite !elem_of_cons in Hf.
    assert (Hn : exists n, (n, f) ∈ [("configuration file", configPath); ("ca_dir", cfg_CADirectory c);
      ("lease_file", cfg_LeaseFile c); ("acme_state", cfg_ACMEStateFile c)]%string).
    { destruct Hf as [->|[->|[->|[->|Hf]]]]; [exists "configuration file"%string|exists "ca_dir"%string|exists "lease_file"%string
        |exists "acme_state"%string|by apply not_elem_of_nil in Hf]; rewrite !elem_of_cons; auto. }
    destruct Hn as [n Hn]. destruct (Hone n f Hn Hfa) as [?|(p & ? & ? & _)]; [by left|right; by exists p].
  - destruct (Hone "ca_dir"%string (cfg_CADirectory c)) as [E|(p & Hp & _ & Ho)]; [rewrite !elem_of_cons; auto|right; apply paths_abs| |exists p; auto].
    exfalso. destruct paths_abs as (_ & Hca & _). by rewrite E in Hca.
Qed.

Lemma validatePaths_ok : validatePaths EvalSymlinks c configPath = Ok tt -> paths_ok c configPath.
Proof.
  unfold validatePaths. destruct (distinctState _ _) as [[]|] eqn:E1; [|done]. destruct (beq (cfg_ACMEStateFile c) _) eqn:E2; [done|].
  destruct (existsb _ (drop 1 _)); [done|]. destruct (existsb _ (_ ++ _)) eqn:E3; [done|]. destruct (pathWithin _ _) eqn:E4; [done|].
  intros E5. apply beq_false in E2. split.
  - done.
  - split; [done|]. by apply distinctState_ok.
  - apply Forall_forall. intros f Hf. destruct (private_abs f Hf) as [->|Hfa]; [by left|right].
    apply private_checked in Hf. apply list_elem_of_fmap in Hf as ([n f'] & -> & Hf). cbn [snd] in *.
    apply pathWithin_outside; [apply paths_abs|done|]. apply not_true_is_false. intros Hw.
    rewrite <- not_true_iff_false, existsb_exists in E3. apply E3. exists (n, f'). split; [by apply list_elem_of_In|].
    cbn [snd]. rewrite Hw, andb_true_r. apply negb_true_iff, beq_false. by intros ->.
  - by apply pathWithin_outside; [apply paths_abs|apply paths_abs|].
  - intros Hne. unfold validateNFSPaths in E5. destruct (cfg_NFS c) as [|s shares]; [done|].
    destruct (resolveProtected _ _) as [l|] eqn:Er; [|done]. destruct (resolveShares _ _ l) as [real|] eqn:Es; [|done].
    destruct (ValidateNFSShares real) as [[]|] eqn:Ev; [|done]. apply ValidateNFSShares_ok in Ev.
    apply resolveShares_ok in Es as [F1 F2]. exists real. split; [done|]. split; [done|]. eapply shares_private; [done|done|].
    eapply Forall_impl; [apply (sh_abs _ Ev)|]. by intros r [Hr _].
Qed.
End validated.
End paths.

(** ** Decoding *)

(** The structured settings. *)
Definition structured : list bytes := map str ["nfs"; "ldap"; "a_records"]%string.

Lemma setSetting_ok key v s s' : setSetting key v s = Some (Ok s') ->
  (key ∈ structured /\ f_text s' = f_text s) \/ (key ∈ fields /\ exists x, v = JStr x /\ f_text s' = <[key := unquote x]> (f_text s)).
Proof.
  unfold setSetting, is_key, structured. cbn [map]. rewrite !elem_of_cons.
  destruct (beq key (str "nfs")) eqn:E1; [apply beq_true in E1; destruct (decodeNFS v); [|done]; intros [= <-]; left; by auto|].
  destruct (beq key (str "ldap")) eqn:E2; [apply beq_true in E2; destruct (decodeLDAP v); [|done]; intros [= <-]; left; by auto|].
  destruct (beq key (str "a_records")) eqn:E3; [apply beq_true in E3; destruct (decodeARecords v); [|done]; intros [= <-]; left; by auto|].
  destruct (bool_decide (key ∈ fields)) eqn:E4; [|done]. apply bool_decide_eq_true in E4.
  destruct v; try done. intros [= <-]. right. split; [done|]. by eexists.
Qed.

Lemma decodeSettings_ok members : forall seen s s', decodeMembers setSetting members seen s = Ok s' ->
  NoDup (map fst members) /\ Forall (fun m => m.1 ∉ seen) members /\
  Forall (fun m => m.1 ∈ structured \/ m.1 ∈ fields /\ exists x, m.2 = JStr x /\ f_text s' !! m.1 = Some (unquote x)) members /\
  (forall key, key ∉ map fst members -> f_text s' !! key = f_text s !! key).
Proof.
  induction members as [|[key v] members IH]; intros seen s s'; cbn [decodeMembers map fst].
  { intros [= <-]. split; [constructor|]. split; [constructor|]. by split; [constructor|]. }
  destruct (bool_decide (key ∈ seen)) eqn:E1; [done|]. apply bool_decide_eq_false in E1.
  destruct (setSetting key v s) as [[s1|]|] eqn:E2; try done. intros E. apply IH in E as (N & F1 & F2 & F3).
  assert (Hk : key ∉ map fst members).
  { intros Hin. apply list_elem_of_fmap in Hin as (m & -> & Hm). rewrite Forall_forall in F1. apply F1 in Hm. set_solver. }
  split; [by constructor|]. split; [constructor; [done|]; eapply Forall_impl; [exact F1|]; cbn; set_solver|].
  apply setSetting_ok in E2. split.
  - constructor; [|done]. cbn [fst snd]. destruct E2 as [[? _]|(Hf & x & -> & Et)]; [by left|right]. split; [done|].
    exists x. split; [done|]. rewrite F3, Et by done. apply lookup_insert_eq.
  - intros k Hn. rewrite not_elem_of_cons in Hn. destruct Hn as [Hne Hn]. rewrite F3 by done.
    destruct E2 as [[_ ->]|(_ & x & _ & ->)]; [done|]. by apply lookup_insert_ne.
Qed.

(** ** Loading *)

(** The configuration file named on the command line. *)
Definition configFile (cwd path : bytes) : bytes := if IsAbs path then Clean path else PathJoin cwd path.

Section load.
Context `{ConfigLib} (EvalSymlinks : bytes -> evaluated) (cwd : bytes) (fileAt : bytes -> option config_file).
Hypothesis cwd_abs : IsAbs cwd = true.

Lemma configFile_abs path : IsAbs (configFile cwd path) = true.
Proof. unfold configFile. destruct (IsAbs path) eqn:E; [by apply IsAbs_Clean|by apply IsAbs_PathJoin]. Qed.

Lemma accepted_with_paths c leases boot ca acme : accepted c -> IsAbs boot = true -> IsAbs ca = true -> IsAbs acme = true ->
  accepted (with_paths c leases boot ca acme).
Proof. intros [] H1 H2 H3. split; try done. split; [by apply TrimSpace_abs|]. split; by apply TrimSpace_abs. Qed.

Lemma Load_ok path c : Load EvalSymlinks cwd fileAt path = Ok c -> accepted c /\
  (IsAbs (cfg_BootDirectory c) = true /\ IsAbs (cfg_CADirectory c) = true /\ IsAbs (cfg_ACMEStateFile c) = true
  /\ (cfg_LeaseFile c = [] \/ IsAbs (cfg_LeaseFile c) = true)) /\ validatePaths EvalSymlinks c (configFile cwd path) = Ok tt.
Proof.
  unfold Load. destruct (beq _ _); [done|]. fold (configFile cwd path). destruct (readConfig _) as [data|]; [|done].
  destruct (decode_settings _ _) as [s|]; [|done]. destruct (config_ s) as [c0|] eqn:Ec; [|done].
  destruct (validatePaths _ _ _) as [[]|] eqn:Ev; [|done]. intros [= <-]. apply config_accepted in Ec.
  assert (Hd := IsAbs_Dir _ (configFile_abs path)). destruct (ac_dirs _ Ec) as (D1 & D2 & D3). apply TrimSpace_nonempty in D1, D2, D3.
  split; [|split; [|done]].
  - apply accepted_with_paths; [done|by apply resolvePath_abs..].
  - cbn [cfg_BootDirectory cfg_CADirectory cfg_ACMEStateFile cfg_LeaseFile with_paths].
    split; [by apply resolvePath_abs|]. split; [by apply resolvePath_abs|]. split; [by apply resolvePath_abs|].
    destruct (decide (cfg_LeaseFile c0 = [])) as [->|]; [by left|right; by apply resolvePath_abs].
Qed.
End load.

(** ** Properties *)

(** C25: a configuration that loads is well formed, whatever the file says: one
    IPv4 subnet in canonical form with the server, the router and both ends of the
    pool as hosts, server and router outside the pool; a valid domain; A records
    in canonical form that leave the names of the services alone and send LDAP
    clients to the server; lifetimes in whole seconds that fit 32 bits; users and
    groups with unique names and numbers in range whose memberships exist; shares
    with unique names at absolute paths that do not overlap. *)
Theorem loaded_settings `{ConfigLib} EvalSymlinks cwd fileAt path c :
  IsAbs cwd = true -> Load EvalSymlinks cwd fileAt path = Ok c ->
  accepted c /\ ldap_ok (cfg_LDAP c) /\ shares_ok (cfg_NFS c).
Proof.
  intros Hc E. apply Load_ok in E as [Ha _]; [|done]. split; [done|]. split.
  - apply Validate_ldap_ok, (ac_ldap _ Ha).
  - apply ValidateNFSShares_ok, (ac_shares _ Ha).
Qed.

(** C22: the files of a loaded configuration are kept apart.  The boot directory
    contains none of the configuration file, the CA's directory and its files, the
    lease file and the ACME state, and is not inside the CA's directory; the two
    state files differ from each other and from the CA's files; and every NFS
    share, at the place its path resolves to, contains none of them either, is
    not inside the CA's directory and does not overlap another share. *)
Theorem private_files_unserved `{ConfigLib} EvalSymlinks cwd fileAt path c :
  (forall p q, EvalSymlinks p = Resolved q -> IsAbs p = true -> IsAbs q = true) ->
  IsAbs cwd = true -> Load EvalSymlinks cwd fileAt path = Ok c -> paths_ok EvalSymlinks c (configFile cwd path).
Proof.
  intros He Hc E. apply Load_ok in E as (_ & Hp & Hv); [|done]. apply validatePaths_ok; try done. by apply configFile_abs.
Qed.

(** settings are read strictly.  A file that decodes is one JSON object with
    nothing but space after it; no key occurs twice and every key is a setting;
    a text setting has the string given in the file, or its former value when the
    file does not mention it. *)
Theorem settings_read_strictly data s s' :
  decode_settings data s = Ok s' ->
  exists members rest, firstValue data = Some (JObj members, rest) /\ skipSpace rest = [] /\ NoDup (map fst members) /\
    Forall (fun m => m.1 ∈ structured \/ m.1 ∈ fields /\ exists x, m.2 = JStr x /\ f_text s' !! m.1 = Some (unquote x)) members /\
    (forall key, key ∉ map fst members -> f_text s' !! key = f_text s !! key).
Proof.
  unfold decode_settings. destruct (firstValue data) as [[v rest]|] eqn:Ev; [|done]. destruct v as [| | | | |members]; try done.
  destruct (decodeMembers _ _ _ _) as [s1|] eqn:Em; [|done]. destruct (negb (beq (skipSpace rest) [])) eqn:Er; [done|]. intros [= <-].
  apply negb_false_iff, beq_true in Er. apply decodeSettings_ok in Em as (N & _ & F & G). by exists members, rest.
Qed.

(** ** Witnesses *)

#[local] Existing Instance demo_ldap.
#[local] Instance toy_config : ConfigLib := {|
  mail_ParseAddress s := Some ([], s); bcrypt_Cost s := None; DN_RDNs d := map (fun x => [(str "dc", x)]) d |}.

(** A box with a printer, a read-only share and one user. *)
Definition toy_text : bytes := json_text
  "{'interface': 'eth0', 'server_ip': '192.168.1.1', 'subnet': '192.168.1.0/24', 'pool_start': '192.168.1.100', 'pool_end': '192.168.1.200', 'router': '192.168.1.254', 'upstream': '9.9.9.9:53', 'a_records': {'printer': '192.168.1.9'}, 'nfs': [{'name': 'data', 'path': '/srv/data', 'read_only': true}], 'ldap': {'groups': [{'name': 'staff', 'gid': 7}], 'users': [{'name': 'ann', 'primary_group': 7, 'disabled': true}]}} ".
Definition toy_path : bytes := str "/etc/box/config.json".
Definition toy_files (p : bytes) : option config_file :=
  if beq p toy_path then Some (mkConfigFile true (len toy_text) (Some toy_text)) else None.
(** Nothing but the root exists yet. *)
Definition toy_eval (p : bytes) : evaluated := if beq p (str "/") then Resolved p else NotExist.
Definition toy_load : Prelude.result load_error BoxConfig := Load toy_eval (str "/etc/box") toy_files (str "config.json").
Definition toy_box : BoxConfig := match toy_load with Ok c => c | Err _ => mkBoxConfig [] [] [] AddrNone (mkPrefix AddrNone 0) AddrNone AddrNone AddrNone [] 0 [] [] 0 [] [] [] [] [] [] [] zeroLDAP [] [] ∅ end.

Lemma toy_loads : toy_load = Ok toy_box.
Proof. assert (H : is_ok toy_load = true) by (vm_compute; reflexivity). unfold toy_box. by destruct toy_load. Qed.

Lemma toy_eval_abs p q : toy_eval p = Resolved q -> IsAbs p = true -> IsAbs q = true.
Proof. unfold toy_eval. destruct (beq p _); [by intros [= <-]|done]. Qed.

Lemma loaded_settings_witness :
  toy_load = Ok toy_box /\ accepted toy_box /\ ldap_ok (cfg_LDAP toy_box) /\ shares_ok (cfg_NFS toy_box).
Proof. split; [exact toy_loads|]. exact (loaded_settings toy_eval (str "/etc/box") toy_files (str "config.json") toy_box eq_refl toy_loads). Defined.

Lemma private_files_unserved_witness :
  toy_load = Ok toy_box /\ paths_ok toy_eval toy_box (configFile (str "/etc/box") (str "config.json")).
Proof.
  split; [exact toy_loads|].
  exact (private_files_unserved toy_eval (str "/etc/box") toy_files (str "config.json") toy_box toy_eval_abs eq_refl toy_loads).
Defined.

Definition toy_settings : fileSettings := match decode_settings toy_text defaults with Ok s => s | Err _ => defaults end.
Lemma toy_decodes : decode_settings toy_text defaults = Ok toy_settings.
Proof. assert (H : is_ok (decode_settings toy_text defaults) = true) by (vm_compute; reflexivity). unfold toy_settings. by destruct (decode_settings _ _). Qed.

Lemma settings_read_strictly_witness :
  exists members rest, firstValue toy_text = Some (JObj members, rest) /\ skipSpace rest = [] /\ NoDup (map fst members) /\
    Forall (fun m => m.1 ∈ structured \/ m.1 ∈ fields /\ exists x, m.2 = JStr x /\ f_text toy_settings !! m.1 = Some (unquote x)) members /\
    (forall key, key ∉ map fst members -> f_text toy_settings !! key = f_text defaults !! key).
Proof. exact (settings_read_strictly toy_text defaults toy_settings toy_decodes). Defined.
