(* ===== verification/NfsProto.v ===== *)
(** * nfsserver/protocol.go: records and compound operations

    [readRecord] and [writeRecord] on a byte stream, and the cursor that splits a
    compound request into its operations before the protocol library sees them.
    The numbers of the NFS protocol come from the library's package nfs; they are
    the class [Nfs4], whose laws are what the protocol fixes about them. *)

From stdpp Require Import gmap list.
From Stdlib Require Import ZArith Lia.
From S2P Require Import Prelude GoStrings GoPath.

(** ** Constants of the protocol library *)

Class Nfs4 := {
  OP4_ACCESS : Z; OP4_CLOSE : Z; OP4_COMMIT : Z; OP4_CREATE : Z; OP4_GETATTR : Z;
  OP4_GETFH : Z; OP4_LINK : Z; OP4_LOOKUP : Z; OP4_OPEN : Z; OP4_PUTFH : Z;
  OP4_PUTROOTFH : Z; OP4_READ : Z; OP4_READDIR : Z; OP4_READLINK : Z; OP4_REMOVE : Z;
  OP4_RENAME : Z; OP4_RENEW : Z; OP4_RESTOREFH : Z; OP4_SAVEFH : Z; OP4_SECINFO : Z;
  OP4_SETATTR : Z; OP4_SETCLIENTID : Z; OP4_SETCLIENTID_CONFIRM : Z; OP4_WRITE : Z;
  NF4BLK : Z; NF4CHR : Z; NF4LNK : Z;
  OPEN4_NOCREATE : Z; OPEN4_CREATE : Z; UNCHECKED4 : Z; GUARDED4 : Z; EXCLUSIVE4 : Z; CLAIM_NULL : Z;
  NFS4_OK : Z; NFS4ERR_INVAL : Z; NFS4ERR_ROFS : Z; NFS4ERR_NOTSUPP : Z; NFS4ERR_RESOURCE : Z;
  NFS4ERR_MINOR_VERS_MISMATCH : Z; NFS4ERR_ATTRNOTSUPP : Z; NFS4ERR_OP_ILLEGAL : Z;
  RPC_CALL : Z; RPC_REPLY : Z; MSG_ACCEPTED : Z; ACCEPT_SUCCESS : Z; ACCEPT_PROG_UNAVAIL : Z;
  ACCEPT_PROG_MISMATCH : Z; ACCEPT_PROC_UNAVAIL : Z; ACCEPT_GRABAGE_ARGS : Z;
  PROC4_VOID : Z; PROC4_COMPOUND : Z; AUTH_FLAVOR_NULL : Z; AUTH_FLAVOR_UNIX : Z }.

(** The operations the cursor knows, and the error codes it uses. *)
Definition operations `{Nfs4} : list Z :=
  [OP4_PUTROOTFH; OP4_GETFH; OP4_SAVEFH; OP4_RESTOREFH; OP4_READLINK; OP4_PUTFH; OP4_LOOKUP; OP4_REMOVE;
   OP4_SECINFO; OP4_LINK; OP4_RENAME; OP4_GETATTR; OP4_ACCESS; OP4_RENEW; OP4_SETCLIENTID_CONFIRM;
   OP4_CLOSE; OP4_COMMIT; OP4_SETCLIENTID; OP4_WRITE; OP4_READDIR; OP4_READ; OP4_SETATTR; OP4_CREATE;
   OP4_OPEN].

Definition failures `{Nfs4} : list Z :=
  [NFS4ERR_INVAL; NFS4ERR_ROFS; NFS4ERR_NOTSUPP; NFS4ERR_RESOURCE; NFS4ERR_MINOR_VERS_MISMATCH;
   NFS4ERR_ATTRNOTSUPP; NFS4ERR_OP_ILLEGAL].

Class Nfs4Laws `{Nfs4} : Prop := {
  nfs_ops_distinct : NoDup operations;
  nfs_ops_words : Forall (fun n => 0 <= n < 2 ^ 32) operations;
  nfs_ok : NFS4_OK = 0;
  nfs_failures : Forall (fun n => 0 < n < 2 ^ 32) failures;
  nfs_create_modes : NoDup [UNCHECKED4; GUARDED4; EXCLUSIVE4];
  nfs_open_modes : OPEN4_CREATE <> OPEN4_NOCREATE;
  nfs_kinds : NoDup [NF4LNK; NF4BLK; NF4CHR];
  nfs_procs : PROC4_VOID <> PROC4_COMPOUND }.

(** The numbers of RFC 7530 and RFC 5531. *)
#[export] Instance rfc7530 : Nfs4 := {|
  OP4_ACCESS := 3; OP4_CLOSE := 4; OP4_COMMIT := 5; OP4_CREATE := 6; OP4_GETATTR := 9;
  OP4_GETFH := 10; OP4_LINK := 11; OP4_LOOKUP := 15; OP4_OPEN := 18; OP4_PUTFH := 22;
  OP4_PUTROOTFH := 24; OP4_READ := 25; OP4_READDIR := 26; OP4_READLINK := 27; OP4_REMOVE := 28;
  OP4_RENAME := 29; OP4_RENEW := 30; OP4_RESTOREFH := 31; OP4_SAVEFH := 32; OP4_SECINFO := 33;
  OP4_SETATTR := 34; OP4_SETCLIENTID := 35; OP4_SETCLIENTID_CONFIRM := 36; OP4_WRITE := 38;
  NF4BLK := 3; NF4CHR := 4; NF4LNK := 5;
  OPEN4_NOCREATE := 0; OPEN4_CREATE := 1; UNCHECKED4 := 0; GUARDED4 := 1; EXCLUSIVE4 := 2; CLAIM_NULL := 0;
  NFS4_OK := 0; NFS4ERR_INVAL := 22; NFS4ERR_ROFS := 30; NFS4ERR_NOTSUPP := 10004;
  NFS4ERR_RESOURCE := 10018; NFS4ERR_MINOR_VERS_MISMATCH := 10021; NFS4ERR_ATTRNOTSUPP := 10032;
  NFS4ERR_OP_ILLEGAL := 10044;
  RPC_CALL := 0; RPC_REPLY := 1; MSG_ACCEPTED := 0; ACCEPT_SUCCESS := 0; ACCEPT_PROG_UNAVAIL := 1;
  ACCEPT_PROG_MISMATCH := 2; ACCEPT_PROC_UNAVAIL := 3; ACCEPT_GRABAGE_ARGS := 4;
  PROC4_VOID := 0; PROC4_COMPOUND := 1; AUTH_FLAVOR_NULL := 0; AUTH_FLAVOR_UNIX := 1 |}.

#[export] Instance rfc7530_laws : @Nfs4Laws rfc7530.
Proof.
  constructor.
  - vm_compute. repeat (constructor; [apply (bool_decide_unpack _); vm_compute; exact I|]). constructor.
  - repeat constructor; vm_compute; done.
  - done.
  - repeat constructor; vm_compute; done.
  - repeat (constructor; [apply (bool_decide_unpack _); vm_compute; exact I|]). constructor.
  - done.
  - repeat (constructor; [apply (bool_decide_unpack _); vm_compute; exact I|]). constructor.
  - done.
Qed.

(** ** Records *)

Definition maxRecord : Z := 2097152.
Definition maxOperations : Z := 64.
Definition maxIO : Z := 1048576.

Inductive record_error := ErrShort | ErrRecordSize | ErrFragments.

(** [io.ReadFull] of [n] bytes from a stream that ends after its bytes. *)
Definition ReadFull (n : Z) (r : bytes) : option (bytes * bytes) :=
  if len r <? n then None else Some (take (Z.to_nat n) r, drop (Z.to_nat n) r).

Fixpoint readFragments (fragments : nat) (r : bytes) (result : bytes)
    : Prelude.result record_error (bytes * bytes) :=
  match fragments with
  | O => Err ErrFragments
  | S k =>
      match ReadFull 4 r with
      | None => Err ErrShort
      | Some (marker, r) =>
          let value := be_decode marker in
          let size := Z.land value 0x7fffffff in
          if maxRecord - len result <? size then Err ErrRecordSize
          else match ReadFull size r with
               | None => Err ErrShort
               | Some (fragment, r) =>
                   let result := result ++ fragment in
                   if negb (Z.land value 0x80000000 =? 0) then Ok (result, r)
                   else readFragments k r result
               end
      end
  end.

(** [readRecord]: the record and what is left of the stream. *)
Definition readRecord (r : bytes) : Prelude.result record_error (bytes * bytes) :=
  readFragments 64 r [].

(** [writeRecord]: the bytes written. *)
Definition writeRecord (data : bytes) : bytes :=
  be_encode 4 (Z.lor (u32 (len data)) 0x80000000) ++ data.

(** ** The cursor *)

Inductive cursor_error := ErrUnexpectedEOF | ErrOversizedValue | ErrComponent | ErrOversizedBitmap
  | ErrAttributeData | ErrCreateMode | ErrOpenMode.

Record cursor := mkCursor { c_data : bytes; c_offset : Z; c_err : option cursor_error; c_size : option Z }.

Definition newCursor (data : bytes) : cursor := mkCursor data 0 None None.
Definition fail_with (e : cursor_error) (c : cursor) : cursor :=
  mkCursor (c_data c) (c_offset c) (Some e) (c_size c).
Definition advance (n : Z) (c : cursor) : cursor :=
  mkCursor (c_data c) (c_offset c + n) (c_err c) (c_size c).
Definition with_size (z : option Z) (c : cursor) : cursor :=
  mkCursor (c_data c) (c_offset c) (c_err c) z.

(** [take]: [None] is the nil slice of a failed read. *)
Definition take_ (n : Z) : St cursor (option bytes) := fun c =>
  match c_err c with
  | Some _ => (None, c)
  | None =>
      if (n <? 0) || (len (c_data c) - c_offset c <? n) then (None, fail_with ErrUnexpectedEOF c)
      else (Some (take (Z.to_nat n) (drop (Z.to_nat (c_offset c)) (c_data c))), advance n c)
  end.

Definition word : St cursor Z :=
  p <-- take_ 4 ;; st_ret (match p with None => 0 | Some p => be_decode p end).

Definition raise (e : cursor_error) : St cursor unit := fun c => (tt, fail_with e c).

Definition opaque (limit : Z) : St cursor (option bytes) :=
  n <-- word ;;
  if limit <? n then _ <-- raise ErrOversizedValue ;; st_ret None
  else
    p <-- take_ n ;;
    _ <-- take_ ((4 - n mod 4) mod 4) ;;
    st_ret p.

(** The test of [component] on the name it read. *)
Definition badComponent (name : bytes) : bool :=
  beq name [] || beq name dot || beq name dotdot || ContainsByte name SLASH || ContainsByte name 0.

Definition component : St cursor unit :=
  p <-- opaque 255 ;;
  if badComponent (default [] p) then raise ErrComponent else st_ret tt.

Fixpoint wordList (count : nat) : St cursor (list Z) :=
  match count with
  | O => st_ret []
  | S k => w <-- word ;; ws <-- wordList k ;; st_ret (w :: ws)
  end.

Definition bitmap : St cursor (list Z) :=
  count <-- word ;;
  if 3 <? count then _ <-- raise ErrOversizedBitmap ;; st_ret []
  else wordList (Z.to_nat count).

(** The attribute numbers set in a bitmap, in the order of the loops of
    [attrs]. *)
Definition wordAttrs (i : nat) (bits : Z) : list Z :=
  map (fun bit => Z.of_nat i * 32 + bit) (filter (fun bit => Z.testbit bits bit = true) (seqZ 0 32)).
Definition maskAttrs (mask : list Z) : list Z := concat (imap wordAttrs mask).

Section nfs.
Context `{Nfs4}.

(** One turn of the loops of [attrs]: the nested cursor, the size, the status. *)
Definition attrStep (acc : cursor * option Z * Z) (attr : Z) : cursor * option Z * Z :=
  let '(nested, size, status) := acc in
  if attr =? 4 then
    match take_ 8 nested with
    | (Some value, nested) => (nested, Some (be_decode value), status)
    | (None, nested) => (nested, size, status)
    end
  else if attr =? 33 then ((take_ 4 nested).2, size, status)
  else (nested, size, NFS4ERR_ATTRNOTSUPP).

Definition attrs : St cursor Z :=
  mask <-- bitmap ;;
  p <-- opaque 4096 ;;
  fun c =>
    let data := default [] p in
    let '(nested, size, status) := fold_left attrStep (maskAttrs mask) (newCursor data, c_size c, NFS4_OK) in
    let c := with_size size c in
    if (status =? NFS4_OK) && (bool_decide (c_err nested <> None) || negb (c_offset nested =? len data))
    then (status, fail_with ErrAttributeData c)
    else (status, c).

Record operation := mkOperation
  { op_number : Z; op_data : bytes; op_status : Z; op_access : Z; op_size : option Z }.

Definition skip (n : Z) : St cursor unit := _ <-- take_ n ;; st_ret tt.
Definition skipOpaque (limit : Z) : St cursor unit := _ <-- opaque limit ;; st_ret tt.

(** The createhow of an OPEN whose status so far is [status]. *)
Definition openHow (status : Z) : St cursor Z :=
  how <-- word ;;
  if how =? OPEN4_CREATE then
    mode <-- word ;;
    if (mode =? UNCHECKED4) || (mode =? GUARDED4)
    then st <-- attrs ;; st_ret (if negb (st =? 0) then st else status)
    else if mode =? EXCLUSIVE4 then _ <-- skip 8 ;; st_ret NFS4ERR_NOTSUPP
    else _ <-- raise ErrCreateMode ;; st_ret status
  else if negb (how =? OPEN4_NOCREATE) then _ <-- raise ErrOpenMode ;; st_ret status
  else st_ret status.

(** The body of OPEN4: the access requested and the status. *)
Definition openArgs : St cursor (Z * Z) :=
  _ <-- skip 4 ;;
  access <-- word ;;
  deny <-- word ;;
  let status := if (access <? 1) || (3 <? access) then NFS4ERR_INVAL else 0 in
  let status := if negb (deny =? 0) then NFS4ERR_NOTSUPP else status in
  _ <-- skip 8 ;;
  _ <-- skipOpaque 1024 ;;
  status <-- openHow status ;;
  claim <-- word ;;
  if claim =? CLAIM_NULL then _ <-- component ;; st_ret (access, status)
  else st_ret (access, NFS4ERR_NOTSUPP).

(** The arguments of one operation: the access of an OPEN and the status. *)
Definition operationArgs (number : Z) : St cursor (Z * Z) :=
  let fine (m : St cursor unit) : St cursor (Z * Z) := _ <-- m ;; st_ret (0, 0) in
  if existsb (Z.eqb number) [OP4_PUTROOTFH; OP4_GETFH; OP4_SAVEFH; OP4_RESTOREFH; OP4_READLINK]
  then st_ret (0, 0)
  else if number =? OP4_PUTFH then fine (skipOpaque 128)
  else if existsb (Z.eqb number) [OP4_LOOKUP; OP4_REMOVE; OP4_SECINFO; OP4_LINK] then fine component
  else if number =? OP4_RENAME then fine (_ <-- component ;; component)
  else if number =? OP4_GETATTR then fine (_ <-- bitmap ;; st_ret tt)
  else if number =? OP4_ACCESS then fine (skip 4)
  else if number =? OP4_RENEW then fine (skip 8)
  else if number =? OP4_SETCLIENTID then
    fine (_ <-- skip 8 ;; _ <-- skipOpaque 1024 ;; _ <-- skip 4 ;; _ <-- skipOpaque 255 ;;
          _ <-- skipOpaque 255 ;; skip 4)
  else if number =? OP4_SETCLIENTID_CONFIRM then fine (skip 16)
  else if number =? OP4_CLOSE then fine (skip 20)
  else if number =? OP4_COMMIT then fine (skip 12)
  else if number =? OP4_READ then
    _ <-- skip 24 ;; count <-- word ;; st_ret (0, if maxIO <? count then NFS4ERR_INVAL else 0)
  else if number =? OP4_WRITE then fine (_ <-- skip 28 ;; skipOpaque maxIO)
  else if number =? OP4_READDIR then fine (_ <-- skip 24 ;; _ <-- bitmap ;; st_ret tt)
  else if number =? OP4_SETATTR then _ <-- skip 16 ;; st <-- attrs ;; st_ret (0, st)
  else if number =? OP4_CREATE then
    kind <-- word ;;
    _ <-- (if kind =? NF4LNK then skipOpaque 4096
           else if (kind =? NF4BLK) || (kind =? NF4CHR) then skip 8
           else st_ret tt) ;;
    _ <-- component ;;
    st <-- attrs ;;
    st_ret (0, st)
  else if number =? OP4_OPEN then openArgs
  else st_ret (0, NFS4ERR_OP_ILLEGAL).

(** [cursor.operation]. *)
Definition operation_ : St cursor operation := fun c =>
  let start := c_offset c in
  let c := with_size None c in
  let '(number, c) := word c in
  let '((access, status), c) := operationArgs number c in
  let size := c_size c in
  let status :=
    if (number =? OP4_OPEN) && match size with Some z => negb (z =? 0) | None => false end
    then NFS4ERR_NOTSUPP else status in
  (mkOperation number (slice (Z.to_nat start) (Z.to_nat (c_offset c)) (c_data c)) status access size, c).

End nfs.
