(* ===== verification/NfsWire.v ===== *)
(** * The wire format of NFS requests

    What the cursor of protocol.go accepts, as a grammar over byte strings, and
    the proof that the cursor follows it exactly: [exact m L] says that the reader
    [m] consumes precisely the strings of the language [L].  The same for records
    and their fragments. *)

From stdpp Require Import gmap list.
From Stdlib Require Import ZArith Lia.
From S2P Require Import Prelude GoStrings GoPath NfsProto.

(** ** Languages *)

(** A language relates a value, the size attribute before and after, and the
    bytes. *)
Definition lang (A : Type) := A -> option Z -> option Z -> bytes -> Prop.

Definition remaining (c : cursor) : bytes := drop (Z.to_nat (c_offset c)) (c_data c).

Definition in_range_cursor (c : cursor) : Prop := 0 <= c_offset c <= len (c_data c).

(** Ready to read: no error so far, the offset inside the data, bytes proper. *)
Definition ready (c : cursor) : Prop :=
  c_err c = None /\ in_range_cursor c /\ wf_bytes (c_data c).

(** The cursor after reading [n] bytes and setting the size. *)
Definition moved (c : cursor) (n : Z) (z : option Z) : cursor :=
  mkCursor (c_data c) (c_offset c + n) None z.

Record exact {A} (m : St cursor A) (L : lang A) : Prop := {
  ex_sticky : forall c, c_err c <> None -> c_err (m c).2 <> None;
  ex_sound : forall c, ready c -> c_err (m c).2 = None ->
    exists s rest, remaining c = s ++ rest /\ (m c).2 = moved c (len s) (c_size (m c).2) /\
      L (m c).1 (c_size c) (c_size (m c).2) s;
  ex_complete : forall c s rest v z, ready c -> remaining c = s ++ rest -> L v (c_size c) z s ->
    m c = (v, moved c (len s) z) }.

Definition Lret {A} (a : A) : lang A := fun v z z' s => v = a /\ z' = z /\ s = [].
Definition Lfail {A} : lang A := fun _ _ _ _ => False.
Definition Lseq {A B} (L : lang A) (K : A -> lang B) : lang B := fun v z z' s =>
  exists v1 z1 s1 s2, s = s1 ++ s2 /\ L v1 z z1 s1 /\ K v1 v z1 z' s2.

(** [n] bytes. *)
Definition Lbytes (n : Z) : lang (option bytes) := fun v z z' s =>
  len s = n /\ v = Some s /\ z' = z.
(** A 32-bit word. *)
Definition Lword : lang Z := fun v z z' s => len s = 4 /\ v = be_decode s /\ z' = z.

(** ** Readers *)

Lemma ready_remaining c : ready c -> len (remaining c) = len (c_data c) - c_offset c.
Proof. intros (_ & Hr & _). unfold remaining, in_range_cursor, len in *. rewrite length_drop. lia. Qed.

Lemma ready_wf c : ready c -> wf_bytes (remaining c).
Proof. intros (_ & _ & Hw). by apply Forall_drop. Qed.

Lemma ready_moved c s rest z : ready c -> remaining c = s ++ rest ->
  ready (moved c (len s) z) /\ remaining (moved c (len s) z) = rest.
Proof.
  intros Hc Er. pose proof (ready_remaining c Hc) as Hl. rewrite Er, len_app in Hl.
  destruct Hc as (He & Hr & Hw). pose proof (len_nonneg s). pose proof (len_nonneg rest).
  unfold ready, remaining, in_range_cursor in *. simpl. repeat split; try done; try lia.
  rewrite Z2Nat.inj_add by lia. rewrite <- drop_drop, Er. unfold len. rewrite Nat2Z.id. apply drop_app_length.
Qed.

Lemma take_exact n : exact (take_ n) (Lbytes n).
Proof.
  split.
  - intros c He. unfold take_. destruct (c_err c) eqn:E; [simpl; by rewrite E|done].
  - intros c Hc. pose proof (ready_remaining c Hc) as Hl. destruct Hc as (He & Hr & Hw).
    unfold take_. rewrite He. destruct (_ || _) eqn:E; [done|]. bool_hyps. intros _. simpl.
    exists (take (Z.to_nat n) (remaining c)), (drop (Z.to_nat n) (remaining c)).
    assert (Hs : len (take (Z.to_nat n) (remaining c)) = n).
    { unfold len in *. rewrite length_take. lia. }
    rewrite take_drop, Hs. split; [done|]. split; [|done]. unfold advance, moved. by rewrite He.
  - intros c s rest v z Hc Er (Hs & -> & ->). pose proof (ready_remaining c Hc) as Hl.
    rewrite Er, len_app in Hl. pose proof (len_nonneg rest). destruct Hc as (He & Hr & Hw).
    unfold take_. rewrite He. fold (remaining c).
    assert (E : (n <? 0) || (len (c_data c) - c_offset c <? n) = false).
    { apply orb_false_iff. rewrite !Z.ltb_ge. pose proof (len_nonneg s). lia. }
    rewrite E, Er. unfold advance, moved. rewrite He, Hs. f_equal. f_equal.
    rewrite <- Hs. unfold len. rewrite Nat2Z.id. apply take_app_length.
Qed.

Lemma ret_exact {A} (a : A) : exact (st_ret a) (Lret a).
Proof.
  split; [done| |].
  - intros c (He & _) _. exists [], (remaining c). split; [done|]. split; [|done].
    unfold moved. simpl. rewrite Z.add_0_r. destruct c; simpl in *; by subst.
  - intros c s rest v z (He & _) _ (-> & -> & ->). unfold st_ret, moved. simpl. rewrite Z.add_0_r.
    destruct c; simpl in *; by subst.
Qed.

Lemma prefix_wf c s rest : ready c -> remaining c = s ++ rest -> wf_bytes s.
Proof. intros Hc Er. pose proof (ready_wf c Hc) as Hw. rewrite Er in Hw. by apply Forall_app in Hw as [Hw _]. Qed.

(** Sequencing, where the continuation need only be exact on values that were
    read. *)
Lemma bind_exact_dep {A B} (m : St cursor A) (k : A -> St cursor B) L K :
  exact m L ->
  (forall a c, c_err c <> None -> c_err (k a c).2 <> None) ->
  (forall a z z' s, wf_bytes s -> L a z z' s -> exact (k a) (K a)) ->
  exact (st_bind m k) (Lseq L K).
Proof.
  intros Hm Hst Hk. split.
  - intros c He. unfold st_bind. destruct (m c) as [a c1] eqn:E. apply Hst.
    pose proof (ex_sticky _ _ Hm c He) as H. by rewrite E in H.
  - intros c Hc. unfold st_bind. destruct (m c) as [a c1] eqn:E. intros Hn.
    assert (H1 : c_err c1 = None).
    { destruct (c_err c1) eqn:E1; [|done]. exfalso. revert Hn. apply Hst. by rewrite E1. }
    destruct (ex_sound _ _ Hm c Hc) as (s & rest & Er & Em & HL); [by rewrite E|].
    rewrite E in Em, HL. simpl in Em, HL.
    destruct (ready_moved c s rest (c_size c1) Hc Er) as [Hc1 Er1]. rewrite <- Em in Hc1, Er1.
    pose proof (Hk a _ _ _ (prefix_wf c s rest Hc Er) HL) as Hka.
    destruct (ex_sound _ _ Hka c1 Hc1 Hn) as (s' & rest' & Er' & Em' & HK).
    exists (s ++ s'), rest'. rewrite Er, <- app_assoc, <- Er', Er1. split; [done|]. split.
    + assert (Hd : c_data c1 = c_data c) by (by rewrite Em).
      assert (Ho : c_offset c1 = c_offset c + len s) by (by rewrite Em).
      rewrite Em' at 1. unfold moved. rewrite Hd, Ho, len_app. f_equal. lia.
    + exists a, (c_size c1), s, s'. done.
  - intros c s rest v z Hc Er (v1 & z1 & s1 & s2 & -> & HL & HK). rewrite <- app_assoc in Er.
    unfold st_bind. rewrite (ex_complete _ _ Hm c s1 (s2 ++ rest) v1 z1 Hc Er HL).
    destruct (ready_moved c s1 (s2 ++ rest) z1 Hc Er) as [Hc1 Er1].
    pose proof (Hk v1 _ _ _ (prefix_wf c s1 _ Hc Er) HL) as Hka.
    rewrite (ex_complete _ _ Hka _ s2 rest v z Hc1 Er1 HK). unfold moved. simpl.
    by rewrite len_app, Z.add_assoc.
Qed.

Lemma bind_exact {A B} (m : St cursor A) (k : A -> St cursor B) L K :
  exact m L -> (forall a, exact (k a) (K a)) -> exact (st_bind m k) (Lseq L K).
Proof. intros Hm Hk. apply bind_exact_dep; [done| |done]. intros a. apply (ex_sticky _ _ (Hk a)). Qed.

Lemma raise_exact {A} e (k : unit -> St cursor A) :
  (forall c, c_err c <> None -> c_err (k tt c).2 <> None) -> exact (st_bind (raise e) k) Lfail.
Proof.
  intros Hk. split.
  - intros c _. unfold st_bind, raise. by apply Hk.
  - intros c _ Hn. unfold st_bind, raise in Hn. exfalso. revert Hn. by apply Hk.
  - done.
Qed.

Lemma raise_exact' e : exact (raise e) Lfail.
Proof. split; [by intros c _|by intros c _|done]. Qed.

(** Equal languages, by value and bytes. *)
Lemma exact_weaken {A} (m : St cursor A) (L K : lang A) :
  exact m L -> (forall v z z' s, wf_bytes s -> L v z z' s <-> K v z z' s) -> exact m K.
Proof.
  intros [H1 H2 H3] E. split; [done| |].
  - intros c Hc Hn. destruct (H2 c Hc Hn) as (s & rest & ? & ? & ?). exists s, rest. rewrite <- E; [done|].
    by eapply prefix_wf.
  - intros c s rest v z Hc Er HK. apply (H3 c s rest v z Hc Er). apply E; [by eapply prefix_wf|done].
Qed.

Lemma if_exact {A} (b : bool) (m k : St cursor A) L K :
  (b = true -> exact m L) -> (b = false -> exact k K) ->
  exact (if b then m else k) (fun v z z' s => if b then L v z z' s else K v z z' s).
Proof. destruct b; eauto. Qed.

Create HintDb nfs discriminated.
#[export] Hint Resolve ret_exact raise_exact' take_exact : nfs.

Lemma word_exact : exact word Lword.
Proof.
  unfold word. eapply exact_weaken.
  { apply bind_exact; [apply (take_exact 4)|intros p; apply ret_exact]. }
  intros v z z' s _. unfold Lword, Lseq, Lbytes, Lret. split.
  - intros (v1 & z1 & s1 & s2 & -> & (Hl & -> & ->) & -> & -> & ->). by rewrite app_nil_r.
  - intros (Hl & -> & ->). exists (Some s), z, s, []. by rewrite app_nil_r.
Qed.
#[export] Hint Resolve word_exact : nfs.

(** ** The grammar *)

(** A variable-length opaque of at most [limit] bytes; the padding is not
    looked at. *)
Definition is_opaque (limit : Z) (b s : bytes) : Prop :=
  exists pad, s = be_encode 4 (len b) ++ b ++ pad /\ len b <= limit /\ len pad = (4 - len b mod 4) mod 4.

Definition Lopaque (limit : Z) : lang (option bytes) := fun v z z' s =>
  exists b, v = Some b /\ z' = z /\ is_opaque limit b s.

(** A name inside a directory. *)
Definition is_component (s : bytes) : Prop :=
  exists b, is_opaque 255 b s /\ plain b /\ 0 ∉ b.

Definition is_bitmap (mask : list Z) (s : bytes) : Prop :=
  s = be_encode 4 (len mask) ++ concat (map (be_encode 4) mask) /\ len mask <= 3 /\
  Forall (fun w => 0 <= w < 2 ^ 32) mask.

Lemma word_encoded s : len s = 4 -> wf_bytes s -> be_encode 4 (be_decode s) = s.
Proof. intros Hl Hw. rewrite <- (be_encode_decode s Hw) at 2. f_equal. unfold len in Hl. lia. Qed.

Lemma word_decoded w : 0 <= w < 2 ^ 32 -> be_decode (be_encode 4 w) = w.
Proof. intros Hw. rewrite be_decode_encode. apply Z.mod_small. change (256 ^ Z.of_nat 4) with (2 ^ 32). lia. Qed.

Lemma len_word w : len (be_encode 4 w) = 4.
Proof. unfold len. by rewrite length_be_encode. Qed.

Lemma len_words ws : len (concat (map (be_encode 4) ws)) = 4 * len ws.
Proof. induction ws as [|w ws IH]; [done|]. cbn [map concat]. rewrite len_app, len_word, IH, len_cons. lia. Qed.

Lemma opaque_exact limit : limit < 2 ^ 32 -> exact (opaque limit) (Lopaque limit).
Proof.
  intros Hlim. unfold opaque. eapply exact_weaken.
  { apply bind_exact; [apply word_exact|]. intros n. apply if_exact.
    - intros _. apply raise_exact. done.
    - intros _. apply bind_exact; [apply take_exact|]. intros p. apply bind_exact; [apply take_exact|].
      intros q. apply ret_exact. }
  intros v z z' s Hw. unfold Lopaque, is_opaque. split.
  - intros (n & z1 & s1 & s2 & -> & (H4 & -> & ->) & H).
    destruct (limit <? be_decode s1) eqn:El; [done|].
    destruct H as (p & z2 & b & s3 & -> & (Hb & -> & ->) & q & z3 & pad & s4 & -> & (Hp & -> & ->) & -> & -> & ->).
    apply Forall_app in Hw as [Hw _]. exists b. split; [done|]. split; [done|]. exists pad.
    rewrite app_nil_r, Hb, word_encoded by done. bool_hyps. done.
  - intros (b & -> & -> & pad & -> & Hb & Hp). pose proof (len_nonneg b).
    exists (len b), z, (be_encode 4 (len b)), (b ++ pad). split; [done|].
    split; [split; [apply len_word|split; [by rewrite word_decoded by lia|done]]|].
    rewrite (proj2 (Z.ltb_ge limit (len b))) by lia.
    exists (Some b), z, b, pad. split; [done|]. split; [done|].
    exists (Some pad), z, pad, []. rewrite app_nil_r. done.
Qed.

Lemma skip_exact n : exact (skip n) (fun _ z z' s => z' = z /\ len s = n).
Proof.
  unfold skip. eapply exact_weaken; [apply bind_exact; [apply take_exact|intros p; apply ret_exact]|].
  intros [] z z' s _. split.
  - intros (p & z1 & s1 & s2 & -> & (Hl & _ & ->) & _ & -> & ->). by rewrite app_nil_r.
  - intros [-> Hl]. exists (Some s), z, s, []. by rewrite app_nil_r.
Qed.

Lemma skipOpaque_exact limit : limit < 2 ^ 32 ->
  exact (skipOpaque limit) (fun _ z z' s => z' = z /\ exists b, is_opaque limit b s).
Proof.
  intros Hl. unfold skipOpaque.
  eapply exact_weaken; [apply bind_exact; [by apply opaque_exact|intros p; apply ret_exact]|].
  intros [] z z' s _. split.
  - intros (p & z1 & s1 & s2 & -> & (b & -> & -> & Hb) & _ & -> & ->). rewrite app_nil_r. by split; [|exists b].
  - intros [-> [b Hb]]. exists (Some b), z, s, []. rewrite app_nil_r. split; [done|]. split; [by exists b|done].
Qed.

Lemma badComponent_spec b : badComponent b = false <-> plain b /\ 0 ∉ b.
Proof.
  unfold badComponent, plain. rewrite !orb_false_iff, !beq_false.
  rewrite <- !not_true_iff_false, !ContainsByte_spec. tauto.
Qed.

Lemma component_exact : exact component (fun _ z z' s => z' = z /\ is_component s).
Proof.
  unfold component. eapply exact_weaken.
  { apply bind_exact; [by apply opaque_exact|]. intros p. apply if_exact; intros _; auto with nfs. }
  intros [] z z' s _. unfold is_component. split.
  - intros (p & z1 & s1 & s2 & -> & (b & -> & -> & Hb) & H). simpl in H.
    destruct (badComponent b) eqn:E; [done|]. destruct H as (_ & -> & ->). rewrite app_nil_r.
    split; [done|]. exists b. by rewrite <- badComponent_spec.
  - intros [-> (b & Hb & Hc)]. rewrite <- badComponent_spec in Hc. exists (Some b), z, s, [].
    rewrite app_nil_r. split; [done|]. split; [by exists b|]. simpl. by rewrite Hc.
Qed.

Lemma wordList_exact n :
  exact (wordList n) (fun ws z z' s => z' = z /\ length ws = n /\
    Forall (fun w => 0 <= w < 2 ^ 32) ws /\ s = concat (map (be_encode 4) ws)).
Proof.
  induction n as [|n IH]; simpl wordList.
  { eapply exact_weaken; [apply ret_exact|]. intros v z z' s _. unfold Lret. split.
    - intros (-> & -> & ->). done.
    - intros (-> & Hl & _ & ->). destruct v; done. }
  eapply exact_weaken.
  { apply bind_exact; [apply word_exact|intros w]. apply bind_exact; [apply IH|intros ws; apply ret_exact]. }
  intros v z z' s Hw. split.
  - intros (w & z1 & s1 & s2 & -> & (H4 & -> & ->) & ws & z2 & s3 & s4 & -> & (-> & Hl & Hf & ->) & -> & -> & ->).
    apply Forall_app in Hw as [Hw _]. rewrite app_nil_r. split; [done|]. simpl length. split; [lia|].
    pose proof (be_decode_bounds s1 Hw) as Hb. rewrite H4 in Hb. change (256 ^ 4) with (2 ^ 32) in Hb.
    split; [by constructor|]. cbn [map concat]. by rewrite word_encoded.
  - intros (-> & Hl & Hf & ->). destruct v as [|w ws]; [done|]. apply Forall_cons in Hf as [Hb Hf].
    exists w, z, (be_encode 4 w), (concat (map (be_encode 4) ws)). split; [done|].
    split; [split; [apply len_word|by rewrite word_decoded]|].
    exists ws, z, (concat (map (be_encode 4) ws)), []. rewrite app_nil_r. split; [done|]. simpl in Hl.
    split; [split; [done|split; [lia|done]]|done].
Qed.

Lemma bitmap_exact : exact bitmap (fun mask z z' s => z' = z /\ is_bitmap mask s).
Proof.
  unfold bitmap. eapply exact_weaken.
  { apply bind_exact; [apply word_exact|intros n]. apply if_exact; intros _.
    - by apply raise_exact.
    - apply wordList_exact. }
  intros v z z' s Hw. unfold is_bitmap. split.
  - intros (n & z1 & s1 & s2 & -> & (H4 & -> & ->) & H). apply Forall_app in Hw as [Hw _].
    pose proof (be_decode_bounds s1 Hw) as Hb.
    destruct (3 <? be_decode s1) eqn:E; [done|]. bool_hyps. destruct H as (-> & Hl & Hf & ->).
    split; [done|]. assert (Hv : len v = be_decode s1) by (unfold len; lia).
    rewrite Hv, word_encoded by done. done.
  - intros (-> & -> & Hl & Hf). pose proof (len_nonneg v).
    exists (len v), z, (be_encode 4 (len v)), (concat (map (be_encode 4) v)). split; [done|].
    split; [split; [apply len_word|by rewrite word_decoded by lia]|].
    rewrite (proj2 (Z.ltb_ge 3 (len v))) by lia. unfold len. rewrite Nat2Z.id. done.
Qed.
#[export] Hint Resolve skip_exact component_exact bitmap_exact : nfs.

(** ** Attributes *)

Section attributes.
Context `{Nfs4Laws}.

Lemma nfs_failure e : e ∈ failures -> e <> 0.
Proof. intros He. pose proof nfs_failures as Hf. rewrite Forall_forall in Hf. apply Hf in He. lia. Qed.

(** The attributes the server can set: the size and the mode. *)
Definition supported (attr : Z) : bool := (attr =? 4) || (attr =? 33).

(** The values of supported attributes, in order, and the size they set. *)
Fixpoint attr_data (attrs : list Z) (z z' : option Z) (data : bytes) : Prop :=
  match attrs with
  | [] => data = [] /\ z' = z
  | a :: rest => exists v d, data = v ++ d /\
      if a =? 4 then len v = 8 /\ attr_data rest (Some (be_decode v)) z' d
      else len v = 4 /\ attr_data rest z z' d
  end.

Lemma fold_failed attrs nested z st :
  c_err nested <> None -> c_err (fold_left attrStep attrs (nested, z, st)).1.1 <> None.
Proof.
  revert nested z st. induction attrs as [|a attrs IH]; intros nested z st Hn; [done|].
  cbn [fold_left]. unfold attrStep at 2.
  assert (Ht : forall n, (take_ n nested) = (None, nested)).
  { intros n. unfold take_. by destruct (c_err nested). }
  rewrite !Ht. repeat case_match; simplify_eq; by apply IH.
Qed.

Lemma attrs_end_sound attrs nested z : forallb supported attrs = true -> ready nested ->
  c_err (fold_left attrStep attrs (nested, z, NFS4_OK)).1.1 = None ->
  c_offset (fold_left attrStep attrs (nested, z, NFS4_OK)).1.1 = len (c_data nested) ->
  attr_data attrs z (fold_left attrStep attrs (nested, z, NFS4_OK)).1.2 (remaining nested).
Proof.
  revert nested z. induction attrs as [|a attrs IH]; intros nested z Hs Hr He Ho.
  { simpl in *. split; [|done]. apply len_zero_nil. rewrite ready_remaining by done. lia. }
  cbn [forallb] in Hs. apply andb_true_iff in Hs as [Ha Hs]. cbn [fold_left attr_data] in *.
  unfold supported in Ha. set (n := if a =? 4 then 8 else 4).
  destruct (take_ n nested) as [[v|] c1] eqn:Et.
  2:{ exfalso. revert He. assert (c_err c1 <> None).
      { pose proof (take_exact n) as Hx. intros Hn. destruct (ex_sound _ _ Hx nested Hr) as (s & r & _ & _ & HL).
        - by rewrite Et.
        - rewrite Et in HL. by destruct HL as (_ & ? & _). }
      subst n. unfold attrStep at 2. destruct (a =? 4); [rewrite Et; by apply fold_failed|].
      destruct (a =? 33); [|done]. rewrite Et. by apply fold_failed. }
  destruct (ex_sound _ _ (take_exact n) nested Hr) as (s & rest & Er & Em & Hl & Hv & _).
  { rewrite Et. unfold take_ in Et. destruct (c_err nested) eqn:En; [done|]. destruct ((n <? 0) || _); [done|].
    injection Et as _ <-. exact En. }
  rewrite Et in Em, Hv. cbn [fst snd] in Em, Hv. injection Hv as ->.
  destruct (ready_moved nested s rest (c_size c1) Hr Er) as [Hr1 Er1]. rewrite <- Em in Hr1, Er1.
  assert (Hd : c_data c1 = c_data nested) by (by rewrite Em).
  assert (Es : attrStep (nested, z, NFS4_OK) a = (c1, if a =? 4 then Some (be_decode s) else z, NFS4_OK)).
  { subst n. unfold attrStep. destruct (a =? 4); [by rewrite Et|]. simpl in Ha. by rewrite Ha, Et. }
  exists s, rest. split; [done|]. rewrite Es in *. rewrite <- Er1. subst n.
  destruct (a =? 4); (split; [done|]); (apply IH; [done..|by rewrite Hd]).
Qed.

Lemma attrs_end_complete attrs nested z z' : forallb supported attrs = true -> ready nested ->
  attr_data attrs z z' (remaining nested) ->
  exists c, fold_left attrStep attrs (nested, z, NFS4_OK) = (c, z', NFS4_OK) /\
    c_err c = None /\ c_offset c = len (c_data nested).
Proof.
  revert nested z. induction attrs as [|a attrs IH]; intros nested z Hs Hr.
  { intros [E ->]. exists nested. split; [done|]. split; [apply Hr|].
    pose proof (ready_remaining nested Hr) as Hl. rewrite E, len_nil in Hl. lia. }
  cbn [forallb] in Hs. apply andb_true_iff in Hs as [Ha Hs]. unfold supported in Ha.
  intros (v & d & Er & Hv). cbn [fold_left]. unfold attrStep at 2.
  destruct (ready_moved nested v d (c_size nested) Hr Er) as [Hr1 Er1].
  destruct (a =? 4); simpl in Ha.
  - destruct Hv as [Hl Hd]. rewrite (ex_complete _ _ (take_exact 8) nested v d (Some v) _ Hr Er (conj Hl (conj eq_refl eq_refl))).
    apply (IH _ _ Hs Hr1). by rewrite Er1.
  - rewrite Ha. destruct Hv as [Hl Hd].
    rewrite (ex_complete _ _ (take_exact 4) nested v d (Some v) _ Hr Er (conj Hl (conj eq_refl eq_refl))).
    apply (IH _ _ Hs Hr1). by rewrite Er1.
Qed.

(** The status of a mask: supported attributes are fine. *)
Lemma attrs_status attrs nested z st :
  (fold_left attrStep attrs (nested, z, st)).2 = if forallb supported attrs then st else NFS4ERR_ATTRNOTSUPP.
Proof.
  assert (Hsticky : forall attrs nested z,
    (fold_left attrStep attrs (nested, z, NFS4ERR_ATTRNOTSUPP)).2 = NFS4ERR_ATTRNOTSUPP).
  { clear. induction attrs as [|a attrs IH]; intros nested z; [done|]. cbn [fold_left]. unfold attrStep at 2.
    repeat case_match; apply IH. }
  revert nested z. induction attrs as [|a attrs IH]; intros nested z; [done|].
  cbn [fold_left forallb]. unfold attrStep at 2, supported at 1.
  destruct (a =? 4); [simpl; destruct (take_ 8 nested) as [[v|] c]; apply IH|].
  destruct (a =? 33); simpl; [apply IH|apply Hsticky].
Qed.

(** A mask and its data: what [attrs] accepts, with its status. *)
Definition Lattrs : lang Z := fun v z z' s =>
  exists mask data s1 s2, s = s1 ++ s2 /\ is_bitmap mask s1 /\ is_opaque 4096 data s2 /\
    if forallb supported (maskAttrs mask) then v = 0 /\ attr_data (maskAttrs mask) z z' data
    else v = NFS4ERR_ATTRNOTSUPP /\
         z' = (fold_left attrStep (maskAttrs mask) (newCursor data, z, NFS4_OK)).1.2.

Definition attrsEnd (mask : list Z) (p : option bytes) : St cursor Z := fun c =>
  let data := default [] p in
  let '(nested, size, status) := fold_left attrStep (maskAttrs mask) (newCursor data, c_size c, NFS4_OK) in
  let c := with_size size c in
  if (status =? NFS4_OK) && (bool_decide (c_err nested <> None) || negb (c_offset nested =? len data))
  then (status, fail_with ErrAttributeData c)
  else (status, c).

Lemma newCursor_ready data : wf_bytes data -> ready (newCursor data) /\ remaining (newCursor data) = data.
Proof.
  intros Hw. unfold ready, in_range_cursor, remaining, newCursor. simpl.
  pose proof (len_nonneg data). repeat split; try done; lia.
Qed.

Lemma is_opaque_wf limit b s : wf_bytes s -> is_opaque limit b s -> wf_bytes b.
Proof. intros Hw (pad & -> & _). apply Forall_app in Hw as [_ Hw]. by apply Forall_app in Hw as [Hw _]. Qed.

Lemma attrsEnd_exact mask data : wf_bytes data ->
  exact (attrsEnd mask (Some data)) (fun v z z' s => s = [] /\
    if forallb supported (maskAttrs mask) then v = 0 /\ attr_data (maskAttrs mask) z z' data
    else v = NFS4ERR_ATTRNOTSUPP /\
         z' = (fold_left attrStep (maskAttrs mask) (newCursor data, z, NFS4_OK)).1.2).
Proof.
  intros Hw. destruct (newCursor_ready data Hw) as [Hr Er].
  assert (Hna : NFS4ERR_ATTRNOTSUPP <> NFS4_OK).
  { rewrite nfs_ok. apply nfs_failure. unfold failures. rewrite !elem_of_cons. tauto. }
  split.
  - intros c He. unfold attrsEnd. simpl default. destruct (fold_left _ _ _) as [[nested z] st].
    by destruct (_ && _).
  - intros c Hc Hn. exists [], (remaining c). split; [done|]. unfold attrsEnd in *. simpl default in *.
    pose proof (attrs_status (maskAttrs mask) (newCursor data) (c_size c) NFS4_OK) as Hst.
    pose proof (attrs_end_sound (maskAttrs mask) (newCursor data) (c_size c)) as Hso.
    destruct (fold_left _ _ _) as [[nested z] st]. cbn [fst snd] in *.
    destruct (_ && _) eqn:Ec; [done|]. cbn [fst snd] in *. split.
    { unfold with_size, moved. simpl. rewrite Z.add_0_r. destruct Hc as (-> & _). done. }
    split; [done|]. destruct (forallb supported (maskAttrs mask)) eqn:Es.
    + subst st. rewrite Z.eqb_refl in Ec. simpl in Ec. bool_hyps.
      split; [apply nfs_ok|]. rewrite <- Er. apply Hso; [done|done| |done].
      destruct (c_err nested); [|done]. exfalso. by apply H1.
    + done.
  - intros c s rest v z Hc Hrem (-> & Hv). unfold attrsEnd. simpl default.
    destruct (forallb supported (maskAttrs mask)) eqn:Es.
    + destruct Hv as [-> Hd]. rewrite <- Er in Hd.
      destruct (attrs_end_complete _ _ _ _ Es Hr Hd) as (c1 & -> & He1 & Ho1).
      rewrite He1, Ho1. simpl c_data. rewrite !Z.eqb_refl, bool_decide_eq_false_2 by (by intros []). cbn [negb orb andb]. rewrite nfs_ok.
      unfold with_size, moved. change (len (@nil Z)) with 0. rewrite Z.add_0_r. destruct Hc as (-> & _). done.
    + destruct Hv as [-> ->].
      pose proof (attrs_status (maskAttrs mask) (newCursor data) (c_size c) NFS4_OK) as Hst. rewrite Es in Hst.
      destruct (fold_left _ _ _) as [[nested z'] st]. cbn [fst snd] in *. subst st.
      rewrite (proj2 (Z.eqb_neq _ _) Hna). simpl.
      unfold with_size, moved. change (len (@nil Z)) with 0. rewrite Z.add_0_r. destruct Hc as (-> & _). done.
Qed.

Lemma attrsEnd_sticky mask p c : c_err c <> None -> c_err (attrsEnd mask p c).2 <> None.
Proof. intros He. unfold attrsEnd. destruct (fold_left _ _ _) as [[nested z] st]. by destruct (_ && _). Qed.

Lemma attrs_exact : exact attrs Lattrs.
Proof.
  change attrs with (st_bind bitmap (fun mask => st_bind (opaque 4096) (attrsEnd mask))).
  eapply exact_weaken.
  { apply bind_exact; [apply bitmap_exact|]. intros mask. eapply bind_exact_dep; [by apply opaque_exact| |].
    - intros p c. apply attrsEnd_sticky.
    - intros p z z' s Hw (b & -> & _ & Hb).
      exact (attrsEnd_exact mask b (is_opaque_wf _ _ _ Hw Hb) : exact _ ((fun p v z z' s => s = [] /\
        if forallb supported (maskAttrs mask) then v = 0 /\ attr_data (maskAttrs mask) z z' (default [] p)
        else v = NFS4ERR_ATTRNOTSUPP /\
          z' = (fold_left attrStep (maskAttrs mask) (newCursor (default [] p), z, NFS4_OK)).1.2) (Some b))). }
  intros v z z' s _. unfold Lattrs. split.
  - intros (mask & z1 & s1 & s2 & -> & (-> & Hm) & p & z2 & s3 & s4 & -> & (b & -> & -> & Hb) & -> & Hv).
    exists mask, b, s1, s3. rewrite app_nil_r. done.
  - intros (mask & data & s1 & s2 & -> & Hm & Hd & Hv).
    exists mask, z, s1, s2. split; [done|]. split; [done|].
    exists (Some data), z, s2, []. rewrite app_nil_r. split; [done|]. split; [by exists data|done].
Qed.

End attributes.
#[export] Hint Resolve attrs_exact : nfs.

(** ** Operations *)

(** Grammars without a value: a set of byte strings. *)
Definition catP (P Q : bytes -> Prop) : bytes -> Prop := fun s => exists s1 s2, s = s1 ++ s2 /\ P s1 /\ Q s2.
Definition emptyP : bytes -> Prop := fun s => s = [].
Definition fixedP (n : Z) : bytes -> Prop := fun s => len s = n.
Definition opaqueP (limit : Z) : bytes -> Prop := fun s => exists b, is_opaque limit b s.
Definition bitmapP : bytes -> Prop := fun s => exists mask, is_bitmap mask s.
Definition wordP (P : Z -> Prop) : bytes -> Prop := fun s => len s = 4 /\ P (be_decode s).

Declare Scope wire_scope.
Delimit Scope wire_scope with wire.
Notation "P ⧺ Q" := (catP P Q) (at level 60, right associativity) : wire_scope.

Definition unitL {A} (a : A) (P : bytes -> Prop) : lang A := fun v z z' s => v = a /\ z' = z /\ P s.

Lemma seq_exact {A} (m : St cursor unit) (k : St cursor A) a P Q :
  exact m (unitL tt P) -> exact k (unitL a Q) -> exact (_ <-- m ;; k) (unitL a (catP P Q)).
Proof.
  intros Hm Hk. eapply exact_weaken; [exact (bind_exact m (fun _ => k) _ (fun _ => unitL a Q) Hm (fun _ => Hk))|].
  intros v z z' s _. unfold unitL, catP. split.
  - intros ([] & z1 & s1 & s2 & -> & (_ & -> & HP) & -> & -> & HQ). eauto 10.
  - intros (-> & -> & s1 & s2 & -> & HP & HQ). by exists tt, z, s1, s2.
Qed.

Lemma done_exact {A B} (m : St cursor A) (P : A -> bytes -> Prop) (b : B) :
  exact m (fun v z z' s => z' = z /\ P v s) -> exact (_ <-- m ;; st_ret b) (unitL b (fun s => exists v, P v s)).
Proof.
  intros Hm. eapply exact_weaken; [apply bind_exact; [exact Hm|intros a; apply ret_exact]|].
  intros v z z' s _. unfold unitL. split.
  - intros (a & z1 & s1 & s2 & -> & (-> & HP) & -> & -> & ->). rewrite app_nil_r. eauto 10.
  - intros (-> & -> & a & HP). exists a, z, s, []. by rewrite app_nil_r.
Qed.

Lemma skip_unit n : exact (skip n) (unitL tt (fixedP n)).
Proof. eapply exact_weaken; [apply skip_exact|]. intros [] z z' s _. unfold unitL, fixedP. tauto. Qed.

Lemma skipOpaque_unit limit : limit < 2 ^ 32 -> exact (skipOpaque limit) (unitL tt (opaqueP limit)).
Proof.
  intros Hl. eapply exact_weaken; [by apply skipOpaque_exact|]. intros [] z z' s _. unfold unitL, opaqueP. tauto.
Qed.

Lemma component_unit : exact component (unitL tt is_component).
Proof. eapply exact_weaken; [apply component_exact|]. intros [] z z' s _. unfold unitL. tauto. Qed.

Lemma bitmap_unit : exact (_ <-- bitmap ;; st_ret tt) (unitL tt bitmapP).
Proof. apply (done_exact _ (fun mask s => is_bitmap mask s)), bitmap_exact. Qed.

Lemma fine_exact m P : exact m (unitL tt P) -> exact (_ <-- m ;; st_ret (0, 0)) (unitL (0, 0) P).
Proof.
  intros Hm. eapply exact_weaken; [apply (done_exact m (fun _ => P))|].
  - eapply exact_weaken; [exact Hm|]. intros [] z z' s _. unfold unitL. tauto.
  - intros v z z' s _. unfold unitL. split.
    + intros (-> & -> & [] & HP). done.
    + intros (-> & -> & HP). split; [done|]. split; [done|]. by exists tt.
Qed.
#[export] Hint Resolve skip_unit component_unit bitmap_unit fine_exact seq_exact : nfs.
#[export] Hint Extern 1 (exact (skipOpaque _) _) => (apply skipOpaque_unit; done) : nfs.

Section operations.
Context `{Nfs4Laws}.
Local Open Scope wire_scope.

(** The arguments of the operations that carry no status of their own. *)
Definition simple_grammar : list (Z * (bytes -> Prop)) :=
  [(OP4_PUTROOTFH, emptyP); (OP4_GETFH, emptyP); (OP4_SAVEFH, emptyP); (OP4_RESTOREFH, emptyP);
   (OP4_READLINK, emptyP);
   (OP4_PUTFH, opaqueP 128);
   (OP4_LOOKUP, is_component); (OP4_REMOVE, is_component); (OP4_SECINFO, is_component); (OP4_LINK, is_component);
   (OP4_RENAME, is_component ⧺ is_component);
   (OP4_GETATTR, bitmapP);
   (OP4_ACCESS, fixedP 4); (OP4_RENEW, fixedP 8); (OP4_SETCLIENTID_CONFIRM, fixedP 16);
   (OP4_CLOSE, fixedP 20); (OP4_COMMIT, fixedP 12);
   (OP4_SETCLIENTID, fixedP 8 ⧺ opaqueP 1024 ⧺ fixedP 4 ⧺ opaqueP 255 ⧺ opaqueP 255 ⧺ fixedP 4);
   (OP4_WRITE, fixedP 28 ⧺ opaqueP maxIO);
   (OP4_READDIR, fixedP 24 ⧺ bitmapP)].

(** Attributes that are all supported, and the size they set. *)
Definition is_attrs (z : option Z) (s : bytes) : Prop := Lattrs 0 None z s.

(** What precedes the name in CREATE, by the kind of object. *)
Definition create_data (kind : Z) : bytes -> Prop :=
  if kind =? NF4LNK then opaqueP 4096
  else if (kind =? NF4BLK) || (kind =? NF4CHR) then fixedP 8 else emptyP.

(** The createhow of OPEN and the size it sets. *)
Inductive open_how : option Z -> bytes -> Prop :=
| how_open s : wordP (eq OPEN4_NOCREATE) s -> open_how None s
| how_create s1 s2 s3 z : wordP (eq OPEN4_CREATE) s1 ->
    wordP (fun m => m = UNCHECKED4 \/ m = GUARDED4) s2 -> is_attrs z s3 -> open_how z (s1 ++ s2 ++ s3).

(** The operations the server carries out: number, access, size, arguments. *)
Inductive op_args : Z -> Z -> option Z -> bytes -> Prop :=
| A_simple n P s : (n, P) ∈ simple_grammar -> P s -> op_args n 0 None s
| A_read s : (fixedP 24 ⧺ wordP (fun count => count <= maxIO)) s -> op_args OP4_READ 0 None s
| A_setattr s1 s2 z : fixedP 16 s1 -> is_attrs z s2 -> op_args OP4_SETATTR 0 z (s1 ++ s2)
| A_create kind s1 s2 z : (wordP (eq kind) ⧺ create_data kind ⧺ is_component) s1 -> is_attrs z s2 ->
    op_args OP4_CREATE 0 z (s1 ++ s2)
| A_open access s1 s2 s3 z : 1 <= access <= 3 -> z = None \/ z = Some 0 ->
    (fixedP 4 ⧺ wordP (eq access) ⧺ wordP (eq 0) ⧺ fixedP 8 ⧺ opaqueP 1024) s1 ->
    open_how z s2 -> (wordP (eq CLAIM_NULL) ⧺ is_component) s3 ->
    op_args OP4_OPEN access z (s1 ++ s2 ++ s3).

Lemma ops_neq i j a b : operations !! i = Some a -> operations !! j = Some b -> i <> j -> (a =? b) = false.
Proof.
  intros Ha Hb Hn. apply Z.eqb_neq. intros ->. apply Hn. by apply (NoDup_lookup operations i j b nfs_ops_distinct).
Qed.

Ltac op_index a l :=
  lazymatch l with
  | a :: _ => constr:(O)
  | _ :: ?t => let k := op_index a t in constr:(S k)
  end.
Ltac op_tests :=
  repeat match goal with
  | |- context [?a =? ?a] => rewrite (Z.eqb_refl a)
  | |- context [?a =? ?b] =>
      let l := eval unfold operations in operations in
      let i := op_index a l in let j := op_index b l in
      rewrite (ops_neq i j a b eq_refl eq_refl ltac:(discriminate))
  end.
Ltac op_branch := unfold operationArgs; cbn [existsb]; op_tests; cbn [orb]; cbv iota beta zeta.

Lemma simple_exact n P : (n, P) ∈ simple_grammar -> exact (operationArgs n) (unitL (0, 0) P).
Proof.
  unfold simple_grammar. intros Hin.
  repeat (apply elem_of_cons in Hin as [[= -> ->]|Hin]; [op_branch; auto 10 with nfs; fail|]).
  all: try by apply elem_of_nil in Hin.
Qed.

(** [accepts n Q]: the reader of operation [n] lets through exactly [Q], as far
    as it reports no status. *)
Definition accepts (n : Z) (Q : Z -> option Z -> bytes -> Prop) : Prop :=
  exists L, exact (operationArgs n) L /\
    forall access z s, wf_bytes s -> L (access, 0) None z s <-> Q access z s.

Lemma failure_nonzero e : e ∈ failures -> (e =? 0) = false.
Proof. intros He. by apply Z.eqb_neq, nfs_failure. Qed.

Ltac in_failures := apply nfs_failure; unfold failures; rewrite !elem_of_cons; tauto.

Lemma simple_accepts n P : (n, P) ∈ simple_grammar ->
  accepts n (fun access z s => access = 0 /\ z = None /\ P s).
Proof.
  intros Hin. exists (unitL (0, 0) P). split; [by apply simple_exact|].
  intros access z s _. unfold unitL. split.
  - by intros ([= ->] & -> & HP).
  - by intros (-> & -> & HP).
Qed.

Lemma read_accepts : accepts OP4_READ (fun access z s =>
  access = 0 /\ z = None /\ (fixedP 24 ⧺ wordP (fun count => count <= maxIO)) s).
Proof.
  eexists. split.
  { op_branch. apply bind_exact; [apply skip_unit|]. intros ?. apply bind_exact; [apply word_exact|].
    intros ?. apply ret_exact. }
  intros access z s _. unfold catP, fixedP, wordP. split.
  - intros ([] & z1 & s1 & s2 & -> & (_ & -> & H1) & w & z2 & s3 & s4 & -> & (H4 & -> & ->) & Hv & -> & ->).
    rewrite app_nil_r. injection Hv as -> Hv. split; [done|]. split; [done|].
    destruct (maxIO <? be_decode s3) eqn:E.
    + exfalso. symmetry in Hv. revert Hv. in_failures.
    + bool_hyps. eauto 10.
  - intros (-> & -> & s1 & s2 & -> & H1 & H4 & Hw).
    exists tt, None, s1, s2. split; [done|]. split; [done|].
    exists (be_decode s2), None, s2, []. rewrite app_nil_r. split; [done|]. split; [done|].
    rewrite (proj2 (Z.ltb_ge _ _)) by lia. done.
Qed.

Lemma setattr_accepts : accepts OP4_SETATTR (fun access z s =>
  access = 0 /\ exists s1 s2, s = s1 ++ s2 /\ fixedP 16 s1 /\ is_attrs z s2).
Proof.
  eexists. split.
  { op_branch. apply bind_exact; [apply skip_unit|]. intros ?. apply bind_exact; [apply attrs_exact|].
    intros ?. apply ret_exact. }
  intros access z s _. split.
  - intros ([] & z1 & s1 & s2 & -> & (_ & -> & H1) & st & z2 & s3 & s4 & -> & Ha & [= -> <-] & -> & ->).
    rewrite app_nil_r. eauto 10.
  - intros (-> & s1 & s2 & -> & H1 & Ha). exists tt, None, s1, s2. split; [done|]. split; [done|].
    exists 0, z, s2, []. by rewrite app_nil_r.
Qed.

Lemma create_data_exact kind :
  exact (if kind =? NF4LNK then skipOpaque 4096 else if (kind =? NF4BLK) || (kind =? NF4CHR) then skip 8
         else st_ret tt) (unitL tt (create_data kind)).
Proof.
  unfold create_data. destruct (kind =? NF4LNK); [auto with nfs|].
  destruct (_ || _); [auto with nfs|]. apply ret_exact.
Qed.

Lemma create_accepts : accepts OP4_CREATE (fun access z s => access = 0 /\
  exists kind s1 s2, s = s1 ++ s2 /\ (wordP (eq kind) ⧺ create_data kind ⧺ is_component) s1 /\ is_attrs z s2).
Proof.
  eexists. split.
  { op_branch. apply bind_exact; [apply word_exact|]. intros kind. apply bind_exact; [apply create_data_exact|].
    intros ?. apply bind_exact; [apply component_unit|]. intros ?. apply bind_exact; [apply attrs_exact|].
    intros ?. apply ret_exact. }
  intros access z s _. unfold catP, wordP. split.
  - intros (kind & z1 & s1 & s2 & -> & (H4 & -> & ->) & [] & z2 & s3 & s4 & -> & (_ & -> & Hd) & [] & z3 & s5 & s6 & ->
      & (_ & -> & Hc) & st & z4 & s7 & s8 & -> & Ha & [= -> <-] & -> & ->). rewrite app_nil_r.
    split; [done|]. exists (be_decode s1), (s1 ++ s3 ++ s5), s7. rewrite <- !app_assoc. split; [done|].
    split; [|done]. eauto 10.
  - intros (-> & kind & s' & s2 & -> & (s1 & sd & -> & [H4 ->] & s3 & s5 & -> & Hd & Hc) & Ha).
    rewrite <- !app_assoc. exists (be_decode s1), None, s1, (s3 ++ s5 ++ s2). split; [done|]. split; [done|].
    exists tt, None, s3, (s5 ++ s2). split; [done|]. split; [done|].
    exists tt, None, s5, s2. split; [done|]. split; [done|]. exists 0, z, s2, []. by rewrite app_nil_r.
Qed.

Lemma open_how_accepts status : { L : lang Z | exact (openHow status) L /\
  forall z s, L 0 None z s <-> status = 0 /\ open_how z s }.
Proof.
  eexists. split.
  { unfold openHow. apply bind_exact; [apply word_exact|]. intros how. apply if_exact; intros _.
    - apply bind_exact; [apply word_exact|]. intros mode. apply if_exact; intros _.
      + apply bind_exact; [apply attrs_exact|]. intros st. apply ret_exact.
      + apply if_exact; intros _; [apply bind_exact; [apply skip_unit|intros ?; apply ret_exact]|].
        by apply raise_exact.
    - apply if_exact; intros _; [by apply raise_exact|apply ret_exact]. }
  intros z s. split.
  - intros (how & z1 & s1 & s2 & -> & (H4 & -> & ->) & HK). destruct (be_decode s1 =? OPEN4_CREATE) eqn:E1.
    + destruct HK as (mode & z2 & s3 & s4 & -> & (H4' & -> & ->) & HK).
      destruct ((be_decode s3 =? UNCHECKED4) || (be_decode s3 =? GUARDED4)) eqn:E2.
      * destruct HK as (st & z3 & s5 & s6 & -> & Ha & Hst & -> & ->). rewrite app_nil_r.
        destruct (st =? 0) eqn:E3; [|by bool_hyps]. bool_hyps. subst st. simpl in Hst. split; [done|].
        apply how_create; [by split| |done]. split; [done|].
        apply orb_true_iff in E2 as [?|?]; bool_hyps; eauto.
      * destruct (be_decode s3 =? EXCLUSIVE4); [|done].
        destruct HK as (? & z3 & s5 & s6 & -> & Ha & Hst & -> & ->). exfalso. symmetry in Hst. revert Hst. in_failures.
    + destruct (negb (be_decode s1 =? OPEN4_NOCREATE)) eqn:E2; [done|]. bool_hyps.
      destruct HK as (<- & -> & ->). rewrite app_nil_r. split; [done|]. by apply how_open.
  - intros [-> Hh]. destruct Hh as [s [H4 Hw]|s1 s2 s3 z [H4 Hw] [H4' Hm] Ha].
    + exists (be_decode s), None, s, []. rewrite app_nil_r. split; [done|]. split; [done|]. rewrite <- Hw.
      rewrite (proj2 (Z.eqb_neq _ _) (not_eq_sym nfs_open_modes)), Z.eqb_refl. done.
    + exists (be_decode s1), None, s1, (s2 ++ s3). split; [done|]. split; [done|]. rewrite <- Hw, Z.eqb_refl.
      exists (be_decode s2), None, s2, s3. split; [done|]. split; [done|].
      assert (E : (be_decode s2 =? UNCHECKED4) || (be_decode s2 =? GUARDED4) = true).
      { destruct Hm as [->| ->]; rewrite Z.eqb_refl; [done|apply orb_true_r]. }
      rewrite E. exists 0, z, s3, []. by rewrite app_nil_r.
Qed.

Lemma open_accepts : accepts OP4_OPEN (fun access z s => 1 <= access <= 3 /\ exists s1 s2 s3, s = s1 ++ s2 ++ s3 /\
    (fixedP 4 ⧺ wordP (eq access) ⧺ wordP (eq 0) ⧺ fixedP 8 ⧺ opaqueP 1024) s1 /\
    open_how z s2 /\ (wordP (eq CLAIM_NULL) ⧺ is_component) s3).
Proof.
  set (st access deny := if negb (deny =? 0) then NFS4ERR_NOTSUPP
                         else if (access <? 1) || (3 <? access) then NFS4ERR_INVAL else 0).
  assert (Hst : forall access deny, st access deny = 0 <-> 1 <= access <= 3 /\ deny = 0).
  { intros access deny. unfold st. destruct (deny =? 0) eqn:E1; simpl; bool_hyps.
    - destruct (_ || _) eqn:E2; [|bool_hyps; lia]. split; [intros E; exfalso; revert E; in_failures|].
      apply orb_true_iff in E2 as [?|?]; bool_hyps; lia.
    - split; [intros E; exfalso; revert E; in_failures|lia]. }
  set (Lh status := proj1_sig (open_how_accepts status)).
  assert (Hh : forall status, exact (openHow status) (Lh status) /\
    forall z s, Lh status 0 None z s <-> status = 0 /\ open_how z s).
  { intros status. exact (proj2_sig (open_how_accepts status)). }
  clearbody Lh. eexists. split.
  { op_branch. unfold openArgs.
    apply bind_exact; [apply skip_unit|intros ?]. apply bind_exact; [apply word_exact|intros access].
    apply bind_exact; [apply word_exact|intros deny]. apply bind_exact; [apply skip_unit|intros ?].
    apply bind_exact; [by apply skipOpaque_unit|intros ?].
    apply bind_exact; [apply (Hh (st access deny))|intros status].
    apply bind_exact; [apply word_exact|intros claim]. apply if_exact; intros _.
    - apply bind_exact; [apply component_unit|intros ?; apply ret_exact].
    - apply ret_exact. }
  intros access z s _. unfold catP, wordP, fixedP. split.
  - intros ([] & z1 & s1 & r1 & -> & (_ & -> & H1) & acc & z2 & s2 & r2 & -> & (H2 & -> & ->) & deny & z3 & s3 & r3
      & -> & (H3 & -> & ->) & [] & z4 & s4 & r4 & -> & (_ & -> & H4) & [] & z5 & s5 & r5 & -> & (_ & -> & H5)
      & status & z6 & s6 & r6 & -> & H6 & claim & z7 & s7 & r7 & -> & (H7 & -> & ->) & HK).
    destruct (be_decode s7 =? CLAIM_NULL) eqn:E.
    + destruct HK as ([] & z8 & s8 & r8 & -> & (_ & -> & H8) & [= -> <-] & -> & ->). bool_hyps.
      apply (proj2 (Hh _)) in H6 as [H6 Hhow]. apply Hst in H6 as [Ha Hd]. split; [done|].
      exists (s1 ++ s2 ++ s3 ++ s4 ++ s5), s6, (s7 ++ s8). rewrite app_nil_r, <- !app_assoc. split; [done|].
      split; [eauto 20|]. split; [done|]. eauto 10.
    + destruct HK as ([= _ E'] & _). exfalso. symmetry in E'. revert E'. in_failures.
  - intros (Ha & h1 & h2 & h3 & -> & (s1 & r1 & -> & H1 & s2 & r2 & -> & [H2 E2] & s3 & r3 & -> & [H3 E3] & s4 & s5 & -> & H4 & H5)
      & H6 & s7 & s8 & -> & [H7 E7] & H8). rewrite <- !app_assoc.
    exists tt, None, s1, (s2 ++ s3 ++ s4 ++ s5 ++ h2 ++ s7 ++ s8). split; [done|]. split; [done|].
    exists access, None, s2, (s3 ++ s4 ++ s5 ++ h2 ++ s7 ++ s8). split; [done|]. split; [done|].
    exists 0, None, s3, (s4 ++ s5 ++ h2 ++ s7 ++ s8). split; [done|]. split; [done|].
    exists tt, None, s4, (s5 ++ h2 ++ s7 ++ s8). split; [done|]. split; [done|].
    exists tt, None, s5, (h2 ++ s7 ++ s8). split; [done|]. split; [done|].
    exists 0, z, h2, (s7 ++ s8). split; [done|]. split; [by apply (proj2 (Hh _)); split; [apply Hst|]|].
    exists CLAIM_NULL, z, s7, s8. split; [done|]. split; [done|]. rewrite Z.eqb_refl.
    exists tt, z, s8, []. rewrite app_nil_r. done.
Qed.

(** Every operation the cursor knows has its grammar; an OPEN is also checked
    for the size it sets. *)
Definition size_ok (n : Z) (z : option Z) : Prop := n = OP4_OPEN -> z = None \/ z = Some 0.

Lemma operations_split : operations = simple_grammar.*1 ++ [OP4_READ; OP4_SETATTR; OP4_CREATE; OP4_OPEN].
Proof. done. Qed.

Lemma simple_fun n P Q : (n, P) ∈ simple_grammar -> (n, Q) ∈ simple_grammar -> P = Q.
Proof.
  intros HP HQ. pose proof nfs_ops_distinct as Hd. rewrite operations_split in Hd.
  apply NoDup_app in Hd as [Hd _].
  apply list_elem_of_lookup in HP as [i HP]. apply list_elem_of_lookup in HQ as [j HQ].
  assert (i = j) as ->.
  { apply (NoDup_lookup _ i j n Hd); rewrite list_lookup_fmap; [by rewrite HP|by rewrite HQ]. }
  congruence.
Qed.

Lemma simple_other n P m : (n, P) ∈ simple_grammar -> m ∈ [OP4_READ; OP4_SETATTR; OP4_CREATE; OP4_OPEN] -> n <> m.
Proof.
  intros HP Hm ->. pose proof nfs_ops_distinct as Hd. rewrite operations_split in Hd.
  apply NoDup_app in Hd as (_ & Hd & _). apply (Hd m); [|done]. apply list_elem_of_fmap. by exists (m, P).
Qed.

Ltac op_clash :=
  match goal with
  | E : ?a = ?b |- _ =>
      let l := eval unfold operations in operations in
      let i := op_index a l in let j := op_index b l in
      exfalso; pose proof (ops_neq i j a b eq_refl eq_refl ltac:(discriminate)) as Ec;
      rewrite (proj2 (Z.eqb_eq _ _) E) in Ec; discriminate Ec
  | Hs : (?n, _) ∈ simple_grammar |- _ =>
      exfalso; refine (simple_other _ _ n Hs _ eq_refl); rewrite !elem_of_cons; tauto
  | Hs : (?n, _) ∈ simple_grammar, E : ?m = ?n |- _ =>
      exfalso; refine (simple_other _ _ m Hs _ (eq_sym E)); rewrite !elem_of_cons; tauto
  end.

(** Every operation the cursor knows has its grammar. *)
Lemma operation_accepts n : n ∈ operations ->
  exists Q, accepts n Q /\ forall access z s, op_args n access z s <-> Q access z s /\ size_ok n z.
Proof.
  rewrite operations_split, elem_of_app. intros [Hs|Hn].
  { apply list_elem_of_fmap in Hs as ([n' P] & -> & Hs). eexists. split; [exact (simple_accepts n' P Hs)|].
    intros access z s. simpl. split.
    - intros Ho. inversion Ho as [m P' s' Hs' HP|s' HP|s1 s2 z' H1 H2|k s1 s2 z' H1 H2|ac s1 s2 s3 z' H1 H2 H3 H4 H5];
        subst; try op_clash. rewrite (simple_fun _ _ _ Hs Hs'). split; [done|]. intros E. subst. op_clash.
    - intros [(-> & -> & HP) _]. by eapply A_simple. }
  rewrite !elem_of_cons in Hn. destruct Hn as [->|[->|[->|[->|Hn]]]]; [..|by apply elem_of_nil in Hn].
  - eexists. split; [apply read_accepts|]. intros access z s. simpl. split.
    + intros Ho. inversion Ho; subst; try op_clash. split; [done|]. intros E. op_clash.
    + intros [(-> & -> & HP) _]. by apply A_read.
  - eexists. split; [apply setattr_accepts|]. intros access z s. simpl. split.
    + intros Ho. inversion Ho; subst; try op_clash. split; [eauto 10|]. intros E. op_clash.
    + intros [(-> & s1 & s2 & -> & H1 & H2) _]. by apply A_setattr.
  - eexists. split; [apply create_accepts|]. intros access z s. simpl. split.
    + intros Ho. inversion Ho; subst; try op_clash. split; [eauto 10|]. intros E. op_clash.
    + intros [(-> & k & s1 & s2 & -> & H1 & H2) _]. by eapply A_create.
  - eexists. split; [apply open_accepts|]. intros access z s. simpl. split.
    + intros Ho. inversion Ho; subst; try op_clash. split; [|intros _; assumption]. split; [done|].
      match goal with |- exists s1 s2 s3, ?a ++ ?b ++ ?c = _ /\ _ => exists a, b, c end. done.
    + intros [(Ha & s1 & s2 & s3 & -> & H1 & H2 & H3) Hz]. apply A_open; auto.
Qed.

Lemma unknown_operation n c : n ∉ operations -> operationArgs n c = ((0, NFS4ERR_OP_ILLEGAL), c).
Proof.
  intros Hn. unfold operationArgs.
  assert (Hf : forall m, m ∈ operations -> (n =? m) = false).
  { intros m Hm. apply Z.eqb_neq. by intros ->. }
  cbn [existsb]. rewrite !Hf by (unfold operations; repeat constructor). done.
Qed.

(** The bytes between two offsets. *)
Lemma consumed_bytes c s rest z : ready c -> remaining c = s ++ rest ->
  slice (Z.to_nat (c_offset c)) (Z.to_nat (c_offset (moved c (len s) z))) (c_data c) = s.
Proof.
  intros Hc Er. pose proof (ready_remaining c Hc) as Hl. rewrite Er, len_app in Hl.
  destruct Hc as (_ & Hr & _). unfold in_range_cursor in Hr. pose proof (len_nonneg s).
  unfold slice. fold (remaining c). rewrite Er. cbn [moved c_offset].
  replace (Z.to_nat (c_offset c + len s) - Z.to_nat (c_offset c))%nat with (length s)
    by (unfold len in *; lia). apply take_app_length.
Qed.

(** Reading without an error or a status consumes a string of the grammar. *)
Lemma operation_sound c : ready c ->
  c_err (operation_ c).2 = None -> op_status (operation_ c).1 = 0 ->
  exists n access z args rest, remaining c = be_encode 4 n ++ args ++ rest /\ op_args n access z args.
Proof.
  intros Hc. unfold operation_. set (c0 := with_size None c).
  assert (Hc0 : ready c0) by exact Hc.
  destruct (word c0) as [n c1] eqn:Ew.
  destruct (operationArgs n c1) as [[access st] c2] eqn:Ea. cbn [fst snd op_status]. intros He Hst.
  destruct (decide (n ∈ operations)) as [Hn|Hn].
  2:{ exfalso. rewrite unknown_operation in Ea by done. injection Ea as <- <- <-.
      revert Hst. destruct (_ && _); in_failures. }
  destruct (operation_accepts n Hn) as (Q & (L & HL & HQ) & Hop).
  assert (H1 : c_err c1 = None).
  { destruct (c_err c1) eqn:E1; [|done]. exfalso. revert He. change c2 with ((access, st), c2).2. rewrite <- Ea.
    apply (ex_sticky _ _ HL). by rewrite E1. }
  destruct (ex_sound _ _ word_exact c0 Hc0) as (s1 & r1 & E1 & Em1 & H4 & Hw & Hz1); [by rewrite Ew|].
  rewrite Ew in Em1, Hw, Hz1. cbn [fst snd] in Em1, Hw, Hz1.
  destruct (ready_moved c0 s1 r1 (c_size c1) Hc0 E1) as [Hr1 Er1]. rewrite <- Em1 in Hr1, Er1.
  destruct (ex_sound _ _ HL c1 Hr1) as (s2 & r2 & E2 & Em2 & HLv); [by rewrite Ea|].
  rewrite Ea in Em2, HLv. cbn [fst snd] in Em2, HLv. rewrite Hz1 in HLv.
  assert (Hsz : size_ok n (c_size c2) /\ st = 0).
  { destruct (_ && _) eqn:Ec in Hst.
    - exfalso. revert Hst. in_failures.
    - split; [|done]. intros En. rewrite En, Z.eqb_refl in Ec. simpl in Ec.
      destruct (c_size c2) as [z|]; [|by left]. bool_hyps. subst. by right. }
  destruct Hsz as [Hsz ->].
  apply HQ in HLv; [|exact (prefix_wf c1 s2 r2 Hr1 E2)].
  exists n, access, (c_size c2), s2, r2.
  rewrite Hw, word_encoded by (done || exact (prefix_wf c0 s1 r1 Hc0 E1)).
  rewrite <- Hw. split; [|by apply Hop]. change (remaining c) with (remaining c0). by rewrite E1, <- Er1, E2.
Qed.

Lemma op_args_known n access z s : op_args n access z s -> n ∈ operations.
Proof.
  rewrite operations_split, elem_of_app, !elem_of_cons.
  intros []; [left; apply list_elem_of_fmap; eexists (_, _); split; [reflexivity|eassumption]|tauto..].
Qed.

(** A string of the grammar is read in full, and nothing after it. *)
Lemma operation_complete c n access z args rest : ready c ->
  remaining c = be_encode 4 n ++ args ++ rest -> op_args n access z args ->
  operation_ c = (mkOperation n (be_encode 4 n ++ args) 0 access z, moved c (4 + len args) z).
Proof.
  intros Hc Er Hop. pose proof (op_args_known _ _ _ _ Hop) as Hn.
  assert (Hw : 0 <= n < 2 ^ 32).
  { pose proof nfs_ops_words as Hf. rewrite Forall_forall in Hf. by apply Hf. }
  destruct (operation_accepts n Hn) as (Q & (L & HL & HQ) & Hq). apply Hq in Hop as [Hv Hsz].
  unfold operation_. set (c0 := with_size None c). assert (Hc0 : ready c0) by exact Hc.
  rewrite (ex_complete _ _ word_exact c0 (be_encode 4 n) (args ++ rest) n None Hc0 Er)
    by (split; [apply len_word|split; [by rewrite word_decoded|done]]).
  destruct (ready_moved c0 _ _ None Hc0 Er) as [Hc1 Er1].
  rewrite (ex_complete _ _ HL _ args rest (access, 0) z Hc1 Er1)
    by (apply HQ; [exact (prefix_wf _ _ _ Hc1 Er1)|done]).
  cbn [moved c_size c_data c_offset]. rewrite len_word.
  assert (Es : (n =? OP4_OPEN) && match z with Some z => negb (z =? 0) | None => false end = false).
  { destruct (n =? OP4_OPEN) eqn:E; [|done]. bool_hyps. destruct (Hsz E) as [->| ->]; done. }
  rewrite Es. unfold moved. f_equal; [f_equal|f_equal; simpl; lia].
  pose proof (consumed_bytes c (be_encode 4 n ++ args) rest z Hc ltac:(by rewrite Er, app_assoc)) as Hd.
  cbn [moved c_offset] in Hd. rewrite len_app, len_word in Hd. by rewrite <- Hd, <- Z.add_assoc.
Qed.
End operations.

(** ** Records *)

(** The high bit of a fragment marker tells the last fragment, the others its
    length. *)
Lemma marker_size v : Z.land v 0x7fffffff = v mod 2 ^ 31.
Proof. exact (Z.land_ones v 31 ltac:(lia)). Qed.

Lemma marker_last v : 0 <= v < 2 ^ 32 -> negb (Z.land v 0x80000000 =? 0) = (2 ^ 31 <=? v).
Proof.
  intros Hv. assert (Ht : Z.testbit v 31 = (2 ^ 31 <=? v)).
  { rewrite Z.testbit_odd, Z.shiftr_div_pow2 by lia.
    pose proof (Z.div_mod v (2 ^ 31) ltac:(lia)) as Hd. pose proof (Z.mod_pos_bound v (2 ^ 31) ltac:(lia)) as Hm.
    destruct (Z.leb_spec (2 ^ 31) v) as [Hl|Hl].
    - assert (v / 2 ^ 31 = 1) as -> by nia. done.
    - assert (v / 2 ^ 31 = 0) as -> by nia. done. }
  rewrite <- Ht. change 0x80000000 with (2 ^ 31). destruct (Z.testbit v 31) eqn:E.
  - apply negb_true_iff, Z.eqb_neq. intros E0. assert (Hb : Z.testbit (Z.land v (2 ^ 31)) 31 = true).
    { by rewrite Z.land_spec, E, Z.pow2_bits_true by lia. }
    by rewrite E0 in Hb.
  - apply negb_false_iff, Z.eqb_eq, Z.bits_inj'. intros n Hn. rewrite Z.land_spec, Z.bits_0.
    destruct (Z.eq_dec n 31) as [->|Hne]; [by rewrite E|]. by rewrite Z.pow2_bits_false, andb_false_r by lia.
Qed.

Definition fragment (last : bool) (d : bytes) : bytes :=
  be_encode 4 (len d + if last then 2 ^ 31 else 0) ++ d.

Definition record_of (frags : list bytes) (final : bytes) : bytes :=
  concat (map (fragment false) frags) ++ fragment true final.

Lemma ReadFull_some n r a b : 0 <= n -> ReadFull n r = Some (a, b) <-> r = a ++ b /\ len a = n.
Proof.
  intros Hn. unfold ReadFull. destruct (len r <? n) eqn:E; bool_hyps.
  - split; [done|]. intros [-> Ha]. rewrite len_app in E. pose proof (len_nonneg b). lia.
  - split.
    + intros [= <- <-]. rewrite take_drop. split; [done|]. unfold len in *. rewrite length_take. lia.
    + intros [-> Ha]. rewrite <- Ha. unfold len. rewrite Nat2Z.id, take_app_length, drop_app_length. done.
Qed.

Lemma read_fragment k r acc last d rest : wf_bytes r -> 0 <= len d -> len acc + len d <= maxRecord ->
  r = fragment last d ++ rest ->
  readFragments (S k) r acc = if last then Ok (acc ++ d, rest) else readFragments k rest (acc ++ d).
Proof.
  intros Hw Hd Hm ->. unfold maxRecord in Hm. pose proof (len_nonneg acc).
  unfold fragment. rewrite <- !app_assoc. cbn [readFragments].
  set (v := len d + if last then 2 ^ 31 else 0). assert (Hv : 0 <= v < 2 ^ 32) by (unfold v; destruct last; lia).
  rewrite (proj2 (ReadFull_some 4 _ (be_encode 4 v) (d ++ rest) ltac:(lia))) by (split; [done|apply len_word]).
  cbv zeta. rewrite word_decoded, marker_size, marker_last by done.
  assert (Hs : v mod 2 ^ 31 = len d).
  { unfold v. destruct last; rewrite ?Z.add_0_r.
    - replace (len d + 2 ^ 31) with (len d + 1 * 2 ^ 31) by lia. rewrite Z_mod_plus_full. apply Z.mod_small. lia.
    - apply Z.mod_small. lia. }
  rewrite Hs. unfold maxRecord at 1. rewrite (proj2 (Z.ltb_ge _ _)) by lia.
  rewrite (proj2 (ReadFull_some (len d) _ d rest Hd)) by done.
  unfold v. destruct last.
  - by rewrite (proj2 (Z.leb_le _ _)) by lia.
  - by rewrite (proj2 (Z.leb_gt _ _)) by lia.
Qed.

Lemma read_fragment_inv k r acc x rest : wf_bytes r -> readFragments (S k) r acc = Ok (x, rest) ->
  exists last d r', r = fragment last d ++ r' /\ len acc + len d <= maxRecord /\
    if last then x = acc ++ d /\ rest = r' else readFragments k r' (acc ++ d) = Ok (x, rest).
Proof.
  intros Hw E. cbn [readFragments] in E.
  destruct (ReadFull 4 r) as [[marker r1]|] eqn:E1; [|done]. apply ReadFull_some in E1 as [-> H4]; [|lia].
  apply Forall_app in Hw as [Hwm Hw]. pose proof (be_decode_bounds marker Hwm) as Hb. rewrite H4 in Hb.
  change (256 ^ 4) with (2 ^ 32) in Hb. cbv zeta in E. rewrite marker_size, marker_last in E by done.
  set (v := be_decode marker) in *. pose proof (Z.mod_pos_bound v (2 ^ 31) ltac:(lia)) as Hm.
  destruct (maxRecord - len acc <? v mod 2 ^ 31) eqn:E2; [done|]. bool_hyps.
  destruct (ReadFull (v mod 2 ^ 31) r1) as [[d r2]|] eqn:E3; [|done].
  apply ReadFull_some in E3 as [-> Hd]; [|lia].
  exists (2 ^ 31 <=? v), d, r2. rewrite Hd. split; [|split; [lia|]].
  - unfold fragment. rewrite <- app_assoc. f_equal. rewrite Hd, <- (word_encoded marker) by done. fold v. f_equal.
    destruct (Z.leb_spec (2 ^ 31) v) as [Hl|Hl].
    + replace v with (v - 2 ^ 31 + 1 * 2 ^ 31) at 2 by lia. rewrite Z_mod_plus_full, Z.mod_small; lia.
    + rewrite Z.mod_small; lia.
  - destruct (2 ^ 31 <=? v); [|done]. by injection E as <- <-.
Qed.

(** The fragments a call reads, for any number of fragments left. *)
Lemma readFragments_exact k r acc x rest : wf_bytes r ->
  readFragments k r acc = Ok (x, rest) <->
  exists frags final, r = record_of frags final ++ rest /\ x = acc ++ concat frags ++ final /\
    (length frags < k)%nat /\ len x <= maxRecord.
Proof.
  revert r acc. induction k as [|k IH]; intros r acc Hw.
  { split; [done|]. intros (? & ? & _ & _ & ? & _). lia. }
  split.
  - intros E. destruct (read_fragment_inv _ _ _ _ _ Hw E) as (last & d & r' & -> & Hm & H).
    apply Forall_app in Hw as [_ Hw]. destruct last.
    + destruct H as [-> ->]. exists [], d. rewrite len_app. repeat split; try done; simpl; lia.
    + apply IH in H as (frags & final & -> & -> & Hl & Hx); [|done]. exists (d :: frags), final.
      unfold record_of. cbn [map concat]. rewrite <- !app_assoc in *. repeat split; try done. simpl. lia.
  - intros (frags & final & -> & -> & Hl & Hx). rewrite !len_app in Hx.
    destruct frags as [|d frags].
    + rewrite (read_fragment k _ acc true final rest Hw (len_nonneg _)); [done| |done]. simpl in Hx.
      rewrite len_nil in Hx. lia.
    + cbn [map concat length] in *. rewrite len_app in Hx.
      pose proof (len_nonneg (concat frags)). pose proof (len_nonneg final).
      unfold record_of in *. cbn [map concat] in *.
      rewrite (read_fragment k _ acc false d (record_of frags final ++ rest) Hw (len_nonneg _));
        [|lia|unfold record_of; by rewrite <- !app_assoc].
      apply IH; [|].
      * unfold record_of. rewrite <- !app_assoc in Hw. apply Forall_app in Hw as [_ Hw]. by rewrite <- app_assoc.
      * exists frags, final. rewrite !len_app. split; [done|]. split; [by rewrite <- !app_assoc|]. split; lia.
Qed.

Lemma writeRecord_fragment data : len data < 2 ^ 31 -> writeRecord data = fragment true data.
Proof.
  intros Hl. pose proof (len_nonneg data). unfold writeRecord, fragment, u32. rewrite Z.mod_small by lia. do 2 f_equal.
  change (2 ^ 31) with 0x80000000. pose proof (Z.add_lor_land (len data) 0x80000000) as Ha.
  cut (Z.land (len data) 0x80000000 = 0); [lia|].
  pose proof (marker_last (len data) ltac:(lia)) as Hm. rewrite (proj2 (Z.leb_gt _ _)) in Hm by lia.
  by apply negb_false_iff, Z.eqb_eq in Hm.
Qed.
