(* ===== verification/NfsFs.v ===== *)
(** * nfsserver/filesystem.go: the exported file system

    The handle table and the files an NFS client works on.  The system calls the
    code makes on a share's root and on open files are the alphabet [oscall]; an
    operating system, local processes included, is any function that answers them
    from a state of its own ([OS]).  Descriptors are numbered in the order in
    which they are opened, and every call is recorded in the world's log, so that
    theorems can speak about what was asked of the system.  The two maps of the
    handle table share their entries, which [Rename] changes in place: entries
    live in a heap and the maps hold their positions. *)

From stdpp Require Import gmap list strings sorting.
From Stdlib Require Import ZArith Lia.
From S2P Require Import Prelude GoStrings GoNet GoAddr GoPath Config NfsProto.

(** ** The operating system *)

Inductive oserr := ErrPermission | ErrNotExist | ErrInvalid | EROFS | ENFILE | EXDEV | EISDIR | EOF | ErrSys (code : Z).

(** [os.FileInfo]; [fi_id] is the identity [os.SameFile] compares. *)
Record FileInfo := mkFileInfo { fi_name : bytes; fi_id : Z; fi_size : Z; fi_mode : Z; fi_modified : time }.

Definition SameFile (a b : FileInfo) : bool := fi_id a =? fi_id b.

(** [os.FileMode] bits: ModeDir, and the mask ModeType of the file types. *)
Definition ModeDir : Z := 2 ^ 31.
Definition ModeType : Z := 2 ^ 31 + 2 ^ 27 + 2 ^ 26 + 2 ^ 25 + 2 ^ 24 + 2 ^ 21 + 2 ^ 19.
Definition mode_IsDir (m : Z) : bool := negb (Z.land m ModeDir =? 0).
Definition mode_IsRegular (m : Z) : bool := Z.land m ModeType =? 0.
Definition Perm (m : Z) : Z := Z.land m 511.
Definition exportable (info : FileInfo) : bool := mode_IsDir (fi_mode info) || mode_IsRegular (fi_mode info).

(** Flags of open on Linux. *)
Definition O_RDONLY : Z := 0.
Definition O_WRONLY : Z := 1.
Definition O_RDWR : Z := 2.
Definition O_CREATE : Z := 64.
Definition O_TRUNC : Z := 512.
Definition O_APPEND : Z := 1024.
Definition O_NONBLOCK : Z := 2048.
Definition O_NOFOLLOW : Z := 131072.

(** Calls on a root directory, named by its path, and on an open descriptor. *)
Inductive oscall :=
| RStat (root rel : bytes)
| ROpen (root rel : bytes) (flag perm : Z)
| RChmod (root rel : bytes) (perm : Z)
| RMkdirAll (root rel : bytes) (perm : Z)
| RRemove (root rel : bytes)
| RRename (root old new : bytes)
| FStat (fd : nat) | FRead (fd : nat) (n : Z) | FWrite (fd : nat) (p : bytes) | FSeek (fd : nat) (offset whence : Z)
| FTruncate (fd : nat) (size : Z) | FSync (fd : nat) | FReaddir (fd : nat) (n : Z) | FClose (fd : nat)
| RandRead.

Definition answer (c : oscall) : Type :=
  match c with
  | RStat _ _ | FStat _ => Prelude.result oserr FileInfo
  | ROpen _ _ _ _ | RChmod _ _ _ | RMkdirAll _ _ _ | RRemove _ _ | RRename _ _ _
  | FTruncate _ _ | FSync _ | FClose _ => option oserr
  | FRead _ _ => bytes * option oserr
  | FWrite _ _ => Z * option oserr
  | FSeek _ _ _ => Prelude.result oserr Z
  | FReaddir _ _ => list FileInfo * option oserr
  | RandRead => Prelude.result oserr bytes
  end.

Class OS := { disk : Type; sys : forall c : oscall, disk -> answer c * disk }.

(** ** State *)

Record export := mkExport { e_share : bytes; e_root : bytes; e_readOnly : bool }.

Record handleEntry := mkEntry { h_name : bytes; h_info : FileInfo; h_handle : bytes }.

(** [filesystem]: [exports] by share name, [handles] and [paths] into [heap]. *)
Record filesystem := mkFilesystem {
  exports : gmap bytes export; handles : gmap bytes nat; paths : gmap bytes nat; heap : list handleEntry;
  started : time }.

(** [fileInfo]; the root of the namespace has no [os.FileInfo]. *)
Record fileInfo := mkInfo { i_info : option FileInfo; i_name : bytes; i_handle : bytes; i_readOnly : bool; i_modified : time }.

(** [file]: the listing of the shares has no descriptor. *)
Record file := mkFile { f_fd : option nat; f_name : bytes; f_readOnly : bool; f_entries : list fileInfo; f_offset : nat }.

(** A descriptor: where and how it was opened, and whether it still is. *)
Record descriptor := mkDescriptor { d_root : bytes; d_flag : Z; d_open : bool }.

Definition maxHandles : Z := 65536.
Definition rootHandle : bytes := 1 :: replicate 15 0.

Section filesystem.
Context `{OS}.

(** The world: the system's state and the log of calls, the descriptors, the
    exported file system and the files opened on it. *)
Record world := mkWorld {
  w_disk : disk; w_log : list oscall; w_fds : list descriptor; w_fs : filesystem; w_files : list file }.

Definition with_fs (f : filesystem) (w : world) : world :=
  mkWorld (w_disk w) (w_log w) (w_fds w) f (w_files w).
Definition with_fds (fds : list descriptor) (w : world) : world :=
  mkWorld (w_disk w) (w_log w) fds (w_fs w) (w_files w).
Definition with_files (fs : list file) (w : world) : world :=
  mkWorld (w_disk w) (w_log w) (w_fds w) (w_fs w) fs.

Definition call (c : oscall) : St world (answer c) := fun w =>
  let '(a, d) := sys c (w_disk w) in (a, mkWorld d (w_log w ++ [c]) (w_fds w) (w_fs w) (w_files w)).

(** [root.OpenFile]: a descriptor when it succeeds. *)
Definition openAt (root rel : bytes) (flag perm : Z) : St world (Prelude.result oserr nat) := fun w =>
  let '(a, w) := call (ROpen root rel flag perm) w in
  match a with
  | Some e => (Err e, w)
  | None => (Ok (length (w_fds w)), with_fds (w_fds w ++ [mkDescriptor root flag true]) w)
  end.

(** [os.File.Close]: the descriptor is gone whatever the call reports. *)
Definition closeFd (fd : nat) : St world (option oserr) := fun w =>
  let '(a, w) := call (FClose fd) w in
  (a, with_fds (alter (fun d => mkDescriptor (d_root d) (d_flag d) false) fd (w_fds w)) w).

(** ** Names *)

(** [strings.SplitN] at the first slash. *)
Fixpoint splitFirst (s : bytes) : bytes * option bytes :=
  match s with
  | [] => ([], None)
  | c :: r => if c =? SLASH then ([], Some r) else let '(a, b) := splitFirst r in (c :: a, b)
  end.

(** [filesystem.resolve]. *)
Definition resolve (f : filesystem) (name : bytes) : Prelude.result oserr (export * bytes) :=
  if negb (HasPrefix name [SLASH]) || negb (beq (Clean name) name) || ContainsByte name 0 then Err ErrPermission
  else
    let '(share, relative) := splitFirst (TrimPrefix name [SLASH]) in
    match exports f !! share with
    | None => Err ErrNotExist
    | Some e => Ok (e, default dot relative)
    end.

(** [filesystem.writable]. *)
Definition writable (f : filesystem) (name : bytes) : Prelude.result oserr (export * bytes) :=
  match resolve f name with
  | Err e => Err e
  | Ok (e, relative) =>
      if e_readOnly e then Err EROFS else if beq relative dot then Err ErrPermission else Ok (e, relative)
  end.

Definition rootInfo (f : filesystem) : fileInfo := mkInfo None [SLASH] rootHandle true (started f).

(** ** Handles *)

Definition lookupEntry (f : filesystem) (m : gmap bytes nat) (key : bytes) : option (nat * handleEntry) :=
  match m !! key with
  | Some p => match heap f !! p with Some e => Some (p, e) | None => None end
  | None => None
  end.

(** [filesystem.wrap]. *)
Definition wrap (name : bytes) (info : FileInfo) (readOnly : bool) : St world (Prelude.result oserr fileInfo) := fun w =>
  let f := w_fs w in
  let wrapped handle := Ok (mkInfo (Some info) (Base name) handle readOnly 0) in
  let fresh :=
    if maxHandles <=? Z.of_nat (size (handles f)) then (Err ENFILE, w)
    else
      let '(r, w) := call RandRead w in
      match r with
      | Err e => (Err e, w)
      | Ok handle =>
          let f := w_fs w in
          let p := length (heap f) in
          (wrapped handle,
           with_fs (mkFilesystem (exports f) (<[handle := p]> (handles f)) (<[name := p]> (paths f))
                      (heap f ++ [mkEntry name info handle]) (started f)) w)
      end in
  match lookupEntry f (paths f) name with
  | Some (_, entry) => if SameFile (h_info entry) info then (wrapped (h_handle entry), w) else fresh
  | None => fresh
  end.

(** [filesystem.Stat]. *)
Definition Stat (name : bytes) : St world (Prelude.result oserr fileInfo) := fun w =>
  if beq name [SLASH] then (Ok (rootInfo (w_fs w)), w)
  else match resolve (w_fs w) name with
  | Err e => (Err e, w)
  | Ok (e, relative) =>
      let '(r, w) := call (RStat (e_root e) relative) w in
      match r with
      | Err err => (Err err, w)
      | Ok info => if negb (exportable info) then (Err ErrPermission, w) else wrap name info (e_readOnly e) w
      end
  end.

(** The shares, for the listing of "/". *)
Fixpoint statShares (shares : list bytes) : St world (Prelude.result oserr (list fileInfo)) := fun w =>
  match shares with
  | [] => (Ok [], w)
  | share :: rest =>
      let '(r, w) := Stat ([SLASH] ++ share) w in
      match r with
      | Err e => (Err e, w)
      | Ok info =>
          let '(r, w) := statShares rest w in
          match r with Err e => (Err e, w) | Ok infos => (Ok (info :: infos), w) end
      end
  end.

Definition newFile (fl : file) : St world nat := fun w =>
  (length (w_files w), with_files (w_files w ++ [fl]) w).

Definition name_le (a b : fileInfo) : Prop := bytes_compare (i_name a) (i_name b) <> Gt.
#[global] Instance name_le_dec : RelDecision name_le.
Proof. intros a b. unfold name_le. apply _. Defined.

(** [filesystem.OpenFile]: the number of the file. *)
Definition OpenFile (name : bytes) (flag mode : Z) : St world (Prelude.result oserr nat) := fun w =>
  if beq name [SLASH] then
    if negb (flag =? O_RDONLY) then (Err ErrPermission, w)
    else
      let '(r, w) := statShares (map fst (map_to_list (exports (w_fs w)))) w in
      match r with
      | Err e => (Err e, w)
      | Ok entries => let '(n, w) := newFile (mkFile None name true (merge_sort name_le entries) 0) w in (Ok n, w)
      end
  else match resolve (w_fs w) name with
  | Err e => (Err e, w)
  | Ok (e, relative) =>
      if e_readOnly e && negb (Z.land flag (Z.lor O_CREATE (Z.lor O_TRUNC O_APPEND)) =? 0) then (Err EROFS, w)
      else
        let flag := if e_readOnly e then O_RDONLY else flag in
        let '(r, w) := openAt (e_root e) relative (Z.lor flag (Z.lor O_NONBLOCK O_NOFOLLOW)) (Perm mode) w in
        match r with
        | Err err => (Err err, w)
        | Ok fd =>
            let '(r, w) := call (FStat fd) w in
            match r with
            | Err err => let '(_, w) := closeFd fd w in (Err err, w)
            | Ok info =>
                if negb (exportable info) then let '(_, w) := closeFd fd w in (Err ErrPermission, w)
                else let '(n, w) := newFile (mkFile (Some fd) name (e_readOnly e) [] 0) w in (Ok n, w)
            end
        end
  end.

(** [filesystem.Chmod] and [MkdirAll]. *)
Definition Chmod (name : bytes) (mode : Z) : St world (option oserr) := fun w =>
  match writable (w_fs w) name with
  | Err e => (Some e, w)
  | Ok (e, relative) => call (RChmod (e_root e) relative (Perm mode)) w
  end.
Definition MkdirAll (name : bytes) (mode : Z) : St world (option oserr) := fun w =>
  match writable (w_fs w) name with
  | Err e => (Some e, w)
  | Ok (e, relative) => call (RMkdirAll (e_root e) relative (Perm mode)) w
  end.

(** [Chown], [Symlink], [Link] and [Readlink] always refuse. *)
Definition refused : option oserr := Some ErrPermission.

(** [filesystem.Remove]. *)
Definition Remove (name : bytes) : St world (option oserr) := fun w =>
  match writable (w_fs w) name with
  | Err e => (Some e, w)
  | Ok (e, relative) =>
      let '(r, w) := call (RRemove (e_root e) relative) w in
      match r with
      | Some err => (Some err, w)
      | None =>
          let f := w_fs w in
          (None, with_fs (mkFilesystem (exports f) (handles f) (delete name (paths f)) (heap f) (started f)) w)
      end
  end.

(** Whether a path moves when [oldName] is renamed, and where. *)
Definition moves (oldName name : bytes) : bool := beq name oldName || HasPrefix name (oldName ++ [SLASH]).
Definition movedName (oldName newName name : bytes) : bytes := newName ++ TrimPrefix name oldName.

(** The table after a rename: the paths that stay, then the moved ones on top;
    the entries of moved paths get their new name. *)
Definition renamePaths (oldName newName : bytes) (ps : gmap bytes nat) : gmap bytes nat :=
  let ps := delete newName ps in
  list_to_map (map (fun kp => (movedName oldName newName kp.1, kp.2))
                 (filter (fun kp : bytes * nat => moves oldName kp.1 = true) (map_to_list ps)))
  ∪ filter (fun kp => moves oldName kp.1 = false) ps.

Definition renameEntry (oldName newName : bytes) (ps : gmap bytes nat) (hp : list handleEntry) : list handleEntry :=
  map_fold (fun name p hp => if moves oldName name
                             then alter (fun e => mkEntry (movedName oldName newName name) (h_info e) (h_handle e)) p hp
                             else hp) hp (delete newName ps).

(** [filesystem.Rename]. *)
Definition Rename (oldName newName : bytes) : St world (option oserr) := fun w =>
  match writable (w_fs w) oldName with
  | Err e => (Some e, w)
  | Ok (oldExport, oldRelative) =>
      match writable (w_fs w) newName with
      | Err e => (Some e, w)
      | Ok (newExport, newRelative) =>
          if negb (beq (e_share oldExport) (e_share newExport)) then (Some EXDEV, w)
          else
            let '(r, w) := call (RRename (e_root oldExport) oldRelative newRelative) w in
            match r with
            | Some err => (Some err, w)
            | None =>
                let f := w_fs w in
                (None, with_fs (mkFilesystem (exports f) (handles f) (renamePaths oldName newName (paths f))
                                  (renameEntry oldName newName (paths f) (heap f)) (started f)) w)
            end
      end
  end.

(** [GetFileId], [GetHandle]. *)
Definition GetFileId (info : fileInfo) : Z := be_decode (take 8 (i_handle info)).
Definition GetHandle (info : fileInfo) : bytes := i_handle info.

(** [filesystem.ResolveHandle]. *)
Definition ResolveHandle (handle : bytes) : St world (Prelude.result oserr bytes) := fun w =>
  if negb (len handle =? 16) then (Err ErrNotExist, w)
  else if beq handle rootHandle then (Ok [SLASH], w)
  else
    let f := w_fs w in
    match lookupEntry f (handles f) handle with
    | None => (Err ErrNotExist, w)
    | Some (p, entry) =>
        if negb (bool_decide (paths f !! h_name entry = Some p)) then (Err ErrNotExist, w)
        else match resolve f (h_name entry) with
        | Err e => (Err e, w)
        | Ok (e, relative) =>
            let '(r, w) := call (RStat (e_root e) relative) w in
            match r with
            | Err err => (Err err, w)
            | Ok actual => if SameFile (h_info entry) actual then (Ok (h_name entry), w) else (Err ErrNotExist, w)
            end
        end
    end.

(** ** Files *)

(** The methods of [fileInfo]. *)
Definition info_Size (i : fileInfo) : Z := match i_info i with Some f => fi_size f | None => 0 end.
Definition info_Mode (i : fileInfo) : Z :=
  let mode := match i_info i with Some f => fi_mode f | None => Z.lor ModeDir 365 end in
  if i_readOnly i then Z.ldiff mode 146 else mode.
Definition info_ModTime (i : fileInfo) : time := match i_info i with Some f => fi_modified f | None => i_modified i end.
Definition info_IsDir (i : fileInfo) : bool := mode_IsDir (info_Mode i).

(** [file.Close]. *)
Definition file_Close (fl : file) : St world (option oserr) :=
  match f_fd fl with None => st_ret None | Some fd => closeFd fd end.

Definition file_Stat (fl : file) : St world (Prelude.result oserr fileInfo) := fun w =>
  match f_fd fl with
  | None => (Ok (rootInfo (w_fs w)), w)
  | Some fd =>
      let '(r, w) := call (FStat fd) w in
      match r with Err e => (Err e, w) | Ok info => wrap (f_name fl) info (f_readOnly fl) w end
  end.

Definition file_Read (fl : file) (n : Z) : St world (bytes * option oserr) :=
  match f_fd fl with None => st_ret ([], Some EISDIR) | Some fd => call (FRead fd n) end.

(** The listing of the shares is read-only, so a descriptor is there whenever
    [Write] and [Truncate] reach the system. *)
Definition file_Write (fl : file) (p : bytes) : St world (Z * option oserr) :=
  if f_readOnly fl then st_ret (0, Some EROFS)
  else if maxIO <? len p then st_ret (0, Some ErrInvalid)
  else match f_fd fl with None => st_ret (0, Some ErrInvalid) | Some fd => call (FWrite fd p) end.

Definition SeekStart : Z := 0.
Definition SeekCurrent : Z := 1.

Definition file_Seek (n : nat) (fl : file) (offset whence : Z) : St world (Prelude.result oserr Z) := fun w =>
  match f_fd fl with
  | None =>
      if (offset =? 0) && (whence =? SeekStart)
      then (Ok 0, with_files (<[n := mkFile None (f_name fl) (f_readOnly fl) (f_entries fl) 0]> (w_files w)) w)
      else (Err ErrInvalid, w)
  | Some fd => call (FSeek fd offset whence) w
  end.

Definition file_Truncate (fl : file) : St world (option oserr) := fun w =>
  if f_readOnly fl then (Some EROFS, w)
  else match f_fd fl with
  | None => (Some ErrInvalid, w)
  | Some fd =>
      let '(r, w) := call (FSeek fd 0 SeekCurrent) w in
      match r with
      | Err e => (Some e, w)
      | Ok offset => call (FTruncate fd offset) w
      end
  end.

Definition file_Sync (fl : file) : St world (option oserr) :=
  match f_fd fl with
  | None => st_ret None
  | Some fd => if f_readOnly fl then st_ret None else call (FSync fd)
  end.

(** The loop of [Readdir] over the entries of a directory. *)
Fixpoint wrapEntries (dir : bytes) (readOnly : bool) (infos : list FileInfo) (acc : list fileInfo)
    : St world (Prelude.result oserr (list fileInfo)) := fun w =>
  match infos with
  | [] => (Ok acc, w)
  | info :: rest =>
      if negb (exportable info) then wrapEntries dir readOnly rest acc w
      else
        let '(r, w) := wrap (PathJoin dir (fi_name info)) info readOnly w in
        match r with Err e => (Err e, w) | Ok wrapped => wrapEntries dir readOnly rest (acc ++ [wrapped]) w end
  end.

(** [file.Readdir] of file number [k]. *)
Definition file_Readdir (k : nat) (fl : file) (n : Z) : St world (list fileInfo * option oserr) := fun w =>
  match f_fd fl with
  | None =>
      if (f_offset fl =? length (f_entries fl))%nat && (0 <? n) then (([], Some EOF), w)
      else
        let total := length (f_entries fl) in
        let end_ := if (0 <? n) && (Z.of_nat (f_offset fl) + n <? Z.of_nat total)
                    then (f_offset fl + Z.to_nat n)%nat else total in
        ((take (end_ - f_offset fl) (drop (f_offset fl) (f_entries fl)), None),
         with_files (<[k := mkFile None (f_name fl) (f_readOnly fl) (f_entries fl) end_]> (w_files w)) w)
  | Some fd =>
      let all := n <=? 0 in
      let '((infos, err), w) := call (FReaddir fd (if all then maxHandles + 1 else n)) w in
      let err := match err with Some EOF => if all then None else Some EOF | _ => err end in
      if maxHandles <? len infos then (([], Some ENFILE), w)
      else
        let '(r, w) := wrapEntries (f_name fl) (f_readOnly fl) infos [] w in
        match r with Err e => (([], Some e), w) | Ok entries => ((entries, err), w) end
  end.

End filesystem.

(** ** Starting *)

(** [openFilesystem], from the shares with their symlinks resolved ([None] when
    one does not resolve) and the roots that open. *)
Definition openFilesystem (shares : list NFSShare) (EvalSymlinks : bytes -> option bytes) (OpenRoot : bytes -> bool)
    (now : time) : option filesystem :=
  match mapM (fun s => p ← EvalSymlinks (sh_Path s); Some (mkShare (sh_Name s) p (sh_ReadOnly s))) shares with
  | None => None
  | Some resolved =>
      match ValidateNFSShares resolved with
      | Err _ => None
      | Ok _ =>
          if negb (forallb (fun s => OpenRoot (sh_Path s)) resolved) then None
          else Some (mkFilesystem
                 (fold_left (fun m s => <[sh_Name s := mkExport (sh_Name s) (sh_Path s) (sh_ReadOnly s)]> m) resolved ∅)
                 ∅ ∅ [] now)
      end
  end.

(** [New]: the address is a specific unicast IPv4 listener and the shares are
    valid. *)
Definition New_nfs (address : bytes) (shares : list NFSShare) : bool :=
  match ParseAddrPort address with
  | Some (Addr4 v, port) =>
      (IsGlobalUnicast4 v || IsLoopback4 v) && negb ((port =? 0) && negb (IsLoopback4 v)) && is_ok (ValidateNFSShares shares)
  | _ => false
  end.
