(* ===== verification/NfsSession.v ===== *)
(** * nfsserver/protocol.go and server.go: sessions

    A connection of an NFS client.  The protocol library decodes and carries out
    one operation at a time; it is a parameter: for a request and its state it is
    a program that calls the methods of the file system interface the server
    gives it, in any order it likes, and ends or panics.  Theorems about a session
    hold for every such program. *)

From stdpp Require Import gmap list strings.
From Stdlib Require Import ZArith Lia.
From S2P Require Import Prelude GoStrings GoPath NfsProto NfsFs.

(** ** The interface the library sees *)

(** A file the library holds: from Open, or the tracked file of an OPEN. *)
Inductive fval := Plain (n : nat) | Tracked (t : nat).

Inductive libcall :=
| LStat (name : bytes) | LOpen (name : bytes) | LOpenFile (name : bytes) (flags mode : Z)
| LChmod (name : bytes) (mode : Z) | LChown (name : bytes) | LSymlink (old new : bytes) | LLink (old new : bytes)
| LReadlink (name : bytes) | LMkdirAll (name : bytes) (mode : Z) | LRemove (name : bytes) | LRename (old new : bytes)
| LGetFileId (info : fileInfo) | LGetRootHandle | LGetHandle (info : fileInfo) | LResolveHandle (handle : bytes)
| MName (v : fval) | MClose (v : fval) | MStat (v : fval) | MRead (v : fval) (n : Z) | MWrite (v : fval) (p : bytes)
| MSeek (v : fval) (offset whence : Z) | MTruncate (v : fval) | MSync (v : fval) | MReaddir (v : fval) (n : Z).

Definition libanswer (c : libcall) : Type :=
  match c with
  | LStat _ | MStat _ => Prelude.result oserr fileInfo
  | LOpen _ | LOpenFile _ _ _ => Prelude.result oserr fval
  | LChmod _ _ | LChown _ | LSymlink _ _ | LLink _ _ | LReadlink _ | LMkdirAll _ _ | LRemove _ | LRename _ _
  | MClose _ | MTruncate _ | MSync _ => option oserr
  | LGetFileId _ => Z
  | LGetRootHandle | LGetHandle _ | MName _ => bytes
  | LResolveHandle _ => Prelude.result oserr bytes
  | MRead _ _ => bytes * option oserr
  | MWrite _ _ => Z * option oserr
  | MSeek _ _ _ => Prelude.result oserr Z
  | MReaddir _ _ => list fileInfo * option oserr
  end.

(** A program of the library over its state [L]: [None] is an error it returns. *)
Inductive prog (L : Type) :=
| Done (output : option bytes) (l : L)
| Panic (l : L)
| Do (c : libcall) (k : libanswer c -> prog L).
Arguments Done {L}. Arguments Panic {L}. Arguments Do {L}.

(** The library: its per-connection state with the current and the saved
    filehandles, one compound, the files it closes when a connection ends, and the
    XDR form of an opaque value. *)
Class NfsLib := {
  lib : Type;
  newStat : lib;
  CurrentHandle : lib -> bytes;
  ClearCurrent : lib -> lib;
  PopHandle : lib -> option lib;
  savedHandles : lib -> nat;
  Compound : bytes -> lib -> prog lib;
  CleanUp : lib -> list fval;
  WriteAny : bytes -> bytes }.

(** Popping a saved handle leaves one fewer, and fails when there is none. *)
Class NfsLibLaws `{NfsLib} : Prop := {
  pop_some : forall l l', PopHandle l = Some l' -> savedHandles l = S (savedHandles l');
  pop_none : forall l, PopHandle l = None <-> savedHandles l = 0%nat }.

Section session.
Context `{OS} `{Nfs4} `{NfsLib}.

(** ** State *)

(** [session], with its tracked files: the file behind each and whether it was
    closed; [op_files] are the files of the operation that runs. *)
Record session := mkSession {
  s_world : world; s_state : lib; s_files : gset nat; s_tracked : list (nat * bool); op_files : list nat }.

(** [operationFS] without its list of files. *)
Record operationFS := mkOperationFS { o_access : Z; o_retain : bool; o_size : option Z; o_setattr : bool }.

Definition on_world {A} (m : St world A) : St session A := fun s =>
  let '(a, w) := m (s_world s) in (a, mkSession w (s_state s) (s_files s) (s_tracked s) (op_files s)).

Definition with_state (l : lib) (s : session) : session :=
  mkSession (s_world s) l (s_files s) (s_tracked s) (op_files s).
Definition keepFile (n : nat) (s : session) : session :=
  mkSession (s_world s) (s_state s) (s_files s) (s_tracked s) (op_files s ++ [n]).

(** [operationFS.Open]. *)
Definition opOpen (o : operationFS) (name : bytes) : St session (Prelude.result oserr fval) := fun s =>
  let flags := if o_setattr o then O_RDWR else O_RDONLY in
  let '(r, s) := on_world (OpenFile name flags 0) s in
  match r with
  | Err e => (Err e, s)
  | Ok n => (Ok (Plain n), keepFile n s)
  end.

(** The flags of an OPEN: access as the client asked for it, and truncation only
    when it set the size. *)
Definition openFlags (o : operationFS) (flags : Z) : Z :=
  if o_retain o then
    let flags := match o_size o with None => Z.ldiff flags O_TRUNC | Some _ => flags end in
    let flags := Z.ldiff flags (Z.lor O_RDWR O_WRONLY) in
    if o_access o =? 2 then Z.lor flags O_WRONLY
    else if o_access o =? 3 then Z.lor flags O_RDWR
    else flags
  else flags.

(** [operationFS.OpenFile]. *)
Definition opOpenFile (o : operationFS) (name : bytes) (flags mode : Z) : St session (Prelude.result oserr fval) := fun s =>
  let '(r, s) := on_world (OpenFile name (openFlags o flags) mode) s in
  match r with
  | Err e => (Err e, s)
  | Ok n =>
      if o_retain o then
        let t := length (s_tracked s) in
        (Ok (Tracked t),
         mkSession (s_world s) (s_state s) ({[t]} ∪ s_files s) (s_tracked s ++ [(n, false)]) (op_files s))
      else (Ok (Plain n), keepFile n s)
  end.

(** The file a value stands for. *)
Definition fileOf (s : session) (v : fval) : option (nat * file) :=
  let n := match v with Plain n => Some n | Tracked t => fst <$> s_tracked s !! t end in
  match n with
  | Some n => match w_files (s_world s) !! n with Some fl => Some (n, fl) | None => None end
  | None => None
  end.

(** [Close], of a file or of a [trackedFile]. *)
Definition closeValue (v : fval) : St session (option oserr) := fun s =>
  match v with
  | Plain n =>
      match w_files (s_world s) !! n with
      | Some fl => on_world (file_Close fl) s
      | None => (Some ErrInvalid, s)
      end
  | Tracked t =>
      match s_tracked s !! t with
      | None => (Some ErrInvalid, s)
      | Some (n, true) => (None, s)
      | Some (n, false) =>
          let s := mkSession (s_world s) (s_state s) (s_files s ∖ {[t]}) (<[t := (n, true)]> (s_tracked s)) (op_files s) in
          match w_files (s_world s) !! n with
          | Some fl => on_world (file_Close fl) s
          | None => (Some ErrInvalid, s)
          end
      end
  end.

(** A method of a file; a value the library cannot hold is answered with
    [bad]. *)
Definition onFile {A} (v : fval) (bad : A) (m : nat -> file -> St world A) : St session A := fun s =>
  match fileOf s v with Some (n, fl) => on_world (m n fl) s | None => (bad, s) end.

(** One call of the library. *)
Definition serve (o : operationFS) (c : libcall) : St session (libanswer c) :=
  match c with
  | LStat name => on_world (Stat name)
  | LOpen name => opOpen o name
  | LOpenFile name flags mode => opOpenFile o name flags mode
  | LChmod name mode => on_world (Chmod name mode)
  | LChown _ | LSymlink _ _ | LLink _ _ | LReadlink _ => st_ret refused
  | LMkdirAll name mode => on_world (MkdirAll name mode)
  | LRemove name => on_world (Remove name)
  | LRename old new => on_world (Rename old new)
  | LGetFileId info => st_ret (GetFileId info)
  | LGetRootHandle => st_ret rootHandle
  | LGetHandle info => st_ret (GetHandle info)
  | LResolveHandle handle => on_world (ResolveHandle handle)
  | MName v => onFile v [] (fun _ fl => st_ret (f_name fl))
  | MClose v => closeValue v
  | MStat v => onFile v (Err ErrInvalid) (fun _ fl => file_Stat fl)
  | MRead v n => onFile v ([], Some ErrInvalid) (fun _ fl => file_Read fl n)
  | MWrite v p => onFile v (0, Some ErrInvalid) (fun _ fl => file_Write fl p)
  | MSeek v offset whence => onFile v (Err ErrInvalid) (fun n fl => file_Seek n fl offset whence)
  | MTruncate v => onFile v (Some ErrInvalid) (fun _ fl => file_Truncate fl)
  | MSync v => onFile v (Some ErrInvalid) (fun _ fl => file_Sync fl)
  | MReaddir v n => onFile v ([], Some ErrInvalid) (fun k fl => file_Readdir k fl n)
  end.

Inductive outcome (A : Type) := Returned (a : A) | Failed | Panicked.
#[global] Arguments Returned {A}. #[global] Arguments Failed {A}. #[global] Arguments Panicked {A}.

(** Running the library; the state it leaves is the session's. *)
Fixpoint run (o : operationFS) (p : prog lib) : St session (outcome bytes) := fun s =>
  match p with
  | Done (Some output) l => (Returned output, with_state l s)
  | Done None l => (Failed, with_state l s)
  | Panic l => (Panicked, with_state l s)
  | Do c k => let '(a, s) := serve o c s in run o (k a) s
  end.

(** [closeFiles], deferred by [execute]. *)
Fixpoint closeFiles (files : list nat) : St session unit := fun s =>
  match files with
  | [] => (tt, s)
  | n :: rest => let '(_, s) := closeValue (Plain n) s in closeFiles rest s
  end.

(** ** Operations *)

Definition operationError (op st : Z) : bytes :=
  be_encode 4 op ++ be_encode 4 st ++ if op =? OP4_SETATTR then be_encode 4 0 else [].

Definition changes (op : Z) : bool :=
  existsb (Z.eqb op) [OP4_OPEN; OP4_CREATE; OP4_REMOVE; OP4_RENAME; OP4_SETATTR; OP4_WRITE; OP4_LINK].

(** The test for read-only exports in front of the library. *)
Definition readOnlyGuard (op : operation) : St session bool := fun s =>
  if changes (op_number op) then
    let '(r, s) := on_world (ResolveHandle (CurrentHandle (s_state s))) s in
    match r with
    | Err _ => (false, s)
    | Ok name =>
        let readOnly := match resolve (w_fs (s_world s)) name with Ok (e, _) => e_readOnly e | Err _ => false end in
        ((beq name [SLASH] || readOnly)
         && (negb (op_number op =? OP4_OPEN) || negb (Z.land (op_access op) 2 =? 0)), s)
    end
  else (false, s).

Definition maxFiles : nat := 256.

(** [session.execute]: the response and the status. *)
Definition execute (op : operation) : St session (outcome (bytes * Z)) := fun s =>
  let st := if (op_number op =? OP4_OPEN) && (maxFiles <=? size (s_files s))%nat then NFS4ERR_RESOURCE
            else op_status op in
  if negb (st =? 0) then (Returned (operationError (op_number op) st, st), s)
  else
    let '(refuse, s) := readOnlyGuard op s in
    if refuse : bool then (Returned (operationError (op_number op) NFS4ERR_ROFS, NFS4ERR_ROFS), s)
    else
      let input := WriteAny [] ++ be_encode 4 0 ++ be_encode 4 1 ++ op_data op in
      let o := mkOperationFS (op_access op) (op_number op =? OP4_OPEN) (op_size op) (op_number op =? OP4_SETATTR) in
      let s := mkSession (s_world s) (s_state s) (s_files s) (s_tracked s) [] in
      let '(r, s) := run o (Compound input (s_state s)) s in
      let '(_, s) := closeFiles (op_files s) s in
      let s := mkSession (s_world s) (s_state s) (s_files s) (s_tracked s) [] in
      match r with
      | Returned output =>
          if len output <? 44 then (Failed, s)
          else (Returned (drop 36 output, be_decode (slice 24 28 output)), s)
      | Failed => (Failed, s)
      | Panicked => (Panicked, s)
      end.

Definition rpcReply (xid st : Z) (extra : list Z) : bytes :=
  concat (map (be_encode 4) ([xid; RPC_REPLY; MSG_ACCEPTED; 0; 0; st] ++ extra)).

(** The loop over the operations of a compound, [left] of them; [None] when the
    arguments cannot be read. *)
Fixpoint operationLoop (left : nat) (c : cursor) (st completed : Z) (results : bytes)
    : St session (outcome (option (Z * Z * bytes))) := fun s =>
  match left with
  | O => (Returned (Some (st, completed, results)), s)
  | S k =>
      if negb (st =? NFS4_OK) then (Returned (Some (st, completed, results)), s)
      else
        let '(op, c) := operation_ c in
        match c_err c with
        | Some _ => (Returned None, s)
        | None =>
            let '(r, s) := execute op s in
            match r with
            | Returned (response, opStatus) => operationLoop k c opStatus (completed + 1) (results ++ response) s
            | Failed => (Failed, s)
            | Panicked => (Panicked, s)
            end
        end
  end.

Fixpoint popAll (fuel : nat) (l : lib) : lib :=
  match PopHandle l with
  | None => l
  | Some l' => match fuel with O => l' | S k => popAll k l' end
  end.

(** The header of a call, read in front of every procedure. *)
Record rpcCall := mkCall { r_xid : Z; r_kind : Z; r_rpc : Z; r_program : Z; r_version : Z; r_procedure : Z; r_flavor : Z }.

Definition header : St cursor rpcCall :=
  xid <-- word ;; kind <-- word ;; rpc <-- word ;; program <-- word ;; version <-- word ;; procedure <-- word ;;
  flavor <-- word ;; _ <-- opaque 400 ;; _ <-- word ;; _ <-- opaque 400 ;;
  st_ret (mkCall xid kind rpc program version procedure flavor).

(** [session.reply]. *)
Definition reply (data : bytes) : St session (outcome bytes) := fun s =>
  let '(h, c) := header (newCursor data) in
  match c_err c with
  | Some _ => (Failed, s)
  | None =>
      let answer st extra := (Returned (rpcReply (r_xid h) st extra), s) in
      if negb (r_kind h =? RPC_CALL) || negb (r_rpc h =? 2) then (Failed, s)
      else if negb (r_program h =? 100003) then answer ACCEPT_PROG_UNAVAIL []
      else if negb (r_version h =? 4) then answer ACCEPT_PROG_MISMATCH [4; 4]
      else if r_procedure h =? PROC4_VOID then answer ACCEPT_SUCCESS []
      else if negb (r_procedure h =? PROC4_COMPOUND) then answer ACCEPT_PROC_UNAVAIL []
      else if negb (r_flavor h =? AUTH_FLAVOR_NULL) && negb (r_flavor h =? AUTH_FLAVOR_UNIX) then (Failed, s)
      else
        let '(tag, c) := opaque 1024 c in
        let '(minor, c) := word c in
        let '(count, c) := word c in
        match c_err c with
        | Some _ => answer ACCEPT_GRABAGE_ARGS []
        | None =>
            let st := if negb (minor =? 0) then NFS4ERR_MINOR_VERS_MISMATCH else NFS4_OK in
            if maxOperations <? count then answer ACCEPT_GRABAGE_ARGS []
            else
              let l := ClearCurrent (s_state s) in
              let s := with_state (popAll (savedHandles l) l) s in
              let '(r, s) := operationLoop (Z.to_nat count) c st 0 [] s in
              match r with
              | Returned (Some (st, completed, results)) =>
                  (Returned (rpcReply (r_xid h) ACCEPT_SUCCESS [] ++ be_encode 4 st ++ WriteAny (default [] tag)
                             ++ be_encode 4 completed ++ results), s)
              | Returned None => (Returned (rpcReply (r_xid h) ACCEPT_GRABAGE_ARGS []), s)
              | Failed => (Failed, s)
              | Panicked => (Panicked, s)
              end
        end
  end.

(** ** Connections *)

Fixpoint closeAll (files : list fval) : St session unit := fun s =>
  match files with
  | [] => (tt, s)
  | v :: rest => let '(_, s) := closeValue v s in closeAll rest s
  end.

(** [session.close]: the library's files, then whatever is still tracked. *)
Definition close_ : St session unit := fun s =>
  let '(_, s) := closeAll (CleanUp (s_state s)) s in
  closeAll (map Tracked (elements (s_files s))) s.

(** The loop of [serveConnection] on the stream of a connection: each turn sets a
    deadline, reads a record and writes the answer; [io] says which deadlines and
    writes succeed, until the connection is closed. *)
Fixpoint connectionLoop (io : list (bool * bool)) (stream : bytes) : St session (list bytes) := fun s =>
  match io with
  | [] => ([], s)
  | (deadline, wrote) :: rest =>
      if negb deadline then ([], s)
      else match readRecord stream with
      | Err _ => ([], s)
      | Ok (request, stream) =>
          let '(r, s) := reply request s in
          match r with
          | Returned response =>
              if wrote : bool then let '(sent, s) := connectionLoop rest stream s in (writeRecord response :: sent, s)
              else ([], s)
          | Failed | Panicked => ([], s)
          end
      end
  end.

Definition newSession (w : world) : session := mkSession w newStat ∅ [] [].

(** [serveConnection]: the records written and the world afterwards. *)
Definition serveConnection (io : list (bool * bool)) (stream : bytes) (w : world) : list bytes * world :=
  let '(sent, s) := connectionLoop io stream (newSession w) in
  let '(_, s) := close_ s in
  (sent, s_world s).

End session.
