(* ===== verification/NfsFacts.v ===== *)
(** * What NFS sessions ask of the operating system

    Two invariants of sessions that hold for every protocol library and every
    operating system: the calls that change something are made on writable shares
    only, and every open descriptor belongs to a file the session will close. *)

From stdpp Require Import gmap list strings sorting.
From Stdlib Require Import ZArith Lia.
From S2P Require Import Prelude GoStrings GoPath NfsProto NfsFs NfsSession.

(** ** Calls that change a share *)

Definition write_bits : Z := Z.lor O_WRONLY (Z.lor O_RDWR (Z.lor O_CREATE (Z.lor O_TRUNC O_APPEND))).

(** The root a call may change, given the descriptors. *)
Definition target (fds : list descriptor) (c : oscall) : option bytes :=
  match c with
  | RChmod root _ _ | RMkdirAll root _ _ | RRemove root _ | RRename root _ _ => Some root
  | ROpen root _ flag _ => if Z.land flag write_bits =? 0 then None else Some root
  | FWrite fd _ | FTruncate fd _ => d_root <$> fds !! fd
  | _ => None
  end.

Definition writable_root (f : filesystem) (root : bytes) : Prop :=
  exists share e, exports f !! share = Some e /\ e_root e = root /\ e_readOnly e = false.

(** Descriptors only grow, and keep their roots. *)
Definition grows (fds fds' : list descriptor) : Prop :=
  forall i d, fds !! i = Some d -> exists d', fds' !! i = Some d' /\ d_root d' = d_root d.

Lemma grows_refl fds : grows fds fds.
Proof. intros i d Hd. by exists d. Qed.

Lemma grows_app fds l : grows fds (fds ++ l).
Proof. intros i d Hd. exists d. split; [|done]. by apply lookup_app_l_Some. Qed.

Lemma grows_alter f i fds : (forall d, d_root (f d) = d_root d) -> grows fds (alter f i fds).
Proof.
  intros Hf j d Hd. destruct (decide (i = j)) as [->|Hn].
  - exists (f d). by rewrite list_lookup_alter_eq, Hd.
  - exists d. by rewrite list_lookup_alter_ne.
Qed.

Lemma grows_trans a b c : grows a b -> grows b c -> grows a c.
Proof. intros H1 H2 i d Hd. apply H1 in Hd as (d' & Hd & E). apply H2 in Hd as (d'' & Hd & E'). exists d''. split; [done|congruence]. Qed.

Section readonly.
Context `{OS}.

(** A call may be made: what it changes is a writable share. *)
Definition permitted (f : filesystem) (fds : list descriptor) (c : oscall) : Prop :=
  match c with
  | FWrite fd _ | FTruncate fd _ => is_Some (fds !! fd)
  | _ => True
  end /\ forall root, target fds c = Some root -> writable_root f root.

Lemma permitted_grows f f' fds fds' c :
  exports f' = exports f -> grows fds fds' -> permitted f fds c -> permitted f' fds' c.
Proof.
  intros Ef Hg [Hs Hp]. assert (Hw : forall r, writable_root f r -> writable_root f' r).
  { unfold writable_root. by rewrite Ef. }
  split.
  - destruct c; try done; destruct Hs as [d Hd]; apply Hg in Hd as (d' & Hd & _); by exists d'.
  - intros root Ht. apply Hw, Hp. revert Ht. destruct c; simpl; try done.
    all: destruct Hs as [d Hd]; pose proof (Hg _ _ Hd) as (d' & Hd' & E); rewrite Hd, Hd'; simpl; congruence.
Qed.

(** A file may be written only on a descriptor of a writable share. *)
Definition file_ok (f : filesystem) (fds : list descriptor) (fl : file) : Prop :=
  match f_fd fl with
  | None => True
  | Some fd => exists d, fds !! fd = Some d /\ (f_readOnly fl = false -> writable_root f (d_root d))
  end.

Record good (w : world) : Prop := {
  g_log : Forall (permitted (w_fs w) (w_fds w)) (w_log w);
  g_files : Forall (file_ok (w_fs w) (w_fds w)) (w_files w) }.

Definition is_open (w : world) (i : nat) : Prop := exists d, w_fds w !! i = Some d /\ d_open d = true.

(** Steps of the world that keep the invariant, the shares and the files, and
    open no descriptors but those of [X]. *)
Record after (X : list nat) (w w' : world) : Prop := {
  a_exports : exports (w_fs w') = exports (w_fs w);
  a_grows : grows (w_fds w) (w_fds w');
  a_open : forall i, is_open w' i -> is_open w i \/ i ∈ X;
  a_files : forall k fl, w_files w !! k = Some fl -> exists fl', w_files w' !! k = Some fl' /\ f_fd fl' = f_fd fl;
  a_good : good w' }.

Lemma file_ok_grows f f' fds fds' fl :
  exports f' = exports f -> grows fds fds' -> file_ok f fds fl -> file_ok f' fds' fl.
Proof.
  intros Ef Hg Hf. unfold file_ok in *. destruct (f_fd fl) as [fd|]; [|done]. destruct Hf as (d & Hd & Hr).
  apply Hg in Hd as (d' & Hd & E). exists d'. split; [done|]. intros H1. apply Hr in H1.
  rewrite E. destruct H1 as (s & e & Hs & H1). exists s, e. by rewrite Ef.
Qed.

Lemma after_refl w : good w -> after [] w w.
Proof. intros Hw. split; [done|apply grows_refl|by left|eauto|done]. Qed.

Lemma after_trans X Y a b c : after X a b -> after Y b c -> after (X ++ Y) a c.
Proof.
  intros [E1 G1 O1 F1 _] [E2 G2 O2 F2 G]. split; [congruence|by eapply grows_trans| | |done].
  - intros i Hi. rewrite elem_of_app. destruct (O2 i Hi) as [Hb|]; [|auto]. destruct (O1 i Hb); auto.
  - intros k fl Hk. destruct (F1 k fl Hk) as (fl1 & H1 & E). destruct (F2 k fl1 H1) as (fl2 & H2 & E').
    exists fl2. split; [done|congruence].
Qed.

Lemma after_trans0 a b c : after [] a b -> after [] b c -> after [] a c.
Proof. exact (after_trans [] [] a b c). Qed.

(** [keeps P m]: from a good world, [m] leads to a later good world, with a
    result of which [P] holds. *)
Definition keeps {A} (P : world -> A -> Prop) (m : St world A) : Prop :=
  forall w, good w -> after [] w (m w).2 /\ P (m w).2 (m w).1.

Definition any {A} : world -> A -> Prop := fun _ _ => True.

Lemma keeps_any {A} (P : world -> A -> Prop) m : keeps P m -> keeps any m.
Proof. intros Hm w Hw. split; [by apply Hm|done]. Qed.

Lemma call_keeps c w : good w -> permitted (w_fs w) (w_fds w) c -> after [] w (call c w).2.
Proof.
  intros [Hl Hf] Hc. unfold call. destruct (sys c (w_disk w)) as [a d]. split; [done|apply grows_refl|by left|eauto|].
  split; [|done]. simpl. apply Forall_app. by split; [|constructor].
Qed.

(** Calls that change nothing. *)
Definition harmless (c : oscall) : bool :=
  match c with
  | RStat _ _ | FStat _ | FRead _ _ | FSeek _ _ _ | FSync _ | FReaddir _ _ | FClose _ | RandRead => true
  | _ => false
  end.

Lemma call_harmless c w : harmless c = true -> good w -> after [] w (call c w).2.
Proof. intros Hc Hw. apply call_keeps; [done|]. by destruct c. Qed.

Lemma fs_keeps w f : exports f = exports (w_fs w) -> good w -> after [] w (with_fs f w).
Proof.
  intros Ef [Hl Hf]. split; [done|apply grows_refl|by left|eauto|]. split; simpl.
  - eapply Forall_impl; [exact Hl|]. intros c. by apply permitted_grows; [|apply grows_refl].
  - eapply Forall_impl; [exact Hf|]. intros fl. by apply file_ok_grows; [|apply grows_refl].
Qed.

Lemma fds_keeps w fds X : grows (w_fds w) fds -> good w ->
  (forall i d, fds !! i = Some d -> d_open d = true -> is_open w i \/ i ∈ X) -> after X w (with_fds fds w).
Proof.
  intros Hg [Hl Hf] Ho. split; [done|done| |eauto|].
  - intros i (d & Hd & Hop). by eapply Ho.
  - split; simpl.
    + eapply Forall_impl; [exact Hl|]. intros c. by apply permitted_grows.
    + eapply Forall_impl; [exact Hf|]. intros fl. by apply file_ok_grows.
Qed.

Lemma files_keep w files : Forall (file_ok (w_fs w) (w_fds w)) files -> good w ->
  (forall k fl, w_files w !! k = Some fl -> exists fl', files !! k = Some fl' /\ f_fd fl' = f_fd fl) ->
  after [] w (with_files files w).
Proof. intros Hfs [Hl Hf] Hk. split; [done|apply grows_refl|by left|done|]. by split. Qed.

(** Closing leaves the descriptor closed. *)
Lemma closeFd_keeps fd w : good w -> after [] w (closeFd fd w).2 /\ ~ is_open (closeFd fd w).2 fd.
Proof.
  intros Hw. unfold closeFd. pose proof (call_harmless (FClose fd) w eq_refl Hw) as Ha.
  destruct (call (FClose fd) w) as [a w1]. simpl in *.
  set (cl := fun d : descriptor => mkDescriptor (d_root d) (d_flag d) false). split.
  - eapply after_trans0; [exact Ha|]. apply fds_keeps; [by apply grows_alter|apply Ha|].
    intros i d Hd Ho. left. destruct (decide (fd = i)) as [->|Hn].
    + rewrite list_lookup_alter_eq in Hd. destruct (w_fds w1 !! i); [|done]. by injection Hd as <-.
    + rewrite list_lookup_alter_ne in Hd by done. by exists d.
  - intros (d & Hd & Ho). simpl in Hd. rewrite list_lookup_alter_eq in Hd.
    destruct (w_fds w1 !! fd); [|done]. by injection Hd as <-.
Qed.

Lemma wrap_keeps name info ro : keeps any (wrap name info ro).
Proof.
  intros w Hw. split; [|done]. unfold wrap.
  assert (Hfresh : after [] w (if maxHandles <=? Z.of_nat (size (handles (w_fs w))) then (Err ENFILE, w)
    else
      let '(r, w) := call RandRead w in
      match r with
      | Err e => (Err e, w)
      | Ok handle =>
          let f := w_fs w in
          let p := length (heap f) in
          (Ok (mkInfo (Some info) (Base name) handle ro 0),
           with_fs (mkFilesystem (exports f) (<[handle := p]> (handles f)) (<[name := p]> (paths f))
                      (heap f ++ [mkEntry name info handle]) (started f)) w)
      end).2).
  { destruct (_ <=? _); [by apply after_refl|]. pose proof (call_harmless RandRead w eq_refl Hw) as Ha.
    destruct (call RandRead w) as [[h|e] w1]; simpl in *; [|done].
    eapply after_trans0; [exact Ha|]. apply fs_keeps; [done|apply Ha]. }
  destruct (lookupEntry _ _ _) as [[p e]|]; [|exact Hfresh].
  destruct (SameFile _ _); [by apply after_refl|exact Hfresh].
Qed.

Lemma Stat_keeps name : keeps any (Stat name).
Proof.
  intros w Hw. split; [|done]. unfold Stat. destruct (beq _ _); [by apply after_refl|].
  destruct (resolve _ _) as [[e rel]|err]; [|by apply after_refl].
  pose proof (call_harmless (RStat (e_root e) rel) w eq_refl Hw) as Ha.
  destruct (call _ w) as [[info|err] w1]; simpl in *; [|done].
  destruct (negb _); [done|]. eapply after_trans0; [exact Ha|]. apply wrap_keeps, Ha.
Qed.

Lemma statShares_keeps shares : keeps any (statShares shares).
Proof.
  induction shares as [|s shares IH]; intros w Hw; (split; [|done]); cbn [statShares]; [by apply after_refl|].
  pose proof (Stat_keeps ([SLASH] ++ s) w Hw) as [Ha _]. destruct (Stat _ w) as [[i|e] w1]; simpl in *; [|done].
  pose proof (IH w1 (a_good _ _ _ Ha)) as [Hb _]. destruct (statShares shares w1) as [[infos|e] w2]; simpl in *;
    by eapply after_trans0.
Qed.
Lemma resolve_export f name e rel : resolve f name = Ok (e, rel) -> exists share, exports f !! share = Some e.
Proof.
  unfold resolve. destruct (_ || _); [done|]. destruct (splitFirst _) as [share r].
  destruct (exports f !! share) as [e'|] eqn:E; [|done]. intros [= <- _]. by exists share.
Qed.

Lemma writable_export f name e rel : writable f name = Ok (e, rel) -> writable_root f (e_root e).
Proof.
  unfold writable. destruct (resolve f name) as [[e' r]|] eqn:E; [|done]. apply resolve_export in E as [share Hs].
  destruct (e_readOnly e') eqn:Er; [done|]. destruct (beq _ _); [done|]. intros [= <- _]. by exists share, e'.
Qed.

Lemma after_drop X w w1 w2 : after X w w1 -> after [] w1 w2 -> (forall i, i ∈ X -> ~ is_open w2 i) -> after [] w w2.
Proof.
  intros H1 H2 Hx. destruct (after_trans _ _ _ _ _ H1 H2) as [E G O F Gd]. split; [done|done| |done|done].
  intros i Hi. destruct (O i Hi) as [|Hin]; [by left|]. rewrite app_nil_r in Hin. by destruct (Hx i Hin).
Qed.

(** The flags of an open on a read-only share. *)
Lemma readonly_flags : Z.land (Z.lor O_RDONLY (Z.lor O_NONBLOCK O_NOFOLLOW)) write_bits = 0.
Proof. done. Qed.

Lemma openAt_keeps root rel flag perm w : good w ->
  (Z.land flag write_bits =? 0 = false -> writable_root (w_fs w) root) ->
  exists X, after X w (openAt root rel flag perm w).2 /\
    match (openAt root rel flag perm w).1 with
    | Ok fd => X = [fd] /\ exists d, w_fds (openAt root rel flag perm w).2 !! fd = Some d /\ d_root d = root
    | Err _ => X = []
    end.
Proof.
  intros Hw Hp. unfold openAt. assert (Ha : after [] w (call (ROpen root rel flag perm) w).2).
  { apply call_keeps; [done|]. split; [done|]. simpl. intros r. destruct (_ =? 0) eqn:E; [done|]. intros [= <-]. by apply Hp. }
  destruct (call _ w) as [[e|] w1]; cbn [fst snd] in *; [by exists []|].
  exists [length (w_fds w1)]. split.
  - apply (after_trans [] _ _ _ _ Ha). apply fds_keeps; [apply grows_app|apply Ha|].
    intros i d Hd Ho. apply lookup_app_Some in Hd as [Hd|[Hl Hd]]; [left; by exists d|].
    right. apply list_lookup_singleton_Some in Hd as [Hi _]. apply list_elem_of_singleton. lia.
  - split; [done|]. eexists. simpl. split; [by apply list_lookup_middle|done].
Qed.

Lemma newFile_keeps fl w : good w -> file_ok (w_fs w) (w_fds w) fl ->
  after [] w (newFile fl w).2 /\ w_files (newFile fl w).2 !! (newFile fl w).1 = Some fl.
Proof.
  intros Hw Hf. unfold newFile. simpl. split; [|by apply list_lookup_middle].
  apply files_keep; [|done|].
  - apply Forall_app. split; [apply Hw|by constructor].
  - intros k fl' Hk. exists fl'. split; [by apply lookup_app_l_Some|done].
Qed.

(** A new descriptor comes with a file that holds it. *)
Lemma OpenFile_keeps name flag mode w : good w ->
  exists X, after X w (OpenFile name flag mode w).2 /\
    match (OpenFile name flag mode w).1 with
    | Ok n => exists fl, w_files (OpenFile name flag mode w).2 !! n = Some fl /\ forall i, i ∈ X -> f_fd fl = Some i
    | Err _ => X = []
    end.
Proof.
  intros Hw. unfold OpenFile. destruct (beq name [SLASH]).
  { destruct (negb _); [by exists []; split; [apply after_refl|]|].
    pose proof (statShares_keeps (map fst (map_to_list (exports (w_fs w)))) w Hw) as [Ha _].
    destruct (statShares _ w) as [[es|e] w1]; cbn [fst snd] in *; [|by exists []].
    pose proof (newFile_keeps (mkFile None name true (merge_sort name_le es) 0) w1 (a_good _ _ _ Ha) I) as [Hb Hf].
    destruct (newFile _ w1) as [n w2]. cbn [fst snd] in *. exists []. split; [by eapply after_trans0|].
    eexists. split; [exact Hf|]. intros i Hi. by apply not_elem_of_nil in Hi. }
  destruct (resolve (w_fs w) name) as [[e rel]|err] eqn:Er; [|by exists []; split; [apply after_refl|]].
  apply resolve_export in Er as [share Hs].
  destruct (e_readOnly e && _) eqn:Eg; [by exists []; split; [apply after_refl|]|].
  cbv zeta. set (flag' := Z.lor _ _).
  destruct (openAt_keeps (e_root e) rel flag' (Perm mode) w Hw) as (X & Ha & Hr).
  { intros Hf. exists share, e. split; [done|]. split; [done|]. destruct (e_readOnly e) eqn:Ero; [|done].
    subst flag'. by rewrite readonly_flags in Hf. }
  destruct (openAt _ _ _ _ w) as [[fd|err] w1]; cbn [fst snd] in *; [|by exists X].
  destruct Hr as (-> & d & Hd & Hroot).
  pose proof (call_harmless (FStat fd) w1 eq_refl (a_good _ _ _ Ha)) as Hb.
  destruct (call (FStat fd) w1) as [r w2]. cbn [fst snd] in *.
  pose proof (closeFd_keeps fd w2 (a_good _ _ _ Hb)) as [Hc Hcl].
  assert (Hclosed : after [] w (closeFd fd w2).2).
  { eapply (after_drop [fd]); [exact Ha|by eapply after_trans0|]. by intros i ->%list_elem_of_singleton. }
  destruct (closeFd fd w2) as [a w3] eqn:E3. cbn [fst snd] in *.
  destruct r as [info|err]; cbn [fst snd]; [|by exists []].
  destruct (negb (exportable info)); [by exists []|].
  pose proof (newFile_keeps (mkFile (Some fd) name (e_readOnly e) [] 0) w2 (a_good _ _ _ Hb)) as [Hn Hf].
  { simpl. destruct (a_grows _ _ _ Hb _ _ Hd) as (d' & Hd' & E). exists d'. split; [done|].
    intros Hro. rewrite E, Hroot. exists share, e. by rewrite (a_exports _ _ _ Hb), (a_exports _ _ _ Ha). }
  destruct (newFile _ w2) as [n w4]. cbn [fst snd] in *. exists [fd]. split.
  - apply (after_trans [fd] [] _ _ _ Ha). by eapply after_trans0.
  - eexists. split; [exact Hf|]. by intros i ->%list_elem_of_singleton.
Qed.

Lemma Chmod_keeps name mode : keeps any (Chmod name mode).
Proof.
  intros w Hw. split; [|done]. unfold Chmod. destruct (writable _ _) as [[e rel]|] eqn:E; [|by apply after_refl].
  apply (call_keeps (RChmod (e_root e) rel (Perm mode))); [done|]. split; [done|]. intros r [= <-]. by eapply writable_export.
Qed.

Lemma MkdirAll_keeps name mode : keeps any (MkdirAll name mode).
Proof.
  intros w Hw. split; [|done]. unfold MkdirAll. destruct (writable _ _) as [[e rel]|] eqn:E; [|by apply after_refl].
  apply (call_keeps (RMkdirAll (e_root e) rel (Perm mode))); [done|]. split; [done|]. intros r [= <-]. by eapply writable_export.
Qed.

Lemma Remove_keeps name : keeps any (Remove name).
Proof.
  intros w Hw. split; [|done]. unfold Remove. destruct (writable _ _) as [[e rel]|] eqn:E; [|by apply after_refl].
  assert (Ha : after [] w (call (RRemove (e_root e) rel) w).2).
  { apply call_keeps; [done|]. split; [done|]. intros r [= <-]. by eapply writable_export. }
  destruct (call _ w) as [[err|] w1]; cbn [fst snd] in *; [done|].
  eapply after_trans0; [exact Ha|]. apply fs_keeps; [done|apply Ha].
Qed.

Lemma Rename_keeps old new : keeps any (Rename old new).
Proof.
  intros w Hw. split; [|done]. unfold Rename. destruct (writable _ old) as [[e rel]|] eqn:E; [|by apply after_refl].
  destruct (writable _ new) as [[e' rel']|] eqn:E'; [|by apply after_refl].
  destruct (negb _); [by apply after_refl|].
  assert (Ha : after [] w (call (RRename (e_root e) rel rel') w).2).
  { apply call_keeps; [done|]. split; [done|]. intros r [= <-]. by eapply writable_export. }
  destruct (call _ w) as [[err|] w1]; cbn [fst snd] in *; [done|].
  eapply after_trans0; [exact Ha|]. apply fs_keeps; [done|apply Ha].
Qed.

Lemma ResolveHandle_keeps h : keeps any (ResolveHandle h).
Proof.
  intros w Hw. split; [|done]. unfold ResolveHandle. destruct (negb _); [by apply after_refl|].
  destruct (beq _ _); [by apply after_refl|]. destruct (lookupEntry _ _ _) as [[p e]|]; [|by apply after_refl].
  destruct (negb _); [by apply after_refl|]. destruct (resolve _ _) as [[x rel]|]; [|by apply after_refl].
  pose proof (call_harmless (RStat (e_root x) rel) w eq_refl Hw) as Ha.
  destruct (call _ w) as [[i|err] w1]; cbn [fst snd] in *; [|done]. by destruct (SameFile _ _).
Qed.

(** ** Methods of files *)

Definition fileKeeps {A} (m : nat -> file -> St world A) : Prop :=
  forall w n fl, good w -> w_files w !! n = Some fl -> after [] w (m n fl w).2.

Lemma file_at w n fl : good w -> w_files w !! n = Some fl -> file_ok (w_fs w) (w_fds w) fl.
Proof. intros [_ Hf] Hn. rewrite Forall_lookup in Hf. by apply Hf in Hn. Qed.

Lemma file_Stat_keeps : fileKeeps (fun _ fl => file_Stat fl).
Proof.
  intros w n fl Hw Hn. unfold file_Stat. destruct (f_fd fl) as [fd|]; [|by apply after_refl].
  pose proof (call_harmless (FStat fd) w eq_refl Hw) as Ha.
  destruct (call _ w) as [[i|e] w1]; cbn [fst snd] in *; [|done]. eapply after_trans0; [exact Ha|]. apply wrap_keeps, Ha.
Qed.

Lemma file_Read_keeps k : fileKeeps (fun _ fl => file_Read fl k).
Proof.
  intros w n fl Hw Hn. unfold file_Read. destruct (f_fd fl) as [fd|]; [|by apply after_refl]. by apply (call_harmless (FRead fd k)).
Qed.

(** Only files of writable shares reach a call that writes. *)
Lemma write_permitted w n fl fd : good w -> w_files w !! n = Some fl -> f_fd fl = Some fd -> f_readOnly fl = false ->
  is_Some (w_fds w !! fd) /\ forall root, d_root <$> w_fds w !! fd = Some root -> writable_root (w_fs w) root.
Proof.
  intros Hw Hn Ef Hr. pose proof (file_at w n fl Hw Hn) as Hf. unfold file_ok in Hf. rewrite Ef in Hf.
  destruct Hf as (d & Hd & H1). rewrite Hd. split; [by eexists|]. intros root [= <-]. by apply H1.
Qed.

Lemma file_Write_keeps p : fileKeeps (fun _ fl => file_Write fl p).
Proof.
  intros w n fl Hw Hn. unfold file_Write. destruct (f_readOnly fl) eqn:Er; [by apply after_refl|].
  destruct (_ <? _); [by apply after_refl|]. destruct (f_fd fl) as [fd|] eqn:Ef; [|by apply after_refl].
  apply (call_keeps (FWrite fd p)); [done|]. by eapply write_permitted.
Qed.

Lemma file_Truncate_keeps : fileKeeps (fun _ fl => file_Truncate fl).
Proof.
  intros w n fl Hw Hn. unfold file_Truncate. destruct (f_readOnly fl) eqn:Er; [by apply after_refl|].
  destruct (f_fd fl) as [fd|] eqn:Ef; [|by apply after_refl].
  destruct (write_permitted w n fl fd Hw Hn Ef Er) as [Hs Hp].
  pose proof (call_harmless (FSeek fd 0 SeekCurrent) w eq_refl Hw) as Ha.
  assert (Hpp : forall off, permitted (w_fs w) (w_fds w) (FTruncate fd off)) by (intros off; by split).
  destruct (call _ w) as [[o|e] w1]; cbn [fst snd] in *; [|done].
  eapply after_trans0; [exact Ha|]. apply (call_keeps (FTruncate fd o)); [apply Ha|].
  eapply permitted_grows; [apply Ha|apply Ha|apply Hpp].
Qed.

Lemma file_Sync_keeps : fileKeeps (fun _ fl => file_Sync fl).
Proof.
  intros w n fl Hw Hn. unfold file_Sync. destruct (f_fd fl) as [fd|]; [|by apply after_refl].
  destruct (f_readOnly fl); [by apply after_refl|]. by apply (call_harmless (FSync fd)).
Qed.

(** Moving inside the listing of the shares. *)
Lemma listing_keeps w n fl k : good w -> w_files w !! n = Some fl -> f_fd fl = None ->
  after [] w (with_files (<[n := mkFile None (f_name fl) (f_readOnly fl) (f_entries fl) k]> (w_files w)) w).
Proof.
  intros Hw Hn Ef. apply files_keep; [|done|].
  - apply Forall_insert; [apply Hw|done].
  - intros j fl' Hj. destruct (decide (n = j)) as [->|Hne].
    + rewrite list_lookup_insert_eq by (by eapply lookup_lt_Some). eexists. split; [done|]. simpl. congruence.
    + rewrite list_lookup_insert_ne by done. eauto.
Qed.

Lemma file_Seek_keeps off wh : fileKeeps (fun n fl => file_Seek n fl off wh).
Proof.
  intros w n fl Hw Hn. unfold file_Seek. destruct (f_fd fl) as [fd|] eqn:Ef; [by apply (call_harmless (FSeek fd off wh))|].
  destruct (_ && _); [|by apply after_refl]. by apply listing_keeps.
Qed.

Lemma wrapEntries_keeps dir ro infos acc : keeps any (wrapEntries dir ro infos acc).
Proof.
  revert acc. induction infos as [|i infos IH]; intros acc w Hw; (split; [|done]); cbn [wrapEntries]; [by apply after_refl|].
  destruct (negb _); [by apply IH|].
  pose proof (wrap_keeps (PathJoin dir (fi_name i)) i ro w Hw) as [Ha _].
  destruct (wrap _ _ _ w) as [[x|e] w1]; cbn [fst snd] in *; [|done].
  eapply after_trans0; [exact Ha|]. apply IH, Ha.
Qed.

Lemma file_Readdir_keeps k : fileKeeps (fun n fl => file_Readdir n fl k).
Proof.
  intros w n fl Hw Hn. unfold file_Readdir. destruct (f_fd fl) as [fd|] eqn:Ef.
  - pose proof (call_harmless (FReaddir fd (if k <=? 0 then maxHandles + 1 else k)) w eq_refl Hw) as Ha.
    cbv zeta. destruct (call _ w) as [[infos err] w1]; cbn [fst snd] in *. destruct (_ <? _); [done|].
    pose proof (wrapEntries_keeps (f_name fl) (f_readOnly fl) infos [] w1 (a_good _ _ _ Ha)) as [Hb _].
    destruct (wrapEntries _ _ _ _ w1) as [[es|e] w2]; cbn [fst snd] in *; by eapply after_trans0.
  - destruct (_ && _); [by apply after_refl|]. by apply listing_keeps.
Qed.

Lemma file_Close_keeps fl w : good w ->
  after [] w (file_Close fl w).2 /\ forall fd, f_fd fl = Some fd -> ~ is_open (file_Close fl w).2 fd.
Proof.
  intros Hw. unfold file_Close. destruct (f_fd fl) as [fd|]; [|by split; [apply after_refl|]].
  destruct (closeFd_keeps fd w Hw) as [Ha Hc]. split; [done|]. by intros fd' [= <-].
Qed.

(** ** Any number of clients *)

(** One method call on the file system or on a file, by whichever client, or a
    change of the disks by someone else. *)
Inductive fs_step : world -> world -> Prop :=
| st_stat w name : fs_step w (Stat name w).2
| st_open w name flag mode : fs_step w (OpenFile name flag mode w).2
| st_chmod w name mode : fs_step w (Chmod name mode w).2
| st_mkdir w name mode : fs_step w (MkdirAll name mode w).2
| st_remove w name : fs_step w (Remove name w).2
| st_rename w old new : fs_step w (Rename old new w).2
| st_resolve w handle : fs_step w (ResolveHandle handle w).2
| st_close w n fl : w_files w !! n = Some fl -> fs_step w (file_Close fl w).2
| st_fstat w n fl : w_files w !! n = Some fl -> fs_step w (file_Stat fl w).2
| st_read w n fl k : w_files w !! n = Some fl -> fs_step w (file_Read fl k w).2
| st_write w n fl p : w_files w !! n = Some fl -> fs_step w (file_Write fl p w).2
| st_seek w n fl off wh : w_files w !! n = Some fl -> fs_step w (file_Seek n fl off wh w).2
| st_truncate w n fl : w_files w !! n = Some fl -> fs_step w (file_Truncate fl w).2
| st_sync w n fl : w_files w !! n = Some fl -> fs_step w (file_Sync fl w).2
| st_readdir w n fl k : w_files w !! n = Some fl -> fs_step w (file_Readdir n fl k w).2
| st_disk w d : fs_step w (mkWorld d (w_log w) (w_fds w) (w_fs w) (w_files w)).

Lemma fs_step_after w w' : fs_step w w' -> good w -> exists X, after X w w'.
Proof.
  intros Hs Hw. destruct Hs.
  - exists []. by apply Stat_keeps.
  - destruct (OpenFile_keeps name flag mode w Hw) as (X & Ha & _). by exists X.
  - exists []. by apply Chmod_keeps.
  - exists []. by apply MkdirAll_keeps.
  - exists []. by apply Remove_keeps.
  - exists []. by apply Rename_keeps.
  - exists []. by apply ResolveHandle_keeps.
  - exists []. by apply file_Close_keeps.
  - exists []. by eapply (file_Stat_keeps w n).
  - exists []. by eapply (file_Read_keeps k w n).
  - exists []. by eapply (file_Write_keeps p w n).
  - exists []. by eapply (file_Seek_keeps off wh w n).
  - exists []. by eapply (file_Truncate_keeps w n).
  - exists []. by eapply (file_Sync_keeps w n).
  - exists []. by eapply (file_Readdir_keeps k w n).
  - exists []. split; [done|apply grows_refl|by left|eauto|]. by destruct Hw.
Qed.

Lemma fs_reach_good w w' : rtc fs_step w w' -> good w -> good w' /\ exports (w_fs w') = exports (w_fs w).
Proof.
  induction 1 as [w|w w1 w2 Hs _ IH]; intros Hw; [done|].
  destruct (fs_step_after _ _ Hs Hw) as (X & Ha). destruct (IH (a_good _ _ _ Ha)) as [Hg He].
  split; [done|]. by rewrite He, (a_exports _ _ _ Ha).
Qed.

End readonly.

(** ** Sessions *)

Section sessions.
Context `{OS} `{Nfs4} `{NfsLib}.

(** The files through which a session holds a descriptor: those of the running
    operation and the tracked ones. *)
Definition holds (s : session) (k : nat) : Prop :=
  k ∈ op_files s \/ exists t, t ∈ s_files s /\ s_tracked s !! t = Some (k, false).

Definition owned (s : session) (i : nat) : Prop :=
  exists k fl, w_files (s_world s) !! k = Some fl /\ f_fd fl = Some i /\ holds s k.

(** The invariant of a session that started in [w0]. *)
Record sinv (w0 : world) (s : session) : Prop := {
  si_good : good (s_world s);
  si_reach : rtc fs_step w0 (s_world s);
  si_owned : forall i, is_open (s_world s) i -> is_open w0 i \/ owned s i }.

Definition same_table (s s' : session) : Prop :=
  s_files s' = s_files s /\ s_tracked s' = s_tracked s /\ op_files s' = op_files s.

Lemma sinv_world w0 s w l : sinv w0 s -> after [] (s_world s) w -> rtc fs_step (s_world s) w ->
  sinv w0 (mkSession w l (s_files s) (s_tracked s) (op_files s)).
Proof.
  intros [Hg Hr Ho] Ha Hst. split; simpl; [apply Ha|by etrans|].
  intros i Hi. destruct (a_open _ _ _ Ha i Hi) as [Hi'|Hn]; [|by apply not_elem_of_nil in Hn].
  destruct (Ho i Hi') as [|(k & fl & Hk & Hf & Hh)]; [by left|]. right.
  destruct (a_files _ _ _ Ha k fl Hk) as (fl' & Hk' & E). exists k, fl'. split; [done|]. split; [congruence|done].
Qed.

Lemma on_world_inv {A} w0 (m : St world A) s :
  sinv w0 s -> after [] (s_world s) (m (s_world s)).2 -> rtc fs_step (s_world s) (m (s_world s)).2 ->
  sinv w0 (on_world m s).2 /\ same_table s (on_world m s).2.
Proof.
  intros Hi Ha Hs. unfold on_world. destruct (m (s_world s)) as [a w]. cbn [fst snd] in *.
  split; [by apply sinv_world|done].
Qed.

Lemma onFile_inv {A} w0 v (bad : A) (m : nat -> file -> St world A) s :
  fileKeeps m -> (forall w n fl, w_files w !! n = Some fl -> rtc fs_step w (m n fl w).2) ->
  sinv w0 s -> sinv w0 (onFile v bad m s).2 /\ same_table s (onFile v bad m s).2.
Proof.
  intros Hm Hst Hi. unfold onFile, fileOf.
  destruct (match v with Plain n => Some n | Tracked t => fst <$> s_tracked s !! t end) as [n|]; [|done].
  destruct (w_files (s_world s) !! n) as [fl|] eqn:En; [|done].
  apply on_world_inv; [done| |by apply Hst]. apply Hm; [apply Hi|done].
Qed.

(** Closing a value: afterwards it holds no open descriptor. *)
Lemma closeValue_inv w0 v s : sinv w0 s ->
  sinv w0 (closeValue v s).2 /\ op_files (closeValue v s).2 = op_files s /\
  s_files (closeValue v s).2 ⊆ s_files s /\
  (forall t k, s_tracked (closeValue v s).2 !! t = Some (k, false) -> s_tracked s !! t = Some (k, false)) /\
  after [] (s_world s) (s_world (closeValue v s).2) /\
  match v with
  | Plain n => forall fl fd, w_files (s_world s) !! n = Some fl -> f_fd fl = Some fd -> ~ is_open (s_world (closeValue v s).2) fd
  | Tracked t => forall k, ~ (t ∈ s_files (closeValue v s).2 /\ s_tracked (closeValue v s).2 !! t = Some (k, false))
  end.
Proof.
  intros Hi. destruct v as [n|t]; simpl.
  - destruct (w_files (s_world s) !! n) as [fl|] eqn:En.
    + destruct (file_Close_keeps fl (s_world s) (si_good _ _ Hi)) as [Ha Hc].
      pose proof (on_world_inv w0 (file_Close fl) s Hi Ha (rtc_once _ _ (st_close _ n fl En))) as [Hs (E1 & E2 & E3)].
      split; [done|]. split; [done|]. rewrite E1, E2. split; [done|]. split; [done|].
      unfold on_world in *. destruct (file_Close fl (s_world s)) as [a w]. cbn [fst snd s_world] in *.
      split; [done|]. intros fl' fd [= <-]. apply Hc.
    + split; [done|]. split; [done|]. split; [done|]. split; [done|]. split; [apply after_refl, Hi|]. done.
  - destruct (s_tracked s !! t) as [[n [|]]|] eqn:Et.
    + split; [done|]. split; [done|]. split; [done|]. split; [done|]. split; [apply after_refl, Hi|].
      intros k [_ Hk]. simpl in Hk. congruence.
    + set (s1 := mkSession (s_world s) (s_state s) (s_files s ∖ {[t]}) (<[t := (n, true)]> (s_tracked s)) (op_files s)).
      assert (Hlt : (t < length (s_tracked s))%nat) by (by eapply lookup_lt_Some).
      assert (Htr : forall u k, <[t := (n, true)]> (s_tracked s) !! u = Some (k, false) -> s_tracked s !! u = Some (k, false)).
      { intros u k. destruct (decide (t = u)) as [->|Hn]; [by rewrite list_lookup_insert_eq|by rewrite list_lookup_insert_ne]. }
      cbn [s_world w_files]. destruct (w_files (s_world s) !! n) as [fl|] eqn:En.
      * destruct (file_Close_keeps fl (s_world s) (si_good _ _ Hi)) as [Ha Hc].
        pose proof (st_close (s_world s) n fl En) as Hst.
        unfold on_world. simpl. destruct (file_Close fl (s_world s)) as [a w]. cbn [fst snd] in *. simpl.
        split; [|split; [done|split; [set_solver|split; [done|split; [done|]]]]].
        -- split; simpl; [apply Ha|etrans; [apply Hi|by apply rtc_once]|].
           intros i Hop. destruct (a_open _ _ _ Ha i Hop) as [Hi'|Hx]; [|by apply not_elem_of_nil in Hx].
           destruct (si_owned _ _ Hi i Hi') as [|(k & fl' & Hk & Hf & Hh)]; [by left|]. right.
           destruct (a_files _ _ _ Ha k fl' Hk) as (fl2 & Hk2 & E2). exists k, fl2. split; [done|]. split; [congruence|].
           destruct Hh as [Hh|(u & Hu & Htu)]; [by left|]. right.
           destruct (decide (u = t)) as [->|Hne].
           { exfalso. rewrite Et in Htu. injection Htu as <-. rewrite En in Hk. injection Hk as <-.
             by apply (Hc i Hf). }
           exists u. simpl. split; [set_solver|]. by rewrite list_lookup_insert_ne.
        -- intros k [Hin _]. set_solver.
      * split; [|split; [done|split; [set_solver|split; [done|split; [apply after_refl, Hi|]]]]].
        -- split; simpl; [apply Hi|apply Hi|]. intros i Hop.
           destruct (si_owned _ _ Hi i Hop) as [|(k & fl' & Hk & Hf & Hh)]; [by left|]. right. exists k, fl'.
           split; [done|]. split; [done|]. destruct Hh as [Hh|(u & Hu & Htu)]; [by left|]. right.
           destruct (decide (u = t)) as [->|Hne]; [congruence|].
           exists u. simpl. split; [set_solver|]. by rewrite list_lookup_insert_ne.
        -- intros k [Hin _]. set_solver.
    + split; [done|]. split; [done|]. split; [done|]. split; [done|]. split; [apply after_refl, Hi|].
      intros k [_ Hk]. simpl in Hk. congruence.
Qed.

(** Opening: the new descriptor is held by the file that is handed out. *)
Lemma opened_inv w0 s name flag mode :
  sinv w0 s ->
  let w := (OpenFile name flag mode (s_world s)).2 in
  (forall n, (OpenFile name flag mode (s_world s)).1 = Ok n ->
     forall files tracked ops, s_files s ⊆ files -> s_tracked s `prefix_of` tracked -> (forall k, k ∈ op_files s -> k ∈ ops) ->
     (n ∈ ops \/ exists t, t ∈ files /\ tracked !! t = Some (n, false)) ->
     sinv w0 (mkSession w (s_state s) files tracked ops)) /\
  (forall e, (OpenFile name flag mode (s_world s)).1 = Err e ->
     sinv w0 (mkSession w (s_state s) (s_files s) (s_tracked s) (op_files s))).
Proof.
  intros Hi. cbv zeta. destruct (OpenFile_keeps name flag mode (s_world s) (si_good _ _ Hi)) as (X & Ha & Hr).
  pose proof (rtc_once _ _ (st_open (s_world s) name flag mode)) as Hst.
  destruct (OpenFile name flag mode (s_world s)) as [r w]. cbn [fst snd] in *. split.
  - intros n -> files tracked ops Hfs [tl ->] Hops Hn. destruct Hr as (fl & Hfl & HX).
    split; simpl; [apply Ha|etrans; [apply Hi|done]|]. intros i Hop.
    destruct (a_open _ _ _ Ha i Hop) as [Hi'|HiX].
    + destruct (si_owned _ _ Hi i Hi') as [|(k & fl' & Hk & Hf & Hh)]; [by left|]. right.
      destruct (a_files _ _ _ Ha k fl' Hk) as (fl2 & Hk2 & E2). exists k, fl2. split; [done|]. split; [congruence|].
      destruct Hh as [Hh|(u & Hu & Htu)]; [left; by apply Hops|]. right. exists u. split; [set_solver|].
      by apply lookup_app_l_Some.
    + right. exists n, fl. split; [done|]. split; [by apply HX|]. exact Hn.
  - intros e ->. subst X. by apply sinv_world.
Qed.

Lemma opOpen_inv w0 o name s : sinv w0 s -> sinv w0 (opOpen o name s).2.
Proof.
  intros Hi. unfold opOpen, on_world. set (flag := if o_setattr o then O_RDWR else O_RDONLY).
  destruct (opened_inv w0 s name flag 0 Hi) as [Hok Herr].
  destruct (OpenFile name flag 0 (s_world s)) as [[n|e] w]; cbn [fst snd] in *; [|by eapply Herr].
  unfold keepFile. simpl. apply (Hok n eq_refl); [done|done|set_solver|]. left. set_solver.
Qed.

Lemma opOpenFile_inv w0 o name flags mode s : sinv w0 s -> sinv w0 (opOpenFile o name flags mode s).2.
Proof.
  intros Hi. unfold opOpenFile, on_world.
  destruct (opened_inv w0 s name (openFlags o flags) mode Hi) as [Hok Herr].
  destruct (OpenFile name _ mode (s_world s)) as [[n|e] w]; cbn [fst snd] in *; [|by eapply Herr].
  destruct (o_retain o); simpl.
  - apply (Hok n eq_refl); [set_solver|by exists [(n, false)]|done|]. right. eexists. split; [by apply elem_of_union_l, elem_of_singleton|].
    by apply list_lookup_middle.
  - apply (Hok n eq_refl); [done|done|set_solver|]. left. set_solver.
Qed.

(** Every call of the library keeps the invariant. *)
Lemma serve_inv w0 o c s : sinv w0 s -> sinv w0 (serve o c s).2.
Proof.
  intros Hi. pose proof (si_good _ _ Hi) as Hg.
  assert (Hw : forall A (m : St world A), after [] (s_world s) (m (s_world s)).2 -> fs_step (s_world s) (m (s_world s)).2 ->
    sinv w0 (on_world m s).2) by (intros A m Ha Hst; by apply on_world_inv, rtc_once).
  assert (Hf : forall A v (bad : A) m, fileKeeps m -> (forall w n fl, w_files w !! n = Some fl -> fs_step w (m n fl w).2) ->
    sinv w0 (onFile v bad m s).2) by (intros A v bad m Ha Hst; apply onFile_inv; [done| |done]; intros; by apply rtc_once, Hst).
  destruct c; cbn [serve]; try exact Hi.
  - apply Hw; [by apply Stat_keeps|constructor].
  - by apply opOpen_inv.
  - by apply opOpenFile_inv.
  - apply Hw; [by apply Chmod_keeps|constructor].
  - apply Hw; [by apply MkdirAll_keeps|constructor].
  - apply Hw; [by apply Remove_keeps|constructor].
  - apply Hw; [by apply Rename_keeps|constructor].
  - apply Hw; [by apply ResolveHandle_keeps|constructor].
  - unfold onFile. destruct (fileOf s v) as [[n fl]|]; [|done]. by destruct s.
  - by apply closeValue_inv.
  - apply Hf; [apply file_Stat_keeps|intros; by econstructor].
  - apply Hf; [apply file_Read_keeps|intros; by econstructor].
  - apply Hf; [apply file_Write_keeps|intros; by econstructor].
  - apply Hf; [apply file_Seek_keeps|intros; by econstructor].
  - apply Hf; [apply file_Truncate_keeps|intros; by econstructor].
  - apply Hf; [apply file_Sync_keeps|intros; by econstructor].
  - apply Hf; [apply file_Readdir_keeps|intros; by econstructor].
Qed.

Lemma with_state_inv w0 l s : sinv w0 s -> sinv w0 (with_state l s).
Proof. intros [Hg Hr Ho]. by split. Qed.

Lemma run_inv w0 o p s : sinv w0 s -> sinv w0 (run o p s).2.
Proof.
  revert s. induction p as [[out|] l|l|c k IH]; intros s Hi; cbn [run]; try by apply with_state_inv.
  pose proof (serve_inv w0 o c s Hi) as Hs. destruct (serve o c s) as [a s1]. by apply IH.
Qed.

(** A list of files is closed, one after the other. *)
Lemma closeFiles_inv w0 l s : sinv w0 s ->
  sinv w0 (closeFiles l s).2 /\ after [] (s_world s) (s_world (closeFiles l s).2) /\
  (forall n fl fd, n ∈ l -> w_files (s_world s) !! n = Some fl -> f_fd fl = Some fd -> ~ is_open (s_world (closeFiles l s).2) fd).
Proof.
  revert s. induction l as [|n l IH]; intros s Hi; cbn [closeFiles].
  { split; [done|]. split; [apply after_refl, Hi|]. intros n fl fd Hn. by apply not_elem_of_nil in Hn. }
  destruct (closeValue_inv w0 (Plain n) s Hi) as (Hs & _ & _ & _ & Ha & Hc).
  destruct (closeValue (Plain n) s) as [a s1]. cbn [fst snd] in *.
  destruct (IH s1 Hs) as (Hs2 & Ha2 & Hc2). split; [done|]. split; [by eapply after_trans0|].
  intros m fl fd Hm Hfl Hfd. apply elem_of_cons in Hm as [->|Hm].
  - intros Hop. destruct (a_open _ _ _ Ha2 fd Hop) as [Hop'|Hx]; [|by apply not_elem_of_nil in Hx]. by eapply Hc.
  - destruct (a_files _ _ _ Ha m fl Hfl) as (fl' & Hfl' & E). apply (Hc2 m fl' fd Hm Hfl'). congruence.
Qed.

(** Closing changes neither the files nor, for plain files, the tables. *)
Lemma file_Close_files fl w : w_files (file_Close fl w).2 = w_files w.
Proof.
  unfold file_Close. destruct (f_fd fl) as [fd|]; [|done]. unfold closeFd, call. by destruct (sys _ _).
Qed.

Lemma closeFiles_frame l s :
  s_files (closeFiles l s).2 = s_files s /\ s_tracked (closeFiles l s).2 = s_tracked s /\
  op_files (closeFiles l s).2 = op_files s /\ w_files (s_world (closeFiles l s).2) = w_files (s_world s).
Proof.
  revert s. induction l as [|n l IH]; intros s; [done|]. cbn [closeFiles].
  assert (Hp : s_files (closeValue (Plain n) s).2 = s_files s /\ s_tracked (closeValue (Plain n) s).2 = s_tracked s
    /\ op_files (closeValue (Plain n) s).2 = op_files s
    /\ w_files (s_world (closeValue (Plain n) s).2) = w_files (s_world s)).
  { simpl. destruct (w_files (s_world s) !! n) as [fl|]; [|done]. unfold on_world.
    pose proof (file_Close_files fl (s_world s)) as Hf. destruct (file_Close fl (s_world s)) as [a w]. done. }
  destruct (closeValue (Plain n) s) as [a s1]. cbn [fst snd] in Hp. destruct Hp as (<- & <- & <- & <-). apply IH.
Qed.

(** Between operations no file but the tracked ones is held. *)
Record idle (w0 : world) (s : session) : Prop := { id_inv : sinv w0 s; id_ops : op_files s = [] }.

Lemma readOnlyGuard_idle w0 op s : idle w0 s -> idle w0 (readOnlyGuard op s).2.
Proof.
  intros [Hi Ho]. unfold readOnlyGuard. destruct (changes _); [|done].
  pose proof (ResolveHandle_keeps (CurrentHandle (s_state s)) (s_world s) (si_good _ _ Hi)) as [Ha _].
  pose proof (on_world_inv w0 (ResolveHandle (CurrentHandle (s_state s))) s Hi Ha (rtc_once _ _ (st_resolve _ _)))
    as [Hs (_ & _ & E)].
  destruct (on_world _ s) as [[name|e] s1]; cbn [fst snd] in *; by split; [|rewrite E].
Qed.

Lemma execute_idle w0 op s : idle w0 s -> idle w0 (execute op s).2.
Proof.
  intros Hi. unfold execute. destruct (negb _); [done|].
  pose proof (readOnlyGuard_idle w0 op s Hi) as Hg. destruct (readOnlyGuard op s) as [b s1]. cbn [fst snd] in *.
  destruct b; [done|]. set (o := mkOperationFS _ _ _ _). set (input := WriteAny [] ++ _).
  set (s2 := mkSession (s_world s1) (s_state s1) (s_files s1) (s_tracked s1) []).
  assert (Hs2 : sinv w0 s2).
  { destruct Hg as [[G R O] E]. split; [done|done|]. intros i Hop. destruct (O i Hop) as [|(k & fl & Hk & Hf & Hh)]; [by left|].
    right. exists k, fl. split; [done|]. split; [done|]. unfold holds in *. rewrite E in Hh. by simpl. }
  change (Compound input (s_state s1)) with (Compound input (s_state s2)).
  pose proof (run_inv w0 o (Compound input (s_state s2)) s2 Hs2) as Hr.
  destruct (run o _ s2) as [r s3]. cbn [fst snd] in *.
  destruct (closeFiles_inv w0 (op_files s3) s3 Hr) as (Hc & Ha & Hclosed).
  pose proof (closeFiles_frame (op_files s3) s3) as (_ & _ & Eo & Ef).
  destruct (closeFiles (op_files s3) s3) as [u s4]. cbn [fst snd] in *.
  assert (Hs5 : idle w0 (mkSession (s_world s4) (s_state s4) (s_files s4) (s_tracked s4) [])).
  { split; [|done]. destruct Hc as [G R O]. split; [done|done|]. intros i Hop.
    destruct (O i Hop) as [|(k & fl & Hk & Hf & [Hh|Hh])]; [by left| |right; exists k, fl; by repeat split; [..|right]].
    exfalso. rewrite Eo in Hh. rewrite Ef in Hk. by apply (Hclosed k fl i Hh Hk Hf). }
  destruct r as [out| |]; try exact Hs5. by destruct (_ <? _).
Qed.
Lemma operationLoop_idle w0 left c st completed results s :
  idle w0 s -> idle w0 (operationLoop left c st completed results s).2.
Proof.
  revert c st completed results s. induction left as [|k IH]; intros c st completed results s Hi; cbn [operationLoop]; [done|].
  destruct (negb _); [done|]. destruct (operation_ c) as [op c1]. destruct (c_err c1); [done|].
  pose proof (execute_idle w0 op s Hi) as He. destruct (execute op s) as [[[resp st']| |] s1]; cbn [fst snd] in *; try done.
  by apply IH.
Qed.

Lemma idle_state w0 l s : idle w0 s -> idle w0 (with_state l s).
Proof. intros [Hi Ho]. split; [by apply with_state_inv|done]. Qed.

Lemma reply_idle w0 data s : idle w0 s -> idle w0 (reply data s).2.
Proof.
  intros Hi. unfold reply. destruct (header (newCursor data)) as [h c]. destruct (c_err c); [done|].
  destruct (negb (r_kind h =? RPC_CALL) || negb (r_rpc h =? 2)); [done|].
  destruct (negb (r_program h =? 100003)); [done|]. destruct (negb (r_version h =? 4)); [done|].
  destruct (r_procedure h =? PROC4_VOID); [done|]. destruct (negb (r_procedure h =? PROC4_COMPOUND)); [done|].
  destruct (negb (r_flavor h =? AUTH_FLAVOR_NULL) && negb (r_flavor h =? AUTH_FLAVOR_UNIX)); [done|].
  destruct (opaque 1024 c) as [tag c1]. destruct (word c1) as [minor c2]. destruct (word c2) as [count c3].
  destruct (c_err c3); [done|]. destruct (maxOperations <? count); [done|]. cbv zeta.
  set (l := popAll _ _). set (st := if negb (minor =? 0) then NFS4ERR_MINOR_VERS_MISMATCH else NFS4_OK).
  pose proof (operationLoop_idle w0 (Z.to_nat count) c3 st 0 [] (with_state l s) (idle_state w0 l s Hi)) as Hl.
  destruct (operationLoop _ c3 st 0 [] (with_state l s)) as [[[[[st' d'] r']|]| |] s1]; exact Hl.
Qed.

Lemma connectionLoop_idle w0 io stream s : idle w0 s -> idle w0 (connectionLoop io stream s).2.
Proof.
  revert stream s. induction io as [|[d wr] io IH]; intros stream s Hi; cbn [connectionLoop]; [done|].
  destruct (negb d); [done|]. destruct (readRecord stream) as [[req rest]|]; [|done].
  pose proof (reply_idle w0 req s Hi) as Hr. destruct (reply req s) as [[resp| |] s1]; cbn [fst snd] in *; try done.
  destruct wr; [|done]. specialize (IH rest s1 Hr). by destruct (connectionLoop io rest s1).
Qed.

(** Closing every tracked file leaves nothing the session holds. *)
Lemma closeAll_inv w0 l s : idle w0 s -> idle w0 (closeAll l s).2 /\ s_files (closeAll l s).2 ⊆ s_files s /\
  (forall t k, s_tracked (closeAll l s).2 !! t = Some (k, false) -> s_tracked s !! t = Some (k, false)) /\
  (forall t k, Tracked t ∈ l -> ~ (t ∈ s_files (closeAll l s).2 /\ s_tracked (closeAll l s).2 !! t = Some (k, false))).
Proof.
  revert s. induction l as [|v l IH]; intros s Hi; cbn [closeAll].
  { split; [done|]. split; [done|]. split; [done|]. intros t k Ht. by apply not_elem_of_nil in Ht. }
  destruct Hi as [Hi Ho]. destruct (closeValue_inv w0 v s Hi) as (Hs & Eo & Hsub & Htr & _ & Hv).
  destruct (closeValue v s) as [a s1]. cbn [fst snd] in *.
  destruct (IH s1 (Build_idle _ _ Hs ltac:(congruence))) as (Hi2 & Hsub2 & Htr2 & Hl). split; [done|]. split; [set_solver|].
  split; [auto|]. intros t k Ht. apply elem_of_cons in Ht as [<-|Ht]; [|by apply Hl].
  intros [H3 H4]. apply (Hv k). split; [set_solver|by apply Htr2].
Qed.

Lemma serveConnection_facts io stream w : good w ->
  let w' := (serveConnection io stream w).2 in
  rtc fs_step w w' /\ good w' /\ forall i, is_open w' i -> is_open w i.
Proof.
  intros Hw. unfold serveConnection.
  assert (Hi : idle w (newSession w)).
  { split; [|done]. split; [done|done|]. by left. }
  pose proof (connectionLoop_idle w io stream (newSession w) Hi) as I1.
  destruct (connectionLoop io stream (newSession w)) as [sent s1]. cbn [fst snd] in *. unfold close_.
  destruct (closeAll_inv w (CleanUp (s_state s1)) s1 I1) as (I2 & _ & _).
  destruct (closeAll (CleanUp (s_state s1)) s1) as [u s2]. cbn [fst snd] in *.
  destruct (closeAll_inv w (map Tracked (elements (s_files s2))) s2 I2) as (I3 & Hsub & _ & Hcl).
  destruct (closeAll _ s2) as [u' s3]. cbn [fst snd] in *.
  split; [apply I3|]. split; [apply I3|]. intros i Hop.
  destruct (si_owned _ _ (id_inv _ _ I3) i Hop) as [|(k & fl & Hk & Hf & [Hh|(t & Ht & Htt)])]; [done| |].
  - rewrite (id_ops _ _ I3) in Hh. by apply not_elem_of_nil in Hh.
  - exfalso. apply (Hcl t k); [|done]. apply list_elem_of_fmap. exists t. split; [done|]. apply elem_of_elements. set_solver.
Qed.
End sessions.
