(* ===== verification/NfsHandles.v ===== *)
(** * The NFS handle table

    Handles are random and never reused: the invariant of the table that the
    methods of the file system keep, and what a handle means over any run of any
    number of clients. *)

From stdpp Require Import gmap list strings sorting.
From Stdlib Require Import ZArith Lia.
From S2P Require Import Prelude GoStrings GoPath NfsProto NfsFs NfsFacts.

(** 128 random bits do not repeat: the system never hands out a handle twice, nor
    the fixed handle of the root. *)
Class FreshRand `{OS} := {
  issued : disk -> gset bytes;
  rand_fresh : forall d h d', sys RandRead d = (Ok h, d') ->
    len h = 16 /\ h <> rootHandle /\ h ∉ issued d /\ issued d' = {[h]} ∪ issued d;
  others_keep : forall c d, c = RandRead \/ issued (sys c d).2 = issued d;
  rand_error : forall d e d', sys RandRead d = (Err e, d') -> issued d' = issued d }.

(** ** Renaming *)

Lemma moves_split old name : moves old name = true -> exists suffix, name = old ++ suffix.
Proof.
  unfold moves. intros [->%beq_true|(k & ->)%HasPrefix_spec]%orb_true_iff; [exists []; by rewrite app_nil_r|].
  exists ([SLASH] ++ k). by rewrite <- app_assoc.
Qed.

Lemma movedName_app old new suffix : movedName old new (old ++ suffix) = new ++ suffix.
Proof. unfold movedName. by rewrite TrimPrefix_app. Qed.

Lemma movedName_inj old new a b : moves old a = true -> moves old b = true ->
  movedName old new a = movedName old new b -> a = b.
Proof.
  intros (x & ->)%moves_split (y & ->)%moves_split. rewrite !movedName_app. intros E%app_inv_head. by subst.
Qed.

(** Where a path comes from after a rename. *)
Lemma renamePaths_lookup old new ps n p :
  renamePaths old new ps !! n = Some p <->
  (exists m, ps !! m = Some p /\ m <> new /\ moves old m = true /\ n = movedName old new m) \/
  (ps !! n = Some p /\ n <> new /\ moves old n = false /\
   forall m q, ps !! m = Some q -> m <> new -> moves old m = true -> n <> movedName old new m).
Proof.
  unfold renamePaths. set (ds := delete new ps).
  set (l := map (fun kp => (movedName old new kp.1, kp.2)) (filter (fun kp : bytes * nat => moves old kp.1 = true) (map_to_list ds))).
  assert (Hl : forall k q, (k, q) ∈ l <-> exists m, ds !! m = Some q /\ moves old m = true /\ k = movedName old new m).
  { intros k q. unfold l. rewrite list_elem_of_fmap. split.
    - intros ([m q'] & [= -> ->] & Hin). apply list_elem_of_filter in Hin as [Hm Hin].
      apply elem_of_map_to_list in Hin. eauto.
    - intros (m & Hm & Hmv & ->). exists (m, q). split; [done|]. apply list_elem_of_filter. split; [done|].
      by apply elem_of_map_to_list. }
  assert (Hnd : NoDup l.*1).
  { unfold l. rewrite <- list_fmap_compose. apply NoDup_fmap_2_strong.
    - intros [a x] [b y] Ha Hb E. apply list_elem_of_filter in Ha as [Ha Ia], Hb as [Hb Ib].
      apply elem_of_map_to_list in Ia, Ib. simpl in E. apply movedName_inj in E; [|done..]. subst. congruence.
    - apply NoDup_filter, NoDup_map_to_list. }
  assert (Hd : forall m q, ds !! m = Some q <-> ps !! m = Some q /\ m <> new).
  { intros m q. unfold ds. rewrite lookup_delete_Some. split; intros [? ?]; split; auto. }
  rewrite lookup_union_Some_raw, map_lookup_filter_Some. split.
  - intros [Hin|[Hn (Hin & Hm)]].
    + apply elem_of_list_to_map_2, Hl in Hin as (m & Hin & Hm & ->). apply Hd in Hin as [? ?]. left. eauto 10.
    + apply Hd in Hin as [? ?]. right. repeat split; try done. intros m q Hq Hne Hmv ->.
      apply not_elem_of_list_to_map in Hn. apply Hn. apply list_elem_of_fmap. exists (movedName old new m, q).
      split; [done|]. apply Hl. exists m. rewrite Hd. done.
  - intros [(m & Hm & Hne & Hmv & ->)|(Hn & Hne & Hmv & Hno)].
    + left. apply elem_of_list_to_map_1; [done|]. apply Hl. exists m. by rewrite Hd.
    + right. split; [|by rewrite Hd]. apply not_elem_of_list_to_map. intros Hin.
      apply list_elem_of_fmap in Hin as ([k q] & -> & Hin). apply Hl in Hin as (m & Hq & Hm & Hk).
      apply Hd in Hq as [Hq Hne']. by apply (Hno m q Hq Hne' Hm).
Qed.

(** The entries after a rename: the name of a moved path's entry follows it. *)
Lemma renameEntry_lookup old new ps hp p e :
  (forall a b q, ps !! a = Some q -> ps !! b = Some q -> a = b) -> hp !! p = Some e ->
  exists e', renameEntry old new ps hp !! p = Some e' /\ h_info e' = h_info e /\ h_handle e' = h_handle e /\
    (forall m, ps !! m = Some p -> m <> new -> moves old m = true -> h_name e' = movedName old new m) /\
    ((forall m, ps !! m = Some p -> m <> new -> moves old m = false) -> h_name e' = h_name e).
Proof.
  intros Hinj Hp. unfold renameEntry.
  set (f := fun name q (hp : list handleEntry) => if moves old name
              then alter (fun e => mkEntry (movedName old new name) (h_info e) (h_handle e)) q hp else hp).
  set (P := fun (r : list handleEntry) (m : gmap bytes nat) =>
    (forall a b q, m !! a = Some q -> m !! b = Some q -> a = b) ->
    exists e', r !! p = Some e' /\ h_info e' = h_info e /\ h_handle e' = h_handle e /\
      (forall n, m !! n = Some p -> moves old n = true -> h_name e' = movedName old new n) /\
      ((forall n, m !! n = Some p -> moves old n = false) -> h_name e' = h_name e)).
  cut (P (map_fold f hp (delete new ps)) (delete new ps)).
  { intros HP. destruct HP as (e' & H1 & H2 & H3 & H4 & H5).
    { intros a b q Ha Hb. apply lookup_delete_Some in Ha as [_ Ha], Hb as [_ Hb]. eauto. }
    exists e'. repeat split; try done.
    - intros m Hm Hne Hmv. apply H4; [|done]. by apply lookup_delete_Some.
    - intros Hno. apply H5. intros n Hn. apply lookup_delete_Some in Hn as [Hn Hl]. by apply Hno. }
  apply (map_fold_weak_ind P).
  { intros _. exists e. repeat split; try done; intros n Hn; by rewrite lookup_empty in Hn. }
  intros i x m r Hi IH Hm. destruct IH as (e' & H1 & H2 & H3 & H4 & H5).
  { intros a b q Ha Hb. apply (Hm a b q); rewrite lookup_insert_ne; try done; intros ->; congruence. }
  unfold f at 1.
  destruct (decide (x = p)) as [->|Hne].
  - assert (Honly : forall n, m !! n = Some p -> False).
    { intros n Hn. assert (n = i) as ->; [|congruence].
      apply (Hm n i p); [|by rewrite lookup_insert_eq]. rewrite lookup_insert_ne; [done|]. intros ->. congruence. }
    destruct (moves old i) eqn:Emv.
    + exists (mkEntry (movedName old new i) (h_info e') (h_handle e')).
      rewrite list_lookup_alter_eq, H1. repeat split; try done.
      * intros n Hn _. simpl. assert (n = i) as ->; [|done]. apply (Hm n i p Hn). by rewrite lookup_insert_eq.
      * intros Hno. exfalso. specialize (Hno i). rewrite lookup_insert_eq, Emv in Hno. by specialize (Hno eq_refl).
    + exists e'. repeat split; try done.
      * intros n Hn Hmv. assert (n = i) as ->; [|congruence]. apply (Hm n i p Hn). by rewrite lookup_insert_eq.
      * intros _. apply H5. intros n Hn. by destruct (Honly n Hn).
  - assert (Hsame : (if moves old i then alter (fun e => mkEntry (movedName old new i) (h_info e) (h_handle e)) x r else r) !! p = Some e').
    { destruct (moves old i); [|done]. by rewrite list_lookup_alter_ne. }
    exists e'. repeat split; try done.
    + intros n Hn. destruct (decide (n = i)) as [->|Hni]; [rewrite lookup_insert_eq in Hn; congruence|].
      rewrite lookup_insert_ne in Hn by done. by apply H4.
    + intros Hno. apply H5. intros n Hn. apply Hno. rewrite lookup_insert_ne; [done|]. intros ->. congruence.
Qed.

(** ** The invariant of the table *)

Section table.
Context `{FreshRand}.

Record tok (w : world) : Prop := {
  t_handles : forall h p, handles (w_fs w) !! h = Some p -> exists e, heap (w_fs w) !! p = Some e /\ h_handle e = h;
  t_paths : forall n p, paths (w_fs w) !! n = Some p ->
    exists e, heap (w_fs w) !! p = Some e /\ h_name e = n /\ handles (w_fs w) !! h_handle e = Some p;
  t_issued : forall h, is_Some (handles (w_fs w) !! h) -> h ∈ issued (w_disk w) /\ len h = 16 /\ h <> rootHandle;
  t_size : Z.of_nat (size (handles (w_fs w))) <= maxHandles }.

(** What a step keeps of the table: entries keep the file and the handle they
    were made for. *)
Record tafter (w w' : world) : Prop := {
  ta_ok : tok w';
  ta_heap : forall p e, heap (w_fs w) !! p = Some e ->
    exists e', heap (w_fs w') !! p = Some e' /\ h_info e' = h_info e /\ h_handle e' = h_handle e;
  ta_handles : forall h p, handles (w_fs w) !! h = Some p -> handles (w_fs w') !! h = Some p;
  ta_exports : exports (w_fs w') = exports (w_fs w) }.

Lemma tafter_trans a b c : tafter a b -> tafter b c -> tafter a c.
Proof.
  intros [_ H2 H3 H4] [K1 K2 K3 K4]. split; [done| |eauto|congruence].
  intros p e Hp. apply H2 in Hp as (e1 & Hp & E1 & E2). apply K2 in Hp as (e2 & Hp & F1 & F2).
  exists e2. split; [done|]. split; congruence.
Qed.

(** Steps that leave the table alone. *)
Lemma same_table_after w w' : tok w -> w_fs w' = w_fs w -> issued (w_disk w) ⊆ issued (w_disk w') -> tafter w w'.
Proof.
  intros [T1 T2 T3 T4] E Hi. split; rewrite ?E; [|eauto|done|done]. split; rewrite ?E; [done|done| |done].
  intros h Hh. destruct (T3 h Hh) as (? & ? & ?). split; [set_solver|done].
Qed.

Lemma tafter_refl w : tok w -> tafter w w.
Proof. intros Hw. by apply same_table_after. Qed.

Lemma call_issued c d : issued d ⊆ issued (sys c d).2.
Proof.
  destruct (others_keep c d) as [->| ->]; [|done]. destruct (sys RandRead d) as [[h|e] d'] eqn:E.
  - apply rand_fresh in E as (_ & _ & _ & E). simpl. rewrite E. set_solver.
  - apply rand_error in E. simpl. by rewrite E.
Qed.

Lemma call_table c w : tok w -> tafter w (call c w).2.
Proof.
  intros Hw. unfold call. pose proof (call_issued c (w_disk w)) as Hi. destruct (sys c (w_disk w)) as [a d].
  by apply same_table_after.
Qed.

(** A handle is bound to the identity of a file. *)
Definition bound (w : world) (h : bytes) (id : Z) : Prop :=
  exists p e, handles (w_fs w) !! h = Some p /\ heap (w_fs w) !! p = Some e /\ fi_id (h_info e) = id.

Lemma bound_after w w' h id : tafter w w' -> bound w h id -> bound w' h id.
Proof.
  intros Ha (p & e & Hh & Hp & Hid). apply (ta_handles _ _ Ha) in Hh. apply (ta_heap _ _ Ha) in Hp as (e' & Hp & E & _).
  exists p, e'. split; [done|]. split; [done|]. by rewrite E.
Qed.

(** The handle [wrap] returns is bound to the file it was asked for. *)
Lemma wrap_table name info ro w : tok w -> tafter w (wrap name info ro w).2 /\
  forall i, (wrap name info ro w).1 = Ok i ->
    i_info i = Some info /\ bound (wrap name info ro w).2 (i_handle i) (fi_id info) /\
    paths (w_fs (wrap name info ro w).2) !! name = handles (w_fs (wrap name info ro w).2) !! i_handle i.
Proof.
  intros Hw. unfold wrap.
  set (fresh := if maxHandles <=? _ then _ else _).
  assert (Hf : tafter w fresh.2 /\ forall i, fresh.1 = Ok i -> i_info i = Some info /\ bound fresh.2 (i_handle i) (fi_id info)
    /\ paths (w_fs fresh.2) !! name = handles (w_fs fresh.2) !! i_handle i).
  { unfold fresh. destruct (maxHandles <=? _) eqn:Em; [by split; [apply tafter_refl|]|]. bool_hyps.
    pose proof (call_table RandRead w Hw) as Hc.
    unfold call in *. destruct (sys RandRead (w_disk w)) as [[h|e] d] eqn:Es; cbn [fst snd] in *; [|by split].
    apply rand_fresh in Es as (Hlen & Hroot & Hnew & Hiss).
    assert (Hnh : handles (w_fs w) !! h = None).
    { destruct (handles (w_fs w) !! h) eqn:E; [|done]. exfalso. apply Hnew. apply (t_issued _ Hw). by rewrite E. }
    destruct Hw as [T1 T2 T3 T4]. cbn [w_fs with_fs]. set (p := length (heap (w_fs w))).
    assert (Hheap : forall q e, heap (w_fs w) !! q = Some e -> (heap (w_fs w) ++ [mkEntry name info h]) !! q = Some e).
    { intros q e Hq. by apply lookup_app_l_Some. }
    assert (Hpl : (heap (w_fs w) ++ [mkEntry name info h]) !! p = Some (mkEntry name info h)) by (by apply list_lookup_middle).
    split.
    - split; simpl; [|eauto| |done].
      + split; simpl.
        * intros k q. rewrite lookup_insert_Some. intros [[<- <-]|[_ Hk]]; [by eexists|].
          apply T1 in Hk as (e & He & Hk). exists e. eauto.
        * intros n q. rewrite lookup_insert_Some. intros [[<- <-]|[_ Hn]].
          { eexists. split; [exact Hpl|]. split; [done|]. by rewrite lookup_insert_eq. }
          apply T2 in Hn as (e & He & Hn & Hh). exists e. split; [eauto|]. split; [done|].
          rewrite lookup_insert_ne; [done|]. intros ->. congruence.
        * intros k. rewrite Hiss. destruct (decide (k = h)) as [->|Hk]; [intros _; split; [set_solver|done]|].
          rewrite lookup_insert_ne by done. intros Hs. destruct (T3 k Hs) as (? & ? & ?). split; [set_solver|done].
        * rewrite map_size_insert_None by done. lia.
      + intros k q Hk. rewrite lookup_insert_ne; [done|]. intros ->. congruence.
    - intros i [= <-]. simpl. split; [done|]. split; [|by rewrite !lookup_insert_eq].
      exists p, (mkEntry name info h). simpl. by rewrite lookup_insert_eq. }
  unfold lookupEntry. destruct (paths (w_fs w) !! name) as [p|] eqn:Ep; [|exact Hf].
  destruct (heap (w_fs w) !! p) as [e|] eqn:Eh; [|exact Hf].
  destruct (SameFile (h_info e) info) eqn:Esame; [|exact Hf].
  split; [by apply tafter_refl|]. intros i [= <-]. cbn [fst snd i_info i_handle]. split; [done|].
  destruct (t_paths _ Hw name p Ep) as (e' & He' & _ & Hh). rewrite Eh in He'. injection He' as <-.
  split; [|by rewrite Hh]. exists p, e. split; [done|]. split; [done|]. unfold SameFile in Esame. by apply Z.eqb_eq.
Qed.

Lemma Remove_table name w : tok w -> tafter w (Remove name w).2.
Proof.
  intros Hw. unfold Remove. destruct (writable _ _) as [[e rel]|]; [|by apply tafter_refl].
  pose proof (call_table (RRemove (e_root e) rel) w Hw) as Hc.
  destruct (call _ w) as [[err|] w1]; cbn [fst snd] in *; [done|]. eapply tafter_trans; [exact Hc|].
  destruct (ta_ok _ _ Hc) as [T1 T2 T3 T4]. split; [|simpl; eauto|done|done]. split; simpl; [done| |done|done].
  intros n p Hn. apply lookup_delete_Some in Hn as [_ Hn]. by apply T2.
Qed.

Lemma paths_inj w : tok w -> forall a b q, paths (w_fs w) !! a = Some q -> paths (w_fs w) !! b = Some q -> a = b.
Proof.
  intros Hw a b q Ha Hb. apply (t_paths _ Hw) in Ha as (e & He & Ha & _), Hb as (e' & He' & Hb & _). congruence.
Qed.

(** The table after the rename itself. *)
Definition renamed (old new : bytes) (w : world) : world :=
  with_fs (mkFilesystem (exports (w_fs w)) (handles (w_fs w)) (renamePaths old new (paths (w_fs w)))
             (renameEntry old new (paths (w_fs w)) (heap (w_fs w))) (started (w_fs w))) w.

Lemma renamed_table old new w : tok w -> tafter w (renamed old new w).
Proof.
  intros Hw. pose proof (paths_inj w Hw) as Hinj. destruct Hw as [T1 T2 T3 T4].
  assert (Hheap : forall p e, heap (w_fs w) !! p = Some e -> exists e', heap (w_fs (renamed old new w)) !! p = Some e' /\
    h_info e' = h_info e /\ h_handle e' = h_handle e).
  { intros p e Hp. destruct (renameEntry_lookup old new _ _ p e Hinj Hp) as (e' & He & Hi & Hh & _). eauto. }
  split; [|done|done|done]. split; simpl; [| |done|done].
  - intros h p Hh. apply T1 in Hh as (e & He & Hh). apply Hheap in He as (e' & He & _ & E). exists e'. split; [done|congruence].
  - intros n p Hn. apply renamePaths_lookup in Hn as [(m & Hm & Hne & Hmv & ->)|(Hn & Hne & Hmv & _)].
    + pose proof (T2 m p Hm) as (e & He & Hnm & Hh).
      destruct (renameEntry_lookup old new _ _ p e Hinj He) as (e' & He' & _ & Eh & Hname & _).
      exists e'. split; [done|]. split; [by apply Hname|congruence].
    + pose proof (T2 n p Hn) as (e & He & Hnm & Hh).
      destruct (renameEntry_lookup old new _ _ p e Hinj He) as (e' & He' & _ & Eh & _ & Hkeep).
      exists e'. split; [done|]. split; [|congruence]. rewrite Hkeep; [done|].
      intros m Hm _. by rewrite (Hinj m n p Hm Hn).
Qed.

Lemma Rename_table old new w : tok w -> tafter w (Rename old new w).2.
Proof.
  intros Hw. unfold Rename. destruct (writable _ old) as [[e rel]|]; [|by apply tafter_refl].
  destruct (writable _ new) as [[e' rel']|]; [|by apply tafter_refl]. destruct (negb _); [by apply tafter_refl|].
  pose proof (call_table (RRename (e_root e) rel rel') w Hw) as Hc.
  destruct (call _ w) as [[err|] w1]; cbn [fst snd] in *; [done|]. eapply tafter_trans; [exact Hc|].
  apply (renamed_table old new w1), Hc.
Qed.

Lemma Stat_table name w : tok w -> tafter w (Stat name w).2.
Proof.
  intros Hw. unfold Stat. destruct (beq _ _); [by apply tafter_refl|].
  destruct (resolve _ _) as [[e rel]|err]; [|by apply tafter_refl].
  pose proof (call_table (RStat (e_root e) rel) w Hw) as Ha.
  destruct (call _ w) as [[info|err] w1]; simpl in *; [|done].
  destruct (negb _); [done|]. eapply tafter_trans; [exact Ha|]. apply wrap_table, Ha.
Qed.

Lemma statShares_table shares w : tok w -> tafter w (statShares shares w).2.
Proof.
  revert w. induction shares as [|s shares IH]; intros w Hw; cbn [statShares]; [by apply tafter_refl|].
  pose proof (Stat_table ([SLASH] ++ s) w Hw) as Ha. destruct (Stat _ w) as [[i|e] w1]; simpl in *; [|done].
  pose proof (IH w1 (ta_ok _ _ Ha)) as Hb. destruct (statShares shares w1) as [[infos|e] w2]; simpl in *;
    by eapply tafter_trans.
Qed.

Lemma wrapEntries_table dir ro infos acc w : tok w -> tafter w (wrapEntries dir ro infos acc w).2.
Proof.
  revert acc w. induction infos as [|i infos IH]; intros acc w Hw; cbn [wrapEntries]; [by apply tafter_refl|].
  destruct (negb _); [by apply IH|].
  pose proof (wrap_table (PathJoin dir (fi_name i)) i ro w Hw) as [Ha _].
  destruct (wrap _ _ _ w) as [[x|e] w1]; cbn [fst snd] in *; [|done].
  eapply tafter_trans; [exact Ha|]. apply IH, Ha.
Qed.

Lemma closeFd_table fd w : tok w -> tafter w (closeFd fd w).2.
Proof.
  intros Hw. unfold closeFd. pose proof (call_table (FClose fd) w Hw) as Ha. destruct (call (FClose fd) w) as [a w1].
  cbn [fst snd] in *. eapply tafter_trans; [exact Ha|]. apply same_table_after; [apply Ha|done|done].
Qed.

Lemma OpenFile_table name flag mode w : tok w -> tafter w (OpenFile name flag mode w).2.
Proof.
  intros Hw. unfold OpenFile. destruct (beq name [SLASH]).
  { destruct (negb _); [by apply tafter_refl|].
    pose proof (statShares_table (map fst (map_to_list (exports (w_fs w)))) w Hw) as Ha.
    destruct (statShares _ w) as [[es|e] w1]; cbn [fst snd] in *; [|done].
    eapply tafter_trans; [exact Ha|]. apply same_table_after; [apply Ha|done|done]. }
  destruct (resolve (w_fs w) name) as [[e rel]|err]; [|by apply tafter_refl].
  destruct (e_readOnly e && _); [by apply tafter_refl|]. cbv zeta. set (flag' := Z.lor _ _).
  unfold openAt. pose proof (call_table (ROpen (e_root e) rel flag' (Perm mode)) w Hw) as Ha.
  destruct (call _ w) as [[err|] w1]; cbn [fst snd] in *; [done|].
  set (fd := length (w_fds w1)). set (w2 := with_fds _ w1).
  assert (H2 : tafter w w2) by (eapply tafter_trans; [exact Ha|apply same_table_after; [apply Ha|done|done]]).
  pose proof (call_table (FStat fd) w2 (ta_ok _ _ H2)) as Hb. destruct (call (FStat fd) w2) as [r w3]. cbn [fst snd] in *.
  pose proof (closeFd_table fd w3 (ta_ok _ _ Hb)) as Hc.
  assert (H3 : tafter w w3) by (by eapply tafter_trans).
  assert (H4 : tafter w (closeFd fd w3).2) by (by eapply tafter_trans).
  destruct (closeFd fd w3) as [a w4]. cbn [fst snd] in *.
  destruct r as [info|err]; cbn [fst snd]; [|done]. destruct (negb (exportable info)); [done|].
  eapply tafter_trans; [exact H3|]. apply same_table_after; [apply H3|done|done].
Qed.

(** ** Any run *)

(** A step in which the system's supply of random values does not go back. *)
Definition fresh_step (w w' : world) : Prop := fs_step w w' /\ issued (w_disk w) ⊆ issued (w_disk w').

Lemma fresh_step_table w w' : fresh_step w w' -> tok w -> tafter w w'.
Proof.
  intros [Hs Hi] Hw. destruct Hs.
  - by apply Stat_table.
  - by apply OpenFile_table.
  - unfold Chmod. destruct (writable _ _) as [[e rel]|]; [|by apply tafter_refl]. by apply (call_table (RChmod _ _ _)).
  - unfold MkdirAll. destruct (writable _ _) as [[e rel]|]; [|by apply tafter_refl]. by apply (call_table (RMkdirAll _ _ _)).
  - by apply Remove_table.
  - by apply Rename_table.
  - unfold ResolveHandle. destruct (negb _); [by apply tafter_refl|]. destruct (beq _ _); [by apply tafter_refl|].
    destruct (lookupEntry _ _ _) as [[p e]|]; [|by apply tafter_refl]. destruct (negb _); [by apply tafter_refl|].
    destruct (resolve _ _) as [[x rel]|]; [|by apply tafter_refl].
    pose proof (call_table (RStat (e_root x) rel) w Hw) as Ha.
    destruct (call _ w) as [[i|err] w1]; cbn [fst snd] in *; [|done]. by destruct (SameFile _ _).
  - unfold file_Close. destruct (f_fd fl); [by apply closeFd_table|by apply tafter_refl].
  - unfold file_Stat. destruct (f_fd fl) as [fd|]; [|by apply tafter_refl].
    pose proof (call_table (FStat fd) w Hw) as Ha. destruct (call _ w) as [[i|e] w1]; cbn [fst snd] in *; [|done].
    eapply tafter_trans; [exact Ha|]. apply wrap_table, Ha.
  - unfold file_Read. destruct (f_fd fl) as [fd|]; [by apply (call_table (FRead fd k))|by apply tafter_refl].
  - unfold file_Write. destruct (f_readOnly fl); [by apply tafter_refl|]. destruct (_ <? _); [by apply tafter_refl|].
    destruct (f_fd fl) as [fd|]; [by apply (call_table (FWrite fd p))|by apply tafter_refl].
  - unfold file_Seek. destruct (f_fd fl) as [fd|]; [by apply (call_table (FSeek fd off wh))|].
    destruct (_ && _); [by apply same_table_after|by apply tafter_refl].
  - unfold file_Truncate. destruct (f_readOnly fl); [by apply tafter_refl|].
    destruct (f_fd fl) as [fd|]; [|by apply tafter_refl].
    pose proof (call_table (FSeek fd 0 SeekCurrent) w Hw) as Ha.
    destruct (call _ w) as [[o|e] w1]; cbn [fst snd] in *; [|done].
    eapply tafter_trans; [exact Ha|]. apply (call_table (FTruncate fd o)), Ha.
  - unfold file_Sync. destruct (f_fd fl) as [fd|]; [|by apply tafter_refl].
    destruct (f_readOnly fl); [by apply tafter_refl|by apply (call_table (FSync fd))].
  - unfold file_Readdir. destruct (f_fd fl) as [fd|].
    + pose proof (call_table (FReaddir fd (if k <=? 0 then maxHandles + 1 else k)) w Hw) as Ha.
      cbv zeta. destruct (call _ w) as [[infos err] w1]; cbn [fst snd] in *. destruct (_ <? _); [done|].
      pose proof (wrapEntries_table (f_name fl) (f_readOnly fl) infos [] w1 (ta_ok _ _ Ha)) as Hb.
      destruct (wrapEntries _ _ _ _ w1) as [[es|e] w2]; cbn [fst snd] in *; by eapply tafter_trans.
    + destruct (_ && _); [by apply tafter_refl|by apply same_table_after].
  - by apply same_table_after.
Qed.

Lemma fresh_run_table w w' : rtc fresh_step w w' -> tok w -> tafter w w'.
Proof.
  induction 1 as [w|w w1 w2 Hs _ IH]; intros Hw; [by apply tafter_refl|].
  pose proof (fresh_step_table _ _ Hs Hw) as Ha. eapply tafter_trans; [exact Ha|]. apply IH, Ha.
Qed.

(** A resolved handle: the file found under the name is the one it is bound to. *)
Lemma resolve_bound w h name id : tok w -> bound w h id -> (ResolveHandle h w).1 = Ok name ->
  exists e rel info, resolve (w_fs w) name = Ok (e, rel) /\
    (sys (RStat (e_root e) rel) (w_disk w)).1 = Ok info /\ fi_id info = id.
Proof.
  intros Hw (p & e & Hh & Hp & Hid). unfold ResolveHandle.
  destruct (negb (len h =? 16)); [done|].
  destruct (beq h rootHandle) eqn:Er.
  { apply beq_true in Er as ->. destruct (t_issued _ Hw rootHandle) as (_ & _ & Hne); [by eexists|]. done. }
  unfold lookupEntry. rewrite Hh, Hp. destruct (negb _); [done|].
  destruct (resolve (w_fs w) (h_name e)) as [[x rel]|err] eqn:Ex; [|done].
  unfold call. destruct (sys (RStat (e_root x) rel) (w_disk w)) as [[info|err] d] eqn:Es; cbn [fst snd]; [|done].
  destruct (SameFile (h_info e) info) eqn:Esame; [|done]. intros [= <-].
  exists x, rel, info. rewrite Es. split; [done|]. split; [done|]. unfold SameFile in Esame. apply Z.eqb_eq in Esame. congruence.
Qed.

End table.
