(* ===== verification/NfsProps.v ===== *)
(** * nfsserver: theorems

    The properties of the NFS service, with an operating system and a protocol
    library made up for the witnesses. *)

From stdpp Require Import gmap list strings sorting.
From Stdlib Require Import ZArith Lia.
From S2P Require Import Prelude GoStrings GoPath Config ConfigFacts NfsProto NfsWire NfsFs NfsSession NfsFacts NfsHandles.

(** ** A small system and a small library *)

(** Every path is a regular file whose identity is the length of its path; the
    state counts the random values given out. *)
Definition toy_info (rel : bytes) : FileInfo := mkFileInfo rel (len rel) 5 420 0.
Definition toy_rand (n : nat) : bytes := be_encode 16 (Z.of_nat n).

Definition toy_sys (c : oscall) (n : nat) : answer c * nat :=
  match c return answer c * nat with
  | RStat _ rel => (Ok (toy_info rel), n)
  | FStat _ => (Ok (toy_info [97]), n)
  | ROpen _ _ _ _ => (None, n) | RChmod _ _ _ => (None, n) | RMkdirAll _ _ _ => (None, n)
  | RRemove _ _ => (None, n) | RRename _ _ _ => (None, n)
  | FTruncate _ _ => (None, n) | FSync _ => (None, n) | FClose _ => (None, n)
  | FRead _ _ => (([], Some EOF), n)
  | FWrite _ p => ((len p, None), n)
  | FSeek _ _ _ => (Ok 0, n)
  | FReaddir _ _ => (([], None), n)
  | RandRead => if Z.of_nat n <? 1000 then (Ok (toy_rand n), S n) else (Err ErrInvalid, n)
  end.
#[local] Instance toy_os : OS := {| disk := nat; sys := toy_sys |}.

Definition toy_issued (n : nat) : gset bytes := list_to_set (map toy_rand (seq 0 (min n (Z.to_nat 1000)))).

Lemma toy_rand_value n : Z.of_nat n < 1000 -> be_decode (toy_rand n) = Z.of_nat n.
Proof. intros Hn. unfold toy_rand. rewrite be_decode_encode. apply Z.mod_small. change (256 ^ Z.of_nat 16) with (2 ^ 128). lia. Qed.

#[local] Instance toy_fresh : FreshRand.
Proof.
  apply (Build_FreshRand toy_os toy_issued).
  - intros d h d' E. change (toy_sys RandRead d = (Ok h, d')) in E. unfold toy_sys in E. destruct (Z.of_nat d <? 1000) eqn:El; [|done]. injection E as <- <-. bool_hyps.
    split; [done|]. split.
    { intros E. change (toy_rand d = rootHandle) in E. apply (f_equal be_decode) in E. rewrite toy_rand_value in E by done.
      assert (Hb : 1000 < be_decode rootHandle) by (vm_compute; reflexivity). lia. }
    unfold toy_issued.
    assert (HB : Z.of_nat (Z.to_nat 1000) = 1000) by (apply Z2Nat.id; lia).
    revert HB. generalize (Z.to_nat 1000). intros B HB. change (@disk toy_os) with nat in d. split.
    + rewrite elem_of_list_to_set, list_elem_of_fmap. intros (m & E & Hm). apply elem_of_seq in Hm.
      apply (f_equal be_decode) in E. rewrite !toy_rand_value in E by lia. lia.
    + replace (min (S d) B) with (S d) by lia. replace (min d B) with d by lia.
      rewrite seq_S, map_app, list_to_set_app_L. cbn [map list_to_set]. set_solver.
  - intros c d. destruct c; try (by right); by left.
  - intros d e d' E. cbn in E. destruct (Z.of_nat d <? 1000); [done|]. by injection E as _ <-.
Defined.

(** A read-only share "r" and a writable one "s". *)
Definition toy_shares : list NFSShare := [mkShare (str "r") (str "/srv/r") true; mkShare (str "s") (str "/srv/s") false].
Definition toy_fs : filesystem :=
  match openFilesystem toy_shares Some (fun _ => true) 0 with Some f => f | None => mkFilesystem ∅ ∅ ∅ [] 0 end.
Definition toy_world : @world toy_os := @mkWorld toy_os 0%nat [] [] toy_fs [].

(** ** Records *)

(** C38: A record is read exactly when it consists of at most 64 fragments of which
    only the last is marked as such and which hold at most 2 MiB together; then
    their contents are returned and the stream is left just behind them. *)
Theorem readRecord_exact r data rest : wf_bytes r ->
  readRecord r = Ok (data, rest) <->
  exists frags final, r = record_of frags final ++ rest /\ data = concat frags ++ final /\
    len frags < 64 /\ len data <= maxRecord.
Proof.
  intros Hw. unfold readRecord. rewrite readFragments_exact by done.
  split; intros (frags & final & ? & ? & Hl & ?); exists frags, final; unfold len in *; repeat split; try done; lia.
Qed.

Lemma readRecord_exact_witness :
  readRecord (record_of [[1; 2]] [3] ++ [9]) = Ok ([1; 2; 3], [9]) /\
  readRecord (writeRecord [7] ++ [8]) = Ok ([7], [8]) /\ readRecord [0; 0; 0; 1; 5] = Err ErrShort.
Proof.
  split; [|split; vm_compute; reflexivity].
  apply (readRecord_exact _ [1; 2; 3] [9]).
  - repeat (apply Forall_cons; split; [vm_compute; split; congruence|]). apply Forall_nil. done.
  - exists [[1; 2]], [3]. repeat split; vm_compute; congruence.
Defined.

(** ** Operations *)

(** C30: The cursor is an exact reader of the wire format: an operation is passed on
    to be carried out precisely when the remaining bytes start with one, and then
    exactly its bytes are consumed and handed over, with the access and size it
    asks for.  (Every other input ends in an error or a nonzero status, which
    stops the compound.) *)
Theorem operation_exact `{Nfs4Laws} c : ready c ->
  (c_err (operation_ c).2 = None /\ op_status (operation_ c).1 = 0 <->
   exists n access z args rest, remaining c = be_encode 4 n ++ args ++ rest /\ op_args n access z args) /\
  forall n access z args rest, remaining c = be_encode 4 n ++ args ++ rest -> op_args n access z args ->
    operation_ c = (mkOperation n (be_encode 4 n ++ args) 0 access z, moved c (4 + len args) z).
Proof.
  intros Hc. split; [|intros; by eapply operation_complete]. split.
  - intros [He Hs]. by apply operation_sound.
  - intros (n & access & z & args & rest & Er & Ha). by rewrite (operation_complete c n access z args rest).
Qed.

(** A LOOKUP of "ab", and one of "..". *)
Definition lookup_ab : bytes := be_encode 4 15 ++ be_encode 4 2 ++ [97; 98; 0; 0].
Definition lookup_up : bytes := be_encode 4 15 ++ be_encode 4 2 ++ [46; 46; 0; 0].

Lemma operation_exact_witness :
  operation_ (newCursor (lookup_ab ++ [1; 2])) =
    (mkOperation 15 lookup_ab 0 0 None, moved (newCursor (lookup_ab ++ [1; 2])) 12 None) /\
  c_err (operation_ (newCursor lookup_up)).2 = Some ErrComponent.
Proof.
  split; [|vm_compute; reflexivity].
  refine (proj2 (operation_exact (newCursor (lookup_ab ++ [1; 2])) _) 15 0 None (be_encode 4 2 ++ [97; 98; 0; 0]) [1; 2] _ _).
  - apply newCursor_ready. repeat (apply Forall_cons; split; [vm_compute; split; congruence|]). by apply Forall_nil.
  - vm_compute. reflexivity.
  - eapply (A_simple 15 is_component); [unfold simple_grammar; repeat constructor|].
    exists [97; 98]. split; [|split].
    + exists [0; 0]. vm_compute. repeat split; congruence.
    + unfold plain. repeat split; try (vm_compute; congruence). apply (bool_decide_unpack _). vm_compute. exact I.
    + apply (bool_decide_unpack _). vm_compute. exact I.
Defined.

(** ** Read-only shares *)

Lemma openFilesystem_exports shares ev op now f : openFilesystem shares ev op now = Some f ->
  exists resolved, mapM (fun s => p ← ev (sh_Path s); Some (mkShare (sh_Name s) p (sh_ReadOnly s))) shares = Some resolved /\
    shares_ok resolved /\
    forall k e, exports f !! k = Some e ->
      exists s, s ∈ resolved /\ e = mkExport (sh_Name s) (sh_Path s) (sh_ReadOnly s) /\ k = sh_Name s.
Proof.
  unfold openFilesystem. destruct (mapM _ shares) as [resolved|]; [|done].
  destruct (ValidateNFSShares resolved) as [[]|] eqn:Ev; [|done]. destruct (negb _); [done|]. intros [= <-].
  exists resolved. split; [done|]. split; [by apply ValidateNFSShares_ok|]. simpl. clear Ev.
  assert (Hg : forall l (m : gmap bytes export) k e,
    fold_left (fun m s => <[sh_Name s := mkExport (sh_Name s) (sh_Path s) (sh_ReadOnly s)]> m) l m !! k = Some e ->
    m !! k = Some e \/ exists s, s ∈ l /\ e = mkExport (sh_Name s) (sh_Path s) (sh_ReadOnly s) /\ k = sh_Name s).
  { induction l as [|s l IH]; intros m k e Hk; [by left|]. cbn [fold_left] in Hk.
    destruct (IH _ _ _ Hk) as [Hm|(t & Ht & ?)]; [|right; exists t; split; [by right|done]].
    apply lookup_insert_Some in Hm as [[<- <-]|[_ Hm]]; [right; exists s; split; [left|done]|by left]. }
  intros k e Hk. by destruct (Hg _ _ _ _ Hk) as [Hm|].
Qed.

(** C8: Whatever any number of clients do through the file system interface, and
    whatever local processes do meanwhile, every system call that can change a
    file is made on a share that is not read-only; the directory of that share
    neither contains nor lies inside the directory of a read-only share. *)
Theorem nfs_readonly_untouched `{OS} shares EvalSymlinks OpenRoot now (w w' : world) c root :
  openFilesystem shares EvalSymlinks OpenRoot now = Some (w_fs w) -> w_log w = [] -> w_files w = [] ->
  rtc fs_step w w' -> c ∈ w_log w' -> target (w_fds w') c = Some root ->
  (exists s, s ∈ shares /\ EvalSymlinks (sh_Path s) = Some root /\ sh_ReadOnly s = false) /\
  (forall r p, r ∈ shares -> sh_ReadOnly r = true -> EvalSymlinks (sh_Path r) = Some p -> apart root p).
Proof.
  intros Ho Hl Hf Hr Hc Ht.
  assert (Hg : good w) by (split; [rewrite Hl|rewrite Hf]; constructor).
  destruct (fs_reach_good w w' Hr Hg) as [[Hlog _] He]. rewrite Forall_forall in Hlog.
  destruct (Hlog c Hc) as [_ Hp]. destruct (Hp root Ht) as (k & e & Hk & <- & Hro). rewrite He in Hk.
  destruct (openFilesystem_exports _ _ _ _ _ Ho) as (resolved & Hm & Hok & Hex).
  destruct (Hex k e Hk) as (s & Hs & -> & _). simpl in *.
  apply mapM_Some_1 in Hm.
  assert (Hback : forall x, x ∈ resolved -> exists y, y ∈ shares /\ EvalSymlinks (sh_Path y) = Some (sh_Path x)
    /\ sh_Name x = sh_Name y /\ sh_ReadOnly x = sh_ReadOnly y).
  { intros x Hx. apply list_elem_of_lookup in Hx as [i Hx]. eapply Forall2_lookup_r in Hm as (y & Hy & E); [|exact Hx].
    apply bind_Some in E as (p & Hp' & [= <-]). exists y. split; [by eapply list_elem_of_lookup_2|done]. }
  assert (Hforth : forall y p, y ∈ shares -> EvalSymlinks (sh_Path y) = Some p ->
    mkShare (sh_Name y) p (sh_ReadOnly y) ∈ resolved).
  { intros y p Hy Hp'. apply list_elem_of_lookup in Hy as [i Hy]. eapply Forall2_lookup_l in Hm as (x & Hx & E); [|exact Hy].
    apply bind_Some in E as (p' & Hp2 & [= <-]). rewrite Hp' in Hp2. injection Hp2 as <-. by eapply list_elem_of_lookup_2. }
  split.
  - destruct (Hback s Hs) as (y & Hy & Ey & _ & Er). exists y. split; [done|]. split; [done|congruence].
  - intros r p Hr' Hror Hp'. apply (shares_apart resolved s (mkShare (sh_Name r) p (sh_ReadOnly r)) Hok Hs); [by apply Hforth|].
    intros ->. simpl in Hro. congruence.
Qed.

(** Opening "x" of the writable share and writing to it. *)
Definition toy_written : world :=
  (file_Write (mkFile (Some 0%nat) (str "/s/x") false [] 0) [1] (OpenFile (str "/s/x") O_RDWR 0 toy_world).2).2.

Lemma nfs_readonly_untouched_witness :
  target (w_fds toy_written) (FWrite 0 [1]) = Some (str "/srv/s") /\ apart (str "/srv/s") (str "/srv/r") /\
  (OpenFile (str "/r/x") (Z.lor O_RDWR O_TRUNC) 0 toy_world).1 = Err EROFS.
Proof.
  assert (Ht : target (w_fds toy_written) (FWrite 0 [1]) = Some (str "/srv/s")) by (vm_compute; reflexivity).
  split; [exact Ht|]. split; [|vm_compute; reflexivity].
  refine (proj2 (nfs_readonly_untouched toy_shares Some (fun _ => true) 0 toy_world toy_written (FWrite 0 [1]) (str "/srv/s")
    _ eq_refl eq_refl _ _ Ht) (mkShare (str "r") (str "/srv/r") true) (str "/srv/r") _ eq_refl eq_refl).
  - vm_compute. reflexivity.
  - eapply rtc_l; [apply (st_open toy_world (str "/s/x") O_RDWR 0)|]. apply rtc_once.
    apply (st_write _ 0%nat). vm_compute. reflexivity.
  - vm_compute. do 2 right. left.
  - left.
Defined.

(** ** Descriptors *)

(** A library that opens "/s/x", writes, and forgets about it. *)
#[local] Instance toy_lib : NfsLib := {|
  lib := unit; newStat := tt; CurrentHandle _ := []; ClearCurrent l := l; PopHandle _ := None; savedHandles _ := 0%nat;
  Compound input l := Do (LOpenFile (str "/s/x") O_RDWR 0) (fun r =>
    match r with
    | Ok v => Do (MWrite v [1]) (fun _ => Done (Some (replicate 44 0)) tt)
    | Err _ => Done None tt
    end);
  CleanUp _ := []; WriteAny b := be_encode 4 (len b) ++ b |}.

(** C31: A connection performs nothing but method calls on the shared file system,
    and when it ends, for whatever reason and whatever the library forgot, every
    descriptor it opened is closed again. *)
Theorem nfs_connection_closes_files `{OS} `{Nfs4} `{NfsLib} io stream (w : world) :
  w_log w = [] -> w_files w = [] ->
  rtc fs_step w (serveConnection io stream w).2 /\
  forall i, is_open (serveConnection io stream w).2 i -> is_open w i.
Proof.
  intros Hl Hf. assert (Hg : good w) by (split; [rewrite Hl|rewrite Hf]; constructor).
  destruct (serveConnection_facts io stream w Hg) as (Hr & _ & Ho). done.
Qed.

(** One compound with an OPEN of "x" for writing. *)
Definition toy_open : bytes :=
  be_encode 4 18 ++ be_encode 4 0 ++ be_encode 4 2 ++ be_encode 4 0 ++ replicate 8 0 ++ be_encode 4 0
  ++ be_encode 4 0 ++ be_encode 4 0 ++ be_encode 4 1 ++ [120; 0; 0; 0].
Definition toy_request : bytes :=
  concat (map (be_encode 4) [7; 0; 2; 100003; 4; 1; 0; 0; 0; 0; 0; 0; 1]) ++ toy_open.

Lemma nfs_connection_closes_files_witness :
  ~ is_open (serveConnection [(true, true)] (writeRecord toy_request) toy_world).2 0 /\
  FWrite 0 [1] ∈ w_log (serveConnection [(true, true)] (writeRecord toy_request) toy_world).2 /\
  FClose 0 ∈ w_log (serveConnection [(true, true)] (writeRecord toy_request) toy_world).2.
Proof.
  split; [|split].
  - intros Ho. destruct (nfs_connection_closes_files [(true, true)] (writeRecord toy_request) toy_world eq_refl eq_refl)
      as [_ Hc]. apply Hc in Ho as (d & Hd & _). discriminate Hd.
  - vm_compute. do 2 right. left.
  - vm_compute. do 3 right. left.
Defined.

(** ** Handles *)

Lemma empty_table `{FreshRand} (w : world) : handles (w_fs w) = ∅ -> paths (w_fs w) = ∅ -> tok w.
Proof.
  intros Eh Ep. split; rewrite ?Eh, ?Ep.
  - intros h p Hh. by rewrite lookup_empty in Hh.
  - intros n p Hn. by rewrite lookup_empty in Hn.
  - intros h [p Hh]. by rewrite lookup_empty in Hh.
  - rewrite map_size_empty. done.
Qed.

(** C29: Over any run from a fresh start, a handle given out for a file stands for
    that file for good: if it is ever resolved again, after any number of removals,
    renames and replacements by any clients, the name it resolves to is one under
    which the system finds the very same file.  The table never holds more than
    65536 handles. *)
Theorem nfs_handle_identity `{FreshRand} (w0 w1 w2 : world) name i info h n :
  handles (w_fs w0) = ∅ -> paths (w_fs w0) = ∅ ->
  rtc fresh_step w0 w1 -> (Stat name w1).1 = Ok i -> i_info i = Some info -> h = i_handle i ->
  rtc fresh_step (Stat name w1).2 w2 ->
  Z.of_nat (size (handles (w_fs w2))) <= maxHandles /\
  ((ResolveHandle h w2).1 = Ok n ->
   exists e rel found, resolve (w_fs w2) n = Ok (e, rel) /\
     (sys (RStat (e_root e) rel) (w_disk w2)).1 = Ok found /\ SameFile info found = true).
Proof.
  intros Eh Ep Hr1 Hs Hi -> Hr2.
  pose proof (fresh_run_table _ _ Hr1 (empty_table w0 Eh Ep)) as Ha1.
  assert (Hst : tafter w1 (Stat name w1).2) by (apply Stat_table, Ha1).
  pose proof (fresh_run_table _ _ Hr2 (ta_ok _ _ Hst)) as Ha2.
  split; [apply (t_size _ (ta_ok _ _ Ha2))|]. intros Hres.
  assert (Hb : bound (Stat name w1).2 (i_handle i) (fi_id info)).
  { revert Hs. clear -Hi Ha1. unfold Stat. destruct (beq name [SLASH]); [by intros [= <-]|].
    destruct (resolve (w_fs w1) name) as [[e rel]|err]; [|done].
    pose proof (call_table (RStat (e_root e) rel) w1 (ta_ok _ _ Ha1)) as Hc.
    destruct (call (RStat (e_root e) rel) w1) as [[found|err] w2]; cbn [fst snd] in *; [|done].
    destruct (negb _); [done|]. intros Hw. destruct (wrap_table name found (e_readOnly e) w2 (ta_ok _ _ Hc)) as [_ Hok].
    destruct (Hok i Hw) as (E & Hb & _). rewrite Hi in E. injection E as <-. exact Hb. }
  apply (bound_after _ _ _ _ Ha2) in Hb.
  destruct (resolve_bound w2 (i_handle i) n (fi_id info) (ta_ok _ _ Ha2) Hb Hres) as (e & rel & found & ? & ? & Hid).
  exists e, rel, found. split; [done|]. split; [done|]. unfold SameFile. by apply Z.eqb_eq.
Qed.

Lemma nfs_handle_identity_witness :
  let w2 := (Stat (str "/s/b") (Stat (str "/s/a") toy_world).2).2 in
  (ResolveHandle (toy_rand 0) w2).1 = Ok (str "/s/a") /\
  exists e rel found, resolve (w_fs w2) (str "/s/a") = Ok (e, rel) /\
    (sys (RStat (e_root e) rel) (w_disk w2)).1 = Ok found /\ SameFile (toy_info (str "a")) found = true.
Proof.
  intros w2. assert (Hr : (ResolveHandle (toy_rand 0) w2).1 = Ok (str "/s/a")) by (vm_compute; reflexivity).
  split; [exact Hr|].
  refine (proj2 (nfs_handle_identity toy_world toy_world w2 (str "/s/a")
    (mkInfo (Some (toy_info (str "a"))) (str "a") (toy_rand 0) false 0) (toy_info (str "a")) (toy_rand 0) (str "/s/a")
    eq_refl eq_refl (rtc_refl _ _) _ eq_refl eq_refl _) Hr).
  - vm_compute. reflexivity.
  - apply rtc_once. split; [apply st_stat|]. apply (bool_decide_unpack _). vm_compute. exact I.
Defined.

(** C40: A successful rename takes the handles along: a handle that stood for the
    renamed file, or for anything below a renamed directory, resolves to the new
    name as soon as the system finds the same file there.  The one exception is a
    rename of a name to itself, which leaves the handle of that name stale. *)
Theorem nfs_rename_keeps_handles `{FreshRand} (w : world) old new name p e :
  tok w -> paths (w_fs w) !! name = Some p -> heap (w_fs w) !! p = Some e ->
  moves old name = true -> (Rename old new w).1 = None ->
  let w' := (Rename old new w).2 in
  (name <> new ->
   forall x rel found, resolve (w_fs w) (movedName old new name) = Ok (x, rel) ->
     (sys (RStat (e_root x) rel) (w_disk w')).1 = Ok found -> SameFile (h_info e) found = true ->
     (ResolveHandle (h_handle e) w').1 = Ok (movedName old new name)) /\
  (name = old -> new = old -> (ResolveHandle (h_handle e) w').1 = Err ErrNotExist).
Proof.
  intros Hw Hp He Hmv Hn. cbv zeta.
  destruct (t_paths _ Hw name p Hp) as (e0 & He0 & Hname & Hh). rewrite He in He0. injection He0 as <-.
  destruct (t_issued _ Hw (h_handle e)) as (_ & Hlen & Hroot); [by eexists|].
  revert Hn. unfold Rename. destruct (writable (w_fs w) old) as [[x1 r1]|]; [|done].
  destruct (writable (w_fs w) new) as [[x2 r2]|]; [|done]. destruct (negb (beq _ _)); [done|].
  unfold call. destruct (sys (RRename (e_root x1) r1 r2) (w_disk w)) as [[err|] d]; cbn [fst snd]; [done|]. intros _.
  destruct (renameEntry_lookup old new _ _ p e (paths_inj w Hw) He) as (e' & He' & Ei & Eh & Hmoved & _).
  unfold ResolveHandle, lookupEntry. rewrite Hlen, (proj2 (beq_false _ _) Hroot).
  cbn [w_fs with_fs handles heap paths exports]. change (negb (16 =? 16)) with false. cbv iota. rewrite Hh, He'. split.
  - intros Hne x rel found Hres Hst Hsame.
    rewrite (Hmoved name Hp Hne Hmv), bool_decide_eq_true_2.
    2:{ apply renamePaths_lookup. left. exists name. done. }
    cbn [negb]. cbv iota. change (resolve (mkFilesystem _ _ _ _ _)) with (resolve (w_fs w)). rewrite Hres.
    unfold call. cbn [w_disk with_fs w_log w_fds w_fs w_files] in *. destruct (sys (RStat (e_root x) rel) d) as [r d2]. cbn [fst snd] in *. subst r.
    rewrite Ei, Hsame. done.
  - intros -> ->. rewrite bool_decide_eq_false_2; [done|].
    intros Hx. apply renamePaths_lookup in Hx as [(m & Hm & Hne & _)|(Hm & Hne & Hmm & _)].
    + by rewrite (paths_inj w Hw m old p Hm Hp) in Hne.
    + by rewrite (paths_inj w Hw _ old p Hm Hp) in Hne.
Qed.

Lemma nfs_rename_keeps_handles_witness :
  let w := (Stat (str "/s/a/b") toy_world).2 in
  (ResolveHandle (toy_rand 0) (Rename (str "/s/a") (str "/s/c") w).2).1 = Ok (str "/s/c/b") /\
  (ResolveHandle (toy_rand 0) (Rename (str "/s/a/b") (str "/s/a/b") w).2).1 = Err ErrNotExist.
Proof.
  intros w. assert (Hw : tok w) by (apply Stat_table, empty_table; reflexivity).
  set (e := mkEntry (str "/s/a/b") (toy_info (str "a/b")) (toy_rand 0)). split.
  - refine (proj1 (nfs_rename_keeps_handles w (str "/s/a") (str "/s/c") (str "/s/a/b") 0 e Hw _ _ _ _) _
      (mkExport (str "s") (str "/srv/s") false) (str "c/b") (toy_info (str "c/b")) _ _ _); vm_compute; congruence.
  - refine (proj2 (nfs_rename_keeps_handles w (str "/s/a/b") (str "/s/a/b") (str "/s/a/b") 0 e Hw _ _ _ _) eq_refl eq_refl);
      vm_compute; reflexivity.
Defined.

(** ** Compounds *)

(** The operations a compound carries out, with responses and statuses. *)
Inductive carried `{OS} `{Nfs4} `{NfsLib} : cursor -> session -> list (operation * bytes * Z) -> cursor -> session -> Prop :=
| carried_nil c s : carried c s [] c s
| carried_cons c s op response st c' s' rest c'' s'' :
    (operation_ c).1 = op -> (operation_ c).2 = c' -> c_err c' = None ->
    execute op s = (Returned (response, st), s') -> carried c' s' rest c'' s'' ->
    carried c s ((op, response, st) :: rest) c'' s''.

(** A compound answers with the responses of its operations in order, up to and
    including the first that fails: all carried out before it succeeded, nothing is
    carried out after it, and the count and the status reported are those of what
    was carried out. *)
Theorem compound_stops_at_failure `{OS} `{Nfs4} `{NfsLib} count c s st completed results s' :
  operationLoop count c NFS4_OK 0 [] s = (Returned (Some (st, completed, results)), s') ->
  exists trace c', carried c s trace c' s' /\ completed = len trace /\ (length trace <= count)%nat /\
    results = concat (map (fun t => t.1.2) trace) /\
    ((st = NFS4_OK /\ length trace = count /\ Forall (fun t => t.2 = NFS4_OK) trace) \/
     (st <> NFS4_OK /\ exists before op response, trace = before ++ [(op, response, st)] /\
        Forall (fun t => t.2 = NFS4_OK) before)).
Proof.
  cut (forall completed0 results0, operationLoop count c NFS4_OK completed0 results0 s = (Returned (Some (st, completed, results)), s') ->
    exists trace c', carried c s trace c' s' /\ completed = completed0 + len trace /\ (length trace <= count)%nat /\
    results = results0 ++ concat (map (fun t => t.1.2) trace) /\
    ((st = NFS4_OK /\ length trace = count /\ Forall (fun t => t.2 = NFS4_OK) trace) \/
     (st <> NFS4_OK /\ exists before op response, trace = before ++ [(op, response, st)] /\
        Forall (fun t => t.2 = NFS4_OK) before))).
  { intros Hc E. exact (Hc 0 [] E). }
  revert c s. induction count as [|k IH]; intros c s completed0 results0 E.
  { cbn [operationLoop] in E. injection E as <- <- <- <-. exists [], c. rewrite len_nil, Z.add_0_r, app_nil_r.
    split; [constructor|]. repeat split; try done. left. done. }
  cbn [operationLoop] in E. rewrite Z.eqb_refl in E. cbn [negb] in E.
  destruct (operation_ c) as [op c1] eqn:Eop. destruct (c_err c1) eqn:Ec; [done|].
  destruct (execute op s) as [[[response opStatus]| |] s1] eqn:Ex; [|done|done].
  destruct (decide (opStatus = NFS4_OK)) as [->|Hf].
  - apply IH in E as (trace & c' & Ht & -> & Hl & -> & Hend).
    exists ((op, response, NFS4_OK) :: trace), c'. split.
    { eapply carried_cons; [by rewrite Eop|by rewrite Eop|done|done|done]. }
    split; [rewrite len_cons; lia|]. split; [simpl; lia|]. split; [by rewrite <- app_assoc|].
    destruct Hend as [(-> & Hlen & Hall)|(Hst & before & op' & resp' & -> & Hall)].
    + left. split; [done|]. split; [simpl; lia|]. by constructor.
    + right. split; [done|]. exists ((op, response, NFS4_OK) :: before), op', resp'. split; [done|]. by constructor.
  - assert (E' : (Returned (Some (opStatus, completed0 + 1, results0 ++ response)), s1)
                 = (Returned (Some (st, completed, results)), s')).
    { destruct k; cbn [operationLoop] in E; [done|]. by rewrite (proj2 (Z.eqb_neq _ _) Hf) in E. }
    injection E' as <- <- <- <-. exists [(op, response, opStatus)], c1. split.
    { eapply carried_cons; [by rewrite Eop|by rewrite Eop|done|done|constructor]. }
    split; [done|]. split; [simpl; lia|]. split; [simpl; by rewrite app_nil_r|]. right. split; [done|].
    exists [], op, response. done.
Qed.

Definition toy_loop := operationLoop 2 (newCursor (be_encode 4 99 ++ toy_open)) NFS4_OK 0 [] (newSession toy_world).

Lemma compound_stops_at_failure_witness :
  toy_loop.1 = Returned (Some (NFS4ERR_OP_ILLEGAL, 1, operationError 99 NFS4ERR_OP_ILLEGAL)) /\
  exists trace c', carried (newCursor (be_encode 4 99 ++ toy_open)) (newSession toy_world) trace c' toy_loop.2 /\ 1 = len trace.
Proof.
  assert (E : toy_loop = (Returned (Some (NFS4ERR_OP_ILLEGAL, 1, operationError 99 NFS4ERR_OP_ILLEGAL)), toy_loop.2))
    by (vm_compute; reflexivity).
  split; [by rewrite E|].
  destruct (compound_stops_at_failure 2 (newCursor (be_encode 4 99 ++ toy_open)) (newSession toy_world) _ _ _ _ E)
    as (trace & c' & Ht & Hc & _). by exists trace, c'.
Defined.
