(* ===== verification/NfsServe.v ===== *)
(** * Package internal/nfsserver: Run and Serve

    One goroutine accepts connections, at most 64 at a time, and starts a worker
    for each; cancelling the context closes the listener and every connection
    through functions that run in goroutines of their own.  The shares stay open
    until the last worker has returned. *)

From stdpp Require Import gmap list strings.
From Stdlib Require Import ZArith Lia.
From S2P Require Import Prelude GoStrings GoSync.

(** The capacity of the channel of slots. *)
Definition nfs_maxConnections : nat := 64.

Inductive nfs_pc :=
| NfsStart
| NfsIdle
| NfsListen
| NfsOpenShares
| NfsAccept
| NfsAcceptFailed
| NfsSlot (c : Z)
| NfsSpawn (c : Z)
| NfsRefuse (c : Z)
| NfsCancel (r : exit)
| NfsStopHook (r : exit)
| NfsWait (r : exit)
| NfsCloseShares (r : exit)
| NfsCloseListener (r : exit)
| NfsReturned (r : exit).

(** The worker of a connection: it registers the function that closes the
    connection, serves, and undoes both in the order of its deferred calls. *)
Inductive nfs_worker := WkRegister | WkServe | WkStop | WkSlot | WkClose.

Record nfs_state := mkNfs {
  nv_main : nfs_pc;
  nv_listener : owned;
  nv_shares : bool;
  nv_slots : nat;
  nv_workers : gmap Z nfs_worker;
  nv_hooks : gmap Z hook;
  nv_open : gset Z;
  nv_next : Z
}.

Definition nfs_main (s : nfs_state) (pc : nfs_pc) : option nfs_state :=
  Some (mkNfs pc (nv_listener s) (nv_shares s) (nv_slots s) (nv_workers s) (nv_hooks s) (nv_open s) (nv_next s)).
Definition nfs_own (s : nfs_state) (pc : nfs_pc) (o : owned) : option nfs_state :=
  Some (mkNfs pc o (nv_shares s) (nv_slots s) (nv_workers s) (nv_hooks s) (nv_open s) (nv_next s)).
Definition nfs_shares (s : nfs_state) (pc : nfs_pc) (b : bool) : option nfs_state :=
  Some (mkNfs pc (nv_listener s) b (nv_slots s) (nv_workers s) (nv_hooks s) (nv_open s) (nv_next s)).
Definition nfs_conn (s : nfs_state) (n : nat) (ws : gmap Z nfs_worker) (hs : gmap Z hook) (os : gset Z) : option nfs_state :=
  Some (mkNfs (nv_main s) (nv_listener s) (nv_shares s) n ws hs os (nv_next s)).

Inductive nfs_label :=
| NfsConnect
| NfsHangup (c : Z)
| NfsGo
| NfsHook
| NfsWorker (c : Z)
| NfsConnHook (c : Z)
| NfsFault.

Section run.
(** The number of configured shares. *)
Context (shares : nat).

(** The goroutine of [Run], which continues into [Serve].  Here nobody waits for
    the function that closes the listener: it may still run when [Serve]
    returns, and closes a listener that is closed. *)
Definition Serve_nfs (s : nfs_state) : option nfs_state :=
  let o := nv_listener s in
  match nv_main s with
  | NfsStart =>
      nfs_main s (if (shares =? 0)%nat then NfsIdle else if ow_cancelled o then NfsReturned (Ok tt) else NfsListen)
  | NfsIdle => if ow_cancelled o then nfs_main s (NfsReturned (Ok tt)) else None
  | NfsListen => nfs_own s NfsOpenShares (mkOwned (ow_cancelled o) HNone true)
  | NfsOpenShares => Some (mkNfs NfsAccept (own_opened o) true (nv_slots s) (nv_workers s) (nv_hooks s) (nv_open s) (nv_next s))
  | NfsAccept => if ow_open o then None else nfs_main s NfsAcceptFailed
  | NfsAcceptFailed => nfs_main s (NfsCancel (unlessCancelled o (str "accept NFS connection")))
  | NfsSlot c =>
      if (nv_slots s <? nfs_maxConnections)%nat
      then Some (mkNfs (NfsSpawn c) o (nv_shares s) (S (nv_slots s)) (nv_workers s) (nv_hooks s) (nv_open s) (nv_next s))
      else nfs_main s (NfsRefuse c)
  | NfsRefuse c =>
      Some (mkNfs NfsAccept o (nv_shares s) (nv_slots s) (nv_workers s) (nv_hooks s) (nv_open s ∖ {[c]}) (nv_next s))
  | NfsSpawn c =>
      Some (mkNfs NfsAccept o (nv_shares s) (nv_slots s) (<[c := WkRegister]> (nv_workers s)) (nv_hooks s) (nv_open s) (nv_next s))
  | NfsCancel r => nfs_own s (NfsStopHook r) (own_cancel o)
  | NfsStopHook r => nfs_own s (NfsWait r) (own_stop o).2
  | NfsWait r => if bool_decide (nv_workers s = ∅) then nfs_main s (NfsCloseShares r) else None
  | NfsCloseShares r => nfs_shares s (NfsCloseListener r) false
  | NfsCloseListener r => nfs_own s (NfsReturned r) (own_close o)
  | NfsReturned _ => None
  end.

(** The worker of a connection; a closed connection ends [serveConnection]. *)
Definition nfs_work_step (c : Z) (s : nfs_state) : option nfs_state :=
  match nv_workers s !! c with
  | None => None
  | Some WkRegister =>
      nfs_conn s (nv_slots s) (<[c := WkServe]> (nv_workers s)) (<[c := HArmed]> (nv_hooks s)) (nv_open s)
  | Some WkServe =>
      if bool_decide (c ∈ nv_open s) then None
      else nfs_conn s (nv_slots s) (<[c := WkStop]> (nv_workers s)) (nv_hooks s) (nv_open s)
  | Some WkStop =>
      nfs_conn s (nv_slots s) (<[c := WkSlot]> (nv_workers s))
        (match nv_hooks s !! c with Some h => <[c := (hook_stop h).2]> (nv_hooks s) | None => nv_hooks s end) (nv_open s)
  | Some WkSlot => nfs_conn s (Nat.pred (nv_slots s)) (<[c := WkClose]> (nv_workers s)) (nv_hooks s) (nv_open s)
  | Some WkClose => nfs_conn s (nv_slots s) (delete c (nv_workers s)) (nv_hooks s) (nv_open s ∖ {[c]})
  end.

(** The function that closes a connection. *)
Definition nfs_conn_hook (c : Z) (s : nfs_state) : option nfs_state :=
  match nv_hooks s !! c with
  | None => None
  | Some h =>
      match hook_step (ow_cancelled (nv_listener s)) h with
      | None => None
      | Some h =>
          nfs_conn s (nv_slots s) (nv_workers s) (<[c := h]> (nv_hooks s))
            (if bool_decide (h = HClosed) then nv_open s ∖ {[c]} else nv_open s)
      end
  end.

Definition Run_nfs (l : nfs_label) (s : nfs_state) : option nfs_state :=
  match l with
  | NfsConnect =>
      match nv_main s with
      | NfsAccept =>
          if ow_open (nv_listener s) then
            Some (mkNfs (NfsSlot (nv_next s)) (nv_listener s) (nv_shares s) (nv_slots s) (nv_workers s) (nv_hooks s)
                    ({[nv_next s]} ∪ nv_open s) (nv_next s + 1))
          else None
      | _ => None
      end
  | NfsHangup c =>
      match nv_workers s !! c with
      | Some WkServe => nfs_conn s (nv_slots s) (<[c := WkStop]> (nv_workers s)) (nv_hooks s) (nv_open s)
      | _ => None
      end
  | NfsGo => Serve_nfs s
  | NfsHook => match own_hook (nv_listener s) with Some o => nfs_own s (nv_main s) o | None => None end
  | NfsWorker c => nfs_work_step c s
  | NfsConnHook c => nfs_conn_hook c s
  | NfsFault =>
      match nv_main s with
      | NfsListen => nfs_main s (NfsReturned (Err (str "listen for NFS")))
      | NfsOpenShares => nfs_main s (NfsCloseListener (Err (str "open NFS shares")))
      | NfsAccept => if ow_open (nv_listener s) then nfs_main s NfsAcceptFailed else None
      | _ => None
      end
  end.

Definition nfs_machine : machine := {|
  mc_state := nfs_state;
  mc_label := nfs_label;
  mc_init := mkNfs NfsStart own_init false 0 ∅ ∅ ∅ 0;
  mc_step := Run_nfs;
  mc_cancel s := mkNfs (nv_main s) (own_cancel (nv_listener s)) (nv_shares s) (nv_slots s) (nv_workers s) (nv_hooks s)
                   (nv_open s) (nv_next s);
  mc_cancelled s := ow_cancelled (nv_listener s);
  mc_arrives l := match l with NfsConnect => true | _ => false end;
  mc_own l := match l with NfsConnect | NfsHangup _ | NfsFault => false | _ => true end;
  mc_fault l := match l with NfsFault => true | _ => false end;
  mc_returned s := match nv_main s with NfsReturned r => Some r | _ => None end;
  mc_released s := negb (ow_open (nv_listener s)) && negb (nv_shares s) && bool_decide (nv_open s = ∅)
                   && bool_decide (nv_workers s = ∅)
|}.

(** ** Facts *)

(** One case for each step that is enabled. *)
Ltac nfs_cases E :=
  cbn [mc_step nfs_machine] in E;
  match type of E with Run_nfs ?l _ = _ => destruct l end; unfold Run_nfs, Serve_nfs, nfs_work_step, nfs_conn_hook in E;
  step_cases E; unfold nfs_main, nfs_own, nfs_shares, nfs_conn in *;
  repeat match goal with H : Some _ = Some _ |- _ => injection H as H; subst end;
  cbn [nv_main nv_listener nv_shares nv_slots nv_workers nv_hooks nv_open nv_next] in *.

(** Reading a worker or a hook after an update. *)
Ltac nfs_reads :=
  repeat match goal with
  | |- context [<[?c := _]> _ !! ?c'] => destruct (decide (c = c')) as [<-|];
      [rewrite ?lookup_insert_eq in *|rewrite ?lookup_insert_ne in * by done]
  | |- context [delete ?c _ !! ?c'] => destruct (decide (c = c')) as [<-|];
      [rewrite ?lookup_delete_eq in *|rewrite ?lookup_delete_ne in * by done]
  end.

(** The connection the accepting goroutine has in hand. *)
Definition main_conn (pc : nfs_pc) : option Z :=
  match pc with NfsSlot c | NfsSpawn c | NfsRefuse c => Some c | _ => None end.

Record nfs_fresh (s : nfs_state) : Prop := {
  nf_main c : main_conn (nv_main s) = Some c -> c < nv_next s /\ nv_workers s !! c = None /\ nv_hooks s !! c = None;
  nf_worker c w : nv_workers s !! c = Some w -> c < nv_next s;
  nf_hook c h : nv_hooks s !! c = Some h -> c < nv_next s;
  nf_open c : c ∈ nv_open s -> c < nv_next s
}.

Lemma nfs_fresh_step l s s' : nfs_fresh s -> Run_nfs l s = Some s' -> nfs_fresh s'.
Proof.
  intros [H1 H2 H3 H4] E.
  assert (Hn : nv_workers s !! nv_next s = None /\ nv_hooks s !! nv_next s = None).
  { split; [destruct (nv_workers s !! nv_next s) eqn:Ex; [apply H2 in Ex; lia|done]|].
    destruct (nv_hooks s !! nv_next s) eqn:Ex; [apply H3 in Ex; lia|done]. }
  nfs_cases E; split; intros c''; cbn [nv_main nv_workers nv_hooks nv_open nv_next main_conn]; try done; try by eauto.
  all: rewrite ?elem_of_union, ?elem_of_difference, ?elem_of_singleton; nfs_reads; intros; simplify_eq; try by eauto.
  all: try (match goal with H : main_conn _ = Some _ |- _ => destruct (H1 _ H) as (?&?&?) end); try by (split_and!; congruence).
  all: try (destruct (H1 _ eq_refl) as (?&?&?); done).
  - split; [lia|done].
  - match goal with H : nv_workers _ !! _ = _ |- _ => apply H2 in H; lia end.
  - match goal with H : nv_hooks _ !! _ = _ |- _ => apply H3 in H; lia end.
  - match goal with H : _ \/ _ |- _ => destruct H as [->|H%H4]; lia end.
  - match goal with H : _ /\ _ |- _ => by apply H4, H end.
  - match goal with H : _ /\ _ |- _ => by apply H4, H end.
  - match goal with H : _ /\ _ |- _ => by apply H4, H end.
Qed.

(** A connection that is served has a function that closes it, which has done
    nothing yet while the connection is open; and an open connection is in hand
    or has a worker. *)
Definition hook_armed (h : hook) (open : bool) : bool :=
  match h with HArmed | HStarted => true | HClosed | HFinished => negb open | HNone | HStopped => false end.

Record nfs_conns (s : nfs_state) : Prop := {
  nc_register c : nv_workers s !! c = Some WkRegister -> nv_hooks s !! c = None;
  nc_serve c w : nv_workers s !! c = Some w -> w = WkServe \/ w = WkStop ->
    exists h, nv_hooks s !! c = Some h /\ hook_armed h (bool_decide (c ∈ nv_open s)) = true;
  nc_open c : c ∈ nv_open s -> main_conn (nv_main s) = Some c \/ is_Some (nv_workers s !! c)
}.

Lemma hook_armed_step c h h' b :
  hook_step c h = Some h' -> hook_armed h b = true -> hook_armed h' (if bool_decide (h' = HClosed) then false else b) = true.
Proof. destruct h, c, b; intros [=]; subst; done. Qed.

Lemma hook_armed_sub h (A B : gset Z) c :
  (c ∈ A -> c ∈ B) -> hook_armed h (bool_decide (c ∈ B)) = true -> hook_armed h (bool_decide (c ∈ A)) = true.
Proof. intros Hs. destruct h; simpl; try done; do 2 case_bool_decide; naive_solver. Qed.

Lemma nfs_conns_step l s s' : nfs_fresh s -> nfs_conns s -> Run_nfs l s = Some s' -> nfs_conns s'.
Proof.
  intros Hf [H1 H2 H3] E. pose proof (nf_main s Hf) as Hm.
  nfs_cases E; split; intros c''; cbn [nv_main nv_workers nv_hooks nv_open main_conn] in *; try done; try by eauto.
  all: rewrite ?elem_of_union, ?elem_of_difference, ?elem_of_singleton; nfs_reads; try done; try by eauto.
  all: try (intros w'' Hw Hc; destruct (H2 _ _ Hw Hc) as (h'' & Hh & Ha); exists h''; split; [done|];
    eapply hook_armed_sub; [|exact Ha]; by intros [Ho _]%elem_of_difference).
  all: try (intros w'' [= <-] [|]; done).
  all: try (intros [Ho _]; by auto).
  - intros w'' Hw Hc. destruct (H2 _ _ Hw Hc) as (h'' & Hh & Ha). exists h''. split; [done|].
    eapply hook_armed_sub; [|exact Ha]. apply (nf_worker s Hf) in Hw. rewrite elem_of_union, elem_of_singleton.
    intros [->|Ho]; [lia|done].
  - intros [->|Ho]; [by left|right]. by destruct (H3 _ Ho).
  - intros _. by apply Hm.
  - intros Ho. destruct (H3 _ Ho) as [[= <-]|?]; [done|by right].
  - intros [Ho Hne]. destruct (H3 _ Ho) as [[= <-]|?]; [done|by right].
  - intros [_ Hne]. done.
  - intros Hw. rewrite (H1 _ Hw) in *. done.
  - intros w'' Hw Hc. destruct (H2 _ _ Hw Hc) as (h'' & Hh & Ha). simplify_eq. exists h0. split; [done|].
    rewrite bool_decide_false by set_solver.
    match goal with H : hook_step _ _ = _, Hb : bool_decide (h0 = _) = _ |- _ =>
      pose proof (hook_armed_step _ _ _ _ H Ha) as Hx; by rewrite Hb in Hx end.
  - intros Hw. rewrite (H1 _ Hw) in *. done.
  - intros w'' Hw Hc. destruct (H2 _ _ Hw Hc) as (h'' & Hh & Ha). simplify_eq. exists h0. split; [done|].
    match goal with H : hook_step _ _ = _, Hb : bool_decide (h0 = _) = _ |- _ =>
      pose proof (hook_armed_step _ _ _ _ H Ha) as Hx; by rewrite Hb in Hx end.
Qed.

(** A slot is taken for every worker that has not given it back, and for the
    connection that is about to get one. *)
Definition takes_slot (w : nfs_worker) : nat := match w with WkClose => 0 | _ => 1 end.

Definition nfs_slots (s : nfs_state) : Prop :=
  (nv_slots s <= nfs_maxConnections)%nat /\
  nv_slots s = (msum takes_slot (nv_workers s) + match nv_main s with NfsSpawn _ => 1 | _ => 0 end)%nat.

Lemma nfs_slots_step l s s' : nfs_fresh s -> nfs_slots s -> Run_nfs l s = Some s' -> nfs_slots s'.
Proof.
  intros Hf [H1 H2] E. pose proof (nf_main s Hf) as Hm. unfold nfs_slots.
  nfs_cases E; try match goal with H : (_ <? _)%nat = true |- _ => apply Nat.ltb_lt in H end; cbn [main_conn] in Hm;
    repeat match goal with
    | H : nv_workers _ !! _ = Some _ |- context [msum _ (<[?c := ?w]> _)] =>
        pose proof (msum_insert takes_slot _ c _ w H); cbn [takes_slot] in *; clear H
    | H : nv_workers _ !! _ = Some _ |- context [msum _ (delete ?c _)] =>
        pose proof (msum_delete takes_slot _ c _ H); cbn [takes_slot] in *; clear H
    end; try (destruct (nv_main s); lia).
  destruct (Hm c eq_refl) as (_ & Hw & _). rewrite (msum_insert_new _ _ _ _ Hw). cbn [takes_slot]. lia.
Qed.

(** Where the goroutine of [Run] stands: how far the listener is, whether the
    shares are open, and that there are workers only while they are. *)
Inductive stage := Outside | Bound | Accepting | Draining | Drained.

Definition nfs_stage (pc : nfs_pc) : stage :=
  match pc with
  | NfsStart | NfsIdle | NfsListen => Outside
  | NfsOpenShares => Bound
  | NfsAccept | NfsAcceptFailed | NfsSlot _ | NfsSpawn _ | NfsRefuse _ | NfsCancel _ | NfsStopHook _ => Accepting
  | NfsWait _ | NfsCloseShares _ => Draining
  | NfsCloseListener _ | NfsReturned _ => Drained
  end.

Definition nfs_exit (s : nfs_state) : Prop :=
  match nv_main s with
  | NfsCancel r | NfsCloseListener r | NfsReturned r => exit_reason (nv_listener s) r
  | NfsStopHook r | NfsWait r | NfsCloseShares r => ow_cancelled (nv_listener s) = true
  | _ => True
  end.

Record nfs_stages (s : nfs_state) : Prop := {
  ns_listener : match nfs_stage (nv_main s) with
    | Outside => ow_hook (nv_listener s) = HNone /\ ow_open (nv_listener s) = false
    | Bound => ow_hook (nv_listener s) = HNone
    | Accepting => phase_hook Serving (nv_listener s) = true
    | Draining | Drained => True
    end;
  ns_shares : nv_shares s = match nfs_stage (nv_main s) with Accepting | Draining => true | _ => false end;
  ns_workers : match nfs_stage (nv_main s) with Accepting => True | Draining =>
      match nv_main s with NfsCloseShares _ => nv_workers s = ∅ | _ => True end | _ => nv_workers s = ∅ end;
  ns_returned r : nv_main s = NfsReturned r -> ow_open (nv_listener s) = false;
  ns_exit : nfs_exit s
}.

Lemma nfs_stages_step l s s' : nfs_stages s -> Run_nfs l s = Some s' -> nfs_stages s'.
Proof.
  intros [H1 H2 H3 H4 H5] E. unfold nfs_exit in *.
  nfs_cases E; cbn [nfs_stage] in *; split; unfold nfs_exit; cbn [nv_main nv_listener nv_shares nv_workers nfs_stage]; try done; try by eauto with own.
  all: try (destruct (nfs_stage (nv_main s)), (nv_main s); rewrite ?H3 in *; done).
  all: try (intros _ _; by apply H1).
  - by destruct (nv_listener s) as [[] [] []].
  - by bool_hyps.
  - match goal with H : own_hook _ = Some _ |- _ =>
      destruct (nfs_stage (nv_main s)); [|by rewrite own_hook_none in H by done|by eapply own_hook_ok|done|done];
      by rewrite own_hook_none in H by apply H1 end.
  - intros r Hr. eapply own_hook_closed; eauto.
  - match goal with H : own_hook _ = Some _ |- _ => pose proof (own_hook_cancelled _ _ H) as Hc end.
    destruct (nv_main s); try done; [by eapply exit_reason_hook|congruence..|by eapply exit_reason_hook|by eapply exit_reason_hook].
Qed.

(** ** The service *)

Record nfs_inv (s : nfs_state) : Prop := {
  nw_fresh : nfs_fresh s;
  nw_conns : nfs_conns s;
  nw_slots : nfs_slots s;
  nw_stages : nfs_stages s
}.

Lemma nfs_inv_init : nfs_inv (mc_init nfs_machine).
Proof. split; (split; try done). cbn. unfold nfs_maxConnections. lia. Qed.

Lemma nfs_inv_step l s s' : nfs_inv s -> Run_nfs l s = Some s' -> nfs_inv s'.
Proof.
  intros [H1 H2 H3 H4] E. split; [by eapply nfs_fresh_step|by eapply nfs_conns_step|by eapply nfs_slots_step|by eapply nfs_stages_step].
Qed.

Lemma nfs_inv_cancel s : nfs_inv s -> nfs_inv (mc_cancel nfs_machine s).
Proof.
  intros [[] [] H3 [H4 H5 H6 H7 H8]]. split; [by split|by split|done|]. split; try done.
  - cbn. by destruct (nfs_stage (nv_main s)); try apply own_cancel_ok.
  - unfold nfs_exit in *. cbn. destruct (nv_main s); try done; by apply exit_reason_cancelled.
Qed.

Lemma nfs_reachable s : reachable nfs_machine s -> nfs_inv s.
Proof. apply reachable_invariant; [exact nfs_inv_init|exact nfs_inv_step|exact nfs_inv_cancel]. Qed.

(** A worker of a cancelled server is never stuck: its connection is closed, or
    the function that closes it is on its way. *)
Lemma nfs_worker_steps s c w :
  nfs_inv s -> ow_cancelled (nv_listener s) = true -> nv_workers s !! c = Some w ->
  exists l, mc_own nfs_machine l = true /\ is_Some (Run_nfs l s).
Proof.
  intros Hi Hc Hw. destruct w; try (exists (NfsWorker c); split; [done|]; cbn [Run_nfs]; unfold nfs_work_step; by rewrite Hw).
  destruct (nc_serve s (nw_conns s Hi) c _ Hw (or_introl eq_refl)) as (h & Hh & Ha).
  case_bool_decide as Ho.
  - exists (NfsConnHook c). split; [done|]. cbn [Run_nfs]. unfold nfs_conn_hook. rewrite Hh, Hc. by destruct h.
  - exists (NfsWorker c). split; [done|]. cbn [Run_nfs]. unfold nfs_work_step. rewrite Hw. by rewrite bool_decide_false.
Qed.

Lemma nfs_progress s :
  nfs_inv s -> ow_cancelled (nv_listener s) = true -> mc_returned nfs_machine s = None ->
  exists l, mc_own nfs_machine l = true /\ is_Some (Run_nfs l s).
Proof.
  intros Hi Hc Hr. pose proof (ns_listener s (nw_stages s Hi)) as Hl. cbn [mc_returned nfs_machine] in Hr.
  assert (Hgo : is_Some (Serve_nfs s) -> exists l, mc_own nfs_machine l = true /\ is_Some (Run_nfs l s)) by by exists NfsGo.
  unfold Serve_nfs in Hgo. destruct (nv_main s) eqn:Em; try discriminate Hr; cbn [nfs_stage] in Hl; try (apply Hgo; done).
  - apply Hgo. by rewrite Hc.
  - destruct (ow_open (nv_listener s)) eqn:Ho; [|by apply Hgo].
    exists NfsHook. split; [done|]. cbn [Run_nfs]. by destruct (own_open_hook _ Hl Hc Ho) as [o ->].
  - apply Hgo. by destruct (_ <? _)%nat.
  - destruct (map_choose_or_empty (nv_workers s)) as [(c & w & Hw)|Hw]; [by eapply nfs_worker_steps|].
    apply Hgo. by rewrite bool_decide_true.
Qed.

Definition nfs_rank (pc : nfs_pc) : nat :=
  match pc with
  | NfsStart => 40 | NfsIdle => 39 | NfsListen => 39 | NfsOpenShares => 38
  | NfsSlot _ => 24 | NfsSpawn _ => 23 | NfsRefuse _ => 22 | NfsAccept => 8 | NfsAcceptFailed => 7 | NfsCancel _ => 6
  | NfsStopHook _ => 5 | NfsWait _ => 4 | NfsCloseShares _ => 3 | NfsCloseListener _ => 2 | NfsReturned _ => 0
  end.

Definition nfs_worker_rank (w : nfs_worker) : nat :=
  match w with WkRegister => 9 | WkServe => 4 | WkStop => 3 | WkSlot => 2 | WkClose => 1 end.

Definition nfs_work (s : nfs_state) : nat :=
  nfs_rank (nv_main s) + hook_work (ow_hook (nv_listener s)) + msum nfs_worker_rank (nv_workers s) + msum hook_work (nv_hooks s).

Lemma hook_step_work c h h' : hook_step c h = Some h' -> (hook_work h' < hook_work h)%nat.
Proof. destruct h, c; intros [=]; subst; simpl; lia. Qed.

Lemma hook_stop_work h : (hook_work (hook_stop h).2 <= hook_work h)%nat.
Proof. destruct h; simpl; lia. Qed.

Lemma nfs_work_decreases l s s' :
  nfs_inv s -> Run_nfs l s = Some s' ->
  (nfs_work s' < nfs_work s + if mc_arrives nfs_machine l then 17 else 0)%nat.
Proof.
  intros Hi E. unfold nfs_work.
  nfs_cases E; cbn [mc_arrives nfs_machine]; own_facts;
    repeat match goal with
    | H : nv_workers _ !! _ = Some _ |- context [msum _ (<[?c := ?w]> (nv_workers _))] =>
        pose proof (msum_insert nfs_worker_rank _ c _ w H); cbn [nfs_worker_rank] in *; clear H
    | H : nv_workers _ !! _ = Some _ |- context [msum _ (delete ?c (nv_workers _))] =>
        pose proof (msum_delete nfs_worker_rank _ c _ H); cbn [nfs_worker_rank] in *; clear H
    | H : nv_hooks _ !! _ = Some _ |- context [msum _ (<[?c := ?h]> (nv_hooks _))] =>
        pose proof (msum_insert hook_work _ c _ h H); clear H
    | H : hook_step _ _ = Some _ |- _ => apply hook_step_work in H
    end; cbn [nfs_rank]; try lia.
  - pose proof (msum_insert_le nfs_worker_rank (nv_workers s) c WkRegister) as Hw. cbn [nfs_worker_rank] in Hw. lia.
  - destruct (own_stop (nv_listener s)) as [b o] eqn:Ho. apply own_stop_work in Ho. cbn [snd]. lia.
  - pose proof (msum_insert_le hook_work (nv_hooks s) c HArmed) as Hh. cbn [hook_work] in Hh. lia.
  - pose proof (hook_stop_work h). lia.
Qed.

Lemma nfs_released s r : nfs_inv s -> mc_returned nfs_machine s = Some r -> mc_released nfs_machine s = true.
Proof.
  intros [_ Hc _ [_ Hs Hw Ho _]] Hr. cbn [mc_returned mc_released nfs_machine] in *.
  destruct (nv_main s) eqn:Em; try discriminate Hr. cbn [nfs_stage] in *. rewrite (Ho _ eq_refl), Hs, Hw.
  assert (He : nv_open s = ∅); [|by rewrite He]. apply set_eq. intros c. split; [|set_solver].
  intros [Hx|[w Hx]]%(nc_open s Hc); [by rewrite Em in Hx|by rewrite Hw in Hx].
Qed.

#[export, refine] Instance nfs_stoppable : Stoppable nfs_machine := {
  st_work := nfs_work : mc_state nfs_machine -> nat;
  st_load := 17
}.
Proof.
  - by intros [].
  - intros l s s' Hs. apply nfs_work_decreases. by apply nfs_reachable.
  - done.
  - done.
  - intros l s s' E Hc. cbn [mc_cancelled nfs_machine] in *. nfs_cases E; own_facts; try congruence.
    by destruct (nv_listener s) as [[] [] []].
  - intros s Hs. apply nfs_progress. by apply nfs_reachable.
  - intros l s s' r E Hr. cbn [mc_returned nfs_machine] in *. by nfs_cases E.
  - done.
  - intros s r Hs. apply nfs_released. by apply nfs_reachable.
Defined.

(** Without faults every way out is the cancelled context. *)
Definition nfs_clean (s : nfs_state) : Prop :=
  match nv_main s with
  | NfsAcceptFailed => ow_cancelled (nv_listener s) = true
  | NfsCancel r | NfsStopHook r | NfsWait r | NfsCloseShares r | NfsCloseListener r | NfsReturned r => r = Ok tt
  | _ => True
  end.

Lemma nfs_clean_step l s s' :
  mc_fault nfs_machine l = false -> nfs_inv s -> nfs_clean s -> Run_nfs l s = Some s' -> nfs_clean s'.
Proof.
  intros Hl Hi Hc E. pose proof (ns_listener s (nw_stages s Hi)) as Hs. unfold nfs_clean, unlessCancelled in *.
  nfs_cases E; try discriminate Hl; cbn [nfs_stage] in *; try done; eauto with own.
  - unfold unlessCancelled. by rewrite Hc.
  - own_facts. destruct (nv_main s); congruence.
Qed.

#[export] Instance nfs_clean_exit : Clean nfs_machine.
Proof.
  split. intros s r Hs Hr. enough (Hc : nfs_inv s /\ nfs_clean s).
  { destruct Hc as [_ Hc]. unfold nfs_clean in Hc. cbn in Hr. destruct (nv_main s); congruence. }
  clear Hr. revert s Hs. apply reachable_by_invariant; [split; [exact nfs_inv_init|done]| |].
  - intros l s s' Hl [Hi Hc] E. split; [by eapply nfs_inv_step|by eapply nfs_clean_step].
  - intros s [Hi Hc]. split; [by apply nfs_inv_cancel|]. unfold nfs_clean in *. cbn. by destruct (nv_main s).
Qed.

(** ** Properties *)

(** C32: At most 64 connections are served at a time; the shares are open as long as
    there is any worker, so none of them works on closed directories; and when
    [Run] returns nothing is open and no worker is left. *)
Theorem nfs_connections_bounded s (served : gset Z) :
  reachable nfs_machine s -> (forall c, c ∈ served -> nv_workers s !! c = Some WkServe) ->
  (size served <= nfs_maxConnections)%nat /\ (nv_workers s <> ∅ -> nv_shares s = true) /\
  (mc_returned nfs_machine s <> None ->
   ow_open (nv_listener s) = false /\ nv_shares s = false /\ nv_open s = ∅ /\ nv_workers s = ∅).
Proof.
  intros Hs Hw. pose proof (nfs_reachable s Hs) as Hi. split; [|split].
  - destruct (nw_slots s Hi) as [Hl He]. pose proof (msum_size takes_slot (nv_workers s) served) as Hx.
    assert (Hy : (size served <= msum takes_slot (nv_workers s))%nat); [|lia].
    apply Hx. intros c Hc. exists WkServe. split; [by apply Hw|done].
  - intros Hne. destruct (nw_stages s Hi) as [_ -> Hx _ _]. destruct (nfs_stage (nv_main s)); try done.
  - intros Hr. destruct (mc_returned nfs_machine s) as [r|] eqn:Er; [|done].
    pose proof (nfs_released s r Hi Er) as Hx. cbn [mc_released nfs_machine] in Hx. bool_hyps. done.
Qed.
End run.

Definition nfs_schedule : list nfs_label := [NfsGo; NfsGo; NfsGo; NfsConnect; NfsGo; NfsGo; NfsWorker 0].

Lemma nfs_connections_bounded_witness :
  exists s, exec (M := nfs_machine 1) nfs_schedule (mc_init (nfs_machine 1)) = Some s /\
    nv_workers s !! 0 = Some WkServe /\ nv_shares s = true.
Proof.
  destruct (exec (M := nfs_machine 1) nfs_schedule (mc_init (nfs_machine 1))) as [s|] eqn:E;
    [|exfalso; vm_compute in E; discriminate E].
  assert (Hw : nv_workers s !! 0 = Some WkServe) by (vm_compute in E; injection E as <-; reflexivity).
  exists s. split; [reflexivity|]. split; [exact Hw|].
  refine (proj1 (proj2 (nfs_connections_bounded 1 s {[0]} _ _)) _).
  - exact (exec_reachable (nfs_machine 1) nfs_schedule _ s (ReachInit (nfs_machine 1) _) E).
  - intros c ->%elem_of_singleton. exact Hw.
  - intros He. rewrite He in Hw. discriminate Hw.
Defined.
