(* ===== verification/Gateway.v ===== *)
(** * gateway: pages, downloads and boot files

    server.go and boot.go: what the gateway answers to a request over HTTP or
    HTTPS.  Routing, headers and bodies are definitions; the ACME handler and
    net/http's file server are what a request is handed to, the latter with the
    file system [bootFiles], whose calls to the operating system are those of
    NfsFs.  The page is a function of hostname and fingerprint. *)

From stdpp Require Import gmap list strings.
From Stdlib Require Import ZArith Lia.
From S2P Require Import Prelude GoStrings GoNet GoAddr GoPath GoHash GoKeys Names Pki NfsProto NfsFs.

(** ** Data *)

Record GatewayConfig := mkGatewayConfig {
  gc_Address : bytes; gc_HTTPAddress : bytes; gc_Domain : bytes; gc_BootDirectory : bytes; gc_ACME : bool }.

Record GatewayServer := mkGateway {
  gs_config : GatewayConfig; gs_hostname : bytes; gs_rootPEM : bytes; gs_rootDER : bytes; gs_page : bytes;
  gs_fingerprint : bytes }.

Record gw_request := mkGwRequest { gr_Method : bytes; gr_Path : bytes; gr_RawQuery : bytes; gr_TLS : bool }.

(** A response: status, headers and the body sent. *)
Record gw_response := mkGwResponse { gw_status : Z; gw_headers : list (string * bytes); gw_body : bytes }.

(** What becomes of a request, with the headers set before. *)
Inductive gw_outcome :=
| GwReply (r : gw_response)
| GwAcme (headers : list (string * bytes))
| GwRedirect (target : bytes) (headers : list (string * bytes))
| GwFiles (root name : bytes) (headers : list (string * bytes)).

(** ** New *)

Definition gw_validateAddress (address : bytes) : bool :=
  match SplitHostPort address with
  | None => false
  | Some (host, port) =>
      if negb (beq host []) && match ParseAddr host with Some ip => IsMulticast ip | None => true end then false
      else match Atoi port with
           | Some number => negb ((number <? 0) || (65535 <? number))
           | None => false
           end
  end.

(** No bound below: an empty name has an empty label. *)
Definition gw_validHostname (hostname : bytes) : bool := if 253 <? len hostname then false else validLabels hostname.

(** [bytes.Count] of a nonempty separator. *)
Fixpoint countFrom (fuel : nat) (s sep : bytes) : Z :=
  match fuel with
  | O => 0
  | S k => match s with
           | [] => 0
           | _ :: r => if HasPrefix s sep then 1 + countFrom k (drop (length sep) s) sep else countFrom k r sep
           end
  end.
Definition BytesCount (s sep : bytes) : Z := countFrom (length s) s sep.

(** The bytes of a digest in upper case hexadecimal, separated by colons. *)
Definition upperHex (n : Z) : Z := if n <? 10 then 48 + n else 55 + n.
Definition fingerprintOf (digest : bytes) : bytes := Join (map (fun b => [upperHex (b / 16); upperHex (b mod 16)]) digest) [58].

Inductive gw_error := GwAddress | GwHTTPAddress | GwHostname | GwProvider | GwRootPEM | GwRootParse | GwRootKind | GwRootSignature
  | GwPage | GwBoot.

(** [prepareBootDirectory], given whether the directory can be created and opened. *)
Definition prepareBootDirectory (directory : bytes) (usable : bool) : bool := beq directory [] || usable.

Section new.
Context `{PkiLib} (renderPage : bytes -> bytes -> option bytes).

(** [New]; [provider] says that there is a certificate provider. *)
Definition New_gateway (c : GatewayConfig) (rootPEM : bytes) (provider bootUsable : bool) : Prelude.result gw_error GatewayServer :=
  if negb (gw_validateAddress (gc_Address c)) then Err GwAddress
  else if negb (gw_validateAddress (gc_HTTPAddress c)) then Err GwHTTPAddress
  else
    let domain := ToLower (TrimSuffix (TrimSpace (gc_Domain c)) [DOT]) in
    let c := mkGatewayConfig (gc_Address c) (gc_HTTPAddress c) domain (gc_BootDirectory c) (gc_ACME c) in
    let hostname := str "gateway." ++ domain in
    if negb (gw_validHostname hostname) then Err GwHostname
    else if negb provider then Err GwProvider
    else
      let rootPEM := TrimSpace rootPEM in
      if negb (HasPrefix rootPEM (str "-----BEGIN CERTIFICATE-----")) || negb (BytesCount rootPEM (str "-----BEGIN ") =? 1)
      then Err GwRootPEM
      else match pem_Decode rootPEM with
      | None => Err GwRootPEM
      | Some (ty, headers, block, rest) =>
          if negb (beq ty (str "CERTIFICATE")) || headers || negb (beq (TrimSpace rest) []) then Err GwRootPEM
          else match ParseCert block with
          | None => Err GwRootParse
          | Some root =>
              if negb (c_IsCA root) || negb (c_BasicConstraintsValid root) || (Z.land (c_KeyUsage root) KeyUsageCertSign =? 0)
                 || negb (beq (c_RawIssuer root) (c_RawSubject root)) then Err GwRootKind
              else if negb (CheckSignatureFrom root root) then Err GwRootSignature
              else
                let fingerprint := fingerprintOf (Sum256 (c_Raw root)) in
                match renderPage hostname fingerprint with
                | None => Err GwPage
                | Some page =>
                    if negb (prepareBootDirectory (gc_BootDirectory c) bootUsable) then Err GwBoot
                    else Ok (mkGateway c hostname (pemEncode "CERTIFICATE" (c_Raw root)) (c_Raw root) page fingerprint)
                end
          end
      end.
End new.

(** ** Responses *)

(** [write]: HEAD gets the headers only. *)
Definition gw_write (r : gw_request) (headers : list (string * bytes)) (status : Z) (contentType : string) (body : bytes)
    : gw_outcome :=
  GwReply (mkGwResponse status
    (headers ++ [("Content-Type"%string, str contentType); ("Content-Length"%string, Itoa (len body))])
    (if beq (gr_Method r) (str "HEAD") then [] else body)).

(** The headers of every response. *)
Definition gw_common (tls : bool) : list (string * bytes) :=
  map (fun h => (h.1, str h.2))
    ([("Content-Security-Policy", "default-src 'none'; style-src 'unsafe-inline'; base-uri 'none'; frame-ancestors 'none'; form-action 'none'");
      ("X-Content-Type-Options", "nosniff"); ("X-Frame-Options", "DENY"); ("Referrer-Policy", "no-referrer")]%string
     ++ (if tls then [("Strict-Transport-Security", "max-age=31536000")]%string else [])
     ++ [("Cache-Control", "no-store")]%string).

Definition gw_text (s : string) : bytes := str s ++ [10].
Definition textPlain : string := "text/plain; charset=utf-8".

(** ** Boot files *)

(** The file name of a request below /boot/. *)
Definition bootName (path : bytes) : bytes := TrimSuffix (TrimPrefix path (str "/boot/")) [SLASH].

(** [serveBoot]; [openable] says whether the boot directory can be opened now. *)
Definition serveBoot (s : GatewayServer) (r : gw_request) (headers : list (string * bytes)) (openable : bool) : gw_outcome :=
  if beq (gr_Path r) (str "/boot")
  then GwRedirect (str "/boot/" ++ if beq (gr_RawQuery r) [] then [] else [63] ++ gr_RawQuery r) headers
  else
    let name := bootName (gr_Path r) in
    if negb (beq name []) && (negb (ValidPath name) || ContainsByte name 92 || ContainsByte name 0)
    then gw_write r headers 404 textPlain (gw_text "not found")
    else if negb openable then gw_write r headers 404 textPlain (gw_text "not found")
    else GwFiles (gc_BootDirectory (gs_config s)) name headers.

(** [ServeHTTP]. *)
Definition gw_ServeHTTP (s : GatewayServer) (r : gw_request) (bootOpenable : bool) : gw_outcome :=
  let headers := gw_common (gr_TLS r) in
  if gc_ACME (gs_config s) && HasPrefix (gr_Path r) (str "/acme/") then
    if negb (gr_TLS r) then gw_write r headers 403 textPlain (gw_text "ACME requires HTTPS")
    else GwAcme headers
  else if negb (beq (gr_Method r) (str "GET")) && negb (beq (gr_Method r) (str "HEAD"))
  then gw_write r (headers ++ [("Allow"%string, str "GET, HEAD")]) 405 textPlain (gw_text "method not allowed")
  else if negb (beq (gc_BootDirectory (gs_config s)) [])
          && (beq (gr_Path r) (str "/boot") || HasPrefix (gr_Path r) (str "/boot/"))
  then serveBoot s r headers bootOpenable
  else if beq (gr_Path r) (str "/") then gw_write r headers 200 "text/html; charset=utf-8" (gs_page s)
  else if beq (gr_Path r) (str "/ca.pem") then
    gw_write r (headers ++ [("Content-Disposition"%string, str "attachment; filename=" ++ [34] ++ str "root-ca.pem" ++ [34])])
      200 "application/x-pem-file" (gs_rootPEM s)
  else if beq (gr_Path r) (str "/ca.crt") then
    gw_write r (headers ++ [("Content-Disposition"%string, str "attachment; filename=" ++ [34] ++ str "root-ca.crt" ++ [34])])
      200 "application/pkix-cert" (gs_rootDER s)
  else gw_write r headers 404 textPlain (gw_text "not found").

(** ** The file system of the file server *)

Inductive fs_error := FsNotExist | FsPermission.

(** [bootFiles.Open]: a descriptor. *)
Definition bootOpen `{OS} (root name : bytes) : St world (Prelude.result fs_error nat) := fun w =>
  let '(r, w) := openAt root name (Z.lor O_RDONLY O_NONBLOCK) 0 w in
  match r with
  | Err ErrNotExist => (Err FsNotExist, w)
  | Err _ => (Err FsPermission, w)
  | Ok fd =>
      let '(info, w) := call (FStat fd) w in
      match info with
      | Ok info => if exportable info then (Ok fd, w) else let '(_, w) := closeFd fd w in (Err FsPermission, w)
      | Err _ => let '(_, w) := closeFd fd w in (Err FsPermission, w)
      end
  end.
