(* ===== verification/GatewayProps.v ===== *)
(** * gateway: properties

    What a request can reach: the ACME server only over TLS, boot files only below
    the boot directory and only for reading; and that HEAD answers as GET does. *)

From stdpp Require Import gmap list strings.
From Stdlib Require Import ZArith Lia.
From S2P Require Import Prelude GoStrings GoNet GoAddr GoPath GoHash GoKeys Names Pki Config ConfigFile ConfigFacts ConfigProps NfsProto NfsFs Gateway.

(** ** Names of boot files *)

(** The components a valid name adds to its directory. *)
Definition nameWords (name : bytes) : list bytes := if beq name [] || beq name dot then [] else Split name SLASH.

Lemma ValidPath_words name : name <> [] -> ValidPath name = true -> Forall plain (nameWords name).
Proof.
  intros Hne. unfold ValidPath, nameWords. rewrite (proj2 (beq_false _ _) Hne). cbn [orb].
  destruct (beq name dot); [constructor|]. cbn [orb]. intros E. apply andb_true_iff in E as [_ E]. rewrite forallb_forall in E.
  apply Forall_forall. intros w Hw. assert (Hs := Split_no_sep _ _ _ Hw). apply list_elem_of_In, E in Hw.
  apply negb_true_iff in Hw. rewrite !orb_false_iff, !beq_false in Hw. destruct Hw as [[? ?] ?]. by split.
Qed.

(** A name that is served has no parent reference in it. *)
Lemma served_name name : name = [] \/ ValidPath name = true ->
  Forall (fun w => w <> [] /\ w <> dot /\ w <> dotdot) (nameWords name) /\ dotdot ∉ Split name SLASH.
Proof.
  intros Hn. assert (Hw : Forall plain (nameWords name)).
  { destruct (decide (name = [])) as [->|Hne]; [constructor|]. apply ValidPath_words; [done|]. by destruct Hn. }
  split; [eapply Forall_impl; [exact Hw|]; intros w (? & ? & ? & ?); done|].
  unfold nameWords in Hw. destruct (beq name []) eqn:E1; [apply beq_true in E1; subst; by apply (bool_decide_unpack _)|].
  destruct (beq name dot) eqn:E2; [apply beq_true in E2; subst; by apply (bool_decide_unpack _)|].
  intros Hin. cbn [orb] in Hw. rewrite Forall_forall in Hw. by destruct (Hw _ Hin) as (? & ? & ? & ?).
Qed.

(** A valid name below a directory is where the name says. *)
Lemma components_join root name : IsAbs root = true -> name = [] \/ ValidPath name = true ->
  components (PathJoin root name) = components root ++ nameWords name.
Proof.
  intros Ha Hn. destruct (IsAbs_cons _ Ha) as [r Er].
  assert (Hj : PathJoin root name = Clean (root ++ SLASH :: name)) by by rewrite Er. rewrite Hj.
  assert (Hab : IsAbs (root ++ SLASH :: name) = true) by by rewrite Er.
  rewrite Clean_abs, components_abs_path by (try done; by apply components_plain). unfold components. rewrite Hab, Ha, Split_sep_app, fold_left_app.
  unfold nameWords. destruct (beq name []) eqn:E1; [apply beq_true in E1; subst name; by rewrite app_nil_r|].
  apply beq_false in E1. destruct Hn as [->|Hn]; [done|]. pose proof (ValidPath_words name E1 Hn) as Hw.
  unfold nameWords in Hw. rewrite (proj2 (beq_false _ _) E1) in Hw. cbn [orb] in *.
  destruct (beq name dot) eqn:E2; [apply beq_true in E2; subst name; by rewrite app_nil_r|].
  rewrite clean_fold_plain by done. by rewrite rev_app_distr, rev_involutive.
Qed.

(** A request that reaches the file server. *)
Lemma serveBoot_files s r h o root name headers : serveBoot s r h o = GwFiles root name headers ->
  root = gc_BootDirectory (gs_config s) /\ headers = h /\ (name = [] \/ ValidPath name = true) /\ 92 ∉ name /\ 0 ∉ name.
Proof.
  unfold serveBoot. destruct (beq (gr_Path r) _); [done|]. set (n := bootName (gr_Path r)).
  destruct (negb (beq n []) && _) eqn:E; [done|]. destruct (negb o); [done|]. intros [= <- <- <-]. split; [done|]. split; [done|].
  destruct (beq n []) eqn:En; [apply beq_true in En; rewrite En; split; [by left|]; split; apply not_elem_of_nil|]. cbn [negb andb] in E.
  rewrite !orb_false_iff, negb_false_iff in E. destruct E as [[Hv H1] H2]. split; [by right|].
  split; intros Hin; apply ContainsByte_spec in Hin; congruence.
Qed.

Lemma gateway_files s r o root name headers : gw_ServeHTTP s r o = GwFiles root name headers ->
  (gr_Method r = str "GET" \/ gr_Method r = str "HEAD") /\ root = gc_BootDirectory (gs_config s) /\ root <> [] /\
  (name = [] \/ ValidPath name = true) /\ 92 ∉ name /\ 0 ∉ name.
Proof.
  unfold gw_ServeHTTP. destruct (gc_ACME _ && _); [by destruct (negb _)|].
  destruct (negb (beq (gr_Method r) (str "GET")) && _) eqn:Em; [done|].
  destruct (negb (beq (gc_BootDirectory (gs_config s)) []) && _) eqn:Eb.
  - intros E. apply serveBoot_files in E as (-> & _ & Hn). apply andb_true_iff in Eb as [Eb _]. apply negb_true_iff, beq_false in Eb.
    split; [|by split]. apply andb_false_iff in Em as [Em|Em]; apply negb_false_iff, beq_true in Em; auto.
  - intros E. repeat (case_match; [discriminate E|]). discriminate E.
Qed.

(** ** Properties *)

Definition header_of (name : string) (headers : list (string * bytes)) : list bytes :=
  omap (fun h => if bool_decide (h.1 = name) then Some h.2 else None) headers.

(** The headers of an outcome. *)
Definition outcome_headers (o : gw_outcome) : list (string * bytes) :=
  match o with GwReply r => gw_headers r | GwAcme h | GwRedirect _ h | GwFiles _ _ h => h end.

Lemma gw_body_of (b : bool) (body : bytes) : (if b then [] else body) ∈ [body; []].
Proof. destruct b; [right|]; left. Qed.

Lemma gw_write_refusal (P : Prop) r h status ty body : status <> 200 ->
  match gw_write r h status ty body with GwReply a => gw_status a = 200 -> P | _ => True end.
Proof. intros Hs E. by destruct Hs. Qed.

(** What a response adds to the headers of every response. *)
Lemma outcome_common s r openable : exists more, outcome_headers (gw_ServeHTTP s r openable) = gw_common (gr_TLS r) ++ more /\
  Forall (fun h => h.1 ∈ ["Content-Type"; "Content-Length"; "Allow"; "Content-Disposition"]%string) more.
Proof.
  unfold gw_ServeHTTP, serveBoot. repeat case_match; cbn [outcome_headers gw_write gw_headers]; rewrite <- ?app_assoc;
  (eexists; split; [reflexivity|]) || (exists []; split; [by rewrite app_nil_r|constructor]);
  repeat (apply Forall_cons; split; [cbn [fst]; rewrite !elem_of_cons; tauto|]); constructor.
Qed.

Lemma header_of_app name a b : header_of name (a ++ b) = header_of name a ++ header_of name b.
Proof. apply omap_app. Qed.

Lemma header_of_other name l (names : list string) : Forall (fun h => h.1 ∈ names) l -> name ∉ names -> header_of name l = [].
Proof.
  intros Hl Hn. induction Hl as [|h l Hh _ IH]; [done|]. unfold header_of in *. cbn. rewrite bool_decide_false by (intros <-; done). done.
Qed.

Lemma common_headers s r openable : let o := gw_ServeHTTP s r openable in
  header_of "X-Content-Type-Options" (outcome_headers o) = [str "nosniff"] /\
  header_of "X-Frame-Options" (outcome_headers o) = [str "DENY"] /\
  (header_of "Strict-Transport-Security" (outcome_headers o) <> [] <-> gr_TLS r = true).
Proof.
  intros o. unfold o. destruct (outcome_common s r openable) as (more & -> & Hm).
  assert (Hn : forall name, bool_decide (name ∈ ["Content-Type"; "Content-Length"; "Allow"; "Content-Disposition"]%string) = false ->
    header_of name (gw_common (gr_TLS r) ++ more) = header_of name (gw_common (gr_TLS r))).
  { intros name E. apply bool_decide_eq_false in E. by rewrite header_of_app, (header_of_other _ _ _ Hm E), app_nil_r. }
  rewrite !Hn by reflexivity. destruct (gr_TLS r); (split; [reflexivity|]); (split; [reflexivity|]); split; done.
Qed.

(** How the gateway routes.  ACME requests reach the ACME server only over TLS
    and nothing else reaches it; other requests than GET and HEAD are refused; a
    request reaches the file server only below /boot/ when boot files are served;
    the page and the root certificate are sent as they were prepared; and every
    outcome forbids type sniffing and framing, and asks for TLS exactly when it
    came over TLS. *)
Theorem gateway_routes s r openable :
  let o := gw_ServeHTTP s r openable in
  (match o with
   | GwAcme _ => gc_ACME (gs_config s) = true /\ gr_TLS r = true /\ HasPrefix (gr_Path r) (str "/acme/") = true
   | GwRedirect target _ => gr_Path r = str "/boot" /\ HasPrefix target (str "/boot/") = true
   | GwFiles root _ _ => root = gc_BootDirectory (gs_config s) /\ root <> [] /\ HasPrefix (gr_Path r) (str "/boot/") = true
   | GwReply a => gw_status a = 200 ->
       (gr_Path r = str "/" /\ gw_body a ∈ [gs_page s; []]) \/ (gr_Path r = str "/ca.pem" /\ gw_body a ∈ [gs_rootPEM s; []])
       \/ (gr_Path r = str "/ca.crt" /\ gw_body a ∈ [gs_rootDER s; []])
   end) /\
  header_of "X-Content-Type-Options" (outcome_headers o) = [str "nosniff"] /\
  header_of "X-Frame-Options" (outcome_headers o) = [str "DENY"] /\
  (header_of "Strict-Transport-Security" (outcome_headers o) <> [] <-> gr_TLS r = true).
Proof.
  intros o. split; [|by apply common_headers].
  unfold o, gw_ServeHTTP. destruct (gc_ACME _ && HasPrefix _ _) eqn:Ea.
  { apply andb_true_iff in Ea as [-> ->]. destruct (gr_TLS r); [done|]. by apply gw_write_refusal. }
  destruct (negb (beq (gr_Method r) (str "GET")) && _); [by apply gw_write_refusal|].
  destruct (negb (beq (gc_BootDirectory (gs_config s)) []) && _) eqn:Eb.
  - apply andb_true_iff in Eb as [Eb Ep]. apply negb_true_iff, beq_false in Eb. unfold serveBoot.
    destruct (beq (gr_Path r) (str "/boot")) eqn:E0; [apply beq_true in E0; split; [done|apply HasPrefix_app]|]. cbn [orb] in Ep.
    destruct (negb _ && _); [by apply gw_write_refusal|]. destruct (negb openable); [by apply gw_write_refusal|]. done.
  - destruct (beq (gr_Path r) (str "/")) eqn:E1; [apply beq_true in E1; intros _; left; split; [done|apply gw_body_of]|].
    destruct (beq (gr_Path r) (str "/ca.pem")) eqn:E2; [apply beq_true in E2; intros _; right; left; split; [done|apply gw_body_of]|].
    destruct (beq (gr_Path r) (str "/ca.crt")) eqn:E3; [apply beq_true in E3; intros _; right; right; split; [done|apply gw_body_of]|].
    by apply gw_write_refusal.
Qed.

(** [head] is [get] without its body. *)
Definition headers_only (get head : gw_outcome) : Prop :=
  match get, head with
  | GwReply get, GwReply head => gw_status head = gw_status get /\ gw_headers head = gw_headers get /\ gw_body head = []
      /\ header_of "Content-Length" (gw_headers head) = [Itoa (len (gw_body get))]
  | _, _ => head = get
  end.

(** A HEAD request is answered as the GET request for the same path: the same
    route, status and headers, the length of the body included, without the body. *)
Theorem head_answers_as_get s path query tls openable :
  headers_only (gw_ServeHTTP s (mkGwRequest (str "GET") path query tls) openable)
               (gw_ServeHTTP s (mkGwRequest (str "HEAD") path query tls) openable).
Proof.
  unfold gw_ServeHTTP. cbn [gr_Method gr_Path gr_TLS gr_RawQuery].
  change (beq (str "GET") (str "GET")) with true. change (beq (str "HEAD") (str "GET")) with false. change (beq (str "HEAD") (str "HEAD")) with true.
  cbn [negb andb]. unfold serveBoot. cbn [gr_Path gr_RawQuery].
  assert (Hw : forall more ty status body, header_of "Content-Length" more = [] ->
    headers_only (gw_write (mkGwRequest (str "GET") path query tls) (gw_common tls ++ more) status ty body)
                 (gw_write (mkGwRequest (str "HEAD") path query tls) (gw_common tls ++ more) status ty body)).
  { intros more ty status body Hh. split; [done|]. split; [done|]. split; [done|]. cbn [gw_headers gw_body].
    rewrite !header_of_app, Hh. by destruct tls. }
  assert (Hw0 := fun ty status body => Hw [] ty status body eq_refl). rewrite app_nil_r in Hw0.
  destruct (gc_ACME _ && _); [destruct (negb tls); [apply Hw0|done]|].
  destruct (negb (beq (gc_BootDirectory _) []) && _).
  - destruct (beq path (str "/boot")); [done|]. destruct (negb _ && _); [apply Hw0|]. destruct (negb openable); [apply Hw0|done].
  - destruct (beq path (str "/")); [apply Hw0|]. destruct (beq path (str "/ca.pem")); [by apply Hw|].
    destruct (beq path (str "/ca.crt")); [by apply Hw|apply Hw0].
Qed.

(** A boot file is opened for reading below the directory only, and what is
    opened and cannot be served is closed again: one descriptor, open and on a
    regular file or directory, when the call succeeds, and none open otherwise. *)
Theorem boot_open_readonly `{OS} root name (w : world) :
  let '(r, w') := bootOpen root name w in
  (forall c, c ∈ w_log w' -> c ∈ w_log w \/ c = ROpen root name (Z.lor O_RDONLY O_NONBLOCK) 0
     \/ c = FStat (length (w_fds w)) \/ c = FClose (length (w_fds w))) /\
  match r with
  | Ok fd => fd = length (w_fds w) /\ w_fds w' = w_fds w ++ [mkDescriptor root (Z.lor O_RDONLY O_NONBLOCK) true]
  | Err _ => w_fds w' = w_fds w \/ w_fds w' = w_fds w ++ [mkDescriptor root (Z.lor O_RDONLY O_NONBLOCK) false]
  end.
Proof.
  assert (Hcl : forall d, alter (fun d => mkDescriptor (d_root d) (d_flag d) false) (length (w_fds w)) (w_fds w ++ [d])
    = w_fds w ++ [mkDescriptor (d_root d) (d_flag d) false]).
  { intros d. replace (length (w_fds w)) with (length (w_fds w) + 0)%nat by lia. by rewrite alter_app_r. }
  unfold bootOpen, openAt, closeFd, call. destruct (sys _ _) as [[e|] d1].
  { destruct e; (split; [cbn; set_solver|by left]). }
  cbn [w_fds w_log w_disk with_fds]. destruct (sys (FStat _) d1) as [[info|e] d2].
  - destruct (exportable info); [split; [cbn; set_solver|done]|]. cbn [w_fds w_log w_disk with_fds].
    destruct (sys (FClose _) d2) as [a d3]. cbn [w_fds w_log w_disk with_fds]. split; [set_solver|right; apply Hcl].
  - cbn [w_fds w_log w_disk with_fds]. destruct (sys (FClose _) d2) as [a d3]. cbn [w_fds w_log w_disk with_fds]. split; [set_solver|right; apply Hcl].
Qed.
