(* ===== verification/GatewayServe.v ===== *)
(** * Package internal/gateway: Run, serveListeners and serve

    Two goroutines run an HTTP server each, over TLS and in the clear.  The
    server of net/http is known here by what it documents: [Serve] accepts
    connections and always returns a non-nil error, [ErrServerClosed] once
    [Shutdown] or [Close] was called, even before [Serve]; [Shutdown] accepts no
    more connections and returns when those left have ended, or with an error when
    its context ends; [Close] closes every connection and does not wait for the
    handlers that use them, which are not part of the state for that reason. *)

From stdpp Require Import list strings functions.
From Stdlib Require Import ZArith Lia.
From S2P Require Import Prelude GoStrings GoSync.

Inductive scheme := HTTPS | HTTP.

#[export] Instance scheme_eq_dec : EqDecision scheme.
Proof. solve_decision. Defined.

Definition protocol (e : scheme) : bytes := match e with HTTPS => str "HTTPS" | HTTP => str "HTTP" end.

Inductive serve_error := ErrServerClosed | ErrServe.

(** A server and the channel of its result, of capacity one. *)
Inductive http_server := HsIdle | HsServing | HsShut | HsReturned (err : serve_error) (received : bool).

(** [serve] for one listener; [serveErr] is what it has received so far. *)
Inductive gs_pc :=
| GsIdle
| GsStart
| GsSelect
| GsShutdown (serveErr : option serve_error)
| GsDrain (serveErr : option serve_error)
| GsForce (serveErr : option serve_error)
| GsResult (serveErr : option serve_error)
| GsClose (r : exit)
| GsSend (r : exit)
| GsDone.

Inductive gw_pc :=
| GwStart
| GwListenTLS
| GwListen
| GwFirst
| GwCancel (r : exit)
| GwSecond (r : exit)
| GwCloseHTTP (r : exit)
| GwCloseTLS (r : exit)
| GwReturned (r : exit).

Record gw_state := mkGw {
  gv_pc : gw_pc;
  gv_cancelled : bool;
  gv_listening : scheme -> bool;
  gv_serve : scheme -> gs_pc;
  gv_server : scheme -> http_server;
  gv_done : list exit;
  gv_conns : scheme -> nat
}.

(** [GwConnect] is a connection, [GwHangup] its end, and [GwExpire] an error of
    Shutdown: its timeout passes, or the listener does not close. *)
Inductive gw_label :=
| GwGo | GwServe (e : scheme) | GwReceive (e : scheme) | GwServer (e : scheme) | GwExpire (e : scheme)
| GwConnect (e : scheme) | GwHangup (e : scheme) | GwFault | GwServerFault (e : scheme).

Definition gw_go (s : gw_state) (pc : gw_pc) : option gw_state :=
  Some (mkGw pc (gv_cancelled s) (gv_listening s) (gv_serve s) (gv_server s) (gv_done s) (gv_conns s)).
Definition gw_listening (s : gw_state) (pc : gw_pc) (e : scheme) (b : bool) : option gw_state :=
  Some (mkGw pc (gv_cancelled s) (<[e := b]> (gv_listening s)) (gv_serve s) (gv_server s) (gv_done s) (gv_conns s)).
Definition gs_go (s : gw_state) (e : scheme) (pc : gs_pc) (v : http_server) : option gw_state :=
  Some (mkGw (gv_pc s) (gv_cancelled s) (gv_listening s) (<[e := pc]> (gv_serve s)) (<[e := v]> (gv_server s)) (gv_done s) (gv_conns s)).

Definition gw_conns (s : gw_state) (e : scheme) (pc : gs_pc) (n : nat) : option gw_state :=
  Some (mkGw (gv_pc s) (gv_cancelled s) (gv_listening s) (<[e := pc]> (gv_serve s)) (gv_server s) (gv_done s)
          (<[e := n]> (gv_conns s))).

(** [errors.Join]. *)
Definition join (a b : exit) : exit :=
  match a, b with
  | Ok _, r => r
  | r, Ok _ => r
  | Err x, Err y => Err (x ++ [10] ++ y)
  end.

(** The error of [Serve], unless it says that the server was closed. *)
Definition serveExit (e : scheme) (err : serve_error) : exit :=
  match err with ErrServerClosed => Ok tt | ErrServe => Err (str "serve " ++ protocol e ++ str " gateway") end.

(** [Run] and [serveListeners]. *)
Definition serveListeners (s : gw_state) : option gw_state :=
  match gv_pc s with
  | GwStart => gw_go s (if gv_cancelled s then GwReturned (Ok tt) else GwListenTLS)
  | GwListenTLS => gw_listening s GwListen HTTPS true
  | GwListen =>
      Some (mkGw GwFirst (gv_cancelled s) (<[HTTP := true]> (gv_listening s)) (fun _ => GsStart) (gv_server s) (gv_done s) (gv_conns s))
  | GwFirst =>
      match gv_done s with
      | r :: rest => Some (mkGw (GwCancel r) (gv_cancelled s) (gv_listening s) (gv_serve s) (gv_server s) rest (gv_conns s))
      | [] => None
      end
  | GwCancel r => Some (mkGw (GwSecond r) true (gv_listening s) (gv_serve s) (gv_server s) (gv_done s) (gv_conns s))
  | GwSecond r =>
      match gv_done s with
      | r' :: rest => Some (mkGw (GwCloseHTTP (join r r')) (gv_cancelled s) (gv_listening s) (gv_serve s) (gv_server s) rest (gv_conns s))
      | [] => None
      end
  | GwCloseHTTP r => gw_listening s (GwCloseTLS r) HTTP false
  | GwCloseTLS r => gw_listening s (GwReturned r) HTTPS false
  | GwReturned _ => None
  end.

(** [serve] of one listener: start the server, wait, shut it down, close it if
    that failed, take its result unless it was taken already. *)
Definition serve_gw (e : scheme) (s : gw_state) : option gw_state :=
  match gv_serve s e with
  | GsIdle | GsDone => None
  | GsStart => gs_go s e GsSelect HsServing
  | GsSelect => if gv_cancelled s then gs_go s e (GsShutdown None) (gv_server s e) else None
  | GsShutdown err => gs_go s e (GsDrain err) (match gv_server s e with HsServing => HsShut | v => v end)
  | GsDrain err => if (gv_conns s e =? 0)%nat then gs_go s e (GsResult err) (gv_server s e) else None
  | GsForce err => gw_conns s e (GsResult err) 0
  | GsResult (Some err) => gs_go s e (GsClose (serveExit e err)) (gv_server s e)
  | GsResult None =>
      match gv_server s e with
      | HsReturned err false => gs_go s e (GsClose (serveExit e err)) (HsReturned err true)
      | _ => None
      end
  | GsClose r =>
      Some (mkGw (gv_pc s) (gv_cancelled s) (<[e := false]> (gv_listening s)) (<[e := GsSend r]> (gv_serve s)) (gv_server s)
              (gv_done s) (gv_conns s))
  | GsSend r =>
      if (length (gv_done s) <? 2)%nat
      then Some (mkGw (gv_pc s) (gv_cancelled s) (gv_listening s) (<[e := GsDone]> (gv_serve s)) (gv_server s) (gv_done s ++ [r])
                   (gv_conns s))
      else None
  end.

(** The branch of its select that receives the server's result. *)
Definition receive_gw (e : scheme) (s : gw_state) : option gw_state :=
  match gv_serve s e, gv_server s e with
  | GsSelect, HsReturned err false => gs_go s e (GsShutdown (Some err)) (HsReturned err true)
  | _, _ => None
  end.

Definition Run_gw (l : gw_label) (s : gw_state) : option gw_state :=
  match l with
  | GwGo => serveListeners s
  | GwServe e => serve_gw e s
  | GwReceive e => receive_gw e s
  | GwServer e =>
      match gv_server s e with
      | HsShut => gs_go s e (gv_serve s e) (HsReturned ErrServerClosed false)
      | _ => None
      end
  | GwExpire e =>
      match gv_serve s e with
      | GsDrain err => gs_go s e (GsForce err) (gv_server s e)
      | _ => None
      end
  | GwConnect e =>
      match gv_server s e with
      | HsServing => gw_conns s e (gv_serve s e) (S (gv_conns s e))
      | _ => None
      end
  | GwHangup e => if (gv_conns s e =? 0)%nat then None else gw_conns s e (gv_serve s e) (Nat.pred (gv_conns s e))
  | GwFault =>
      match gv_pc s with
      | GwListenTLS => gw_go s (GwReturned (if gv_cancelled s then Ok tt else Err (str "listen for HTTPS gateway")))
      | GwListen => gw_go s (GwCloseTLS (if gv_cancelled s then Ok tt else Err (str "listen for HTTP gateway")))
      | _ => None
      end
  | GwServerFault e =>
      match gv_server s e with
      | HsServing | HsShut => gs_go s e (gv_serve s e) (HsReturned ErrServe false)
      | _ => None
      end
  end.

Definition gw_machine : machine := {|
  mc_state := gw_state;
  mc_label := gw_label;
  mc_init := mkGw GwStart false (fun _ => false) (fun _ => GsIdle) (fun _ => HsIdle) [] (fun _ => 0%nat);
  mc_step := Run_gw;
  mc_cancel s := mkGw (gv_pc s) true (gv_listening s) (gv_serve s) (gv_server s) (gv_done s) (gv_conns s);
  mc_cancelled := gv_cancelled;
  mc_arrives l := match l with GwConnect _ => true | _ => false end;
  mc_own l := match l with GwGo | GwServe _ | GwReceive _ | GwServer _ | GwExpire _ => true | _ => false end;
  mc_fault l := match l with GwFault | GwServerFault _ => true | _ => false end;
  mc_returned s := match gv_pc s with GwReturned r => Some r | _ => None end;
  mc_released s := negb (gv_listening s HTTPS) && negb (gv_listening s HTTP) &&
    match gv_serve s HTTPS, gv_serve s HTTP with (GsIdle | GsDone), (GsIdle | GsDone) => true | _, _ => false end &&
    match gv_server s HTTPS, gv_server s HTTP with
    | (HsIdle | HsReturned _ true), (HsIdle | HsReturned _ true) => true
    | _, _ => false
    end && (gv_conns s HTTPS =? 0)%nat && (gv_conns s HTTP =? 0)%nat
|}.

(** ** Facts *)

(** One case for each step that is enabled. *)
Ltac gw_cases E :=
  cbn [mc_step gw_machine] in E;
  match type of E with Run_gw ?l _ = _ => destruct l end; unfold Run_gw, serveListeners, serve_gw, receive_gw in E;
  step_cases E; unfold gw_go, gw_listening, gs_go, gw_conns in *;
  repeat match goal with H : Some _ = Some _ |- _ => injection H as H; subst end;
  repeat match goal with e : scheme |- _ => destruct e end;
  cbn [gv_pc gv_cancelled gv_listening gv_serve gv_server gv_done gv_conns] in *;
  rewrite ?fn_lookup_insert, ?fn_lookup_insert_ne in * by done.

Definition pair_ok (pc : gs_pc) (v : http_server) : bool :=
  match pc, v with
  | (GsIdle | GsStart), HsIdle => true
  | GsSelect, (HsServing | HsReturned _ false) => true
  | GsShutdown None, (HsServing | HsReturned _ false) => true
  | (GsDrain None | GsForce None | GsResult None), (HsShut | HsReturned _ false) => true
  | (GsShutdown (Some _) | GsDrain (Some _) | GsForce (Some _) | GsResult (Some _) | GsClose _ | GsSend _ | GsDone), HsReturned _ true => true
  | _, _ => false
  end.

(** Connections are open only while a server serves or is shut down. *)
Definition conns_ok (s : gw_state) (e : scheme) : bool :=
  match gv_serve s e with GsSelect | GsShutdown _ | GsDrain _ | GsForce _ => true | _ => (gv_conns s e =? 0)%nat end.

Definition finished (pc : gs_pc) : nat := match pc with GsDone => 1 | _ => 0 end.

Definition gw_idle (s : gw_state) : bool := match gv_serve s HTTPS, gv_serve s HTTP with GsIdle, GsIdle => true | _, _ => false end.
Definition gw_busy (s : gw_state) : bool := match gv_serve s HTTPS, gv_serve s HTTP with GsIdle, _ | _, GsIdle => false | _, _ => true end.

(** The results received so far and those in the channel are those of the
    goroutines that have finished. *)
Definition gw_results (s : gw_state) (received : nat) : Prop :=
  gw_busy s = true /\ (received + length (gv_done s) = finished (gv_serve s HTTPS) + finished (gv_serve s HTTP))%nat.

Record gw_inv (s : gw_state) : Prop := {
  gi_pairs e : pair_ok (gv_serve s e) (gv_server s e) = true;
  gi_conns e : conns_ok s e = true;
  gi_pc : match gv_pc s with
    | GwStart | GwListenTLS => gw_idle s = true /\ gv_done s = [] /\ gv_listening s HTTPS = false /\ gv_listening s HTTP = false
    | GwListen => gw_idle s = true /\ gv_done s = [] /\ gv_listening s HTTP = false
    | GwFirst => gw_results s 0
    | GwCancel _ => gw_results s 1
    | GwSecond _ => gw_results s 1 /\ gv_cancelled s = true
    | GwCloseHTTP _ => gw_results s 2
    | GwCloseTLS _ => (gw_idle s = true \/ gw_results s 2) /\ gv_listening s HTTP = false
    | GwReturned _ => (gw_idle s = true \/ gw_results s 2) /\ gv_listening s HTTPS = false /\ gv_listening s HTTP = false
    end
}.

Lemma gw_pairs_step l s s' :
  gw_inv s -> Run_gw l s = Some s' -> forall e, pair_ok (gv_serve s' e) (gv_server s' e) = true.
Proof.
  intros [Hp _ Hc] E e. pose proof (Hp HTTPS) as H1. pose proof (Hp HTTP) as H2. unfold gw_idle in Hc.
  gw_cases E; try apply Hp;
    repeat match goal with H : gv_serve _ _ = _ |- _ => rewrite H in *; clear H | H : gv_server _ _ = _ |- _ => rewrite H in *; clear H end;
    cbn in *; try done.
  all: try (destruct Hc as [Hc _]).
  all: try (destruct serveErr; done).
  all: repeat match goal with H : context [gv_serve ?s ?e] |- _ => destruct (gv_serve s e) as [| | |[]|[]|[]|[]| | |] end; try done.
Qed.

Lemma gw_conns_step l s s' : gw_inv s -> Run_gw l s = Some s' -> forall e, conns_ok s' e = true.
Proof.
  intros [Hp Hn Hc] E e. pose proof (Hp HTTPS) as P1. pose proof (Hp HTTP) as P2. pose proof (Hn HTTPS) as H1. pose proof (Hn HTTP) as H2.
  clear Hp Hn. unfold conns_ok, gw_idle in *. gw_cases E;
    repeat match goal with H : gv_serve _ _ = _ |- _ => rewrite H in *; clear H | H : gv_server _ _ = _ |- _ => rewrite H in *; clear H
      | H : gv_pc _ = _ |- _ => rewrite H in *; clear H end; try done.
  all: try (destruct Hc as [Hc _]; destruct (gv_serve s HTTPS), (gv_serve s HTTP); done).
  all: try (match goal with |- context [gv_serve ?s ?e] => destruct (gv_serve s e) as [| | |[]|[]|[]|[]| | |] end; done).
  all: match goal with H : (_ =? 0)%nat = false |- _ => rewrite H in * end;
    match goal with |- context [gv_serve ?s ?e] => by destruct (gv_serve s e) end.
Qed.

Lemma gw_pc_step l s s' :
  gw_inv s -> Run_gw l s = Some s' -> gw_inv s'.
Proof.
  intros Hi E. split; [by eapply gw_pairs_step|by eapply gw_conns_step|]. destruct Hi as [Hp _ Hc]. pose proof (Hp HTTPS) as H1. pose proof (Hp HTTP) as H2. clear Hp.
  unfold gw_results, gw_idle, gw_busy in *. gw_cases E;
    repeat match goal with H : gv_serve _ _ = _ |- _ => rewrite H in *; clear H | H : gv_pc _ = _ |- _ => rewrite H in *; clear H
      | H : gv_done _ = _ |- _ => rewrite H in *; clear H end; cbn [length finished] in *; rewrite ?length_app in *; try tauto.
  { destruct Hc as (_ & -> & _). done. }
  all: destruct (gv_pc s); try destruct (gv_serve s HTTPS); try destruct (gv_serve s HTTP); cbn [finished length] in *;
    intuition (try discriminate; try lia).
Qed.

Lemma gw_inv_cancel s : gw_inv s -> gw_inv (mc_cancel gw_machine s).
Proof. intros [Hp Hn Hc]. split; [done|done|]. cbn. destruct (gv_pc s); try done. by destruct Hc. Qed.

Lemma gw_reachable s : reachable gw_machine s -> gw_inv s.
Proof. apply reachable_invariant; [by split; [intros []|intros []|]|exact gw_pc_step|exact gw_inv_cancel]. Qed.

(** A goroutine of a cancelled gateway goes on until it has reported. *)
Lemma serve_steps s e :
  gw_inv s -> gv_cancelled s = true -> gw_busy s = true -> (length (gv_done s) < 2)%nat -> gv_serve s e <> GsDone ->
  exists l, mc_own gw_machine l = true /\ is_Some (Run_gw l s).
Proof.
  intros [Hp _ _] Hc Hb Hl Hn. specialize (Hp e).
  assert (Hne : gv_serve s e <> GsIdle).
  { intros He. unfold gw_busy in Hb. destruct e; rewrite He in Hb; [done|]. by destruct (gv_serve s HTTPS). }
  assert (Hgo : is_Some (serve_gw e s) -> exists l, mc_own gw_machine l = true /\ is_Some (Run_gw l s)) by by exists (GwServe e).
  unfold serve_gw in Hgo. rewrite Hc in Hgo. destruct (gv_serve s e) as [| | |err|err|err|[err|]|r|r|] eqn:Es; try done; try by apply Hgo.
  - exists (GwExpire e). split; [done|]. cbn [Run_gw]. by rewrite Es.
  - destruct (gv_server s e) as [| | |err []] eqn:Ev; try discriminate Hp; [|by apply Hgo].
    exists (GwServer e). split; [done|]. cbn [Run_gw]. by rewrite Ev.
  - apply Hgo. apply Nat.ltb_lt in Hl. by rewrite Hl.
Qed.

Lemma results_steps s n :
  gw_inv s -> gv_cancelled s = true -> gw_results s n -> (n < 2)%nat -> gv_done s = [] ->
  exists l, mc_own gw_machine l = true /\ is_Some (Run_gw l s).
Proof.
  intros Hi Hc [Hb Hr] Hn Hd. rewrite Hd in Hr. cbn [length] in Hr.
  assert (Hx : finished (gv_serve s HTTPS) = 0%nat \/ finished (gv_serve s HTTP) = 0%nat).
  { unfold finished in *. destruct (gv_serve s HTTPS), (gv_serve s HTTP); cbn [finished] in *; lia. }
  destruct Hx as [Hx|Hx]; [apply (serve_steps s HTTPS)|apply (serve_steps s HTTP)]; try done;
    try (rewrite Hd; cbn; lia); intros He; by rewrite He in Hx.
Qed.

Lemma gw_progress s :
  gw_inv s -> gv_cancelled s = true -> mc_returned gw_machine s = None ->
  exists l, mc_own gw_machine l = true /\ is_Some (Run_gw l s).
Proof.
  intros Hi Hc Hr. pose proof (gi_pc s Hi) as Hpc. cbn [mc_returned gw_machine] in Hr.
  assert (Hgo : is_Some (serveListeners s) -> exists l, mc_own gw_machine l = true /\ is_Some (Run_gw l s)) by by exists GwGo.
  unfold serveListeners in Hgo. destruct (gv_pc s); try discriminate Hr; try by apply Hgo.
  - destruct (gv_done s) eqn:Hd; [|by apply Hgo]. apply (results_steps s 0); [done..|lia|done].
  - destruct (gv_done s) eqn:Hd; [|by apply Hgo]. apply (results_steps s 1); [done|done|apply Hpc|lia|done].
Qed.

Definition gw_rank (pc : gw_pc) : nat :=
  match pc with
  | GwStart => 40 | GwListenTLS => 39 | GwListen => 38 | GwFirst => 5 | GwCancel _ => 4 | GwSecond _ => 3
  | GwCloseHTTP _ => 2 | GwCloseTLS _ => 1 | GwReturned _ => 0
  end.

Definition gs_rank (pc : gs_pc) : nat :=
  match pc with
  | GsStart => 15 | GsSelect => 10 | GsShutdown _ => 8 | GsDrain _ => 7 | GsForce _ => 6 | GsResult _ => 5 | GsClose _ => 3
  | GsSend _ => 2 | GsIdle | GsDone => 0
  end.

Definition http_rank (v : http_server) : nat := match v with HsServing => 3 | HsShut => 2 | HsIdle | HsReturned _ _ => 0 end.

Definition gw_work (s : gw_state) : nat :=
  gw_rank (gv_pc s) + gs_rank (gv_serve s HTTPS) + gs_rank (gv_serve s HTTP) + http_rank (gv_server s HTTPS)
  + http_rank (gv_server s HTTP) + gv_conns s HTTPS + gv_conns s HTTP.

Lemma gw_work_step l s s' : Run_gw l s = Some s' -> (gw_work s' < gw_work s + if mc_arrives gw_machine l then 2 else 0)%nat.
Proof.
  intros E. unfold gw_work. gw_cases E; cbn [mc_arrives gw_machine] in *;
    repeat match goal with H : gv_pc _ = _ |- _ => rewrite H in * | H : gv_server _ _ = _ |- _ => rewrite H in *
      | H : gv_serve _ _ = _ |- _ => rewrite H in * end; try match goal with H : (_ =? 0)%nat = false |- _ => apply Nat.eqb_neq in H end;
    cbn [gw_rank gs_rank http_rank]; try lia.
  all: repeat match goal with |- context [http_rank (gv_server ?s ?t)] => destruct (gv_server s t) end; cbn [http_rank]; lia.
Qed.

Lemma gw_released s r : gw_inv s -> mc_returned gw_machine s = Some r -> mc_released gw_machine s = true.
Proof.
  intros [Hp Hn Hc] Hr. pose proof (Hp HTTPS) as H1. pose proof (Hp HTTP) as H2. pose proof (Hn HTTPS) as N1. pose proof (Hn HTTP) as N2.
  unfold conns_ok in *. cbn [mc_returned mc_released gw_machine] in *.
  destruct (gv_pc s); try discriminate Hr. destruct Hc as (Hx & -> & ->). unfold gw_idle, gw_results, gw_busy in Hx.
  destruct (gv_serve s HTTPS) eqn:E1, (gv_serve s HTTP) eqn:E2; cbn [finished] in *; try (exfalso; intuition (try discriminate; lia));
    rewrite N1, N2; destruct (gv_server s HTTPS) as [| | |? []], (gv_server s HTTP) as [| | |? []]; done.
Qed.

#[export, refine] Instance gw_stoppable : Stoppable gw_machine := {
  st_work := gw_work : mc_state gw_machine -> nat;
  st_load := 2
}.
Proof.
  - by intros [].
  - intros l s s' _. apply gw_work_step.
  - done.
  - done.
  - intros l s s' E Hc. cbn [mc_cancelled gw_machine] in *. by gw_cases E.
  - intros s Hs. apply gw_progress. by apply gw_reachable.
  - intros l s s' r E Hr. cbn [mc_returned gw_machine] in *. gw_cases E; try done;
      by match goal with H : gv_pc _ = _ |- _ => rewrite H in Hr end.
  - done.
  - intros s r Hs. apply gw_released. by apply gw_reachable.
Defined.

(** Without faults a server returns only because it was shut down. *)
Definition closed_error (err : serve_error) : bool := match err with ErrServerClosed => true | ErrServe => false end.

Definition gs_clean (pc : gs_pc) (v : http_server) : bool :=
  match pc with
  | GsShutdown (Some err) | GsDrain (Some err) | GsForce (Some err) | GsResult (Some err) => closed_error err
  | GsClose r | GsSend r => is_ok r
  | _ => true
  end && match v with HsReturned err _ => closed_error err | _ => true end.

Definition gw_clean (s : gw_state) : Prop :=
  gs_clean (gv_serve s HTTPS) (gv_server s HTTPS) = true /\ gs_clean (gv_serve s HTTP) (gv_server s HTTP) = true /\
  forallb is_ok (gv_done s) = true /\
  match gv_pc s with
  | GwCancel r | GwSecond r | GwCloseHTTP r | GwCloseTLS r | GwReturned r => is_ok r = true
  | _ => True
  end.

Lemma serveExit_closed e err : closed_error err = true -> is_ok (serveExit e err) = true.
Proof. by destruct err. Qed.

Lemma join_ok a b : is_ok a = true -> is_ok b = true -> is_ok (join a b) = true.
Proof. by destruct a, b. Qed.

Lemma gw_clean_step l s s' :
  mc_fault gw_machine l = false -> gw_clean s -> Run_gw l s = Some s' -> gw_clean s'.
Proof.
  intros Hl (H1 & H2 & H3 & H4) E. unfold gw_clean. gw_cases E; try discriminate Hl;
    repeat match goal with H : gv_pc _ = _ |- _ => rewrite H in * | H : gv_server _ _ = _ |- _ => rewrite H in *
      | H : gv_serve _ _ = _ |- _ => rewrite H in * | H : gv_done _ = _ |- _ => rewrite H in * end; cbn [gs_clean forallb] in *; rewrite ?forallb_app; cbn [forallb];
    rewrite ?andb_true_iff in *; try (destruct_and?; split_and?; eauto using serveExit_closed, join_ok; fail).
  all: unfold gs_clean in *; rewrite ?andb_true_iff in *; destruct_and?; split_and?; eauto using serveExit_closed.
Qed.

#[export] Instance gw_clean_exit : Clean gw_machine.
Proof.
  split. intros s r Hs Hr. assert (Hc : gw_clean s).
  { clear Hr. revert s Hs. apply reachable_by_invariant; [done|intros l s s'; apply gw_clean_step|done]. }
  destruct Hc as (_ & _ & _ & Hc). cbn in Hr. destruct (gv_pc s); simplify_eq. by destruct r as [[]|].
Qed.

(** ** Properties *)

(** Each goroutine takes its server's result exactly once, and [serveListeners]
    waits for both: when [Run] returns, both listeners and every connection are
    closed, neither server runs, and their results were received. *)
Theorem gateway_waits_for_servers s r :
  reachable gw_machine s -> gv_pc s = GwReturned r ->
  gv_listening s HTTPS = false /\ gv_listening s HTTP = false /\
  forall e, gv_conns s e = 0%nat /\
    (gv_server s e = HsIdle \/ exists err, gv_server s e = HsReturned err true /\ gv_serve s e = GsDone).
Proof.
  intros Hs Hp. pose proof (gw_reachable s Hs) as Hi. destruct Hi as [Hok Hn Hc]. rewrite Hp in Hc. destruct Hc as (Hx & H1 & H2).
  split; [done|]. split; [done|]. intros e. specialize (Hok e). unfold gw_idle, gw_results, gw_busy in Hx.
  assert (Hd : gv_serve s e = GsIdle \/ gv_serve s e = GsDone).
  { destruct (gv_serve s HTTPS) eqn:E1, (gv_serve s HTTP) eqn:E2; cbn [finished] in Hx; destruct e; rewrite ?E1, ?E2; auto;
      exfalso; intuition (try discriminate; lia). }
  specialize (Hn e). unfold conns_ok in Hn. split; [destruct Hd as [Hd|Hd]; rewrite Hd in Hn; by apply Nat.eqb_eq|].
  destruct Hd as [Hd|Hd]; rewrite Hd in Hok; cbn [pair_ok] in Hok; destruct (gv_server s e) as [| | |err []]; try discriminate Hok; eauto.
Qed.

(** HTTP stops by itself; HTTPS is shut down while a client is connected, which
    is cut off when the timeout passes; both results are joined. *)
Definition gw_schedule : list gw_label :=
  [GwGo; GwGo; GwGo; GwServe HTTPS; GwServe HTTP; GwConnect HTTPS; GwServerFault HTTP; GwReceive HTTP] ++ replicate 5 (GwServe HTTP) ++
  [GwGo; GwGo; GwServe HTTPS; GwServe HTTPS; GwServer HTTPS; GwExpire HTTPS] ++ replicate 4 (GwServe HTTPS) ++ [GwGo; GwGo; GwGo].

Lemma gateway_waits_for_servers_witness :
  exists s, exec (M := gw_machine) gw_schedule (mc_init gw_machine) = Some s /\
    gv_pc s = GwReturned (Err (str "serve HTTP gateway")) /\ gv_listening s HTTPS = false.
Proof.
  destruct (exec (M := gw_machine) gw_schedule (mc_init gw_machine)) as [s|] eqn:E;
    [|exfalso; vm_compute in E; discriminate E].
  assert (Hp : gv_pc s = GwReturned (Err (str "serve HTTP gateway"))) by (vm_compute in E; injection E as <-; reflexivity).
  exists s. split; [reflexivity|]. split; [exact Hp|].
  refine (proj1 (gateway_waits_for_servers s _ _ Hp)).
  exact (exec_reachable gw_machine gw_schedule _ s (ReachInit gw_machine _) E).
Defined.
