(* ===== verification/Wiring.v ===== *)
(** * cmd/infra-box: the services and how they are put together

    main.go: the constructors of the services from the configuration, in the order
    of [run], with what every one of them keeps; and [serve], which waits for the
    services.  Opening sockets and running the services is outside. *)

From stdpp Require Import gmap list strings.
From Stdlib Require Import ZArith Lia.
From S2P Require Import Prelude GoStrings GoNet GoAddr GoPath GoHash GoTime GoKeys Names Lease Dhcp Dns Ntp Tftp Ldap AcmeState Acme AcmeValidate Pki Config ConfigFile NfsProto NfsFs Gateway.

(** ** The interface *)

(** What [net.InterfaceByName] finds: whether the interface is up and its
    addresses, printed, when they can be read. *)
Record iface := mkIface { if_up : bool; if_addrs : option (list bytes) }.

Inductive interface_error := NoInterface | InterfaceDown | InterfaceAddresses | InterfaceNoServerIP.

Fixpoint hasServerIP (addresses : list bytes) (serverIP : Addr) : bool :=
  match addresses with
  | [] => false
  | address :: rest =>
      match ParsePrefix address with
      | Some prefix => if addr_eqb (Unmap (p_addr prefix)) serverIP then true else hasServerIP rest serverIP
      | None => hasServerIP rest serverIP
      end
  end.

Definition checkInterface (found : option iface) (serverIP : Addr) : Prelude.result interface_error unit :=
  match found with
  | None => Err NoInterface
  | Some i =>
      if negb (if_up i) then Err InterfaceDown
      else match if_addrs i with
           | None => Err InterfaceAddresses
           | Some addresses => if hasServerIP addresses serverIP then Ok tt else Err InterfaceNoServerIP
           end
  end.

(** ** Services from a configuration *)

(** The names kept from DHCP clients: local and not wildcards. *)
Definition reservedNames (c : BoxConfig) : list bytes :=
  filter (fun name => HasSuffix name ([DOT] ++ cfg_Domain c ++ [DOT]) && negb (HasPrefix name (str "*.")))
    (map fst (map_to_list (cfg_ARecords c))).

Definition leaseConfig (c : BoxConfig) : Lease.Config :=
  mkConfig (cfg_PoolStart c) (cfg_PoolEnd c) (cfg_Domain c) (cfg_LeaseDuration c) 0 0 (reservedNames c) (cfg_LeaseFile c).

Definition newLeaseManager (c : BoxConfig) (now : time) (disk : Lease.file) : Prelude.result new_error Manager :=
  newManager (leaseConfig c) now disk.

Definition dhcpConfig (c : BoxConfig) : DhcpConfig :=
  mkDhcpConfig (cfg_ServerIP c) (cfg_Subnet c) (cfg_Router c) (cfg_Domain c) (cfg_LeaseDuration c).

Definition dnsConfig (c : BoxConfig) : DnsConfig :=
  mkDnsConfig (cfg_DNSAddress c) (cfg_Domain c) (cfg_ServerIP c) (cfg_Subnet c) (cfg_ARecords c) (cfg_Upstream c) (cfg_DNSTTL c).

Inductive url_error := BadListener | BadPort.

(** [acmeBaseURL]. *)
Definition acmeBaseURL (domain address : bytes) : Prelude.result url_error bytes :=
  match SplitHostPort address with
  | None => Err BadListener
  | Some (_, portText) =>
      match ParseUint portText 16 with
      | None => Err BadPort
      | Some port =>
          if port =? 0 then Err BadPort
          else
            let host := str "gateway." ++ domain in
            let host := if negb (port =? 443) then JoinHostPort host (FormatUint port) else host in
            Ok (str "https://" ++ host ++ str "/acme")
      end
  end.

(** The errors of the ACME server's constructor. *)
Inductive acmeserver_error := BadBaseURL | BadAcmeDomain | BadAcmeRoot | AcmeStart (e : acme_new_error).

(** Why [run] stops before the services run. *)
Inductive run_error :=
| RunInterface (e : interface_error) | RunLeases (e : new_error) | RunDhcp (e : dhcp_new_error) | RunDns (e : dns_new_error)
| RunTftp | RunNtp | RunURL (e : url_error) | RunCA (e : pki_error) | RunValidator (e : validator_error)
| RunAcme (e : acmeserver_error) | RunGateway (e : gw_error) | RunLdapCertificate (e : pki_error) | RunLdap (e : config_error)
| RunLdapPanic | RunNfs.

Section run.
Context `{PkiLib} `{X509} `{!Decoders} `{DnsLib} `{ConfigLib}.
Context (renderPage : bytes -> bytes -> option bytes).

(** [acmeserver.New]. *)
Definition New_acmeserver (baseURL domain stateFile rootPEM : bytes) (e : AcmeState.env) (f : acme_file)
    : Prelude.result acmeserver_error (AcmeConfig * AcmeServer) :=
  match urlParse baseURL with
  | None => Err BadBaseURL
  | Some base =>
      if negb (beq (Scheme base) (str "https")) || beq (Host base) [] || has_User base || negb (beq (u_Path base) (str "/acme"))
         || negb (beq (u_RawPath base) []) || negb (beq (RawQuery base) []) || negb (beq (Fragment base) [])
      then Err BadBaseURL
      else
        let domain := ToLower (TrimSuffix domain [DOT]) in
        if beq (NormalizeHostname (str "gateway") domain) [] || beq stateFile [] then Err BadAcmeDomain
        else match pem_Decode rootPEM with
        | None => Err BadAcmeRoot
        | Some (ty, _, block, _) =>
            if negb (beq ty (str "CERTIFICATE")) then Err BadAcmeRoot
            else match ParseCert block with
            | None => Err BadAcmeRoot
            | Some root =>
                let c := mkAcmeConfig baseURL domain (HexEncode (Sum256 (c_Raw root))) in
                match New_acme c e f with
                | Err err => Err (AcmeStart err)
                | Ok s => Ok (c, s)
                end
            end
        end
  end.

(** What the machine shows [run]: the interface, the clock, the lease file, the
    CA's environment, the ACME server's environment and state file and whether
    the boot directory can be created and opened. *)
Record machine := mkMachine {
  mc_interface : option iface; mc_now : time; mc_leases : Lease.file; mc_pki : pki_env; mc_acme : AcmeState.env;
  mc_acmeFile : acme_file; mc_boot : bool }.

Definition newCA (c : BoxConfig) (e : pki_env) : St pki_disk (Prelude.result run_error PkiManager) := fun d =>
  match acmeBaseURL (cfg_Domain c) (cfg_HTTPSAddress c) with
  | Err err => (Err (RunURL err), d)
  | Ok baseURL =>
      let '(r, d) := Open e (mkPkiConfig (cfg_CADirectory c) (cfg_Domain c) (cfg_ServerIP c) (baseURL ++ str "/crl")) d in
      (match r with Ok ca => Ok ca | Err err => Err (RunCA err) end, d)
  end.

(** [newGateway]: the validator, the ACME server and the gateway. *)
Definition newGateway (c : BoxConfig) (ca : PkiManager) (x : machine)
    : Prelude.result run_error (Validator * (AcmeConfig * AcmeServer) * GatewayServer) :=
  match acmeBaseURL (cfg_Domain c) (cfg_HTTPSAddress c) with
  | Err err => Err (RunURL err)
  | Ok baseURL =>
      match New_validator (mkValidatorConfig (cfg_Domain c) (cfg_Subnet c)) with
      | Err err => Err (RunValidator err)
      | Ok validator =>
          match New_acmeserver baseURL (cfg_Domain c) (cfg_ACMEStateFile c) (m_rootPEM ca) (mc_acme x) (mc_acmeFile x) with
          | Err err => Err (RunAcme err)
          | Ok acme =>
              match New_gateway renderPage
                      (mkGatewayConfig (cfg_HTTPSAddress c) (cfg_HTTPAddress c) (cfg_Domain c) (cfg_BootDirectory c) true)
                      (m_rootPEM ca) true (mc_boot x) with
              | Err err => Err (RunGateway err)
              | Ok web => Ok (validator, acme, web)
              end
          end
      end
  end.

(** [ldapserver.New]: a directory that names a missing group would be a nil
    dereference. *)
Definition New_ldap (c : LDAPConfig) : Prelude.result run_error LdapServer :=
  match Validate_ldap c with
  | Err err => Err (RunLdap err)
  | Ok _ => match buildDirectory c with None => Err RunLdapPanic | Some s => Ok s end
  end.

(** [newLDAP]; the certificate is issued before the directory is built. *)
Definition newLDAP (c : BoxConfig) (ca : PkiManager) (e : pki_env)
    : St pki_disk (Prelude.result run_error (PkiManager * LdapServer)) := fun d =>
  let '((r, ca), d) := GetLDAPCertificate e ca d in
  (match r with
   | Err err => Err (RunLdapCertificate err)
   | Ok _ => match New_ldap (cfg_LDAP c) with Err err => Err err | Ok s => Ok (ca, s) end
   end, d).

(** The services [run] hands to [serve]. *)
Record services := mkServices {
  sv_leases : Manager; sv_dhcp : DhcpConfig; sv_dns : DnsServer; sv_ca : PkiManager; sv_validator : Validator;
  sv_acme : AcmeConfig * AcmeServer; sv_web : GatewayServer; sv_ldap : LdapServer }.

(** [dhcpv4.MaxLeaseTime] is the largest number of seconds of an option. *)
Definition MaxLeaseTime : duration := (2 ^ 32 - 1) * second.

(** [run], from the configuration to the services. *)
Definition run (c : BoxConfig) (x : machine) : St pki_disk (Prelude.result run_error services) := fun d =>
  match checkInterface (mc_interface x) (cfg_ServerIP c) with Err err => (Err (RunInterface err), d) | Ok _ =>
  match newLeaseManager c (mc_now x) (mc_leases x) with Err err => (Err (RunLeases err), d) | Ok leases =>
  match New_dhcp MaxLeaseTime (dhcpConfig c) with Err err => (Err (RunDhcp err), d) | Ok dhcp =>
  match New_dns (dnsConfig c) with Err err => (Err (RunDns err), d) | Ok dns =>
  if negb (New_tftp (cfg_TFTPAddress c)) then (Err RunTftp, d)
  else if negb (New_ntp (cfg_NTPAddress c)) then (Err RunNtp, d)
  else
    let '(ca, d) := newCA c (mc_pki x) d in
    match ca with Err err => (Err err, d) | Ok ca =>
    match newGateway c ca x with Err err => (Err err, d) | Ok (validator, acme, web) =>
    let '(ldap, d) := newLDAP c ca (mc_pki x) d in
    match ldap with Err err => (Err err, d) | Ok (ca, ldap) =>
    if negb (New_nfs (cfg_NFSAddress c) (cfg_NFS c)) then (Err RunNfs, d)
    else (Ok (mkServices leases dhcp dns ca validator acme web ldap), d)
    end end end
  end end end end.

End run.
