(* ===== verification/WiringProps.v ===== *)
(** * The services accept what the configuration accepts

    Every check a service makes on its settings holds of a loaded configuration,
    so that only the machine can stop [run]; and what the settings promise holds
    of the services at run time. *)

From stdpp Require Import gmap list strings sorting.
From Stdlib Require Import ZArith Lia.
From S2P Require Import LdapProps DnsProps AcmeProps PkiProps Prelude GoStrings GoNet GoAddr GoAddrFacts GoPath GoHash GoTime GoKeys Names Lease LeaseFacts LeaseOps Dhcp Dns Ntp Tftp Ldap AcmeState Acme AcmeValidate Pki Config ConfigFile ConfigFacts ConfigProps NfsProto NfsFs Gateway GatewayProps Wiring.

(** What the domain name library and net/url do with the names and the URL of a
    valid domain. *)
Class WiringLaws `{DnsLib} `{Decoders} : Prop := {
  fqdn_name : forall d, validDNSName d = true -> Fqdn d = d ++ [DOT];
  url_name : forall h, validDNSName h = true ->
    urlParse (str "https://" ++ h ++ str "/acme") = Some (mkURL (str "https") [] [] false [] h false (str "/acme") []) }.

(** ** Endpoints *)

(** The ports in use are decimal and have no marks. *)
Definition port_ok (p : string) (n : Z) : Prop := no_marks (str p) /\ ParseUint (str p) 16 = Some n /\ Atoi (str p) = Some n /\ 0 < n <= 65535.

Lemma port_check p n : forallb is_digit (str p) && bool_decide (ParseUint (str p) 16 = Some n)
  && bool_decide (Atoi (str p) = Some n) && (0 <? n) && (n <=? 65535) = true -> port_ok p n.
Proof.
  intros E. bool_hyps. unfold port_ok. split; [|split; [done|split; [done|lia]]].
  split_and!; intros Hin; rewrite forallb_forall in *; apply list_elem_of_In in Hin;
  match goal with Hf : forall x, In x _ -> _ |- _ => apply Hf in Hin end; by vm_compute in Hin.
Qed.

Lemma ports : port_ok "53" 53 /\ port_ok "69" 69 /\ port_ok "80" 80 /\ port_ok "123" 123 /\ port_ok "443" 443 /\ port_ok "2049" 2049.
Proof. split_and!; apply port_check; vm_compute; reflexivity. Qed.

Section endpoint.
Context (v : Z) (p : string) (n : Z) (Hv : 0 <= v < 2 ^ 32) (Hp : port_ok p n).

Lemma serverPort_text : serverPort (Addr4 v) p = String4 v ++ COLON :: str p.
Proof. unfold serverPort. cbn [addr_value]. apply JoinHostPort_plain. by apply String4_no_marks. Qed.

Lemma serverPort_split : SplitHostPort (serverPort (Addr4 v) p) = Some (String4 v, str p).
Proof. rewrite serverPort_text. apply SplitHostPort_join; [apply String4_nonempty|by apply String4_no_marks|apply Hp]. Qed.

Lemma serverPort_parse : ParseAddrPort (serverPort (Addr4 v) p) = Some (Addr4 v, n).
Proof. rewrite serverPort_text. apply ParseAddrPort_endpoint; [done|apply Hp|apply Hp]. Qed.
End endpoint.

(** ** Unicast addresses *)

Lemma unicast_kinds v : IsGlobalUnicast4 v = true -> IsMulticast4 v = false /\ v <> 0.
Proof. unfold IsGlobalUnicast4. intros E. bool_hyps. split; [done|]. intros ->. done. Qed.

Lemma gw_validateAddress_ok v p n : 0 <= v < 2 ^ 32 -> IsGlobalUnicast4 v = true -> port_ok p n ->
  gw_validateAddress (serverPort (Addr4 v) p) = true.
Proof.
  intros Hv Hu Hp. unfold gw_validateAddress. rewrite (serverPort_split v p n) by done. destruct Hp as (_ & _ & Ha & Hn).
  rewrite ParseAddr_String4 by done. cbn [IsMulticast]. destruct (unicast_kinds _ Hu) as [-> _]. rewrite andb_false_r, Ha.
  rewrite negb_true_iff, orb_false_iff, !Z.ltb_ge. lia.
Qed.

Lemma digit_sign x s : is_digit x = true ->
  (match x :: s with 45 :: s' => (true, s') | 43 :: s' => (false, s') | _ => (false, x :: s) end) = (false, x :: s).
Proof.
  intros Hx. unfold is_digit in Hx. apply andb_true_iff in Hx as [Hx _]. apply Z.leb_le in Hx. destruct x as [|p|p]; [done| |done].
  assert (Hp : p <> 45%positive /\ p <> 43%positive) by lia. clear - Hp. do 6 (destruct p as [p|p|]; try done); naive_solver.
Qed.

Lemma ParseUint_Atoi s n : ParseUint s 16 = Some n -> Atoi s = Some n.
Proof.
  unfold ParseUint, Atoi. destruct s as [|x s]; [done|]. change (beq (x :: s) []) with false. cbn iota.
  destruct (forallb is_digit (x :: s)) eqn:E; [|done]. destruct (Z.ltb_spec (digits_value (x :: s)) (2 ^ 16)) as [Hl|]; [|done]. intros [= <-].
  rewrite digit_sign by (cbn [forallb] in E; by apply andb_true_iff in E as [-> _]). change (beq (x :: s) []) with false.
  rewrite E. cbn [negb orb]. destruct (Z.ltb_spec (digits_value (x :: s)) (2 ^ 63)); [done|lia].
Qed.

Lemma prefix_app_cases (a b : list bytes) k : a `prefix_of` b ++ k -> a `prefix_of` b \/ b `prefix_of` a.
Proof.
  revert b. induction a as [|x a IH]; intros b Hx; [left; apply prefix_nil|]. destruct b as [|y b]; [right; apply prefix_nil|].
  apply prefix_cons_inv_1 in Hx as Hxy. apply prefix_cons_inv_2 in Hx. subst y.
  destruct (IH b Hx); [left|right]; by apply prefix_cons.
Qed.

(** ** Names of the domain *)

Lemma canonicalUnder_reserved domain name : validDNSName domain = true -> canonicalUnder domain name ->
  existsb (fun c => 128 <=? c) (runes name) = false /\ NormalizeHostname name domain = name /\ name <> []
  /\ beq (TrimSuffix (ToLower name) [DOT]) domain = false.
Proof.
  intros Hd Hc. assert (Hf := canonical_fixed _ _ Hd Hc). destruct Hc as (host & -> & Hv & Hh).
  assert (Hb : Forall name_byte (host ++ [DOT] ++ domain ++ [DOT])).
  { apply validDNSName_bytes in Hv. rewrite !Forall_app in *. by destruct Hv as (? & ? & ?). }
  split; [|split; [done|split; [by destruct host|]]].
  - rewrite runes_ascii by by apply name_byte_ascii. apply not_true_is_false. rewrite existsb_exists.
    intros (x & Hx & E). apply list_elem_of_In in Hx. rewrite Forall_forall in Hb. apply Hb in Hx. unfold name_byte in Hx. bool_hyps. lia.
  - rewrite ToLower_name_byte by done. apply beq_false.
    replace (host ++ [DOT] ++ domain ++ [DOT]) with ((host ++ [DOT] ++ domain) ++ [DOT]) by by rewrite <- !app_assoc.
    rewrite TrimSuffix_app. intros E. apply (f_equal length) in E. rewrite !length_app in E. cbn in E. lia.
Qed.

Lemma reserveNames_ok domain names : validDNSName domain = true -> Forall (canonicalUnder domain) names ->
  forall acc, exists out, reserveNames domain names acc = Ok out /\ acc ⊆ out /\ forall name, name ∈ names -> name ∈ out.
Proof.
  intros Hd Hn. induction Hn as [|name names Hc _ IH]; intros acc.
  { exists acc. split; [done|]. split; [done|]. by intros name ?%not_elem_of_nil. }
  cbn [reserveNames]. destruct (canonicalUnder_reserved _ _ Hd Hc) as (-> & -> & Hne & ->). rewrite (proj2 (beq_false _ _) Hne).
  destruct (IH ({[name]} ∪ acc)) as (out & -> & Ho & Hn). exists out. split; [done|]. split; [set_solver|].
  intros n Hx. apply elem_of_cons in Hx as [->|Hx]; [set_solver|by apply Hn].
Qed.

(** A canonical record name below the domain that is not a wildcard is a
    canonical hostname. *)
Lemma record_hostname domain name : canonicalRecord domain name -> validDNSName domain = true ->
  HasSuffix name ([DOT] ++ domain ++ [DOT]) = true -> HasPrefix name (str "*.") = false -> canonicalUnder domain name.
Proof.
  intros (w & n & -> & Hv & _ & Hl) Hd Hs Hp. destruct w; [by rewrite HasPrefix_app in Hp|]. cbn [star app] in *.
  apply HasSuffix_spec in Hs as [host Hh]. exists host. split; [done|].
  assert (En : n = host ++ [DOT] ++ domain).
  { apply (app_inj_tail n (host ++ [DOT] ++ domain) DOT DOT). by rewrite Hh, <- !app_assoc. }
  rewrite <- En. split.
  - unfold validDNSName. assert (n <> []) by by intros ->. assert (0 < len n) by (destruct n; [done|rewrite len_cons; pose proof (len_nonneg n); lia]).
    destruct ((len n =? 0) || (253 <? len n)) eqn:E; [|done]. rewrite orb_true_iff, Z.eqb_eq, Z.ltb_lt in E. lia.
  - intros ->. rewrite En in Hv. change ([] ++ [DOT] ++ domain) with ([] ++ [DOT] ++ domain) in Hv. rewrite validLabels_sep_app in Hv. done.
Qed.

(** With the final dot on the domain, as the DNS server has it. *)
Lemma NormalizeARecord_dot name domain : validDNSName domain = true ->
  NormalizeARecord name (domain ++ [DOT]) = NormalizeARecord name domain.
Proof.
  intros Hd. unfold NormalizeARecord. rewrite TrimSuffix_app, (TrimSuffix_validLabels domain); [done|by apply validDNSName_labels].
Qed.

Lemma normalizeRecords_ok domain records : validDNSName domain = true ->
  Forall (fun x => canonicalRecord domain x.1 /\ host4 x.2
    /\ x.1 <> str "ns." ++ domain ++ [DOT] /\ x.1 <> str "gateway." ++ domain ++ [DOT]) records ->
  NoDup (map fst records) -> forall acc, (forall x, x ∈ records -> acc !! x.1 = None) ->
  normalizeRecords (domain ++ [DOT]) records acc = Ok (list_to_map records ∪ acc).
Proof.
  intros Hd Hr. induction Hr as [|[name ip] records (Hc & Hh & Hn1 & Hn2) _ IH]; intros Hnd acc Ha.
  { by rewrite list_to_map_nil, map_empty_union. }
  cbn [fst snd map] in *. apply NoDup_cons in Hnd as [Hni Hnd]. cbn [normalizeRecords].
  rewrite NormalizeARecord_dot, (canonicalRecord_fixed _ _ Hd Hc) by done.
  assert (name <> []) as Hne%beq_false. { destruct Hc as (w & n & -> & _). destruct w, n; done. }
  rewrite Hne, (proj2 (beq_false _ _) Hn1), (proj2 (beq_false _ _) Hn2). cbn [orb].
  rewrite bool_decide_false by (change name with (name, ip).1; rewrite Ha by left; by apply is_Some_None).
  assert (Hu : isUnicast4 ip = true) by by destruct Hh as (v & -> & _ & Hu). rewrite Hu. cbn [negb].
  rewrite IH; [|done|].
  - f_equal. rewrite list_to_map_cons, <- insert_union_l, <- insert_union_r; [done|by apply not_elem_of_list_to_map_1].
  - intros x Hx. rewrite lookup_insert_ne; [apply Ha; by right|]. intros ->. apply Hni. apply list_elem_of_fmap. by exists x.
Qed.

(** ** The directory *)

Section directory.
Context `{LdapLib}.

Lemma Compact_elem l x : x ∈ Compact l -> x ∈ l.
Proof.
  induction l as [|a [|b l] IH]; [done|done|]. cbn [Compact]. destruct (a =? b).
  - intros Hx. right. by apply IH.
  - rewrite !elem_of_cons. intros [->|Hx]; [by left|right]. by apply elem_of_cons, IH.
Qed.

Lemma userGIDs_elem u gid : gid ∈ userGIDs u -> gid ∈ u_PrimaryGroup u :: u_OtherGroups u.
Proof. intros Hx. apply Compact_elem in Hx. by rewrite (merge_sort_Permutation Z.le) in Hx. Qed.

Lemma joinGroups_total user gids : forall e groups, (forall gid, gid ∈ gids -> gid ∈ dom groups) ->
  exists e' groups', joinGroups user gids e groups = Some (e', groups') /\ dom groups' = dom groups.
Proof.
  induction gids as [|gid gids IH]; intros e groups Hg; [by eexists _, _|]. cbn [joinGroups].
  assert (Hin : gid ∈ dom groups) by (apply Hg; by left). apply elem_of_dom in Hin as [g Eg]. rewrite Eg.
  edestruct (IH) as (e' & groups' & -> & Hd).
  2:{ eexists _, _. split; [done|]. rewrite Hd. apply dom_insert_lookup_L. by eexists. }
  intros x Hx. rewrite dom_insert_lookup_L by by eexists. apply Hg. by right.
Qed.

Lemma addUsers_total base users : forall groups,
  Forall (fun u => Forall (fun gid => gid ∈ dom groups) (u_PrimaryGroup u :: u_OtherGroups u)) users ->
  is_Some (addUsers base users groups).
Proof.
  induction users as [|u users IH]; intros groups Hg; [by eexists|]. cbn [addUsers]. apply Forall_cons in Hg as [Hu Hg].
  destruct (joinGroups_total (u_Name u) (userGIDs u) (userEntry base u) groups) as (e & groups' & -> & Hd).
  { intros gid Hx. apply userGIDs_elem in Hx. rewrite Forall_forall in Hu. by apply Hu. }
  rewrite <- Hd in Hg. destruct (IH groups' Hg) as [[[es accounts] groups''] ->]. by eexists.
Qed.

Lemma groups_dom base l : forall acc : gmap Z entry, dom (fold_left (fun acc g => <[g_GID g := groupEntry base g]> acc) l acc)
  = list_to_set (map g_GID l) ∪ dom acc.
Proof.
  induction l as [|g l IH]; intros acc; cbn [fold_left map list_to_set]; [set_solver|]. rewrite IH, dom_insert_L. set_solver.
Qed.

(** A validated directory is built: no membership names an unknown group. *)
Lemma buildDirectory_total `{!ConfigLib} cfg : ldap_ok cfg -> is_Some (buildDirectory cfg).
Proof.
  intros Hok. unfold buildDirectory. edestruct (addUsers_total (BaseDN cfg) (Users cfg)) as [[[es accounts] groups] ->]; [|by eexists].
  eapply Forall_impl; [apply (lo_users _ Hok)|]. intros u (_ & _ & Hg & _). eapply Forall_impl; [exact Hg|].
  intros gid Hx. rewrite groups_dom, dom_empty_L, elem_of_union, elem_of_list_to_set. by left.
Qed.
End directory.

(** ** What the machine can refuse *)

(** Errors of the CA that are not about its settings. *)
Definition outside_pki (e : pki_error) : bool :=
  match e with BadPkiDomain | BadServerIP | NoDirectory => false | _ => true end.

(** Errors of [run] that come from the machine: the interface, the files found on
    disk, the CA's directory and certificates, random numbers and the clock. *)
Definition outside (e : run_error) : bool :=
  match e with
  | RunInterface _ => true
  | RunLeases (ErrRestore _) => true
  | RunCA e => outside_pki e
  | RunAcme (AcmeStart _) | RunAcme BadAcmeRoot => true
  | RunGateway GwRootPEM | RunGateway GwRootParse | RunGateway GwRootKind | RunGateway GwRootSignature
  | RunGateway GwPage | RunGateway GwBoot => true
  | RunLdapCertificate e => outside_pki e
  | _ => false
  end.

Lemma openRoot_outside `{PkiLib} e d err d' : openRoot e d = (Err err, d') -> outside_pki err = true.
Proof. unfold openRoot. intros E. repeat case_match; simplify_eq; done. Qed.

Lemma serviceCertificate_outside `{PkiLib} e cfg root host name current d err kept d' :
  serviceCertificate e cfg root host name current d = ((Err err, kept), d') -> outside_pki err = true.
Proof. unfold serviceCertificate. intros E. repeat case_match; simplify_eq; done. Qed.

(** ** The services *)

Section services.
Context `{PkiLib} `{X509} `{!Decoders} `{DnsLib} `{ConfigLib} `{!WiringLaws}.
Context (c : BoxConfig) (Ha : accepted c).

Lemma reserved_canonical : Forall (canonicalUnder (cfg_Domain c)) (reservedNames c).
Proof.
  apply Forall_forall. intros name Hn. unfold reservedNames in Hn. apply list_elem_of_filter in Hn as [Ht Hn].
  apply Is_true_true, andb_true_iff in Ht as [Hs Hp]. apply negb_true_iff in Hp.
  apply list_elem_of_fmap in Hn as ([n ip] & -> & Hn). apply elem_of_map_to_list in Hn.
  destruct (ac_records _ Ha _ _ Hn) as [Hc _]. apply record_hostname; try done. apply (ac_domain _ Ha).
Qed.

(** The lease manager refuses only a lease file; it keeps the pool, the domain
    and every reserved name. *)
Lemma newLeaseManager_restores : exists c' reserved, (forall now disk, newLeaseManager c now disk =
  match restore c' reserved now disk with Err e => Err (ErrRestore e) | Ok st => Ok (mkManager c' st reserved) end) /\
  PoolStart c' = cfg_PoolStart c /\ PoolEnd c' = cfg_PoolEnd c /\ Domain c' = cfg_Domain c /\
  forall name, name ∈ reservedNames c -> name ∈ reserved.
Proof.
  destruct (ac_network _ Ha) as [_ _ (s & Es & _) (e & Ee & _) _ _ _ Ho _]. destruct (ac_domain _ Ha) as [Hd _].
  unfold newLeaseManager, newManager, leaseConfig. cbn [PoolStart PoolEnd Domain LeaseDuration OfferDuration DeclineDuration ReservedNames File].
  rewrite Es, Ee in *. cbn [Unmap Is4 negb orb]. rewrite Ho. cbn [negb]. fold (normDomain (cfg_Domain c)).
  rewrite (normDomain_valid _ Hd), Hd. cbn [negb].
  destruct (Z.leb_spec (cfg_LeaseDuration c) 0) as [Hl|_]; [pose proof (ac_lease _ Ha); unfold minute, second in *; lia|].
  change ((0 <? 0) || (0 <? 0)) with false. cbn iota.
  destruct (reserveNames_ok _ _ Hd reserved_canonical {[str "ns." ++ cfg_Domain c ++ [DOT]; str "gateway." ++ cfg_Domain c ++ [DOT]]}) as (out & -> & _ & Hr).
  by eexists _, _.
Qed.

Lemma newLeaseManager_fresh now : exists m, newLeaseManager c now FileAbsent = Ok m.
Proof.
  destruct newLeaseManager_restores as (c' & reserved & -> & _). unfold restore. destruct (beq (File c') []); by eexists.
Qed.

Lemma dhcp_accepts : is_ok (New_dhcp MaxLeaseTime (dhcpConfig c)) = true.
Proof.
  destruct (ac_network _ Ha) as [Hs (v & Ev & _) _ _ _ [[Hc _] _] _ _ _]. unfold New_dhcp, dhcpConfig.
  cbn [dc_ServerIP dc_Subnet dc_Router dc_Domain dc_LeaseDuration]. rewrite Hc, (subnet4_valid _ Hs), Ev. cbn [Is4 negb orb].
  pose proof (ac_lease _ Ha) as [Hl _]. unfold MaxLeaseTime.
  destruct (Z.ltb_spec (cfg_LeaseDuration c) minute); [lia|]. destruct (Z.ltb_spec ((2 ^ 32 - 1) * second) (cfg_LeaseDuration c)); [lia|done].
Qed.

Lemma tftp_ntp_accept : New_tftp (cfg_TFTPAddress c) = true /\ New_ntp (cfg_NTPAddress c) = true.
Proof.
  destruct (ac_listen _ Ha) as (_ & -> & -> & _). destruct (ac_network _ Ha) as [_ (v & -> & Hv & Hu) _ _ _ _ _ _ _].
  destruct ports as (_ & P1 & _ & P2 & _). unfold New_tftp, New_ntp.
  rewrite (serverPort_parse v "69" 69), (serverPort_parse v "123" 123) by done. unfold unicast4. by rewrite Hu.
Qed.

Lemma nfs_accepts : New_nfs (cfg_NFSAddress c) (cfg_NFS c) = true.
Proof.
  destruct (ac_listen _ Ha) as (_ & _ & _ & _ & _ & ->). destruct (ac_network _ Ha) as [_ (v & -> & Hv & Hu) _ _ _ _ _ _ _].
  destruct ports as (_ & _ & _ & _ & _ & P). unfold New_nfs. rewrite (serverPort_parse v "2049" 2049), Hu, (ac_shares _ Ha) by done. done.
Qed.

Lemma base_url : acmeBaseURL (cfg_Domain c) (cfg_HTTPSAddress c) = Ok (str "https://" ++ (str "gateway." ++ cfg_Domain c) ++ str "/acme").
Proof.
  destruct (ac_listen _ Ha) as (_ & _ & _ & _ & -> & _). destruct (ac_network _ Ha) as [_ (v & -> & Hv & _) _ _ _ _ _ _ _].
  destruct ports as (_ & _ & _ & _ & P & _). unfold acmeBaseURL. rewrite (serverPort_split v "443" 443) by done.
  destruct P as (_ & -> & _). done.
Qed.

Lemma validator_accepts : is_ok (New_validator (mkValidatorConfig (cfg_Domain c) (cfg_Subnet c))) = true.
Proof.
  destruct (ac_domain _ Ha) as [Hd _]. destruct (ac_network _ Ha) as [Hs _ _ _ _ _ _ _ _]. unfold New_validator. cbn [v_Domain Subnet].
  rewrite (canonicalName_valid _ Hd), Hd, (subnet4_valid _ Hs). destruct Hs as (base & bits & -> & Hb & Hm). rewrite Hm.
  cbn [negb Is4 p_addr p_bits orb]. destruct (Z.ltb_spec 30 bits); [lia|]. cbn [orb]. by rewrite (proj2 (addr_eqb_true _ _) eq_refl).
Qed.

(** An accepted upstream is a unicast or loopback endpoint other than the
    server's own. *)
Lemma upstream_ok : cfg_Upstream c <> [] -> exists host port v n, SplitHostPort (cfg_Upstream c) = Some (host, port) /\
  ParseAddr host = Some (Addr4 v) /\ ParseUint port 16 = Some n /\ n <> 0 /\ (IsGlobalUnicast4 v = true \/ IsLoopback4 v = true)
  /\ (n = 53 -> Addr4 v <> cfg_ServerIP c).
Proof.
  intros Hne. pose proof (ac_upstream _ Ha) as Hu. unfold validateListeners, parseAddress in Hu.
  rewrite (proj2 (beq_false _ _) Hne) in Hu. destruct (SplitHostPort _) as [[host port]|]; [|done].
  destruct (ParseAddr host) as [[|v|]|] eqn:Ep; try done. destruct (ParseUint port 16) as [n|] eqn:En; [|done].
  destruct (Z.eqb_spec n 0); [done|]. cbn [addr_value IsLoopback] in Hu.
  destruct (negb (IsGlobalUnicast4 v) && negb (IsLoopback4 v)) eqn:E1; [done|]. destruct ((n =? 53) && _) eqn:E2; [done|].
  exists host, port, v, n. split; [done|]. split; [done|]. split; [done|]. split; [done|]. split.
  - apply andb_false_iff in E1 as [E1|E1]; apply negb_false_iff in E1; auto.
  - intros ->. by apply addr_eqb_false.
Qed.

Lemma loopback_kinds v : IsLoopback4 v = true -> IsMulticast4 v = false /\ v <> 0.
Proof. unfold IsLoopback4, IsMulticast4. intros E. apply Z.eqb_eq in E. rewrite E. split; [done|]. intros ->. done. Qed.

Lemma upstream_accepted : negb (beq (cfg_Upstream c) []) && negb (validateAddress (cfg_Upstream c) false) = false
  /\ negb (beq (cfg_Upstream c) []) && upstreamLoops (dnsConfig c) = false.
Proof.
  destruct (beq (cfg_Upstream c) []) eqn:E; [done|]. apply beq_false in E. cbn [negb andb].
  destruct (upstream_ok E) as (host & port & v & n & Es & Ep & En & Hn & Hk & Hs). split.
  - unfold validateAddress. rewrite Es, (ParseUint_Atoi _ _ En), Ep, andb_false_r. apply ParseUint_range in En.
    destruct ((n <? 0) || (65535 <? n) || (negb false && (n =? 0))) eqn:Eb.
    { rewrite !orb_true_iff, !Z.ltb_lt, andb_true_iff, Z.eqb_eq in Eb. lia. }
    assert (Hv : IsMulticast4 v = false /\ v <> 0) by (destruct Hk; [by apply unicast_kinds|by apply loopback_kinds]).
    destruct Hv as [Hm Hz]. cbn [IsUnspecified IsMulticast]. rewrite Hm. destruct (Z.eqb_spec v 0); done.
  - unfold upstreamLoops, dnsConfig. cbn [n_Address n_Upstream n_ServerIP]. destruct (ac_listen _ Ha) as (-> & _).
    destruct (ac_network _ Ha) as [_ (w & Ew & Hw & Hu) _ _ _ _ _ _ _]. rewrite Ew in *. destruct ports as (P & _).
    rewrite (serverPort_split w "53" 53), Es, Ep, ParseAddr_String4 by done. cbn [from_option id].
    destruct (beq (str "53") port) eqn:Eb; [|done]. apply beq_true in Eb. subst port. assert (n = 53) as -> by (vm_compute in En; congruence).
    rewrite (proj2 (addr_eqb_false (Addr4 w) (Addr4 v))) by (intros Heq; by apply Hs).
    rewrite (proj2 (beq_false _ _) (String4_nonempty w)). cbn [IsUnspecified andb orb]. destruct (unicast_kinds _ Hu) as [_ Hz].
    destruct (Z.eqb_spec w 0); done.
Qed.

(** The names of the services are valid. *)
Lemma gateway_name : validDNSName (str "gateway." ++ cfg_Domain c) = true
  /\ NormalizeHostname (str "gateway") (cfg_Domain c) = str "gateway." ++ cfg_Domain c ++ [DOT].
Proof.
  destruct (ac_domain _ Ha) as [Hd Hl]. assert (Hv : validDNSName (str "gateway." ++ cfg_Domain c) = true).
  { change (str "gateway." ++ cfg_Domain c) with (str "gateway" ++ [DOT] ++ cfg_Domain c). unfold validDNSName.
    rewrite validLabels_sep_app, !len_app. change (len (str "gateway")) with 7. change (len [DOT]) with 1.
    destruct ((7 + (1 + len (cfg_Domain c)) =? 0) || (253 <? 7 + (1 + len (cfg_Domain c)))) eqn:E;
      [rewrite orb_true_iff, Z.eqb_eq, Z.ltb_lt in E; lia|]. apply andb_true_iff. split; [done|by apply validDNSName_labels]. }
  split; [done|]. unfold NormalizeHostname. rewrite (normDomain_valid _ Hd), Hd.
  change (ToLower (TrimSuffix (str "gateway") [DOT])) with (str "gateway"). change (validDNSName (str "gateway")) with true.
  change (ContainsByte (str "gateway") DOT) with false. cbn [negb orb].
  change (str "gateway" ++ [DOT] ++ cfg_Domain c) with (str "gateway." ++ cfg_Domain c). by rewrite Hv, <- app_assoc.
Qed.

(** The DNS server keeps the configured records under the domain. *)
Lemma dns_accepts : exists s, New_dns (dnsConfig c) = Ok s /\ n_ARecords (config s) = cfg_ARecords c
  /\ n_Domain (config s) = cfg_Domain c ++ [DOT] /\ n_Subnet (config s) = cfg_Subnet c.
Proof.
  destruct (ac_domain _ Ha) as [Hd Hl]. destruct (ac_network _ Ha) as [Hs (v & Ev & Hv & Hu) _ _ _ [[Hc _] _] _ _ _].
  destruct upstream_accepted as [U1 U2]. destruct (ac_listen _ Ha) as (En & _).
  assert (Hb := validDNSName_bytes _ Hd). assert (Hb' : Forall name_byte (cfg_Domain c ++ [DOT])).
  { apply Forall_app. split; [done|]. constructor; [|done]. unfold name_byte, DOT. lia. }
  unfold New_dns. set (loops := upstreamLoops (dnsConfig c)) in *. unfold dnsConfig. cbn [n_Address n_Domain n_ServerIP n_Subnet n_ARecords n_Upstream n_TTL].
  assert (Hla : validateAddress (cfg_DNSAddress c) true = true).
  { rewrite En, Ev. unfold validateAddress. destruct ports as (P & _). rewrite (serverPort_split v "53" 53) by done.
    destruct P as (_ & _ & -> & _). rewrite ParseAddr_String4, (proj2 (beq_false _ _) (String4_nonempty v)) by done. done. }
  rewrite Hla, TrimSpace_name, fqdn_name, ToLower_name_byte by done. cbn [negb].
  assert (Hvd : validDomain (cfg_Domain c ++ [DOT]) = true).
  { unfold validDomain. rewrite TrimSuffix_app, len_app. change (len [DOT]) with 1. destruct (Z.ltb_spec 243 (len (cfg_Domain c) + 1)); [lia|].
    assert (beq (cfg_Domain c ++ [DOT]) (str ".") = false) as ->; [|by apply validDNSName_labels].
    apply beq_false. intros E. apply (f_equal len) in E. rewrite len_app in E. change (len [DOT]) with 1 in E. change (len (str ".")) with 1 in E. lia. }
  rewrite Hvd. cbn [negb]. unfold normalizeARecords. rewrite (normalizeRecords_ok (cfg_Domain c)); [|done| |apply NoDup_fst_map_to_list|done].
  2:{ apply Forall_forall. intros [name ip] Hin. apply elem_of_map_to_list in Hin. apply (ac_records _ Ha _ _ Hin). }
  rewrite list_to_map_to_list, map_union_empty, Hc, (subnet4_valid _ Hs). destruct Hs as (base & bits & Es & Hbits & Hm).
  rewrite Hm, Es, Ev. cbn [Is4 p_addr negb orb]. pose proof (ac_ttl _ Ha) as [Ht _].
  destruct ((cfg_DNSTTL c <? 0) || (2 ^ 32 - 1 <? cfg_DNSTTL c / second)) eqn:Et.
  { rewrite orb_true_iff, !Z.ltb_lt in Et. unfold second in *. destruct Et; [lia|].
    pose proof (Z.div_le_mono (cfg_DNSTTL c) ((2 ^ 32 - 1) * 1000000000) 1000000000 ltac:(lia) ltac:(lia)) as Hq.
    rewrite Z.div_mul in Hq by lia. lia. }
  rewrite U1, U2. eexists. split; [done|]. cbn [config n_ARecords n_Domain n_Subnet]. by rewrite <- Es.
Qed.

(** The CA refuses the machine's directory and what it holds, never the settings. *)
Lemma newCA_accepts e d err d' : newCA c e d = (Err err, d') -> outside err = true.
Proof.
  unfold newCA. rewrite base_url. unfold Open. cbn [k_Directory k_Domain k_ServerIP k_CRLURL]. destruct gateway_name as [Hv ->].
  rewrite (app_assoc (str "gateway.")), TrimSuffix_app.
  assert (beq (str "gateway." ++ cfg_Domain c) [] = false) as -> by by apply beq_false.
  destruct (ac_network _ Ha) as [_ (v & -> & Hv' & Hu) _ _ _ _ _ _ _]. destruct (unicast_kinds _ Hu) as [Hm Hz].
  cbn [IsValid IsUnspecified IsMulticast addr_zone negb orb]. rewrite Hm. destruct (Z.eqb_spec v 0); [done|]. cbn [orb].
  change (negb (beq [] [])) with false. cbn iota.
  rewrite (proj2 (beq_false _ _)) by apply (ac_dirs _ Ha). destruct (negb (pe_dir e)); [by intros [= <- <-]|].
  destruct (openRoot e d) as [[root|p] d1] eqn:Eo; [|intros [= <- <-]; by eapply openRoot_outside].
  destruct (negb (validateRoot _ _)); [by intros [= <- <-]|]. destruct (writeFile _ _ _ _ _ _) as [[] d2]; [|by intros [= <- <-]].
  cbn [negb]. unfold GetCertificate. cbn [m_cfg m_root m_hostname m_leaf]. destruct (serviceCertificate _ _ _ _ _ _ _) as [[[leaf|p] kept] d3] eqn:Es; [done|].
  intros [= <- <-]. by eapply serviceCertificate_outside.
Qed.

Lemma newGateway_accepts renderPage ca x err : newGateway renderPage c ca x = Err err -> outside err = true.
Proof.
  destruct (ac_domain _ Ha) as [Hd _]. destruct gateway_name as [Hg Hn]. unfold newGateway. rewrite base_url.
  pose proof validator_accepts as Hv. destruct (New_validator _) as [v|]; [|done].
  assert (Hl : ToLower (TrimSuffix (cfg_Domain c) [DOT]) = cfg_Domain c).
  { rewrite TrimSuffix_validLabels by by apply validDNSName_labels. by apply validDNSName_ToLower. }
  assert (Hs : beq (cfg_ACMEStateFile c) [] = false). { apply beq_false. intros E. destruct (ac_dirs _ Ha) as (_ & _ & D). by rewrite E in D. }
  destruct (New_acmeserver _ _ _ _ _ _) as [acme|e] eqn:Ea.
  - destruct (New_gateway _ _ _ _ _) as [web|e] eqn:Eg; [done|]. intros [= <-]. revert Eg. unfold New_gateway.
    cbn [gc_Address gc_HTTPAddress gc_Domain gc_BootDirectory gc_ACME]. destruct (ac_listen _ Ha) as (_ & _ & _ & -> & -> & _).
    destruct (ac_network _ Ha) as [_ (w & -> & Hw & Hu) _ _ _ _ _ _ _]. destruct ports as (_ & _ & P80 & _ & P443 & _).
    rewrite (gw_validateAddress_ok w "443" 443), (gw_validateAddress_ok w "80" 80) by done. cbn [negb].
    fold (normDomain (cfg_Domain c)). rewrite (normDomain_valid _ Hd).
    assert (Hh : gw_validHostname (str "gateway." ++ cfg_Domain c) = true).
    { unfold gw_validHostname. apply validDNSName_labels in Hg as [Hg1 Hg2]. destruct (Z.ltb_spec 253 (len (str "gateway." ++ cfg_Domain c))); [lia|done]. }
    rewrite Hh. cbn [negb]. intros E. repeat case_match; simplify_eq; done.
  - intros [= <-]. revert Ea. unfold New_acmeserver. rewrite (url_name _ Hg).
    cbn [Scheme Host has_User u_Path u_RawPath RawQuery Fragment].
    change (beq (str "gateway." ++ cfg_Domain c) []) with false. rewrite !beq_refl. cbn [negb orb].
    rewrite Hl, Hn, Hs. change (beq (str "gateway." ++ cfg_Domain c ++ [DOT]) []) with false. cbn [orb].
    intros E. repeat case_match; simplify_eq; done.
Qed.

Lemma newLDAP_accepts ca e d err d' : newLDAP c ca e d = (Err err, d') -> outside err = true.
Proof.
  unfold newLDAP, New_ldap, GetLDAPCertificate. destruct (serviceCertificate _ _ _ _ _ _ _) as [[[cert|p] kept] d1] eqn:Es.
  - rewrite (ac_ldap _ Ha). destruct (buildDirectory_total _ (Validate_ldap_ok _ (ac_ldap _ Ha))) as [s ->]. done.
  - intros [= <- <-]. by eapply serviceCertificate_outside.
Qed.

(** Whatever stops [run] is outside the settings. *)
Lemma run_outside renderPage x d err d' : run renderPage c x d = (Err err, d') -> outside err = true.
Proof.
  unfold run. destruct (checkInterface _ _); [|by intros [= <- <-]]. destruct newLeaseManager_restores as (c' & reserved & -> & _).
  destruct (restore _ _ _ _) as [st|e]; [|by intros [= <- <-]]. pose proof dhcp_accepts as Hd. destruct (New_dhcp _ _) as [dhcp|]; [|done].
  destruct dns_accepts as (dns & -> & _). destruct tftp_ntp_accept as [-> ->]. cbn [negb].
  destruct (newCA c (mc_pki x) d) as [[ca|e] d1] eqn:Ec; [|intros [= <- <-]; by eapply newCA_accepts].
  destruct (newGateway _ _ _ _) as [[[v acme] web]|e] eqn:Eg; [|intros [= <- <-]; by eapply newGateway_accepts].
  destruct (newLDAP c ca (mc_pki x) d1) as [[[ca' ldap]|e] d2] eqn:El; [|intros [= <- <-]; by eapply newLDAP_accepts].
  by rewrite nfs_accepts.
Qed.

(** ** Leases *)

(** The manager of a running system has the configured pool, domain and names. *)
Lemma manager_settings m : built (leaseConfig c) m ->
  PoolStart (cfg m) = cfg_PoolStart c /\ PoolEnd (cfg m) = cfg_PoolEnd c /\ Domain (cfg m) = cfg_Domain c /\
  forall name, name ∈ reservedNames c -> name ∈ Lease.reservedNames m.
Proof.
  intros Hb. destruct newLeaseManager_restores as (c' & reserved & He & Hrest). specialize (Hb 0 FileAbsent). specialize (He 0 FileAbsent).
  unfold newLeaseManager in He. rewrite Hb in He. unfold restore in He. cbn [negb] in He.
  destruct (beq (File (cfg m)) []), (beq (File c') []); injection He as <- <-; done.
Qed.

Lemma pool_32_settings : pool_32 (leaseConfig c).
Proof.
  destruct (ac_network _ Ha) as [_ _ _ (e & Ee & He & _) _ _ _ _ _]. unfold pool_32. cbn [PoolEnd leaseConfig]. rewrite Ee.
  intros v [= <-]. lia.
Qed.

(** A hostname is never a configured name. *)
Lemma hostname_not_configured m name : built (leaseConfig c) m -> canonicalUnder (cfg_Domain c) name ->
  name ∉ Lease.reservedNames m -> cfg_ARecords c !! name = None.
Proof.
  intros Hb Hc Hn. destruct (cfg_ARecords c !! name) as [ip|] eqn:E; [|done]. destruct Hn. apply (manager_settings m Hb).
  unfold reservedNames. apply list_elem_of_filter. split.
  - destruct Hc as (host & -> & Hv & Hh). rewrite HasSuffix_app. apply Is_true_true. cbn [andb]. apply negb_true_iff.
    apply not_true_is_false. intros Hp. apply HasPrefix_spec in Hp as [k Hk]. destruct host as [|x host]; [done|].
    injection Hk as -> _. apply validDNSName_bytes in Hv. apply Forall_cons in Hv as [Hv _]. unfold name_byte in Hv. lia.
  - apply list_elem_of_fmap. exists (name, ip). split; [done|]. by apply elem_of_map_to_list.
Qed.

End services.

(** ** Properties *)

(** Every service accepts what the loader accepts.  With a configuration that
    loads, a first start builds the lease manager, and every other service takes
    its settings: DHCP, DNS (which keeps the configured records and subnet under
    the domain), TFTP, NTP, NFS, the validator of challenges and the LDAP
    directory; and the ACME server is at the gateway's name. *)
Theorem services_accept_configuration `{DnsLib} `{Decoders} `{ConfigLib} `{!WiringLaws} EvalSymlinks cwd fileAt path c :
  IsAbs cwd = true -> Load EvalSymlinks cwd fileAt path = Ok c ->
  (forall now, exists m, newLeaseManager c now FileAbsent = Ok m) /\
  is_ok (New_dhcp MaxLeaseTime (dhcpConfig c)) = true /\
  (exists s, New_dns (dnsConfig c) = Ok s /\ n_ARecords (config s) = cfg_ARecords c
     /\ n_Domain (config s) = cfg_Domain c ++ [DOT] /\ n_Subnet (config s) = cfg_Subnet c) /\
  New_tftp (cfg_TFTPAddress c) = true /\ New_ntp (cfg_NTPAddress c) = true /\
  New_nfs (cfg_NFSAddress c) (cfg_NFS c) = true /\
  is_ok (New_validator (mkValidatorConfig (cfg_Domain c) (cfg_Subnet c))) = true /\
  acmeBaseURL (cfg_Domain c) (cfg_HTTPSAddress c) = Ok (str "https://" ++ (str "gateway." ++ cfg_Domain c) ++ str "/acme") /\
  is_Some (buildDirectory (cfg_LDAP c)).
Proof.
  intros Hc E. apply Load_ok in E as [Ha _]; [|done]. split; [by apply newLeaseManager_fresh|]. split; [by apply dhcp_accepts|].
  split; [by eapply dns_accepts|]. split; [by apply tftp_ntp_accept|]. split; [by apply tftp_ntp_accept|].
  split; [by apply nfs_accepts|]. split; [by apply validator_accepts|]. split; [by apply base_url|].
  apply buildDirectory_total, Validate_ldap_ok, (ac_ldap _ Ha).
Qed.

(** C23: once a configuration has loaded, only the machine can stop the program
    from starting: the interface, a lease or ACME state file that does not
    restore, the CA's directory, keys and certificates, or the boot directory.
    No service refuses its settings and no directory entry names a missing group. *)
Theorem run_fails_only_outside `{PkiLib} `{X509} `{!Decoders} `{DnsLib} `{ConfigLib} `{!WiringLaws} renderPage
    EvalSymlinks cwd fileAt path c x d err d' :
  IsAbs cwd = true -> Load EvalSymlinks cwd fileAt path = Ok c ->
  run renderPage c x d = (Err err, d') -> outside err = true.
Proof. intros Hc E. apply Load_ok in E as [Ha _]; [|done]. by apply run_outside. Qed.

(** C9: with a configuration that loads, in every state the lease manager reaches
    from any lease file, across restarts, the address of a lease or offer is a
    host of the subnet, never the network, broadcast, server or router address;
    and the name of a lease is never one of the configured A records. *)
Theorem leases_respect_settings `{ConfigLib} EvalSymlinks cwd fileAt path c t y :
  IsAbs cwd = true -> Load EvalSymlinks cwd fileAt path = Ok c -> reach (leaseConfig c) (t, y) ->
  (forall id ip, holds (mstate (mgr y)) id ip -> host_of (cfg_Subnet c) ip /\ ip <> cfg_ServerIP c /\ ip <> cfg_Router c) /\
  (forall id l, leases (mstate (mgr y)) !! id = Some l -> cfg_ARecords c !! Hostname l = None).
Proof.
  intros Hc E Hr. apply Load_ok in E as [Ha _]; [|done].
  destruct (reach_inv _ _ (pool_32_settings c Ha) Hr) as (_ & [_ [W1 W2 _ _ _ _]] & Hb & _).
  destruct (manager_settings c Ha _ Hb) as (Es & Ee & Ed & _). split.
  - intros id ip Hh. assert (Hp : inPool (cfg (mgr y)) ip = true).
    { destruct Hh as [(l & El & <-)|(o & Eo & <-)]; [apply W1 in El as [(_ & _ & ? & _) _]|apply W2 in Eo as (_ & _ & ? & _)]; done. }
    unfold inPool in Hp. rewrite Es, Ee, <- andb_assoc in Hp. apply andb_true_iff in Hp as [H4 Hp].
    exact (pool_hosts _ _ _ _ _ _ (ac_network _ Ha) Hp H4).
  - intros id l El. apply W1 in El as [(_ & _ & _ & _ & [Hn|Hn]) Hres].
    + rewrite Hn. destruct (cfg_ARecords c !! []) as [ip|] eqn:E; [|done]. destruct (ac_records _ Ha _ _ E) as [(w & n & En & _) _].
      by destruct w, n.
    + rewrite Ed in Hn. by eapply hostname_not_configured.
Qed.

(** C21: The files the gateway serves.  For a configuration that loads, a request
    that reaches the file server asks for a path below the boot directory, spelled
    without parent references, backslashes or zero bytes: the components of its
    name, none of them empty, a dot or two dots, are those the path adds to the
    directory.  That path is none of the configuration file, lease file, ACME state
    or CA files, and is not inside the CA's directory. *)
Theorem boot_files_confined `{PkiLib} `{X509} `{!Decoders} `{ConfigLib} renderPage EvalSymlinks cwd fileAt path c ca x v acme web
    r openable root name headers :
  (forall p q, EvalSymlinks p = Resolved q -> IsAbs p = true -> IsAbs q = true) ->
  IsAbs cwd = true -> Load EvalSymlinks cwd fileAt path = Ok c ->
  newGateway renderPage c ca x = Ok (v, acme, web) -> gw_ServeHTTP web r openable = GwFiles root name headers ->
  root = cfg_BootDirectory c /\ components (PathJoin root name) = components root ++ nameWords name /\
  Forall (fun w => w <> [] /\ w <> dot /\ w <> dotdot) (nameWords name) /\ dotdot ∉ Split name SLASH /\ 92 ∉ name /\ 0 ∉ name /\
  outside_of (cfg_CADirectory c) (PathJoin root name) /\
  Forall (fun f => f = [] \/ components f <> components (PathJoin root name)) (privateFiles c (configFile cwd path)).
Proof.
  intros He Hc E Hg Hs. apply Load_ok in E as (Ha & Hp & Hv); [|done].
  assert (Hok : paths_ok EvalSymlinks c (configFile cwd path)) by (apply validatePaths_ok; try done; by apply configFile_abs).
  apply gateway_files in Hs as (_ & -> & _ & Hn & Hb & Hz).
  assert (Hroot : gc_BootDirectory (gs_config web) = cfg_BootDirectory c).
  { revert Hg. unfold newGateway, New_gateway. intros Hg. repeat case_match; simplify_eq; done. }
  rewrite Hroot in *. destruct Hok as [_ _ Po1 Po2 _]. destruct Hp as (Hba & _).
  rewrite Forall_forall in Po1. unfold outside_of in *. rewrite components_join by done.
  split; [done|]. split; [done|]. destruct (served_name name Hn) as [Hw Hd]. split; [done|]. split; [done|]. split; [done|]. split; [done|]. split.
  - intros Hx. apply prefix_app_cases in Hx as [Hx|Hx]; [done|].
    destruct (Po1 (cfg_CADirectory c)) as [Hca|Hca]; [unfold privateFiles; cbn; set_solver| |done].
    rewrite Hca in Po2. apply Po2. apply prefix_nil.
  - apply Forall_forall. intros f Hf. destruct (Po1 f Hf) as [->|Ho]; [by left|right]. intros Ef. apply Ho. rewrite Ef. by apply prefix_app_r.
Qed.

(** ** Witnesses *)

#[local] Existing Instance LdapProps.demo_ldap.
#[local] Existing Instance DnsProps.demo_dns.
#[local] Existing Instance AcmeProps.demo_jose.
#[local] Existing Instance AcmeProps.demo_x509.
#[local] Existing Instance PkiProps.toy_curves.
#[local] Existing Instance PkiProps.toy_pki.
#[local] Existing Instance ConfigProps.toy_config.

(** A URL parser for the base URL: scheme, host and path. *)
Definition toy_url (s : bytes) : option URL :=
  let rest := TrimPrefix s (str "https://") in
  match IndexByte rest SLASH with
  | None => None
  | Some i => Some (mkURL (str "https") [] [] false [] (take i rest) false (drop i rest) [])
  end.

#[local] Instance toy_decoders : Decoders :=
  { json_account _ := None; json_order _ := None; json_status _ := None; json_object _ := None; json_csr _ := None;
    json_keychange _ := None; json_revoke _ := None; json_strings _ := None; json_string _ := None;
    urlParse := toy_url; PathUnescape _ := None; ParseAddress _ := None; VerifyKeyChange _ _ := Err None }.

Lemma IndexByte_app h r x : x ∉ h -> IndexByte (h ++ x :: r) x = Some (length h).
Proof.
  induction h as [|y h IH]; intros Hx; cbn [app IndexByte length].
  - by rewrite Z.eqb_refl.
  - apply not_elem_of_cons in Hx as [Hne Hx]. destruct (Z.eqb_spec y x); [congruence|]. by rewrite IH.
Qed.

#[local] Instance toy_wiring : WiringLaws.
Proof.
  split.
  - intros d Hd. cbn [Fqdn DnsProps.demo_dns]. by rewrite validLabels_no_final_dot by by apply validDNSName_labels.
  - intros h Hh. cbn [urlParse toy_decoders]. unfold toy_url. rewrite TrimPrefix_app. change (str "/acme") with (SLASH :: str "acme").
    rewrite IndexByte_app, take_app_length, drop_app_length; [done|]. intros Hin. apply validDNSName_bytes in Hh.
    rewrite Forall_forall in Hh. apply Hh in Hin. unfold name_byte, SLASH in Hin. lia.
Qed.

(** A machine on which everything works, with the lease file [leases]. *)
Definition toy_machine (leases : Lease.file) : machine :=
  mkMachine (Some (mkIface true (Some [str "fe80::1/64"; str "192.168.1.1/24"]))) PkiProps.toy_start leases
    (PkiProps.toy_env PkiProps.toy_start) (AcmeProps.demo_env PkiProps.toy_start []) FMissing true.
Definition toy_run (leases : Lease.file) : Prelude.result run_error services * pki_disk :=
  run (fun _ _ => Some (str "page")) ConfigProps.toy_box (toy_machine leases) ∅.

(** The box starts, and stops on a damaged lease file. *)
Lemma toy_starts : is_ok (toy_run FileAbsent).1 = true.
Proof. vm_compute. reflexivity. Qed.
Lemma toy_damaged : exists d, toy_run FileUndecodable = (Err (RunLeases (ErrRestore Lease.ErrDecode)), d).
Proof.
  assert (H : match (toy_run FileUndecodable).1 with Err (RunLeases (ErrRestore Lease.ErrDecode)) => true | _ => false end = true)
    by (vm_compute; reflexivity).
  destruct (toy_run FileUndecodable) as [[sv|e] d]; cbn [fst] in H; [discriminate H|]. exists d.
  destruct e; try discriminate H. destruct e; try discriminate H. destruct e; try discriminate H. done.
Qed.

Lemma services_accept_configuration_witness :
  (forall now, exists m, newLeaseManager toy_box now FileAbsent = Ok m) /\ is_Some (buildDirectory (cfg_LDAP toy_box)).
Proof.
  destruct (services_accept_configuration toy_eval (str "/etc/box") toy_files (str "config.json") toy_box eq_refl toy_loads)
    as (Hm & _ & _ & _ & _ & _ & _ & _ & Hd). exact (conj Hm Hd).
Defined.

Lemma run_fails_only_outside_witness :
  is_ok (toy_run FileAbsent).1 = true /\ outside (RunLeases (ErrRestore Lease.ErrDecode)) = true.
Proof.
  split; [exact toy_starts|]. destruct toy_damaged as [d Hd]. unfold toy_run in Hd.
  exact (run_fails_only_outside (fun _ _ => Some (str "page")) toy_eval (str "/etc/box") toy_files (str "config.json") toy_box
    (toy_machine FileUndecodable) ∅ (RunLeases (ErrRestore Lease.ErrDecode)) d eq_refl toy_loads Hd).
Defined.

(** A client of the box that has been given an address and a name. *)
Definition toy_manager : Manager :=
  match newLeaseManager toy_box 0 FileAbsent with Ok m => m | Err _ => mkManager (leaseConfig toy_box) newState ∅ end.
Definition toy_client : bytes := str "hw:1:aa".
Definition toy_sys : LeaseOps.sys :=
  LeaseOps.run_op 1 None (OpCommit toy_client (Addr4 (3232235776 + 100)) (str "laptop") []) (mkSys toy_manager FileAbsent).

Lemma toy_reach : reach (leaseConfig toy_box) (1, toy_sys).
Proof.
  exists (0, mkSys toy_manager FileAbsent). split.
  - apply init_new; [vm_compute; discriminate|]. assert (H : is_ok (newLeaseManager toy_box 0 FileAbsent) = true) by (vm_compute; reflexivity).
    unfold toy_manager. fold (newLeaseManager toy_box 0 FileAbsent). by destruct (newLeaseManager _ _ _).
  - apply rtc_once. apply step_op. lia.
Qed.

Lemma toy_holds : holds (mstate (mgr toy_sys)) toy_client (Addr4 (3232235776 + 100)).
Proof. apply owns_spec. vm_compute. reflexivity. Qed.

Lemma leases_respect_settings_witness :
  holds (mstate (mgr toy_sys)) toy_client (Addr4 (3232235776 + 100)) /\ host_of (cfg_Subnet toy_box) (Addr4 (3232235776 + 100)).
Proof.
  split; [exact toy_holds|].
  destruct (leases_respect_settings toy_eval (str "/etc/box") toy_files (str "config.json") toy_box 1 toy_sys eq_refl toy_loads toy_reach)
    as [Hl _]. exact (proj1 (Hl _ _ toy_holds)).
Defined.

(** A request for a boot file. *)
Definition toy_ca : Prelude.result run_error PkiManager := (newCA toy_box (PkiProps.toy_env PkiProps.toy_start) ∅).1.
Definition toy_web (ca : PkiManager) : Prelude.result run_error (Validator * (AcmeConfig * AcmeServer) * GatewayServer) :=
  newGateway (fun _ _ => Some (str "page")) toy_box ca (toy_machine FileAbsent).
Definition toy_request : gw_request := mkGwRequest (str "GET") (str "/boot/menu/main.ipxe") [] false.

Lemma toy_serves : exists ca v acme web, toy_web ca = Ok (v, acme, web) /\
  exists root headers, gw_ServeHTTP web toy_request true = GwFiles root (str "menu/main.ipxe") headers.
Proof.
  assert (H : match toy_ca with
              | Ok ca => match toy_web ca with
                         | Ok (_, _, web) => match gw_ServeHTTP web toy_request true with
                                             | GwFiles _ name _ => beq name (str "menu/main.ipxe") | _ => false end
                         | Err _ => false end
              | Err _ => false end = true) by (vm_compute; reflexivity).
  destruct toy_ca as [ca|]; [|discriminate H]. exists ca. destruct (toy_web ca) as [[[v acme] web]|]; [|discriminate H]. exists v, acme, web.
  split; [reflexivity|]. destruct (gw_ServeHTTP web toy_request true) as [| | |root name headers]; try discriminate H.
  apply beq_true in H. subst name. by exists root, headers.
Qed.

Lemma boot_files_confined_witness :
  outside_of (cfg_CADirectory toy_box) (PathJoin (cfg_BootDirectory toy_box) (str "menu/main.ipxe")).
Proof.
  destruct toy_serves as (ca & v & acme & web & Hw & root & headers & Hs). unfold toy_web in Hw.
  destruct (boot_files_confined (fun _ _ => Some (str "page")) toy_eval (str "/etc/box") toy_files (str "config.json") toy_box ca
    (toy_machine FileAbsent) v acme web toy_request true root (str "menu/main.ipxe") headers toy_eval_abs eq_refl toy_loads Hw Hs)
    as (Hr & _ & _ & _ & _ & _ & Ho & _). rewrite <- Hr. exact Ho.
Defined.
