(* ===== verification/CommandLine.v ===== *)
(** * The command line: config.Parse, flag, and the start of main

    internal/config/file.go reads its one option with Go's flag package, modelled
    here as far as string options go: a [FlagSet] maps the names of its options to
    their values and holds the arguments still to be read.  [Parse] selects the
    file and loads it; [start] is main.go's [run] up to [serve]. *)

From stdpp Require Import gmap list strings.
From Stdlib Require Import ZArith Lia.
From S2P Require Import Prelude GoStrings GoNet GoAddr GoPath GoJson Lease Dns Pki AcmeState Acme Config ConfigFile ConfigProps Wiring WiringProps.

(** ** Package flag *)

Inductive flag_error := BadFlagSyntax (s : bytes) | NotDefined (name : bytes) | NeedsArgument (name : bytes) | ErrHelp.

Record FlagSet := mkFlagSet { fs_formal : gmap bytes bytes; fs_args : list bytes }.

(** The text after the dashes, split at the first equals sign but one in front. *)
Fixpoint cutEqual (name : bytes) : bytes * option bytes :=
  match name with
  | [] => ([], None)
  | c :: r => if c =? 61 then ([], Some r) else let '(n, v) := cutEqual r in (c :: n, v)
  end.

(** An argument: no option, the end of the options, or the name and value of one. *)
Inductive argument := NotFlag | Terminator | BadSyntax | Flag (name : bytes) (value : option bytes).

Definition flagName (name : bytes) : argument :=
  match name with
  | [] => BadSyntax
  | c :: r => if (c =? HYPHEN) || (c =? 61) then BadSyntax else let '(n, v) := cutEqual r in Flag (c :: n) v
  end.

Definition readFlag (s : bytes) : argument :=
  match s with
  | c :: c' :: r =>
      if negb (c =? HYPHEN) then NotFlag
      else if c' =? HYPHEN then match r with [] => Terminator | _ => flagName r end
      else flagName (c' :: r)
  | _ => NotFlag
  end.

(** [FlagSet.parseOne]: whether an option was read. *)
Definition parseOne (f : FlagSet) : result flag_error (bool * FlagSet) :=
  match fs_args f with
  | [] => Ok (false, f)
  | s :: rest =>
      match readFlag s with
      | NotFlag => Ok (false, f)
      | Terminator => Ok (false, mkFlagSet (fs_formal f) rest)
      | BadSyntax => Err (BadFlagSyntax s)
      | Flag name value =>
          if bool_decide (is_Some (fs_formal f !! name)) then
            match value, rest with
            | Some v, _ => Ok (true, mkFlagSet (<[name := v]> (fs_formal f)) rest)
            | None, v :: rest => Ok (true, mkFlagSet (<[name := v]> (fs_formal f)) rest)
            | None, [] => Err (NeedsArgument name)
            end
          else if beq name (str "help") || beq name (str "h") then Err ErrHelp
          else Err (NotDefined name)
      end
  end.

(** [FlagSet.Parse]; every option takes an argument, so one round for each
    argument and one more are enough ([parseLoop_fuel]). *)
Fixpoint parseLoop (fuel : nat) (f : FlagSet) : result flag_error FlagSet :=
  match fuel with
  | O => Ok f
  | S fuel =>
      match parseOne f with
      | Err e => Err e
      | Ok (true, f) => parseLoop fuel f
      | Ok (false, f) => Ok f
      end
  end.

Definition parseFlags (formal : gmap bytes bytes) (args : list bytes) : result flag_error FlagSet :=
  parseLoop (S (length args)) (mkFlagSet formal args).

(** ** config.Parse *)

Definition configFlag : bytes := str "config".
Definition defaultConfig : bytes := str "config.json".

Inductive parse_error := ErrFlag (e : flag_error) | ErrPositional (arg : bytes) | ErrLoad (e : load_error).

Section parse.
Context `{ConfigLib} (EvalSymlinks : bytes -> evaluated) (cwd : bytes) (fileAt : bytes -> option config_file).

Definition loadPath (path : bytes) : Prelude.result parse_error BoxConfig :=
  match Load EvalSymlinks cwd fileAt path with Ok c => Ok c | Err e => Err (ErrLoad e) end.

Definition Parse (args : list bytes) : Prelude.result parse_error BoxConfig :=
  match parseFlags {[configFlag := defaultConfig]} args with
  | Err e => Err (ErrFlag e)
  | Ok f =>
      match fs_args f with
      | arg :: _ => Err (ErrPositional arg)
      | [] => loadPath (default [] (fs_formal f !! configFlag))
      end
  end.

(** ** The arguments that are accepted *)

(** The options of a command line, with the values they give: [-config v],
    [-config=v], each with one dash or two, and a final [--]. *)
Inductive config_args : list bytes -> list bytes -> Prop :=
| ArgsNone : config_args [] []
| ArgsEnd : config_args [str "--"] []
| ArgsJoined dash v rest vs :
    dash = str "-" \/ dash = str "--" -> config_args rest vs -> config_args ((dash ++ configFlag ++ str "=" ++ v) :: rest) (v :: vs)
| ArgsApart dash v rest vs :
    dash = str "-" \/ dash = str "--" -> config_args rest vs -> config_args ((dash ++ configFlag) :: v :: rest) (v :: vs).

End parse.

(** ** Reading one argument *)

Lemma cutEqual_spec s n v :
  cutEqual s = (n, v) <-> 61 ∉ n /\ s = n ++ match v with Some v => 61 :: v | None => [] end.
Proof.
  revert n v. induction s as [|c s IH]; intros n v; cbn [cutEqual].
  - split; [intros [= <- <-]; by split; [apply not_elem_of_nil|]|]. intros [_ Hs]. by destruct n, v.
  - destruct (Z.eqb_spec c 61) as [->|Hc].
    + split; [intros [= <- <-]; by split; [apply not_elem_of_nil|]|]. intros [Hn Hs]. destruct n as [|x n]; [destruct v; by simplify_eq/=|].
      injection Hs as <- _. by destruct Hn; left.
    + destruct (cutEqual s) as [n' v'] eqn:E. pose proof (proj1 (IH n' v') eq_refl) as [Hn' Hs']. split.
      * intros [= <- <-]. split; [by rewrite not_elem_of_cons|]. cbn. by f_equal.
      * intros [Hn Hs]. destruct n as [|x n]; [destruct v; by simplify_eq/=|]. injection Hs as <- Hs.
        apply not_elem_of_cons in Hn as [_ Hn]. assert (E2 : (n', v') = (n, v)) by (apply IH; by split). by injection E2 as -> ->.
Qed.

Definition joined (v : option bytes) : bytes := match v with Some v => 61 :: v | None => [] end.

Lemma flagName_config s v : flagName s = Flag configFlag v <-> s = configFlag ++ joined v.
Proof.
  assert (H61 : 61 ∉ tail configFlag) by (by apply (bool_decide_unpack _)).
  destruct s as [|c r]; [by destruct v|]. cbn [flagName]. destruct (cutEqual r) as [n w] eqn:E. split.
  - destruct (_ || _); [done|]. intros [= -> -> ->]. apply cutEqual_spec in E as [_ ->]. done.
  - intros Hs. change configFlag with (99 :: tail configFlag) in Hs. injection Hs as -> Hr.
    assert (Hc : cutEqual r = (tail configFlag, v)) by (apply cutEqual_spec; by split). rewrite Hc in E. by injection E as <- <-.
Qed.

Lemma readFlag_config s v :
  readFlag s = Flag configFlag v <-> exists dash, (dash = str "-" \/ dash = str "--") /\ s = dash ++ configFlag ++ joined v.
Proof.
  destruct s as [|c [|c' r]].
  - split; [done|]. by intros (? & [->| ->] & ?).
  - split; [done|]. by intros (? & [->| ->] & ?).
  - cbn [readFlag]. destruct (Z.eqb_spec c HYPHEN) as [->|Hc]; cbn [negb].
    2: { split; [done|]. intros (? & [->| ->] & [= -> _]); done. }
    destruct (Z.eqb_spec c' HYPHEN) as [->|Hc'].
    + assert (Hr : match r with [] => Terminator | _ => flagName r end = Flag configFlag v <-> flagName r = Flag configFlag v)
        by by destruct r. rewrite Hr, flagName_config. split; [intros ->; exists (str "--"); by split; [right|]|].
      intros (? & [->| ->] & [=]); done.
    + rewrite flagName_config. split; [intros ->; exists (str "-"); by split; [left|]|].
      intros (? & [->| ->] & [=]); [|done]. subst. done.
Qed.

Lemma readFlag_end s : readFlag s = Terminator <-> s = str "--".
Proof.
  split; [|by intros ->]. destruct s as [|c [|c' r]]; [done|done|]. cbn [readFlag]. unfold flagName.
  destruct (Z.eqb_spec c HYPHEN) as [->|]; [|done]. destruct (Z.eqb_spec c' HYPHEN) as [->|].
  - destruct r as [|x r]; [done|]. cbn [negb]. destruct (_ || _); [done|]. by destruct (cutEqual r).
  - cbn [negb]. destruct (_ || _); [done|]. by destruct (cutEqual r).
Qed.

(** What an accepted command line starts with. *)
Lemma config_args_cons s rest vs :
  config_args (s :: rest) vs <->
  (readFlag s = Terminator /\ rest = [] /\ vs = []) \/
  (exists v vs', readFlag s = Flag configFlag (Some v) /\ config_args rest vs' /\ vs = v :: vs') \/
  (exists v rest' vs', readFlag s = Flag configFlag None /\ rest = v :: rest' /\ config_args rest' vs' /\ vs = v :: vs').
Proof.
  split.
  - inversion 1 as [| |dash v rest' vs' Hd Hr|dash v rest' vs' Hd Hr]; subst; [by left|right; left|right; right].
    + exists v, vs'. split; [|done]. apply readFlag_config. by exists dash.
    + exists v, rest', vs'. split; [|done]. apply readFlag_config. exists dash. split; [done|]. cbn [joined]. by rewrite app_nil_r.
  - intros [(->%readFlag_end & -> & ->)|[(v & vs' & (dash & Hd & ->)%readFlag_config & Hr & ->)|(v & rest' & vs' & (dash & Hd & ->)%readFlag_config & -> & Hr & ->)]].
    + constructor.
    + by apply ArgsJoined.
    + cbn [joined]. rewrite app_nil_r. by apply ArgsApart.
Qed.

(** ** Reading them all *)

Definition verdict (d : bytes) (args : list bytes) (r : result flag_error FlagSet) : Prop :=
  match r with
  | Ok (mkFlagSet formal []) => exists vs, config_args args vs /\ formal = {[configFlag := default d (last vs)]}
  | _ => forall vs, ~ config_args args vs
  end.

Lemma last_default (v d : bytes) vs : default d (last (v :: vs)) = default v (last vs).
Proof. rewrite last_cons. by destruct (last vs). Qed.

Lemma verdict_joined d v s rest r : readFlag s = Flag configFlag (Some v) -> verdict v rest r -> verdict d (s :: rest) r.
Proof.
  assert (Hno : readFlag s = Flag configFlag (Some v) -> (forall vs, ~ config_args rest vs) -> forall vs, ~ config_args (s :: rest) vs).
  { intros Es Hr vs Hv. apply config_args_cons in Hv as [(?&_)|[(?&?&_&Hv&_)|(?&?&?&?&_)]]; [congruence|by eapply Hr|congruence]. }
  intros Es. destruct r as [[formal [|x args]]|e]; cbn [verdict]; [|by apply Hno..].
  intros (vs & Hv & ->). exists (v :: vs). rewrite last_default. split; [|done]. apply config_args_cons. right; left. by exists v, vs.
Qed.

Lemma verdict_apart d v s rest r : readFlag s = Flag configFlag None -> verdict v rest r -> verdict d (s :: v :: rest) r.
Proof.
  assert (Hno : readFlag s = Flag configFlag None -> (forall vs, ~ config_args rest vs) -> forall vs, ~ config_args (s :: v :: rest) vs).
  { intros Es Hr vs Hv. apply config_args_cons in Hv as [(?&_)|[(?&?&?&_)|(?&?&?&_&[= <- <-]&Hv&_)]]; [congruence..|by eapply Hr]. }
  intros Es. destruct r as [[formal [|x args]]|e]; cbn [verdict]; [|by apply Hno..].
  intros (vs & Hv & ->). exists (v :: vs). rewrite last_default. split; [|done]. apply config_args_cons. right; right. by exists v, rest, vs.
Qed.

Lemma parseLoop_fuel fuel d args :
  (length args < fuel)%nat -> verdict d args (parseLoop fuel (mkFlagSet {[configFlag := d]} args)).
Proof.
  revert d args. induction fuel as [|fuel IH]; intros d args Hf; [lia|]. cbn [parseLoop]. unfold parseOne. cbn [fs_args fs_formal].
  destruct args as [|s rest]; [exists []; by split; [constructor|]|].
  destruct (readFlag s) as [| | |name value] eqn:Es; cbn [verdict].
  1, 3: intros vs Hv; apply config_args_cons in Hv as [(?&_)|[(?&?&?&_)|(?&?&?&?&_)]]; congruence.
  { destruct rest as [|x rest]; [exists []; split; [|done]; apply config_args_cons; by left|].
    intros vs Hv. apply config_args_cons in Hv as [(_&?&_)|[(?&?&?&_)|(?&?&?&?&_)]]; congruence. }
  case_bool_decide as Hn.
  - apply lookup_singleton_is_Some in Hn as <-. destruct value as [v|]; [|destruct rest as [|v rest]].
    + rewrite insert_singleton_eq. eapply verdict_joined; [exact Es|]. apply IH. cbn in Hf. lia.
    + intros vs Hv. apply config_args_cons in Hv as [(?&_)|[(?&?&?&_)|(?&?&?&_&?&_)]]; congruence.
    + rewrite insert_singleton_eq. eapply verdict_apart; [exact Es|]. apply IH. cbn in Hf. lia.
  - assert (Hno : forall vs, ~ config_args (s :: rest) vs); [|by destruct (_ || _)].
    intros vs Hv. apply Hn. apply config_args_cons in Hv as [(?&_)|[(?&?&?&_)|(?&?&?&?&_)]]; [congruence|..];
      simplify_eq; rewrite Es in *; simplify_eq; rewrite lookup_singleton_eq; by eexists.
Qed.

(** ** The file that is loaded *)

Section theorems.
Context `{ConfigLib} (EvalSymlinks : bytes -> evaluated) (cwd : bytes) (fileAt : bytes -> option config_file).

(** The command line is read exactly.  A configuration is loaded when, and only
    when, the arguments are any number of [-config] options, each with one dash or
    two and its value joined by an equals sign or given as the next argument, and
    perhaps a final [--]; the file is the last one named, or config.json.  On all
    other arguments [Parse] fails without looking at any file. *)
Lemma Parse_exact args :
  match Parse EvalSymlinks cwd fileAt args with
  | Err (ErrFlag _) | Err (ErrPositional _) =>
      (forall vs, ~ config_args args vs) /\ forall E w f, Parse E w f args = Parse EvalSymlinks cwd fileAt args
  | r => exists vs, config_args args vs /\ r = loadPath EvalSymlinks cwd fileAt (default defaultConfig (last vs))
  end.
Proof.
  pose proof (parseLoop_fuel (S (length args)) defaultConfig args (Nat.lt_succ_diag_r _)) as Hv. fold (parseFlags {[configFlag := defaultConfig]} args) in Hv.
  unfold Parse. destruct (parseFlags _ args) as [[formal [|arg rest]]|e]; cbn [verdict fs_args fs_formal] in *; [|done..].
  destruct Hv as (vs & Hv & ->). rewrite lookup_singleton_eq. cbn [default].
  unfold id, loadPath. destruct (Load _ _ _ _) eqn:El; exists vs; by rewrite El.
Qed.

End theorems.

(** ** main *)

(** What [run] does with the arguments: help ends it without an error. *)
Inductive start_error := StartParse (e : parse_error) | StartRun (e : run_error).

Section start.
Context `{PkiLib} `{X509} `{!Decoders} `{DnsLib} `{ConfigLib}.
Context (renderPage : bytes -> bytes -> option bytes).
Context (EvalSymlinks : bytes -> evaluated) (cwd : bytes) (fileAt : bytes -> option config_file).

Definition start (args : list bytes) (x : Wiring.machine) : St pki_disk (Prelude.result start_error (option services)) := fun d =>
  match Parse EvalSymlinks cwd fileAt args with
  | Err (ErrFlag ErrHelp) => (Ok None, d)
  | Err e => (Err (StartParse e), d)
  | Ok c =>
      let '(r, d) := run renderPage c x d in
      (match r with Ok s => Ok (Some s) | Err e => Err (StartRun e) end, d)
  end.

(** [main]'s exit status, when [run] ends before [serve]. *)
Definition exitStatus (r : Prelude.result start_error (option services)) : option Z :=
  match r with Ok (Some _) => None | Ok None => Some 0 | Err _ => Some 1 end.

(** Starting the program.  The command line is read exactly: when the arguments
    are any number of [-config] options, each with one dash or two and its value
    joined by an equals sign or given as the next argument, and perhaps a final
    [--], the configuration is that of the last file named, or of config.json;
    then the program starts, or the file is at fault, or the machine is.  Any other
    arguments are refused, or are a request for help, without a look at any file
    and with the disk left alone.  Only a request for help ends with status 0. *)
Theorem start_outcomes `{!WiringLaws} args x d r d' :
  IsAbs cwd = true -> start args x d = (r, d') ->
  match r with
  | Ok (Some s) => exists vs c, config_args args vs /\
      Load EvalSymlinks cwd fileAt (default defaultConfig (last vs)) = Ok c /\ run renderPage c x d = (Ok s, d')
  | Err (StartRun e) => outside e = true /\ exists vs, config_args args vs
  | Err (StartParse (ErrLoad e)) => d' = d /\ exists vs, config_args args vs /\
      Load EvalSymlinks cwd fileAt (default defaultConfig (last vs)) = Err e
  | Ok None => d' = d /\ (forall vs, ~ config_args args vs) /\ forall E w f, Parse E w f args = Err (ErrFlag ErrHelp)
  | Err (StartParse e) => d' = d /\ (forall vs, ~ config_args args vs) /\ forall E w f, Parse E w f args = Err e
  end /\ (exitStatus r = Some 0 <-> r = Ok None).
Proof.
  intros Hc Hs. split; [|by destruct r as [[]|]]. unfold start in Hs.
  pose proof (Parse_exact EvalSymlinks cwd fileAt args) as Hx.
  destruct (Parse _ _ _ args) as [c|e] eqn:Ep.
  - destruct Hx as (vs & Hv & Hl). unfold loadPath in Hl. destruct (Load _ _ _ _) as [c'|] eqn:El; [|done]. injection Hl as <-.
    destruct (run renderPage c x d) as [[s|err] d1] eqn:Er; injection Hs as <- <-; [by exists vs, c|].
    apply Load_ok in El as [Ha _]; [|done]. split; [by eapply run_outside|by exists vs].
  - destruct e as [[]| |e]; injection Hs as <- <-; try by split.
    destruct Hx as (vs & Hv & Hl). split; [done|]. exists vs. split; [done|]. unfold loadPath in Hl.
    destruct (Load _ _ _ _); [done|]. by injection Hl as ->.
Qed.

End start.

(** ** Witness *)

#[local] Existing Instances LdapProps.demo_ldap DnsProps.demo_dns AcmeProps.demo_jose AcmeProps.demo_x509.
#[local] Existing Instances PkiProps.toy_curves PkiProps.toy_pki ConfigProps.toy_config WiringProps.toy_decoders WiringProps.toy_wiring.

(** The last file named is the one that is read. *)
Definition toy_args : list bytes := [str "-config=absent"; str "--config"; str "config.json"; str "--"].

Definition toy_start : Prelude.result start_error (option services) * pki_disk :=
  start (fun _ _ => Some (str "page")) toy_eval (str "/etc/box") toy_files toy_args (toy_machine Lease.FileAbsent) ∅.

Lemma toy_started : match toy_start.1 with Ok (Some _) => true | _ => false end = true.
Proof. vm_compute. reflexivity. Qed.

Lemma start_outcomes_witness :
  exists vs c s d, config_args toy_args vs /\
    Load toy_eval (str "/etc/box") toy_files (default defaultConfig (last vs)) = Ok c /\
    run (fun _ _ => Some (str "page")) c (toy_machine Lease.FileAbsent) ∅ = (Ok s, d).
Proof.
  pose proof toy_started as Hs. unfold toy_start in Hs.
  destruct (start (fun _ _ => Some (str "page")) toy_eval (str "/etc/box") toy_files toy_args (toy_machine Lease.FileAbsent) ∅)
    as [r d] eqn:E. cbn [fst] in Hs.
  destruct (start_outcomes (fun _ _ => Some (str "page")) toy_eval (str "/etc/box") toy_files toy_args
    (toy_machine Lease.FileAbsent) ∅ r d eq_refl E) as [Ho _].
  destruct r as [[s|]|e]; [|discriminate Hs|discriminate Hs]. destruct Ho as (vs & c & Hv & Hl & Hr). exists vs, c, s, d.
  exact (conj Hv (conj Hl Hr)).
Defined.
