(* ===== verification/Program.v ===== *)
(** * cmd/infra-box: the running program

    [serve] of main.go over the machines of the services: every runner is a
    goroutine that sends its result to a channel; the main goroutine receives as
    many results as there are runners and cancels the shared context with the
    first.  A signal cancels it too.  Only the promises of [Stoppable] are used of
    the services, so the theorems hold for any list of them; at the end they are
    stated for the seven that main.go runs.

    The contract of [serve] is the transition system [serve_step], without
    goroutines, channels or contexts; the program is shown to refine it. *)

From stdpp Require Import gmap list strings relations.
From Stdlib Require Import ZArith Lia.
From S2P Require Import Wiring WiringProps Prelude GoStrings GoSync LeaseOps Dhcp DhcpServe DnsServe TftpServe NtpServe GatewayServe LdapServe NfsServe.

(** ** The contract of serve *)

(** The services that still run, whether they have been told to stop, and the
    errors reported so far. *)
Record serving (E : Type) := mkServing { sv_running : gset nat; sv_cancelled : bool; sv_errors : list E }.
Arguments mkServing {E}.
Arguments sv_running {E}.
Arguments sv_cancelled {E}.
Arguments sv_errors {E}.

Definition serve_init {E} (runners : nat) : serving E := mkServing (list_to_set (seq 0 runners)) false [].

(** What happens to it: the result of a service, or a signal. *)
Inductive serve_event (E : Type) := Result (i : nat) (err : option E) | Signal.
Arguments Result {E}.
Arguments Signal {E}.

Inductive serve_step {E} : serve_event E -> serving E -> serving E -> Prop :=
| ServeResult i err s : i ∈ sv_running s ->
    serve_step (Result i err) s (mkServing (sv_running s ∖ {[i]}) true (sv_errors s ++ option_list err))
| ServeSignal s : sv_cancelled s = false ->
    serve_step Signal s (mkServing (sv_running s) true (sv_errors s)).

Inductive serve_run {E} : list (serve_event E) -> serving E -> serving E -> Prop :=
| ServeDone s : serve_run [] s s
| ServeMore tr ev s s' s'' : serve_run tr s s' -> serve_step ev s' s'' -> serve_run (tr ++ [ev]) s s''.

(** [serve] returns once every result has been received. *)
Definition serve_returns {E} (s : serving E) : bool := bool_decide (sv_running s = ∅).

(** The results of a trace, and the errors in it. *)
Definition results_of {E} (tr : list (serve_event E)) : list (nat * option E) :=
  omap (fun ev => match ev with Result i err => Some (i, err) | Signal => None end) tr.
Definition errors_of {E} (tr : list (serve_event E)) : list E := concat (map (fun x => option_list x.2) (results_of tr)).

Lemma results_of_app {E} (tr tr' : list (serve_event E)) : results_of (tr ++ tr') = results_of tr ++ results_of tr'.
Proof. apply omap_app. Qed.

Lemma errors_of_app {E} (tr tr' : list (serve_event E)) : errors_of (tr ++ tr') = errors_of tr ++ errors_of tr'.
Proof. unfold errors_of. by rewrite results_of_app, map_app, concat_app. Qed.

(** What the contract promises.  After a trace, the services still running are
    those without a result in it; they have been told to stop exactly when
    something has happened; the errors are those of the results, in their order; it
    returns exactly when there is a result of every service; and until then the
    result of any service that runs may come next. *)
Theorem serve_waits_for_all {E} (n : nat) (tr : list (serve_event E)) (s : serving E) :
  serve_run tr (serve_init n) s ->
  sv_running s = list_to_set (seq 0 n) ∖ list_to_set (results_of tr).*1 /\
  (length (results_of tr) + size (sv_running s))%nat = n /\ (sv_cancelled s = true <-> tr <> []) /\
  sv_errors s = errors_of tr /\ (serve_returns s = true <-> length (results_of tr) = n) /\
  (forall i err, i ∈ sv_running s -> exists s', serve_step (Result i err) s s').
Proof.
  intros Hr. remember (serve_init n) as s0 eqn:E0.
  assert (Hinv : sv_running s = list_to_set (seq 0 n) ∖ list_to_set (results_of tr).*1 /\
    (length (results_of tr) + size (sv_running s))%nat = n /\ (sv_cancelled s = true <-> tr <> []) /\ sv_errors s = errors_of tr).
  { induction Hr as [s|tr ev s s' s'' Hr IH Hs]; subst.
    - cbn. rewrite difference_empty_L. split; [done|]. split; [rewrite size_list_to_set by apply NoDup_seq; by rewrite length_seq|done].
    - destruct (IH eq_refl) as (H1 & H2 & H3 & H4). rewrite results_of_app, errors_of_app.
      assert (Htr : true = true <-> tr ++ [ev] <> []) by (split; [intros _; by destruct tr|done]).
      destruct Hs as [i err s Hi|s Hc]; cbn [sv_running sv_cancelled sv_errors].
      + change (results_of [Result i err]) with [(i, err)]. change (errors_of [Result i err]) with (option_list err ++ []).
        rewrite app_nil_r, fmap_app, length_app. cbn [fmap list_fmap length fst].
        split; [rewrite H1; apply set_eq; intros j; rewrite list_to_set_app; set_solver|].
        split; [|split; [exact Htr|by rewrite H4]].
        rewrite size_difference by set_solver. rewrite size_singleton.
        assert (Hn : (size (sv_running s) <> 0)%nat) by (intros Hz; apply size_empty_inv in Hz; set_solver). lia.
      + change (results_of [@Signal E]) with (@nil (nat * option E)). change (errors_of [@Signal E]) with (@nil E).
        by rewrite !app_nil_r. }
  destruct Hinv as (H1 & H2 & H3 & H4). split; [done|]. split; [done|]. split; [done|]. split; [done|]. split.
  - unfold serve_returns. rewrite bool_decide_eq_true, <- leibniz_equiv_iff, <- size_empty_iff. lia.
  - intros i err Hi. eexists. by constructor.
Qed.

Lemma serve_waits_for_all_witness :
  serve_returns (mkServing (E := bytes) ((list_to_set (seq 0 2) : gset nat) ∖ {[1%nat]} ∖ {[0%nat]}) true [str "dns"]) = true.
Proof.
  assert (H : serve_run [Result 1 (Some (str "dns")); Result 0 None] (serve_init 2)
    (mkServing (E := bytes) ((list_to_set (seq 0 2) : gset nat) ∖ {[1%nat]} ∖ {[0%nat]}) true [str "dns"])).
  { apply (ServeMore [Result 1 (Some (str "dns"))] (Result 0 None) _ (mkServing ((list_to_set (seq 0 2) : gset nat) ∖ {[1%nat]}) true [str "dns"])).
    - apply (ServeMore [] (Result 1 (Some (str "dns"))) _ (serve_init 2)); [constructor|].
      apply (ServeResult 1 (Some (str "dns")) (serve_init 2)). vm_compute. tauto.
    - refine (ServeResult 0 None (mkServing ((list_to_set (seq 0 2) : gset nat) ∖ {[1%nat]}) true [str "dns"]) _). vm_compute. tauto. }
  destruct (serve_waits_for_all 2 _ _ H) as (_ & _ & _ & _ & Hr & _). apply Hr. reflexivity.
Defined.

(** ** The program *)

(** A runner: the machine of its service, where it is, and whether its result
    has been sent. *)
Record runner := mkRunner {
  rn_machine : machine;
  rn_stop : Stoppable rn_machine;
  rn_state : mc_state rn_machine;
  rn_sent : bool
}.

#[export] Existing Instance rn_stop.

Record program := mkProgram {
  pg_runners : list runner;
  pg_results : list (nat * exit);
  pg_cancelled : bool;
  pg_received : gset nat;
  pg_errors : list bytes
}.

Definition rn_start (M : machine) (HM : Stoppable M) : runner := mkRunner M HM (mc_init M) false.
Definition rn_move (r : runner) (s : mc_state (rn_machine r)) : runner := mkRunner (rn_machine r) (rn_stop r) s (rn_sent r).
Definition rn_send (r : runner) : runner := mkRunner (rn_machine r) (rn_stop r) (rn_state r) true.
Definition rn_cancel (r : runner) : runner := rn_move r (mc_cancel (rn_machine r) (rn_state r)).

Definition pg_init (runners : list runner) : program := mkProgram runners [] false ∅ [].

Definition pg_cancel (p : program) : program :=
  mkProgram (rn_cancel <$> pg_runners p) (pg_results p) true (pg_received p) (pg_errors p).

(** [serve] returns once it has received a result from every runner. *)
Definition pg_returned (p : program) : bool := (size (pg_received p) =? length (pg_runners p))%nat.

(** What a step brings: nothing, something the outside does not promise, or
    something new from outside. *)
Inductive kind := KOwn | KOutside | KArrival.

Definition label_kind (M : machine) (l : mc_label M) : kind :=
  if mc_arrives M l then KArrival else if mc_own M l then KOwn else KOutside.

Inductive pg_step : kind -> program -> program -> Prop :=
| PgService p i r l s' :
    pg_runners p !! i = Some r -> mc_step (rn_machine r) l (rn_state r) = Some s' ->
    pg_step (label_kind (rn_machine r) l) p
      (mkProgram (<[i := rn_move r s']> (pg_runners p)) (pg_results p) (pg_cancelled p) (pg_received p) (pg_errors p))
| PgSend p i r e :
    pg_runners p !! i = Some r -> rn_sent r = false -> mc_returned (rn_machine r) (rn_state r) = Some e ->
    pg_step KOwn p
      (mkProgram (<[i := rn_send r]> (pg_runners p)) (pg_results p ++ [(i, e)]) (pg_cancelled p) (pg_received p) (pg_errors p))
| PgReceive p i e rest :
    pg_returned p = false -> pg_results p = (i, e) :: rest ->
    pg_step KOwn p
      (mkProgram (rn_cancel <$> pg_runners p) rest true ({[i]} ∪ pg_received p)
         (pg_errors p ++ match e with Ok _ => [] | Err x => [x] end))
| PgSignal p : pg_cancelled p = false -> pg_step KArrival p (pg_cancel p).

(** Runs, with their number of steps and of arrivals. *)
Inductive pg_run : nat -> nat -> program -> program -> Prop :=
| PgDone p : pg_run 0 0 p p
| PgMore k n a p p' p'' : pg_step k p p' -> pg_run n a p' p'' ->
    pg_run (S n) ((match k with KArrival => 1 | _ => 0 end) + a) p p''.

(** ** Facts *)



Record runner_ok (p : program) (i : nat) (r : runner) : Prop := {
  ro_reachable : reachable (rn_machine r) (rn_state r);
  ro_cancelled : pg_cancelled p = true -> mc_cancelled (rn_machine r) (rn_state r) = true;
  ro_sent : rn_sent r = true -> is_Some (mc_returned (rn_machine r) (rn_state r))
}.

(** Which runners have sent their result. *)
Definition sent (p : program) : list bool := rn_sent <$> pg_runners p.

Definition returned_at (p : program) (i : nat) (e : exit) : Prop :=
  exists r, pg_runners p !! i = Some r /\ mc_returned (rn_machine r) (rn_state r) = Some e.

(** The results received and those in the channel are those of the runners that
    have sent, each once. *)
Record pg_inv (p : program) : Prop := {
  pi_runners i r : pg_runners p !! i = Some r -> runner_ok p i r;
  pi_sent i : i ∈ pg_received p \/ i ∈ (pg_results p).*1 <-> sent p !! i = Some true;
  pi_nodup : NoDup (pg_results p).*1;
  pi_once i : i ∈ pg_received p -> i ∉ (pg_results p).*1;
  pi_first : pg_received p <> ∅ -> pg_cancelled p = true;
  pi_value i e : (i, e) ∈ pg_results p -> returned_at p i e;
  pi_errors i : pg_errors p = [] -> i ∈ pg_received p -> returned_at p i (Ok tt);
  pi_failed : pg_errors p <> [] -> exists i x, returned_at p i (Err x)
}.

Lemma sent_move (l : list runner) i r s' : l !! i = Some r -> rn_sent <$> <[i := rn_move r s']> l = rn_sent <$> l.
Proof. intros Hi. rewrite list_fmap_insert. apply list_insert_id. by rewrite list_lookup_fmap, Hi. Qed.

Lemma sent_cancel (l : list runner) : rn_sent <$> (rn_cancel <$> l) = rn_sent <$> l.
Proof. rewrite <- list_fmap_compose. done. Qed.

Lemma cancel_ok p i r : runner_ok p i r -> forall p', runner_ok p' i (rn_cancel r).
Proof.
  intros [H1 H2 H3] p'. split; cbn [rn_cancel rn_move rn_machine rn_state rn_sent].
  - by apply ReachCancel.
  - intros _. apply st_cancel_done.
  - intros Hs. rewrite st_returned_cancel. by apply H3.
Qed.

Lemma cancelled_runners p q i r :
  (forall i r, pg_runners p !! i = Some r -> runner_ok p i r) -> (rn_cancel <$> pg_runners p) !! i = Some r -> runner_ok q i r.
Proof. intros Hp (r0 & -> & Hr)%list_lookup_fmap_Some. by eapply cancel_ok, Hp. Qed.

(** A result, once returned, stays. *)
Lemma returned_at_step k p p' i e : pg_step k p p' -> returned_at p i e -> returned_at p' i e.
Proof.
  intros Hs (r & Hr & He). unfold returned_at.
  destruct Hs as [p j r' l s' Hi E|p j r' e' Hi Hn He'|p j e' rest Hx Hq|p Hc]; cbn [pg_cancel pg_runners].
  - destruct (decide (j = i)) as [->|Hne]; [|exists r; by rewrite list_lookup_insert_ne].
    rewrite Hi in Hr. injection Hr as ->. exists (rn_move r s'). split; [by apply list_lookup_insert_eq, lookup_lt_Some with r|].
    by eapply st_returned_step.
  - destruct (decide (j = i)) as [->|Hne]; [|exists r; by rewrite list_lookup_insert_ne].
    rewrite Hi in Hr. injection Hr as ->. exists (rn_send r). split; [by apply list_lookup_insert_eq, lookup_lt_Some with r|done].
  - exists (rn_cancel r). rewrite list_lookup_fmap, Hr. split; [done|]. cbn. by rewrite st_returned_cancel.
  - exists (rn_cancel r). rewrite list_lookup_fmap, Hr. split; [done|]. cbn. by rewrite st_returned_cancel.
Qed.

Lemma sent_inv_step k p p' : pg_inv p -> pg_step k p p' ->
  (forall i, i ∈ pg_received p' \/ i ∈ (pg_results p').*1 <-> sent p' !! i = Some true) /\
  NoDup (pg_results p').*1 /\ (forall i, i ∈ pg_received p' -> i ∉ (pg_results p').*1).
Proof.
  intros [_ H2 H3 H4 _ _ _ _] Hs. unfold sent in *.
  destruct Hs as [p i r l s' Hi E|p i r e Hi Hn He|p i e rest Hr Hq|p Hc]; cbn [pg_cancel pg_runners pg_results pg_received].
  - by rewrite (sent_move _ _ _ _ Hi).
  - assert (Hno : ~ (i ∈ pg_received p \/ i ∈ (pg_results p).*1)).
    { rewrite H2, list_lookup_fmap, Hi. cbn. congruence. }
    rewrite fmap_app. cbn [fmap list_fmap fst]. split; [|split].
    + intros j. rewrite list_fmap_insert, elem_of_app, list_elem_of_singleton. destruct (decide (i = j)) as [<-|Hne].
      * rewrite list_lookup_insert_eq by (rewrite length_fmap; by eapply lookup_lt_Some). naive_solver.
      * rewrite list_lookup_insert_ne, <- H2 by done. naive_solver.
    + apply NoDup_app. split; [done|]. split; [|apply NoDup_singleton]. intros j Hj ->%list_elem_of_singleton. auto.
    + intros j Hj. rewrite elem_of_app, list_elem_of_singleton. intros [Hx| ->]; [by apply (H4 j)|auto].
  - rewrite Hq in *. cbn [fmap list_fmap fst] in *. apply NoDup_cons in H3 as [Hni Hnd]. split; [|split; [done|set_solver]].
    intros j. rewrite sent_cancel, <- H2. set_solver.
  - by rewrite sent_cancel.
Qed.

Lemma runners_inv_step k p p' : pg_inv p -> pg_step k p p' -> forall i r, pg_runners p' !! i = Some r -> runner_ok p' i r.
Proof.
  intros [H1 _ _ _ _ _ _ _] Hs.
  destruct Hs as [p i r l s' Hi E|p i r e Hi Hn He|p i e rest Hr Hq|p Hc]; cbn [pg_cancel pg_runners]; intros j r'.
  - intros [(<- & <- & _)|[_ Hj]]%list_lookup_insert_Some; [|by destruct (H1 j r' Hj)].
    destruct (H1 i r Hi) as [Ha Hb Hd]. split; cbn [rn_move rn_machine rn_state rn_sent pg_cancelled].
    + by apply (ReachStep _ _ l (rn_state r)).
    + intros Hc. by eapply st_step_done, Hb.
    + intros Hs. destruct (Hd Hs) as [e He]. rewrite (st_returned_step _ _ _ e E He). done.
  - intros [(<- & <- & _)|[_ Hj]]%list_lookup_insert_Some; [|by destruct (H1 j r' Hj)].
    destruct (H1 i r Hi) as [Ha Hb Hd]. by split; cbn [rn_send rn_machine rn_state rn_sent pg_cancelled].
  - by apply cancelled_runners.
  - by apply cancelled_runners.
Qed.

Lemma pg_inv_step k p p' : pg_inv p -> pg_step k p p' -> pg_inv p'.
Proof.
  intros Hi Hs. destruct (sent_inv_step k p p' Hi Hs) as (Ha & Hb & Hc). pose proof (runners_inv_step k p p' Hi Hs) as Hr.
  pose proof (fun i e => returned_at_step k p p' i e Hs) as Hk. destruct Hi as [_ _ _ _ H5 H6 H7 H8]. split; try done.
  - by destruct Hs.
  - intros i e. destruct Hs as [p j r l s' Hi E|p j r e' Hi Hn He|p j e' rest Hx Hq|p Hx]; cbn [pg_results pg_cancel]; try by auto.
    + rewrite elem_of_app, list_elem_of_singleton. intros [Hx|Hx]; [by auto|]. injection Hx as -> ->. apply Hk. by exists r.
    + intros Hx'. apply Hk, H6. rewrite Hq. by right.
  - intros i. destruct Hs as [p j r l s' Hi E|p j r e' Hi Hn He|p j e' rest Hx Hq|p Hx]; cbn [pg_received pg_errors pg_cancel]; try by auto.
    intros [He1 He2]%app_eq_nil. rewrite elem_of_union, elem_of_singleton. intros [->|Hy]; [|by auto].
    destruct e' as [[]|]; [|done]. apply Hk, H6. rewrite Hq. by left.
  - destruct Hs as [p j r l s' Hi E|p j r e' Hi Hn He|p j e' rest Hx Hq|p Hx]; cbn [pg_errors pg_cancel]; intros Hne;
      try (destruct (H8 Hne) as (i & x & Hi'); exists i, x; by apply Hk).
    destruct e' as [u|x]; [|exists j, x; apply Hk, H6; rewrite Hq; by left].
    rewrite app_nil_r in Hne. destruct (H8 Hne) as (i & x & Hi'). exists i, x. by apply Hk.
Qed.

Lemma pg_inv_init rs : Forall (fun r => exists M HM, r = rn_start M HM) rs -> pg_inv (pg_init rs).
Proof.
  intros Hrs. rewrite Forall_lookup in Hrs. split; try done; cbn.
  - intros i r Hr. destruct (Hrs i r Hr) as (M & HM & ->). split; [apply ReachInit|done|done].
  - intros i. unfold sent. cbn. rewrite list_lookup_fmap. split; [set_solver|]. destruct (rs !! i) as [r|] eqn:Hr; [|done].
    destruct (Hrs i r Hr) as (M & HM & ->). done.
  - constructor.
  - intros i. set_solver.
Qed.

Lemma pg_run_inv n a p p' : pg_run n a p p' -> pg_inv p -> pg_inv p'.
Proof. induction 1; eauto using pg_inv_step. Qed.

(** ** Work *)









(** ** Progress *)




Lemma returned_all p i r :
  pg_inv p -> pg_returned p = true -> pg_runners p !! i = Some r -> i ∈ pg_received p.
Proof.
  intros Hp Hr%Nat.eqb_eq Hi.
  assert (Hsub : pg_received p ⊆ list_to_set (seq 0 (length (pg_runners p)))).
  { intros j Hj. apply elem_of_list_to_set, elem_of_seq. assert (Hx : sent p !! j = Some true) by (apply (pi_sent p Hp); by left).
    apply lookup_lt_Some in Hx. unfold sent in Hx. rewrite length_fmap in Hx. lia. }
  assert (Heq : pg_received p = list_to_set (seq 0 (length (pg_runners p)))).
  { apply set_subseteq_size_eq; [done|]. rewrite size_list_to_set by apply NoDup_seq. rewrite length_seq. lia. }
  rewrite Heq. apply elem_of_list_to_set, elem_of_seq. apply lookup_lt_Some in Hi. lia.
Qed.

(** ** Properties *)


(** What [serve] of main.go is specified to do: it takes the results in some
    order, and has no other state than which are missing, whether one has come,
    and the errors so far. *)
Definition abstract (p : program) : serving bytes :=
  mkServing (list_to_set (seq 0 (length (pg_runners p))) ∖ pg_received p) (pg_cancelled p) (pg_errors p).

Definition error_of (e : exit) : option bytes := match e with Ok _ => None | Err x => Some x end.

(** A step of the program is a step of the contract when it takes a result or a
    signal, and none otherwise. *)
Lemma abstract_step k p p' :
  pg_inv p -> pg_step k p p' ->
  (abstract p' = abstract p /\ pg_received p' = pg_received p) \/
  (serve_step Signal (abstract p) (abstract p') /\ pg_received p' = pg_received p) \/
  (exists i e, returned_at p i e /\ serve_step (Result i (error_of e)) (abstract p) (abstract p') /\
     pg_received p' = {[i]} ∪ pg_received p).
Proof.
  intros Hp Hs. destruct Hs as [p i r l s' Hi E|p i r e Hi Hn He|p i e rest Hr Hq|p Hc].
  - left. unfold abstract. cbn [pg_runners pg_received pg_errors pg_cancelled]. by rewrite length_insert.
  - left. unfold abstract. cbn [pg_runners pg_received pg_errors pg_cancelled]. by rewrite length_insert.
  - right; right. exists i, e. pose proof (pi_once p Hp i) as Ho. rewrite Hq in Ho. cbn in Ho.
    split; [apply (pi_value p Hp); rewrite Hq; by left|]. split; [|done].
    assert (Hlt : (i < length (pg_runners p))%nat).
    { assert (Hx : sent p !! i = Some true) by (apply (pi_sent p Hp); rewrite Hq; right; by left).
      apply lookup_lt_Some in Hx. unfold sent in Hx. by rewrite length_fmap in Hx. }
    match goal with |- serve_step _ _ ?q => assert (Hq' : q = mkServing (sv_running (abstract p) ∖ {[i]}) true
      (sv_errors (abstract p) ++ option_list (error_of e))) end.
    { unfold abstract. cbn [pg_runners pg_received pg_errors pg_cancelled sv_running sv_errors]. rewrite length_fmap. f_equal.
      - apply set_eq. intros j. rewrite !elem_of_difference, elem_of_union, elem_of_singleton. tauto.
      - by destruct e. }
    rewrite Hq'. apply ServeResult. cbn [abstract sv_running].
    apply elem_of_difference. split; [apply elem_of_list_to_set, elem_of_seq; lia|]. intros Hx. apply (Ho Hx). by left.
  - right; left. split; [|done]. unfold abstract. cbn [pg_runners pg_received pg_errors pg_cancelled pg_cancel].
    rewrite length_fmap. by apply (ServeSignal (abstract p)).
Qed.

(** The results in a trace are those the program has received. *)
Definition trace_ok (tr : list (serve_event bytes)) (p : program) : Prop :=
  forall i err, Result i err ∈ tr <-> i ∈ pg_received p /\ exists e, returned_at p i e /\ err = error_of e.

Lemma returned_at_eq p i e e' : returned_at p i e -> returned_at p i e' -> e = e'.
Proof. intros (r & Hi & He) (r' & Hi' & He'). rewrite Hi in Hi'. injection Hi' as <-. rewrite He in He'. by injection He'. Qed.

(** What has been received has been returned. *)
Lemma received_returned p i : pg_inv p -> i ∈ pg_received p -> exists e, returned_at p i e.
Proof.
  intros Hp Hi. assert (Hq : sent p !! i = Some true) by (apply (pi_sent p Hp); by left). unfold sent in Hq.
  rewrite list_lookup_fmap in Hq. destruct (pg_runners p !! i) as [r|] eqn:Er; [|done]. injection Hq as Hq.
  destruct (ro_sent _ _ _ (pi_runners p Hp i r Er) Hq) as [e He]. by exists e, r.
Qed.

Lemma trace_ok_step tr p p' k :
  pg_step k p p' -> pg_inv p -> trace_ok tr p -> pg_received p' = pg_received p -> trace_ok tr p'.
Proof.
  intros Hs Hp Ht Hr i err. rewrite (Ht i err), Hr. split; intros [Hi (e & He & ->)]; (split; [done|]).
  - exists e. split; [by eapply returned_at_step|done].
  - destruct (received_returned p i Hp Hi) as [e0 He0]. exists e0. split; [done|]. f_equal.
    eapply returned_at_eq; [exact He|by eapply returned_at_step].
Qed.

Lemma trace_ok_result tr p p' k i e :
  pg_step k p p' -> pg_inv p -> trace_ok tr p -> returned_at p i e ->
  pg_received p' = {[i]} ∪ pg_received p -> trace_ok (tr ++ [Result i (error_of e)]) p'.
Proof.
  intros Hs Hp Ht Hi Hr j err. pose proof (returned_at_step k p p' i e Hs Hi) as Hi'.
  rewrite elem_of_app, list_elem_of_singleton, Hr, elem_of_union, elem_of_singleton. split.
  - intros [Hj|[= -> ->]]; [|split; [by left|by exists e]]. apply Ht in Hj as [Hj (e' & He' & ->)].
    split; [by right|]. exists e'. split; [by eapply returned_at_step|done].
  - intros [[->|Hj] (e' & He' & ->)]; [right; by rewrite (returned_at_eq _ _ _ _ He' Hi')|]. left.
    destruct (received_returned p j Hp Hj) as [e0 He0]. apply Ht. split; [done|]. exists e0. split; [done|]. f_equal.
    eapply returned_at_eq; [exact He'|by eapply returned_at_step].
Qed.

(** A run of the program is a run of the contract, after any trace. *)
Lemma abstract_run n a p p' : pg_run n a p p' -> forall s0 tr,
  pg_inv p -> serve_run tr s0 (abstract p) -> trace_ok tr p ->
  exists tr', serve_run (tr ++ tr') s0 (abstract p') /\ trace_ok (tr ++ tr') p'.
Proof.
  induction 1 as [p|k n a p p1 p2 Hs Hr IH]; intros s0 tr Hp Hrun Ht; [exists []; by rewrite app_nil_r|].
  pose proof (pg_inv_step k p p1 Hp Hs) as Hp1.
  destruct (abstract_step k p p1 Hp Hs) as [[Ha Hc]|[[Ha Hc]|(i & e & Hi & Ha & Hc)]].
  - apply IH; [done|by rewrite Ha|by eapply trace_ok_step].
  - destruct (IH s0 (tr ++ [Signal]) Hp1) as (tr' & Hx & Hy).
    + by eapply ServeMore.
    + intros j err. rewrite elem_of_app, list_elem_of_singleton, <- (trace_ok_step tr p p1 k Hs Hp Ht Hc j err). naive_solver.
    + exists (Signal :: tr'). by rewrite <- app_assoc in Hx, Hy.
  - destruct (IH s0 (tr ++ [Result i (error_of e)]) Hp1) as (tr' & Hx & Hy); [by eapply ServeMore|by eapply trace_ok_result|].
    exists (Result i (error_of e) :: tr'). by rewrite <- app_assoc in Hx, Hy.
Qed.

Lemma abstract_returned p : pg_inv p -> serve_returns (abstract p) = pg_returned p.
Proof.
  intros Hp. unfold serve_returns. cbn [abstract sv_running]. destruct (pg_returned p) eqn:Hr.
  - apply bool_decide_eq_true. apply set_eq. intros i. rewrite elem_of_difference, elem_of_list_to_set, elem_of_seq.
    split; [|set_solver]. intros [[_ Hlt] Hn]. destruct (lookup_lt_is_Some_2 (pg_runners p) i Hlt) as [r Hi].
    exfalso. by apply Hn, (returned_all p i r).
  - apply bool_decide_eq_false. intros He. unfold pg_returned in Hr. apply Nat.eqb_neq in Hr. apply Hr.
    replace (pg_received p) with (list_to_set (seq 0 (length (pg_runners p))) : gset nat).
    { rewrite size_list_to_set by apply NoDup_seq. by rewrite length_seq. }
    apply set_eq. intros i. split; [intros Hi; destruct (decide (i ∈ pg_received p)); set_solver|].
    intros Hi. assert (Hx : sent p !! i = Some true) by (apply (pi_sent p Hp); by left).
    apply lookup_lt_Some in Hx. unfold sent in Hx. rewrite length_fmap in Hx. apply elem_of_list_to_set, elem_of_seq. lia.
Qed.

(** C24: The running program implements the contract of [serve].  Every run of its
    goroutines, over any services that keep their promise, is a trace of the
    contract: the results in the trace are exactly those the main goroutine has
    received, each with the error the service returned; the program has returned
    exactly when the contract has; and when the contract says that the services
    have been told to stop, the context of every service is cancelled. *)
Theorem program_refines_serve rs n a p :
  Forall (fun r => exists M HM, r = rn_start M HM) rs -> pg_run n a (pg_init rs) p ->
  exists tr, serve_run tr (serve_init (length rs)) (abstract p) /\
    (forall i err, Result i err ∈ tr <-> i ∈ pg_received p /\ exists e, returned_at p i e /\ err = error_of e) /\
    serve_returns (abstract p) = pg_returned p /\
    (sv_cancelled (abstract p) = true -> forall i r, pg_runners p !! i = Some r -> mc_cancelled (rn_machine r) (rn_state r) = true).
Proof.
  intros Hrs Hrun. pose proof (pg_inv_init rs Hrs) as H0. pose proof (pg_run_inv n a _ p Hrun H0) as Hp.
  assert (Hi : abstract (pg_init rs) = serve_init (length rs)).
  { unfold abstract, serve_init. cbn [pg_init pg_runners pg_received pg_errors pg_cancelled]. by rewrite difference_empty_L. }
  destruct (abstract_run n a _ p Hrun (serve_init (length rs)) [] H0) as (tr & Htr & Hok).
  - rewrite Hi. constructor.
  - intros i err. split; [by intros ?%elem_of_nil|]. intros [[]%elem_of_empty _].
  - exists tr. split; [exact Htr|]. split; [exact Hok|]. split; [by apply abstract_returned|].
    intros Hc i r Hr. by apply (ro_cancelled _ _ _ (pi_runners p Hp i r Hr)).
Qed.

Lemma rn_started M HM : exists M' HM', rn_start M HM = rn_start M' HM'.
Proof. by exists M, HM. Qed.

(** *** The program that main.go runs *)

Section box.
Context `{Dhcpv4Wire}.




End box.

#[local] Existing Instances DhcpProps.demo_lib DhcpServe.demo_wire.


(** Two services: a signal comes before either has started, the first returns and
    its result is taken. *)
Lemma program_refines_serve_witness :
  exists p tr, pg_run 4 1 (pg_init [rn_start dns_machine _; rn_start gw_machine _]) p /\
    serve_run tr (serve_init 2) (abstract p) /\ Result 0 None ∈ tr /\ serve_returns (abstract p) = false /\
    forall i r, pg_runners p !! i = Some r -> mc_cancelled (rn_machine r) (rn_state r) = true.
Proof.
  set (rs := [rn_start dns_machine _; rn_start gw_machine _]). set (r0 := rn_cancel (rn_start dns_machine _)).
  pose (s1 := mkDns (DnsReturned (Ok tt)) true (fun _ => false) (fun _ => SvIdle) (fun _ => 0%nat) : mc_state (rn_machine r0)).
  assert (Hr : exists p, pg_run 4 1 (pg_init rs) p /\ pg_received p = {[0%nat]} /\ returned_at p 0 (Ok tt) /\
    pg_returned p = false /\ pg_cancelled p = true).
  { eexists. split; [|split; [|split]].
    - apply (PgMore KArrival 3 0 _ _ _ (PgSignal (pg_init rs) eq_refl)).
      apply (PgMore KOwn 2 0 _ _ _ (PgService (pg_cancel (pg_init rs)) 0 r0 DnsGo s1 eq_refl eq_refl)).
      eapply (PgMore KOwn 1 0); [eapply (PgSend _ 0 (rn_move r0 s1) (Ok tt)); reflexivity|].
      eapply (PgMore KOwn 0 0); [eapply (PgReceive _ 0 (Ok tt) []); reflexivity|]. apply PgDone.
    - reflexivity.
    - eexists. split; reflexivity.
    - split; reflexivity. }
  destruct Hr as (p & Hr & Hx & He & Hn & Hc).
  destruct (program_refines_serve rs 4 1 p) as (tr & Htr & Hok & Hret & Hall).
  { repeat (apply Forall_cons_2; [apply rn_started|]). apply Forall_nil_2. }
  { exact Hr. }
  exists p, tr. split; [exact Hr|]. split; [exact Htr|]. split; [|split; [by rewrite Hret|exact (Hall Hc)]].
  apply Hok. split; [rewrite Hx; by apply elem_of_singleton|]. by exists (Ok tt).
Defined.
